(* ===== verification/_CoqProject ===== *)
-Q . S2P
Prelude.v
RustStr.v
Utf8.v
Redact.v
Errors.v
RowId.v
Options.v
Catalog.v
Externals.v
Kernel.v
Convert.v
BlobService.v
Store.v
FakeStore.v
FakeFacts.v
FakeWire.v
Reader.v
Handoff.v
Coordinator.v
ParquetIO.v
Modify.v
PlanFacts.v
CommitFacts.v
CommitDemo.v
TornCommit.v
ModifyStatement.v
ModifyClaims.v
ModifyDemo.v
Pushdown.v
PushdownFacts.v
RowFilter.v
PushdownWalk.v
Partition.v
Glob.v
MultiFile.v
MergeFacts.v
Scan.v
ScanFacts.v
ScanClaims.v
EndToEnd.v
EndToEndDemo.v
ScanPlan.v
ScanSetup.v
SelectFilter.v
SelectWhere.v
SelectDemo.v
FilteredScan.v
Parallel.v
ParallelFacts.v
ParallelScan.v
Planner.v
Insert.v
InsertFacts.v
InsertClaims.v
InsertSelect.v
ModifySelect.v
ModifySelectDemo.v
Session.v
SessionDemo.v
InsertPaths.v
ImportSchema.v
ImportFacts.v
TestsText.v
TestsConvert.v
TestsModify.v
TestsScan.v
Sql.v
TestsSql.v
