(* ===== verification/Prelude.v ===== *)
(** * parquet_azure_fdw: a PostgreSQL foreign data wrapper over Parquet blobs

    The extension lets PostgreSQL read and write tables stored as Parquet
    blobs in an Azure container.  A SELECT lists the blobs a pattern matches,
    prunes them and streams their rows; an INSERT accumulates rows per
    partition and uploads one blob per group; UPDATE and DELETE number the
    scanned rows with synthetic ctids, collect the edits and rewrite every
    touched blob under an If-Match on the version that was scanned.  This
    library models that program, file by file, as executable definitions, and
    proves what makes it correct.  Paths below are relative to src/src/.

    ** How the code is represented

    - A Rust [String] or [str] is the list of its bytes ([str]); [RustStr]
      defines the library functions the code calls on it, with UTF-8 taken
      into account where the code does.
    - [Result] with [?] is the error monad of this file ([Result], [FdwResult]
      with the error type of [Errors]); a loop that may fail is [foldM] or
      [mapM_res].  A Rust panic is the error [RustPanic] (in [Partition] and
      [Parallel], where no other error exists, the option [None]).
    - Effects are explicit.  [SM S A] is a state monad with errors.  The state
      is the service ([Svc]), the service with the handoff map, the service
      with the coordinator slot, the uuid counter and the notices ([World]),
      or the shared cursor of a parallel scan.  An error keeps the state
      reached, as the effects of the code before a failure remain.
    - Machine integers are [Z] with the wrap-around of a cast or a wrapping
      operation written out ([as_u32], [as_u64], ...); [usize] has 64 bits.
      Floats are their IEEE bit patterns.
    - [HashMap] is [gmap] and its iteration order a parameter; [BTreeMap] is
      [gmap] visited in key order; [Vec] is [list].
    - Code outside the repository (Azure SDK, arrow, parquet, roaring, regex,
      chrono, url, Postgres) is a class of operations with a class of its
      documented laws: [BlobApi], [ArrowApi], [RoaringApi], [ParquetApi],
      [PgApi], [ComputeApi], [RegexApi], [ParquetScanApi], [RangeApi],
      [ReadApi], [BinaryHeapApi], [PlannerApi].  Every law class has a concrete instance ([ref_...]) on
      which the examples run.

    ** The files

    Shared:
    - [Prelude]: results, loops, ranges of integers, tactics.
    - [RustStr]: byte strings, splitting, case folding, decimal numbers,
      comparison, trimming, UTF-8 validity; [Utf8]: the decoder with its
      error and the lossy conversion.
    - [Redact] (redact.rs), [Errors] (error.rs): secret redaction, the error
      values, their texts and SQLSTATEs.
    - [Externals]: Arrow values, schemas, arrays and bitmaps.

    Options and service:
    - [Options] (fdw/options.rs, azure/auth.rs): parsing and validating the
      server, user mapping and table options; [Catalog] (fdw/scan.rs, and the
      same functions of fdw/modify/insert.rs): reading them off the rows of
      the Postgres catalog.
    - [BlobService], [Store] (azure/mod.rs, azure/writer.rs, azure/auth.rs):
      the service interface with conditional requests, and the client calls
      and blob names on top of it.
    - [Reader] (azure/reader.rs, parquet_io/reader.rs): reading a blob by
      byte ranges.
    - [FakeStore] (test_harness/fake_blob_store.rs): the in-memory service of
      the tests; [FakeWire] what travels to and from it.
    - [ParquetIO] (parquet_io/writer.rs): codec choice, batch writer.
    - [Convert] (convert/*.rs and the append helpers of fdw/modify/insert.rs):
      types and values in both directions, partition texts.

    Reading:
    - [Planner] (fdw/scan.rs, planner callbacks), [ScanPlan] (fdw/scan.rs,
      setup), [Scan] (fdw/scan.rs, execution: [next_row] is [turn] repeated,
      [iterate_foreign_scan] is [emit_row] on its result).
    - [Partition], [Glob] (fdw/partition.rs, fdw/glob.rs), [PushdownWalk],
      [Pushdown] (fdw/pushdown_walk.rs with fdw/pg_op_oids.rs,
      fdw/pushdown.rs): which blobs, row groups and rows are read.
    - [MultiFile] (parquet_io/multifile.rs): the sorted merge.
    - [Parallel] (fdw/parallel.rs): the shared segment as bytes, the callbacks
      and the decision when a scan may be parallel.

    Writing:
    - [Insert] (fdw/modify/insert.rs, fdw/modify/mod.rs): routing, batches,
      upload and the modify callbacks.
    - [RowId], [Handoff], [Coordinator], [Kernel], [Modify]
      (fdw/modify/rowid.rs, scan_handoff.rs, coordinator.rs, kernel.rs,
      update.rs): ctids, the blob list handed from the scan to the modify
      path, staging bookkeeping with the transaction callback, the rewrite of
      a batch, plan construction and the two-phase commit.
    - [Session] (fdw/modify/mod.rs, coordinator.rs): a backend, with its
      container, coordinator slot and open modify states, under the calls the
      executor and the transaction manager make.
    - [ImportSchema] (fdw/import_schema.rs, the SQL functions of lib.rs).

    Proofs, next to the definitions when short, otherwise in [FakeFacts],
    [PlanFacts], [CommitFacts], [CommitDemo], [TornCommit], [ModifyStatement], [ModifyClaims],
    [ModifyDemo], [PushdownFacts], [RowFilter], [MergeFacts], [ScanFacts],
    [ScanClaims], [EndToEnd], [EndToEndDemo], [ScanSetup], [SelectFilter],
    [SelectWhere], [SelectDemo], [FilteredScan], [ParallelFacts], [ParallelScan],
    [InsertFacts], [InsertClaims], [InsertSelect], [ModifySelect],
    [ModifySelectDemo], [Session], [SessionDemo], [InsertPaths], [ImportFacts].

    Executions: [Sql] is what stands between the SQL of lib.rs's tests and
    the callbacks of the model: CREATE through the validator, and SELECT,
    INSERT, UPDATE and DELETE as the executor drives them.  [TestsText],
    [TestsConvert], [TestsModify], [TestsScan] and [TestsSql] are the test
    modules of the source, one boolean per test function under its name, and
    their [..._pass] lemmas evaluate them: the definitions the theorems are
    about answer the repository's own tests as the program does.

    ** What the theorems show

    - UPDATE and DELETE as statements ([EndToEnd], on [ModifyStatement] and
      [ModifyClaims]): scan, WHERE clause, callbacks, edit map, rewrite and
      commit put together, when the scan reads every listed blob in full
      (nothing of the clause pushed); after the commit exactly the accepted
      rows are gone, or have the new values in exactly the SET columns, and
      nothing else has changed.
    - SELECT as a statement ([SelectWhere], on [SelectFilter]): setup, quals,
      row-group pruning, row filter, projection and the executor's loop put
      together on a table without partition columns: after Postgres applies
      the clause again, the rows are those of the files on which it is true,
      in order and with their values.  The clause must be one the pushdown
      treats soundly; the conditions are listed with the theorem, and lemmas
      show rows lost without them.
    - INSERT, then SELECT ([InsertSelect]): on a table of one blob the tuples
      read back are those inserted, for the column types INSERT can write.
    - DELETE or UPDATE, then SELECT ([ModifySelect]): when nothing is pushed,
      the scan of the statement as its set-up built it and a scan set up again
      from the same options on the container the commit left; the second lists
      what is left and emits the tuples of the first without those the clause
      accepts, or with their SET columns replaced.
    - Backend ([Session]): in every sequence of statements with one modify
      target, errors and transaction ends, without savepoints, staging blobs are gone whenever the
      transaction is not in error, an abort removes exactly those in flight,
      and other blobs change only when a statement ends.
    - Rewrite ([Kernel], [CommitFacts]): a batch at an offset keeps exactly
      the rows not deleted with their overrides; streaming equals rewriting
      the whole blob; the new body decodes to the surviving rows in the source
      codec.
    - Commit ([CommitFacts], [Coordinator]): a commit whose versions still
      hold replaces or deletes exactly the touched blobs; if a blob changed
      since the scan, or staging fails, the container after the abort callback
      is as before; against any service and interference data blobs are only
      touched with If-Match after everything was staged; when others write
      between the two phases the commit is atomic blob by blob, and
      [TornCommit] says what every name of the container then holds.
    - Edits ([PlanFacts], [Handoff]): callbacks record exactly the addressed
      rows and keep the plan well formed, each recorded row in a chunk of a
      listed blob under the base id of that blob; the handed-over list is
      never guessed among several.
    - Scan ([ScanSetup], [ScanClaims], [ScanFacts]): setup lists exactly the
      stored blobs the pattern matches, minus those refuted by their path, and
      hands the same list to the modify path; the scan terminates and emits
      every row once; its ctids resolve, in the plan, to the row they came
      from; a rescan repeats the scan; with a row filter a row gets the number
      of the accepted rows before it, which is wrong as soon as one was
      refused ([FilteredScan]).
    - Insert ([InsertClaims], [InsertPaths]): a statement leaves one blob per
      partition tuple that decodes to its rows; the path reads back as the
      partition values; a pattern of directory, stars and suffix matches it.
    - Pruning and pushdown ([PushdownWalk], [PushdownFacts], [RowFilter],
      [Partition], [Glob]): what is pushed is implied by the WHERE clause,
      pruning never loses a matching row, the filter and the partition
      evaluation agree with SQL on the stated fragments, and a pattern's
      regular expression means what the pattern does.
    - Merge ([MergeFacts]), parallel scan ([ParallelScan], [ParallelFacts]):
      the merge is a sorted interleaving or fails naming an unsorted source;
      workers in any interleaving finish and emit every row once; the shared
      segment reads back and is never overrun when its header is not larger
      than it; the leader repeats the rows.
    - Import ([ImportFacts]): groups, generated text, declared types and the
      blobs covered.
    - Reader ([Reader]), test service ([FakeFacts], [FakeWire]): on a blob that
      does not change ranged reads are reads of the file; the service the tests
      run against keeps the contract [BlobLaws], but for two conditional
      headers it does not look at.
    - Options ([Catalog], [Options]): a statement never fails to read options
      the validator let in, and what it reads is well formed; what is left to
      refuse is one combination of server and user mapping.
    - Planner, redaction, conversions, in the files of these names.

    [pushed_update_changes_another_row] ([TestsSql]) runs the UPDATE of one of
    the repository's tests with a literal of the column's own type, which is
    pushed, and finds the wrong row changed.  Lemmas named in the manifest's findings ([row_filter_or_drops_null],
    [row_filter_swaps_columns], [row_filter_negative_zero],
    [pruning_loses_nan], [walk_not_and_loses_rows],
    [collate_clause_loses_rows], [in_list_loses_rows],
    [partition_orders_numerals],
    [whole_row_loses_columns], [insert_prefix_pattern_unreadable],
    [insert_tmp_value_hidden], [two_targets_leak], [savepoint_leak], ...) show
    where the code does not do what it means to.

    ** Bounds and fuel

    Constants are those of the code: 65536 rows per chunk of a blob's ctids
    ([CHUNK_ROWS]), 8192 rows per batch of an INSERT ([BATCH_ROWS]), at most
    256 sources of a merge ([merge_cap]), the size caps of a blob and of a
    listing.  Four loops take fuel: [next_row_loop] and [scan_all] (a scan),
    [drain] (a merge) and [collect_attnums] (a bitmap set).  None is assumed
    to have enough: [scan_emits_every_row] and [parallel_scan_complete] give a
    bound from which on every fuel yields the same finished scan,
    [merge_complete] the bound of one call per row plus one, and
    [projection_covers_query] the size of the set plus one.  All other
    recursion is structural.

    ** Not modelled

    - The parquet crate's loaders and stream builder are the classes [ReadApi]
      (programs that ask for ranges) and [ParquetScanApi] (the scan sees the
      stream of batches of a blob name); the two are not connected.
    - runtime.rs and the registration code of lib.rs and fdw/mod.rs: a tokio
      runtime and tables of function pointers.
    - Of the tests: those whose subject is Postgres itself (EXPLAIN output,
      RETURNING, BEGIN and ROLLBACK inside an SPI call, the operator table
      against pg_operator), the one that needs a live account, and the
      integration tests of the tests directory.  The runtime and HTTP server
      the in-memory service boots on.
    - Memory management (palloc, pinning, Box round trips) and EXPLAIN output.
    - Time: requests take effect one after the other; interference by other
      clients is a parameter of [commit_plan_requests] and, between the two
      phases of a commit, of [commit_interrupted].
    - Transient failures: under [BlobLaws] the service carries out every
      request whose condition holds, so the theorems that use it do not speak
      of uploads, deletes or sweeps that fail on the way (the sweep at abort is
      best effort in the code and skips a blob it cannot delete).
      [commit_plan_requests] does not use it and holds for any service. *)

From Stdlib Require Export ZArith Lia Ascii.
From stdpp Require Export base tactics gmap strings sorting numbers list.

Local Open Scope Z_scope.

(** ** Byte strings.  A Rust [String] is the list of its UTF-8 bytes. *)

Abbreviation str := (list ascii).

Definition lit (s : string) : str := String.list_ascii_of_string s.
Coercion lit : string >-> list.

Declare Scope str_scope.
Delimit Scope str_scope with S.

(** [byte c] is the numeric value of a byte. *)
Definition byte (c : ascii) : Z := Z.of_N (N_of_ascii c).

Definition byte_of (z : Z) : ascii := ascii_of_N (Z.to_N z).

(** ** Results: Rust's [Result<T, E>] with its [?] operator as a monad. *)

Inductive Result (E A : Type) : Type :=
| Ok (a : A)
| Err (e : E).

Arguments Ok {E A} a.
Arguments Err {E A} e.

#[export] Instance result_ret {E} : MRet (Result E) := fun _ a => Ok a.
#[export] Instance result_bind {E} : MBind (Result E) :=
  fun _ _ f r => match r with Ok a => f a | Err e => Err e end.
#[export] Instance result_fmap {E} : FMap (Result E) :=
  fun _ _ f r => match r with Ok a => Ok (f a) | Err e => Err e end.

Definition ok_or {E A} (o : option A) (e : E) : Result E A :=
  match o with Some a => Ok a | None => Err e end.

Definition map_err {E F A} (f : E -> F) (r : Result E A) : Result F A :=
  match r with Ok a => Ok a | Err e => Err (f e) end.

Definition is_ok {E A} (r : Result E A) : bool :=
  match r with Ok _ => true | Err _ => false end.

(** [for] loops that may fail, in order, stopping at the first error. *)
Fixpoint mapM_res {E A B} (f : A -> Result E B) (l : list A) : Result E (list B) :=
  match l with
  | [] => Ok []
  | x :: l' => y ← f x; ys ← mapM_res f l'; Ok (y :: ys)
  end.

Fixpoint foldM {E A S} (f : S -> A -> Result E S) (s : S) (l : list A) : Result E S :=
  match l with
  | [] => Ok s
  | x :: l' => s' ← f s x; foldM f s' l'
  end.

(** Inversion of a monadic computation that succeeded. *)
Lemma bind_Ok_inv {E A B} (r : Result E A) (f : A -> Result E B) b :
  r ≫= f = Ok b -> exists a, r = Ok a /\ f a = Ok b.
Proof. destruct r; [eauto | discriminate]. Qed.

Lemma ok_or_Ok_inv {E A} (o : option A) (e : E) a : ok_or o e = Ok a -> o = Some a.
Proof. destruct o; simpl; congruence. Qed.

Lemma map_err_Ok_inv {E F A} (f : E -> F) (r : Result E A) a :
  map_err f r = Ok a -> r = Ok a.
Proof. destruct r; simpl; congruence. Qed.

(** [inv_ok] opens every [_ ≫= _ = Ok _] hypothesis. *)
Ltac inv_ok :=
  repeat match goal with
  | H : _ ≫= _ = Ok _ |- _ =>
      let a := fresh "v" in let Ha := fresh "Hv" in
      apply bind_Ok_inv in H as (a & Ha & H)
  | H : ok_or _ _ = Ok _ |- _ => apply ok_or_Ok_inv in H
  | H : map_err _ _ = Ok _ |- _ => apply map_err_Ok_inv in H
  | H : Ok _ = Ok _ |- _ => injection H as H; try subst
  | H : Err _ = Ok _ |- _ => discriminate H
  | H : Ok _ = Err _ |- _ => discriminate H
  end.

Lemma mapM_res_Ok {E A B} (f : A -> Result E B) l ys :
  mapM_res f l = Ok ys <-> Forall2 (fun x y => f x = Ok y) l ys.
Proof.
  revert ys. induction l as [|x l IH]; intros ys; simpl; split; intros H; inv_ok.
  - constructor.
  - by inversion H.
  - constructor; [done|]. by apply IH.
  - inversion H as [|? y ? ys' Hy Hys]; subst. rewrite Hy. simpl.
    apply IH in Hys. by rewrite Hys.
Qed.

Lemma foldM_ext {E T S} (f g : S -> T -> Result E S) l : (forall s x, f s x = g s x) -> forall s, foldM f s l = foldM g s l.
Proof. intros Hfg. induction l as [|x l IH]; intros s; cbn; [done|]. rewrite Hfg. destruct (g s x); [apply IH|done]. Qed.

Lemma foldM_app {E A S} (f : S -> A -> Result E S) s l1 l2 :
  foldM f s (l1 ++ l2) = s' ← foldM f s l1; foldM f s' l2.
Proof.
  revert s. induction l1 as [|x l1 IH]; intros s; simpl; [done|].
  destruct (f s x); simpl; [apply IH | done].
Qed.

(** A loop over one constructor of a larger state is the loop over its
    contents. *)
Lemma foldM_embed {E A S T} (inj : S -> T) (f : S -> A -> Result E S) (g : T -> A -> Result E T) l :
  (forall s x, g (inj s) x = inj <$> f s x) -> forall s, foldM g (inj s) l = inj <$> foldM f s l.
Proof.
  intros Hg. induction l as [|x l IH]; intros s; cbn [foldM]; [done|]. rewrite Hg. destruct (f s x); cbn; [apply IH|done].
Qed.

(** A loop invariant of [foldM]. *)
Lemma foldM_inv {E A S} (P : S -> Prop) (f : S -> A -> Result E S) s l s' :
  P s -> (forall s x s', P s -> f s x = Ok s' -> P s') -> foldM f s l = Ok s' -> P s'.
Proof.
  intros Hs Hf. revert s Hs. induction l as [|x l IH]; intros s Hs H; simpl in H.
  - by inv_ok.
  - apply bind_Ok_inv in H as (s1 & H1 & H). eauto.
Qed.

(** ** Machine integers: values in [Z], wrap-around written out. *)

Definition u16_max : Z := 65535.
Definition u32_max : Z := 4294967295.
Definition u64_max : Z := 18446744073709551615.

Definition as_u16 (z : Z) : Z := z mod 65536.
Definition as_u32 (z : Z) : Z := z mod 4294967296.
Definition as_u64 (z : Z) : Z := z mod 18446744073709551616.

(** Two's complement reinterpretation of the low [2^w] bits. *)
Definition as_signed (m z : Z) : Z :=
  let r := z mod m in if r <? m / 2 then r else r - m.
Definition as_i16 (z : Z) : Z := as_signed 65536 z.
Definition as_i32 (z : Z) : Z := as_signed 4294967296 z.
Definition as_i64 (z : Z) : Z := as_signed 18446744073709551616 z.

Definition saturating_add_u32 (a b : Z) : Z := Z.min (a + b) u32_max.
Definition saturating_add_u64 (a b : Z) : Z := Z.min (a + b) u64_max.

#[global] Arguments as_u16 : simpl never.
#[global] Arguments as_u32 : simpl never.
#[global] Arguments as_u64 : simpl never.
#[global] Arguments as_signed : simpl never.

Definition is_u16 (z : Z) : Prop := 0 <= z <= u16_max.
Definition is_u32 (z : Z) : Prop := 0 <= z <= u32_max.
Definition is_u64 (z : Z) : Prop := 0 <= z <= u64_max.
Definition in_i16 (z : Z) : Prop := -32768 <= z <= 32767.
Definition in_i32 (z : Z) : Prop := -2147483648 <= z <= 2147483647.
Definition in_i64 (z : Z) : Prop := -9223372036854775808 <= z <= 9223372036854775807.

Create HintDb fdw_int.
#[export] Hint Unfold u16_max u32_max u64_max as_u16 as_u32 as_u64
  saturating_add_u32 saturating_add_u64 is_u16 is_u32 is_u64 in_i16 in_i32 in_i64 : fdw_int.

(** Unfold the widths and close the arithmetic. *)
Ltac int_lia := autounfold with fdw_int in *; Z.div_mod_to_equations; lia.

Lemma as_u16_id z : is_u16 z -> as_u16 z = z.
Proof. intros; int_lia. Qed.

Lemma as_u32_id z : is_u32 z -> as_u32 z = z.
Proof. intros; int_lia. Qed.

Lemma as_u32_range z : is_u32 (as_u32 z).
Proof. int_lia. Qed.

Lemma as_i32_id z : in_i32 z -> as_i32 z = z.
Proof.
  unfold as_i32, as_signed. intros Hz.
  destruct (Z.ltb_spec (z mod 4294967296) (4294967296 / 2)); int_lia.
Qed.

Lemma saturating_add_u32_id a b : 0 <= a -> 0 <= b -> a + b <= u32_max ->
  saturating_add_u32 a b = a + b.
Proof. int_lia. Qed.

#[export] Hint Resolve as_u16_id as_u32_id as_u32_range as_i32_id : fdw_int.
Create Rewrite HintDb fdw_int.
#[export] Hint Rewrite as_u16_id as_u32_id saturating_add_u32_id using (solve [auto with fdw_int | int_lia]) : fdw_int.
