(* ===== verification/RustStr.v ===== *)
(** * The parts of Rust's [str] and integer-formatting library the code uses.

    Strings are byte lists ([str]); every function below is the bytewise
    reading of the method of the same name, restricted to the argument shapes
    the repository uses (ASCII separators and patterns). *)

From S2P Require Import Prelude.
Local Open Scope Z_scope.

(** ** Searching and splitting *)

Definition ascii_eqb (a b : ascii) : bool := bool_decide (a = b).

Definition str_eqb (a b : str) : bool := bool_decide (a = b).

(** [s.contains(c)] for a [char] pattern. *)
Definition contains_char (c : ascii) (s : str) : bool := existsb (ascii_eqb c) s.

(** [s.strip_prefix(p)], [s.starts_with(p)]. *)
Fixpoint strip_prefix (p s : str) : option str :=
  match p, s with
  | [], _ => Some s
  | a :: p', b :: s' => if ascii_eqb a b then strip_prefix p' s' else None
  | _ :: _, [] => None
  end.

Definition starts_with (p s : str) : bool :=
  match strip_prefix p s with Some _ => true | None => false end.

(** [s.strip_suffix(p)], [s.ends_with(p)]. *)
Definition strip_suffix (p s : str) : option str :=
  option_map (@rev ascii) (strip_prefix (rev p) (rev s)).

Definition ends_with (p s : str) : bool :=
  match strip_suffix p s with Some _ => true | None => false end.

(** [s.contains(p)] for a string pattern. *)
Fixpoint contains (p s : str) : bool :=
  starts_with p s ||
  match s with [] => false | _ :: s' => contains p s' end.

(** [s.find(pred)]: byte index of the first match. *)
Fixpoint find_char (P : ascii -> bool) (s : str) : option nat :=
  match s with
  | [] => None
  | c :: s' => if P c then Some 0%nat else S <$> find_char P s'
  end.

(** [s.rfind(c)]. *)
Fixpoint rfind_char (c : ascii) (s : str) : option nat :=
  match s with
  | [] => None
  | a :: s' =>
      match rfind_char c s' with
      | Some i => Some (S i)
      | None => if ascii_eqb c a then Some 0%nat else None
      end
  end.

(** [s.split_once(c)]. *)
Fixpoint split_once (c : ascii) (s : str) : option (str * str) :=
  match s with
  | [] => None
  | a :: s' =>
      if ascii_eqb c a then Some ([], s')
      else match split_once c s' with
           | Some (k, v) => Some (a :: k, v)
           | None => None
           end
  end.

(** [s.split(c)]: never empty, one more piece than separators. *)
Fixpoint split_on (c : ascii) (s : str) : list str :=
  match s with
  | [] => [[]]
  | a :: s' =>
      if ascii_eqb c a then [] :: split_on c s'
      else match split_on c s' with
           | p :: ps => (a :: p) :: ps
           | [] => [[a]]
           end
  end.

Fixpoint join_with (c : ascii) (ps : list str) : str :=
  match ps with
  | [] => []
  | [p] => p
  | p :: ps' => p ++ c :: join_with c ps'
  end.

(** [s.trim_end_matches(c)]. *)
Fixpoint trim_end_matches (c : ascii) (s : str) : str :=
  match s with
  | [] => []
  | a :: s' =>
      match trim_end_matches c s' with
      | [] => if ascii_eqb c a then [] else [a]
      | t => a :: t
      end
  end.

(** ** ASCII case folding *)

Definition is_ascii_uppercase (c : ascii) : bool := (65 <=? byte c) && (byte c <=? 90).
Definition is_ascii_lowercase (c : ascii) : bool := (97 <=? byte c) && (byte c <=? 122).
Definition is_ascii_digit (c : ascii) : bool := (48 <=? byte c) && (byte c <=? 57).

Definition to_lower (c : ascii) : ascii :=
  if is_ascii_uppercase c then byte_of (byte c + 32) else c.

Definition to_ascii_lowercase (s : str) : str := map to_lower s.

Definition eq_ignore_ascii_case (a b : str) : bool :=
  str_eqb (to_ascii_lowercase a) (to_ascii_lowercase b).

(** [u8::is_ascii_whitespace]: space, tab, LF, FF, CR. *)
Definition is_ascii_whitespace (c : ascii) : bool :=
  existsb (Z.eqb (byte c)) [32; 9; 10; 12; 13].

(** [u8::is_ascii_alphanumeric] and [char::is_alphanumeric] on ASCII. *)
Definition is_ascii_alphanumeric (c : ascii) : bool :=
  is_ascii_uppercase c || is_ascii_lowercase c || is_ascii_digit c.

(** The UTF-8 encodings of the characters with the White_Space property. *)
Definition whitespace_chars : list str :=
  map (map byte_of)
    ([[9]; [10]; [11]; [12]; [13]; [32]; [194; 133]; [194; 160]; [225; 154; 128]]
     ++ map (fun z => [226; 128; 128 + z]) (seqZ 0 11)
     ++ [[226; 128; 168]; [226; 128; 169]; [226; 128; 175]; [226; 129; 159]; [227; 128; 128]]).

(** [s.trim_start()], [s.trim_end()], [s.trim()]. *)
Fixpoint first_strip (strip : str -> str -> option str) (ws : list str) (s : str) : option str :=
  match ws with
  | [] => None
  | w :: ws' => match strip w s with Some r => Some r | None => first_strip strip ws' s end
  end.

Fixpoint trim_loop (strip : str -> str -> option str) (fuel : nat) (s : str) : str :=
  match fuel with
  | O => s
  | S fuel => match first_strip strip whitespace_chars s with
              | Some r => trim_loop strip fuel r | None => s end
  end.

Definition trim_start (s : str) : str := trim_loop strip_prefix (length s) s.
Definition trim_end (s : str) : str := trim_loop strip_suffix (length s) s.
Definition trim (s : str) : str := trim_end (trim_start s).

(** ** Facts *)

Lemma ascii_eqb_eq a b : ascii_eqb a b = true <-> a = b.
Proof. apply bool_decide_eq_true. Qed.

Lemma ascii_eqb_neq a b : ascii_eqb a b = false <-> a <> b.
Proof. apply bool_decide_eq_false. Qed.

Lemma ascii_eqb_refl a : ascii_eqb a a = true.
Proof. by apply ascii_eqb_eq. Qed.

Lemma str_eqb_eq a b : str_eqb a b = true <-> a = b.
Proof. apply bool_decide_eq_true. Qed.

Create Rewrite HintDb rstr.
#[export] Hint Rewrite ascii_eqb_eq ascii_eqb_neq ascii_eqb_refl str_eqb_eq : rstr.

Lemma byte_range c : 0 <= byte c <= 255.
Proof.
  unfold byte. pose proof (N_ascii_bounded c). lia.
Qed.

Lemma byte_inj a b : byte a = byte b -> a = b.
Proof.
  unfold byte. intros H%(inj Z.of_N).
  by rewrite <- (ascii_N_embedding a), <- (ascii_N_embedding b), H.
Qed.

Lemma byte_byte_of z : 0 <= z <= 255 -> byte (byte_of z) = z.
Proof. intros. unfold byte, byte_of. rewrite N_ascii_embedding; lia. Qed.

Lemma byte_of_byte c : byte_of (byte c) = c.
Proof. unfold byte, byte_of. rewrite N2Z.id. apply ascii_N_embedding. Qed.

(** A fact checked for the 256 bytes holds for every byte. *)
Definition all_ascii : list ascii := map byte_of (seqZ 0 256).

Lemma ascii_forall (P : ascii -> bool) : forallb P all_ascii = true -> forall c, P c = true.
Proof.
  intros H c. rewrite forallb_forall in H. apply H.
  rewrite <- (byte_of_byte c). apply in_map. apply list_elem_of_In, elem_of_seqZ.
  pose proof (byte_range c). lia.
Qed.

Lemma contains_char_elem c s : contains_char c s = true <-> c ∈ s.
Proof.
  unfold contains_char. rewrite existsb_exists. split.
  - intros (x & Hx & He). apply ascii_eqb_eq in He as ->. by apply list_elem_of_In.
  - intros H. exists c. rewrite ascii_eqb_refl. by rewrite <- list_elem_of_In.
Qed.

Lemma contains_char_not_elem c s : contains_char c s = false <-> c ∉ s.
Proof. rewrite <- contains_char_elem. by destruct (contains_char c s). Qed.

#[export] Hint Rewrite contains_char_elem contains_char_not_elem : rstr.

Lemma strip_prefix_Some p s r : strip_prefix p s = Some r <-> s = p ++ r.
Proof.
  revert s. induction p as [|a p IH]; intros s; simpl.
  - split; congruence.
  - destruct s as [|b s]; [done|].
    destruct (ascii_eqb a b) eqn:E; autorewrite with rstr in E.
    + subst. rewrite IH. split; [by intros -> | by intros [= ->]].
    + split; [done | intros [= ]; congruence].
Qed.

Lemma starts_with_true p s : starts_with p s = true <-> exists r, s = p ++ r.
Proof.
  unfold starts_with. destruct (strip_prefix p s) as [r|] eqn:E.
  - apply strip_prefix_Some in E. split; eauto.
  - split; [done|]. intros [r Hr]. apply strip_prefix_Some in Hr. congruence.
Qed.

Lemma strip_suffix_Some p s r : strip_suffix p s = Some r <-> s = r ++ p.
Proof.
  unfold strip_suffix. destruct (strip_prefix (rev p) (rev s)) as [q|] eqn:E; simpl.
  - apply strip_prefix_Some in E. apply (f_equal (@rev ascii)) in E.
    rewrite rev_app_distr, !rev_involutive in E. subst s. split.
    + by intros [= <-].
    + intros H. apply app_inv_tail in H. by subst.
  - split; [done|]. intros ->. rewrite rev_app_distr in E.
    assert (strip_prefix (rev p) (rev p ++ rev r) = Some (rev r)) by by apply strip_prefix_Some.
    congruence.
Qed.

Lemma ends_with_true p s : ends_with p s = true <-> exists r, s = r ++ p.
Proof.
  unfold ends_with. destruct (strip_suffix p s) as [r|] eqn:E.
  - apply strip_suffix_Some in E. split; eauto.
  - split; [done|]. intros [r Hr]. apply strip_suffix_Some in Hr. congruence.
Qed.

Lemma contains_true p s : contains p s = true <-> exists a b, s = a ++ p ++ b.
Proof.
  induction s as [|c s IH]; cbn [contains]; rewrite orb_true_iff, starts_with_true.
  - split.
    + intros [[r Hr]|]; [exists [], r; done | done].
    + intros (a & b & H). left. exists b. by destruct a.
  - rewrite IH. split.
    + intros [[r Hr]|(a & b & ->)]; [by exists [], r | by exists (c :: a), b].
    + intros ([|x a] & b & H); simplify_eq/=; [by left; exists b | right; eauto].
Qed.

Lemma contains_false p s : contains p s = false <-> forall a b, s <> a ++ p ++ b.
Proof.
  rewrite <- not_true_iff_false, contains_true. naive_solver.
Qed.

(** [split_once] cuts at the first occurrence of the separator. *)
Lemma split_once_Some c s k v :
  split_once c s = Some (k, v) <-> s = k ++ c :: v /\ c ∉ k.
Proof.
  revert k. induction s as [|a s IH]; intros k; simpl.
  - split; [done|]. intros [H _]. by destruct k.
  - destruct (ascii_eqb c a) eqn:E; autorewrite with rstr in E.
    + subst a. split.
      * intros [= <- <-]. split; [done | apply not_elem_of_nil].
      * intros [H Hk]. destruct k as [|x k]; simplify_eq/=; [done|]. set_solver.
    + destruct (split_once c s) as [[k' v']|] eqn:Es.
      * split.
        -- intros [= <- <-]. destruct (proj1 (IH k') eq_refl) as [-> Hk]. set_solver.
        -- intros [H Hk]. destruct k as [|x k]; simplify_eq/=.
           assert (Some (k', v') = Some (k, v)) as [= <- <-]; [|done].
           apply IH. set_solver.
      * split; [done|]. intros [H Hk]. destruct k as [|x k]; simplify_eq/=.
        assert (None = Some (k, v)); [|done]. apply IH. set_solver.
Qed.

Lemma split_once_None c s : split_once c s = None <-> c ∉ s.
Proof.
  destruct (split_once c s) as [[k v]|] eqn:E.
  - apply split_once_Some in E as [-> _]. set_solver.
  - split; [|done]. intros _ (k & v & -> & Hk)%list_elem_of_split_l.
    assert (split_once c (k ++ c :: v) = Some (k, v)) by by apply split_once_Some.
    congruence.
Qed.

Lemma split_on_cons c s : exists p ps, split_on c s = p :: ps.
Proof.
  destruct s as [|a s]; simpl; [eauto|].
  destruct (ascii_eqb c a); [eauto|]. destruct (split_on c s); eauto.
Qed.

Lemma join_split_on c s : join_with c (split_on c s) = s.
Proof.
  induction s as [|a s IH]; simpl; [done|].
  destruct (split_on_cons c s) as (p & ps & E). rewrite E in *.
  destruct (ascii_eqb c a) eqn:Ec; autorewrite with rstr in Ec.
  - subst a. cbn [join_with app]. f_equal. exact IH.
  - rewrite <- IH. by destruct ps.
Qed.

(** No piece of a split contains the separator. *)
Lemma split_on_no_sep c s : Forall (fun p => c ∉ p) (split_on c s).
Proof.
  induction s as [|a s IH]; simpl.
  - constructor; [apply not_elem_of_nil | constructor].
  - destruct (split_on_cons c s) as (p & ps & E). rewrite E in *.
    destruct (ascii_eqb c a) eqn:Ec; autorewrite with rstr in Ec.
    + constructor; [apply not_elem_of_nil | done].
    + inversion IH; subst. constructor; [|done]. by apply not_elem_of_cons.
Qed.

Lemma split_on_no_elem c s : c ∉ s -> split_on c s = [s].
Proof.
  induction s as [|a s IH]; intros H; simpl; [done|].
  apply not_elem_of_cons in H as [Ha Hs]. rewrite (proj2 (ascii_eqb_neq c a)) by done.
  by rewrite IH.
Qed.

(** Splitting a string at a separator occurrence splits each side. *)
Lemma split_on_app c a b : split_on c (a ++ c :: b) = split_on c a ++ split_on c b.
Proof.
  induction a as [|x a IH]; simpl.
  - by rewrite ascii_eqb_refl.
  - rewrite IH. destruct (split_on_cons c a) as (p & ps & E). rewrite E.
    destruct (ascii_eqb c x); done.
Qed.

(** [rfind] splits at the last occurrence. *)
Lemma rfind_char_Some c s i : rfind_char c s = Some i -> s = take i s ++ c :: drop (S i) s /\ c ∉ drop (S i) s.
Proof.
  revert i. induction s as [|a s IH]; intros i; [done|]. cbn [rfind_char]. destruct (rfind_char c s) as [j|] eqn:E.
  - intros [= <-]. destruct (IH j eq_refl) as [H1 H2]. cbn. split; [by f_equal|done].
  - destruct (ascii_eqb c a) eqn:Ec; [|done]. intros [= <-]. apply ascii_eqb_eq in Ec as <-. cbn. split; [by rewrite drop_0|]. rewrite drop_0.
    clear -E. induction s as [|b s IH]; [apply not_elem_of_nil|]. cbn in E. destruct (rfind_char c s); [done|].
    destruct (ascii_eqb c b) eqn:Eb; [done|]. apply ascii_eqb_neq in Eb. apply not_elem_of_cons. split; [done|by apply IH].
Qed.

Lemma rfind_char_None c s : rfind_char c s = None -> c ∉ s.
Proof.
  induction s as [|b s IH]; intros E; [apply not_elem_of_nil|]. cbn in E. destruct (rfind_char c s); [done|].
  destruct (ascii_eqb c b) eqn:Eb; [done|]. apply ascii_eqb_neq in Eb. apply not_elem_of_cons. split; [done|by apply IH].
Qed.

(** ** Byte-lexicographic order: [Ord for str] *)

Fixpoint str_compare (a b : str) : comparison :=
  match a, b with
  | [], [] => Eq
  | [], _ :: _ => Lt
  | _ :: _, [] => Gt
  | x :: a', y :: b' =>
      match byte x ?= byte y with Eq => str_compare a' b' | o => o end
  end.

Definition str_ltb (a b : str) : bool := match str_compare a b with Lt => true | _ => false end.
Definition str_leb (a b : str) : bool := match str_compare a b with Gt => false | _ => true end.

Lemma str_compare_eq a b : str_compare a b = Eq <-> a = b.
Proof.
  revert b. induction a as [|x a IH]; intros [|y b]; simpl; try done.
  destruct (Z.compare_spec (byte x) (byte y)) as [He|Hl|Hg].
  - apply byte_inj in He as ->. rewrite IH. split; congruence.
  - split; [done | intros [= -> _]; lia].
  - split; [done | intros [= -> _]; lia].
Qed.

Lemma str_compare_antisym a b : str_compare b a = CompOpp (str_compare a b).
Proof.
  revert b. induction a as [|x a IH]; intros [|y b]; simpl; try done.
  rewrite (Z.compare_antisym (byte x) (byte y)).
  destruct (byte x ?= byte y); simpl; auto.
Qed.

Lemma str_compare_lt_trans a b c :
  str_compare a b = Lt -> str_compare b c = Lt -> str_compare a c = Lt.
Proof.
  revert b c. induction a as [|x a IH]; intros [|y b] [|z c]; simpl; try done.
  destruct (Z.compare_spec (byte x) (byte y)), (Z.compare_spec (byte y) (byte z)),
    (Z.compare_spec (byte x) (byte z)); try done; try lia; eauto.
Qed.

Lemma str_leb_total a b : str_leb a b = true \/ str_leb b a = true.
Proof. unfold str_leb. rewrite (str_compare_antisym a b). destruct (str_compare a b); cbn; auto. Qed.

Lemma str_leb_antisym a b : str_leb a b = true -> str_leb b a = true -> a = b.
Proof.
  unfold str_leb. rewrite (str_compare_antisym a b). intros H1 H2. apply str_compare_eq. by destruct (str_compare a b).
Qed.

Lemma str_leb_trans a b c : str_leb a b = true -> str_leb b c = true -> str_leb a c = true.
Proof.
  unfold str_leb. destruct (str_compare a b) eqn:E1, (str_compare b c) eqn:E2; try done; intros _ _.
  - apply str_compare_eq in E1. by rewrite E1, E2.
  - apply str_compare_eq in E1. by rewrite E1, E2.
  - apply str_compare_eq in E2. by rewrite <- E2, E1.
  - by rewrite (str_compare_lt_trans _ _ _ E1 E2).
Qed.

(** ** Decimal formatting and parsing of integers *)

Definition digit (d : Z) : ascii := byte_of (48 + d).

Fixpoint dec_digits (fuel : nat) (z : Z) (acc : str) : str :=
  match fuel with
  | O => acc
  | S f =>
      let acc' := digit (z mod 10) :: acc in
      if z <? 10 then acc' else dec_digits f (z / 10) acc'
  end.

(** Decimal digits of a non-negative integer, no leading zero; the fuel is
    the number of bits, an upper bound on the number of digits. *)
Definition show_nonneg (z : Z) : str := dec_digits (S (Z.to_nat (Z.log2 z))) z [].

(** [i.to_string()]. *)
Definition show_Z (z : Z) : str :=
  if z <? 0 then "-"%char :: show_nonneg (- z) else show_nonneg z.

Definition parse_digit (c : ascii) : option Z :=
  if is_ascii_digit c then Some (byte c - 48) else None.

Fixpoint parse_digits (acc : Z) (s : str) : option Z :=
  match s with
  | [] => Some acc
  | c :: s' => d ← parse_digit c; parse_digits (10 * acc + d) s'
  end.

(** [s.parse::<iN>()]: an optional sign, at least one digit, value in
    [lo, hi]; anything else is a [ParseIntError]. *)
Definition parse_int (lo hi : Z) (s : str) : option Z :=
  let in_range v := if (lo <=? v) && (v <=? hi) then Some v else None in
  match s with
  | [] => None
  | c :: s' =>
      if ascii_eqb c "-"%char then
        match s' with [] => None | _ => v ← parse_digits 0 s'; in_range (- v) end
      else if ascii_eqb c "+"%char then
        match s' with [] => None | _ => v ← parse_digits 0 s'; in_range v end
      else v ← parse_digits 0 s; in_range v
  end.

Definition parse_i16 := parse_int (-32768) 32767.
Definition parse_i32 := parse_int (-2147483648) 2147483647.
Definition parse_i64 := parse_int (-9223372036854775808) 9223372036854775807.

Lemma parse_digit_digit d : 0 <= d <= 9 -> parse_digit (digit d) = Some d.
Proof.
  intros. unfold parse_digit, digit, is_ascii_digit. rewrite byte_byte_of by lia.
  rewrite (proj2 (Z.leb_le 48 (48 + d))), (proj2 (Z.leb_le (48 + d) 57)) by lia.
  simpl. f_equal. lia.
Qed.

Lemma parse_dec_digits fuel z acc :
  0 <= z < 2 ^ Z.of_nat fuel -> fuel <> O ->
  parse_digits 0 (dec_digits fuel z acc) = parse_digits z acc.
Proof.
  revert z acc. induction fuel as [|f IH]; intros z acc Hz Hf; [done|].
  cbn [dec_digits]. rewrite Nat2Z.inj_succ, Z.pow_succ_r in Hz by lia.
  destruct (Z.ltb_spec z 10).
  - cbn [parse_digits]. rewrite parse_digit_digit by (Z.div_mod_to_equations; lia).
    simpl. f_equal. Z.div_mod_to_equations; lia.
  - destruct f as [|f']; [simpl in Hz; lia|].
    rewrite IH; [|Z.div_mod_to_equations; lia | done].
    cbn [parse_digits]. rewrite parse_digit_digit by (Z.div_mod_to_equations; lia).
    simpl. f_equal. Z.div_mod_to_equations; lia.
Qed.

Lemma show_nonneg_fuel z : 0 <= z -> z < 2 ^ Z.of_nat (S (Z.to_nat (Z.log2 z))).
Proof.
  intros Hz. rewrite Nat2Z.inj_succ, Z2Nat.id by apply Z.log2_nonneg.
  destruct (Z.eq_dec z 0) as [->|]; [done|]. apply Z.log2_spec. lia.
Qed.

Lemma parse_show_nonneg z : 0 <= z -> parse_digits 0 (show_nonneg z) = Some z.
Proof.
  intros Hz. pose proof (show_nonneg_fuel z Hz).
  unfold show_nonneg. by rewrite parse_dec_digits by lia.
Qed.

Lemma dec_digits_digits fuel z acc :
  0 <= z -> Forall (fun c => is_ascii_digit c = true) acc ->
  Forall (fun c => is_ascii_digit c = true) (dec_digits fuel z acc).
Proof.
  revert z acc. induction fuel as [|f IH]; intros z acc Hz Hacc; cbn [dec_digits]; [done|].
  assert (Forall (fun c => is_ascii_digit c = true) (digit (z mod 10) :: acc)) as Hd.
  { constructor; [|done]. unfold is_ascii_digit, digit.
    pose proof (Z.mod_pos_bound z 10). rewrite byte_byte_of by lia.
    apply andb_true_iff. rewrite !Z.leb_le. lia. }
  destruct (z <? 10); [done|]. apply IH; [|done]. Z.div_mod_to_equations; lia.
Qed.

Lemma show_nonneg_digits z :
  0 <= z -> Forall (fun c => is_ascii_digit c = true) (show_nonneg z).
Proof. intros. by apply dec_digits_digits. Qed.

Lemma dec_digits_nonempty fuel z acc : fuel <> O -> dec_digits fuel z acc <> [].
Proof.
  revert z acc. induction fuel as [|f IH]; intros z acc Hf; [done|]. cbn [dec_digits].
  destruct (z <? 10); [done|]. destruct f as [|f']; [done|]. by apply IH.
Qed.

Lemma show_nonneg_nonempty z : show_nonneg z <> [].
Proof. by apply dec_digits_nonempty. Qed.

(** Formatting then parsing an integer of the type's range is the identity. *)
Lemma parse_show_Z lo hi z : lo <= z <= hi -> parse_int lo hi (show_Z z) = Some z.
Proof.
  intros Hz. unfold show_Z, parse_int. destruct (Z.ltb_spec z 0) as [Hneg|Hpos].
  - rewrite ascii_eqb_refl. destruct (show_nonneg (- z)) as [|c s] eqn:E.
    { by apply show_nonneg_nonempty in E. }
    rewrite <- E, parse_show_nonneg by lia. simpl.
    rewrite (proj2 (Z.leb_le lo (- - z))), (proj2 (Z.leb_le (- - z) hi)) by lia.
    simpl. f_equal; lia.
  - destruct (show_nonneg z) as [|c s] eqn:E.
    { by apply show_nonneg_nonempty in E. }
    pose proof (show_nonneg_digits z Hpos) as Hd. rewrite E in Hd. inversion Hd as [|? ? Hc _]; subst.
    assert (ascii_eqb c "-"%char = false /\ ascii_eqb c "+"%char = false) as [-> ->].
    { split; apply ascii_eqb_neq; intros ->; discriminate Hc. }
    rewrite <- E, parse_show_nonneg by lia. simpl.
    by rewrite (proj2 (Z.leb_le lo z)), (proj2 (Z.leb_le z hi)) by lia.
Qed.

Lemma show_Z_inj a b : show_Z a = show_Z b -> a = b.
Proof.
  intros H. pose proof (parse_show_Z (Z.min a b) (Z.max a b) a).
  pose proof (parse_show_Z (Z.min a b) (Z.max a b) b). rewrite H in *.
  assert (Some a = Some b) as [=]; [|done]. rewrite <- H0, <- H1 by lia. done.
Qed.

(** ** Total orders ([Ord]) *)

Class TotalCmp {T} (cmp : T -> T -> comparison) : Prop := {
  cmp_antisym a b : cmp b a = CompOpp (cmp a b);
  cmp_le_trans a b c : cmp a b <> Gt -> cmp b c <> Gt -> cmp a c <> Gt;
  cmp_lt_le_trans a b c : cmp a b = Lt -> cmp b c <> Gt -> cmp a c = Lt;
  cmp_le_lt_trans a b c : cmp a b <> Gt -> cmp b c = Lt -> cmp a c = Lt;
}.

#[export] Instance key_total {T} (f : T -> Z) : TotalCmp (fun a b => f a ?= f b).
Proof. split; intros; [apply Z.compare_antisym|..]; destruct (Z.compare_spec (f a) (f b)), (Z.compare_spec (f b) (f c)), (Z.compare_spec (f a) (f c)); try done; lia. Qed.

#[export] Instance str_total : TotalCmp str_compare.
Proof.
  split; intros a b.
  - apply str_compare_antisym.
  - intros c. destruct (str_compare a b) eqn:E1, (str_compare b c) eqn:E2; try done; intros _ _.
    + apply str_compare_eq in E1 as ->. congruence.
    + apply str_compare_eq in E1 as ->. congruence.
    + apply str_compare_eq in E2 as <-. congruence.
    + rewrite (str_compare_lt_trans _ _ _ E1 E2). done.
  - intros c E1. destruct (str_compare b c) eqn:E2; try done; intros _.
    + apply str_compare_eq in E2 as <-. done.
    + by eapply str_compare_lt_trans.
  - intros c. destruct (str_compare a b) eqn:E1; try done; intros _ E2.
    + apply str_compare_eq in E1 as ->. done.
    + by eapply str_compare_lt_trans.
Qed.

(** [Vec]'s order: lexicographic, a proper prefix first. *)
Fixpoint lex_cmp {T} (cmp : T -> T -> comparison) (a b : list T) : comparison :=
  match a, b with
  | [], [] => Eq
  | [], _ => Lt
  | _, [] => Gt
  | x :: a', y :: b' => match cmp x y with Eq => lex_cmp cmp a' b' | c => c end
  end.

Lemma cmp_refl {T} (cmp : T -> T -> comparison) `{!TotalCmp cmp} a : cmp a a = Eq.
Proof. pose proof (cmp_antisym (cmp := cmp) a a) as H. by destruct (cmp a a). Qed.

Lemma cmp_eq_swap `{TotalCmp T cmp} a b : cmp a b = Eq -> cmp b a = Eq.
Proof. intros E. by rewrite (cmp_antisym (cmp := cmp)), E. Qed.

Lemma cmp_eq_trans `{TotalCmp T cmp} a b c : cmp a b = Eq -> cmp b c = Eq -> cmp a c = Eq.
Proof.
  intros E1 E2. pose proof (cmp_le_trans (cmp := cmp) a b c) as H1. pose proof (cmp_le_trans (cmp := cmp) c b a) as H2.
  rewrite E1, E2 in H1. rewrite (cmp_eq_swap _ _ E1), (cmp_eq_swap _ _ E2), (cmp_antisym (cmp := cmp) a c) in H2.
  destruct (cmp a c); [done|..]; exfalso; [apply H2|apply H1]; done.
Qed.

#[export] Instance lex_total {T} (cmp : T -> T -> comparison) : TotalCmp cmp -> TotalCmp (lex_cmp cmp).
Proof.
  intros H. assert (forall a b, lex_cmp cmp b a = CompOpp (lex_cmp cmp a b)) as Hanti.
  { induction a as [|x a IH]; intros [|y b]; cbn; try done. rewrite (cmp_antisym (cmp := cmp) x y). destruct (cmp x y); cbn; auto. }
  assert (forall a b c, lex_cmp cmp a b <> Gt -> lex_cmp cmp b c <> Gt ->
    lex_cmp cmp a c <> Gt /\ (lex_cmp cmp a b = Lt \/ lex_cmp cmp b c = Lt -> lex_cmp cmp a c = Lt)) as Htr.
  { induction a as [|x a IH]; intros [|y b] [|z c]; cbn; try done; try (by split; [|intros [|]]).
    destruct (cmp x y) eqn:E1; try done; destruct (cmp y z) eqn:E2; try done; intros H1 H2.
    - rewrite (cmp_eq_trans _ _ _ E1 E2). by apply (IH b).
    - rewrite (cmp_le_lt_trans (cmp := cmp) x y z) by congruence. done.
    - rewrite (cmp_lt_le_trans (cmp := cmp) x y z) by congruence. done.
    - rewrite (cmp_lt_le_trans (cmp := cmp) x y z) by congruence. done. }
  split; [exact Hanti | intros a b c H1 H2; by apply (Htr a b c) | |]; intros a b c H1 H2; apply (Htr a b c); auto; congruence.
Qed.

(** [f64::total_cmp], IEEE totalOrder on the bits: [-NaN < .. < -0 < 0 < .. < NaN]. *)
Definition total_key (sign_bit bits : Z) : Z :=
  let mag := Z.land bits (sign_bit - 1) in
  if Z.testbit bits (Z.log2 sign_bit) then - mag - 1 else mag.

(** ** [String::from_utf8]: the well-formed byte sequences of the Unicode
    standard. *)

Definition in_range (lo hi : Z) (c : ascii) : bool := (lo <=? byte c) && (byte c <=? hi).

Fixpoint utf8_valid (s : str) : bool :=
  match s with
  | [] => true
  | a :: s1 =>
      if in_range 0 0x7F a then utf8_valid s1
      else match s1 with
      | [] => false
      | b :: s2 =>
          if in_range 0xC2 0xDF a then in_range 0x80 0xBF b && utf8_valid s2
          else match s2 with
          | [] => false
          | c :: s3 =>
              if in_range 0xE0 0xEF a then
                (if byte a =? 0xE0 then in_range 0xA0 0xBF b
                 else if byte a =? 0xED then in_range 0x80 0x9F b else in_range 0x80 0xBF b)
                && in_range 0x80 0xBF c && utf8_valid s3
              else match s3 with
              | [] => false
              | d :: s4 =>
                  in_range 0xF0 0xF4 a &&
                  (if byte a =? 0xF0 then in_range 0x90 0xBF b
                   else if byte a =? 0xF4 then in_range 0x80 0x8F b else in_range 0x80 0xBF b)
                  && in_range 0x80 0xBF c && in_range 0x80 0xBF d && utf8_valid s4
              end
          end
      end
  end.
