(* ===== verification/Utf8.v ===== *)
(** * Decoding bytes as text.

    [String::from_utf8] with the error it reports, and the lossy conversion
    ([CStr::to_string_lossy], [String::from_utf8_lossy]) that replaces every
    ill-formed part by U+FFFD. *)

From S2P Require Import Prelude RustStr.
Local Open Scope Z_scope.

(** ** [String::from_utf8] with its error *)

(** [Utf8Error]: [valid_up_to] and [error_len]. *)
Record Utf8Error := mkUtf8Error { valid_up_to : nat; error_len : option nat }.

Definition continuation (c : ascii) : bool := in_range 0x80 0xBF c.

(** The second byte a three- or four-byte sequence may have. *)
Definition second_of_three (a b : ascii) : bool :=
  if byte a =? 0xE0 then in_range 0xA0 0xBF b
  else if byte a =? 0xED then in_range 0x80 0x9F b else continuation b.
Definition second_of_four (a b : ascii) : bool :=
  if byte a =? 0xF0 then in_range 0x90 0xBF b
  else if byte a =? 0xF4 then in_range 0x80 0x8F b else continuation b.

Fixpoint utf8_error (i : nat) (s : str) : option Utf8Error :=
  match s with
  | [] => None
  | a :: s1 =>
      if in_range 0 0x7F a then utf8_error (S i) s1
      else if in_range 0xC2 0xDF a then
        match s1 with
        | [] => Some (mkUtf8Error i None)
        | b :: s2 => if continuation b then utf8_error (i + 2) s2 else Some (mkUtf8Error i (Some 1%nat))
        end
      else if in_range 0xE0 0xEF a then
        match s1 with
        | [] => Some (mkUtf8Error i None)
        | b :: s2 =>
            if negb (second_of_three a b) then Some (mkUtf8Error i (Some 1%nat)) else
            match s2 with
            | [] => Some (mkUtf8Error i None)
            | c :: s3 => if continuation c then utf8_error (i + 3) s3 else Some (mkUtf8Error i (Some 2%nat))
            end
        end
      else if in_range 0xF0 0xF4 a then
        match s1 with
        | [] => Some (mkUtf8Error i None)
        | b :: s2 =>
            if negb (second_of_four a b) then Some (mkUtf8Error i (Some 1%nat)) else
            match s2 with
            | [] => Some (mkUtf8Error i None)
            | c :: s3 =>
                if negb (continuation c) then Some (mkUtf8Error i (Some 2%nat)) else
                match s3 with
                | [] => Some (mkUtf8Error i None)
                | d :: s4 => if continuation d then utf8_error (i + 4) s4 else Some (mkUtf8Error i (Some 3%nat))
                end
            end
        end
      else Some (mkUtf8Error i (Some 1%nat))
  end.

Definition display_utf8_error (e : Utf8Error) : str :=
  match error_len e with
  | Some n => "invalid utf-8 sequence of " ++ show_Z (Z.of_nat n) ++ " bytes from index " ++ show_Z (Z.of_nat (valid_up_to e))
  | None => "incomplete utf-8 byte sequence from index " ++ show_Z (Z.of_nat (valid_up_to e))
  end.

Definition from_utf8 (s : str) : Result Utf8Error str :=
  match utf8_error 0 s with None => Ok s | Some e => Err e end.

(** ** The lossy conversion *)

(** U+FFFD. *)
Definition replacement : str := map byte_of [239; 191; 189].

(** Every turn that does not end the loop drops a byte. *)
Fixpoint lossy_loop (fuel : nat) (s : str) : str :=
  match utf8_error 0 s with
  | None => s
  | Some e =>
      take (valid_up_to e) s ++ replacement ++
      match error_len e, fuel with
      | Some n, S fuel' => lossy_loop fuel' (drop (valid_up_to e + n) s)
      | _, _ => []
      end
  end.

Definition to_string_lossy (s : str) : str := lossy_loop (length s) s.

(** ** Facts *)

(** The decoder that reports errors accepts exactly the valid strings. *)
Lemma utf8_error_valid s i : utf8_error i s = None <-> utf8_valid s = true.
Proof.
  revert i. induction s as [s IH] using (induction_ltof1 _ (@length ascii)). unfold ltof in IH. intros i.
  assert (forall t, (length t < length s)%nat -> forall j, utf8_error j t = None <-> utf8_valid t = true) as IH' by eauto. clear IH.
  destruct s as [|a s1]; [done|]. cbn [utf8_error utf8_valid length] in *. fold (second_of_three a) (second_of_four a).
  destruct (in_range 0 0x7F a); [apply IH'; lia|].
  destruct (in_range 0xC2 0xDF a).
  { destruct s1 as [|b s2]; [done|]. unfold continuation. destruct (in_range 0x80 0xBF b); [apply IH'; cbn; lia | done]. }
  destruct (in_range 0xE0 0xEF a).
  { destruct s1 as [|b [|c s3]]; [done|by destruct (second_of_three a b)|]. fold (continuation b) (continuation c) (second_of_three a b).
    destruct (second_of_three a b), (continuation c); cbn [negb andb]; try done. apply IH'; cbn; lia. }
  destruct (in_range 0xF0 0xF4 a); [|by destruct s1 as [|b [|c [|d s4]]]].
  destruct s1 as [|b [|c [|d s4]]]; try done; fold (continuation b) (second_of_four a b); destruct (second_of_four a b); try done;
    fold (continuation c); [by destruct (continuation c)|]. fold (continuation d).
  destruct (continuation c), (continuation d); cbn [negb andb]; try done. apply IH'; cbn; lia.
Qed.

Lemma from_utf8_valid s : utf8_valid s = true -> from_utf8 s = Ok s.
Proof. intros H. unfold from_utf8. apply (utf8_error_valid s 0) in H. by rewrite H. Qed.

Lemma utf8_valid_app a b : utf8_valid a = true -> utf8_valid (a ++ b) = utf8_valid b.
Proof.
  induction a as [a IH] using (induction_ltof1 _ (@length ascii)). unfold ltof in IH.
  destruct a as [|x a1]; [done|]. cbn [utf8_valid app length] in *.
  destruct (in_range 0 0x7F x); [intros; apply IH; [lia|done]|].
  destruct a1 as [|y a2]; [done|]. cbn [app].
  destruct (in_range 0xC2 0xDF x).
  { intros [-> H]%andb_true_iff. apply IH; [cbn; lia|done]. }
  destruct a2 as [|z a3]; [done|]. cbn [app].
  destruct (in_range 0xE0 0xEF x).
  { intros [[-> ->]%andb_true_iff H]%andb_true_iff. apply IH; [cbn; lia|done]. }
  destruct a3 as [|w a4]; [done|]. cbn [app].
  intros [[[[-> ->]%andb_true_iff ->]%andb_true_iff ->]%andb_true_iff H]%andb_true_iff. apply IH; [cbn; lia|done].
Qed.

(** Shifting the index shifts what the decoder reports. *)
Lemma utf8_error_shift s i k : utf8_error (i + k) s = (fun e => mkUtf8Error (valid_up_to e + k) (error_len e)) <$> utf8_error i s.
Proof.
  revert i. induction s as [s IH] using (induction_ltof1 _ (@length ascii)). unfold ltof in IH. intros i.
  destruct s as [|a s1]; [done|]. cbn [utf8_error length] in *.
  destruct (in_range 0 0x7F a); [apply (IH s1 ltac:(lia) (S i))|].
  destruct (in_range 0xC2 0xDF a).
  { destruct s1 as [|b s2]; [done|]. destruct (continuation b); [|done].
    replace (i + k + 2)%nat with (i + 2 + k)%nat by lia. apply IH; cbn; lia. }
  destruct (in_range 0xE0 0xEF a).
  { destruct s1 as [|b s2]; [done|]. destruct (negb (second_of_three a b)); [done|].
    destruct s2 as [|c s3]; [done|]. destruct (continuation c); [|done].
    replace (i + k + 3)%nat with (i + 3 + k)%nat by lia. apply IH; cbn; lia. }
  destruct (in_range 0xF0 0xF4 a); [|done].
  destruct s1 as [|b s2]; [done|]. destruct (negb (second_of_four a b)); [done|].
  destruct s2 as [|c s3]; [done|]. destruct (negb (continuation c)); [done|].
  destruct s3 as [|d s4]; [done|]. destruct (continuation d); [|done].
  replace (i + k + 4)%nat with (i + 4 + k)%nat by lia. apply IH; cbn; lia.
Qed.

(** What the decoder reports: the text before the error is valid. *)
Lemma utf8_error_prefix s e : utf8_error 0 s = Some e -> utf8_valid (take (valid_up_to e) s) = true.
Proof.
  revert e. induction s as [s IH] using (induction_ltof1 _ (@length ascii)). unfold ltof in IH. intros e.
  assert (forall n t, (length t < length s)%nat -> forall e, utf8_error n t = Some e ->
            exists m, valid_up_to e = (n + m)%nat /\ utf8_valid (take m t) = true) as Hrec.
  { intros n t Ht e' He. rewrite <- (Nat.add_0_l n), utf8_error_shift in He.
    destruct (utf8_error 0 t) as [e0|] eqn:E0; [|done]. injection He as <-. exists (valid_up_to e0).
    split; [cbn; lia|by apply IH]. }
  clear IH. destruct s as [|a s1]; [done|]. cbn [utf8_error length] in *.
  destruct (in_range 0 0x7F a) eqn:E1.
  { intros (m & -> & Hm)%Hrec; [|lia]. cbn [take Nat.add utf8_valid]. by rewrite E1. }
  destruct (in_range 0xC2 0xDF a) eqn:E2.
  { destruct s1 as [|b s2]; [by intros [= <-]|]. destruct (continuation b) eqn:Eb; [|by intros [= <-]].
    intros (m & -> & Hm)%Hrec; [|cbn; lia]. cbn [take Nat.add utf8_valid]. rewrite E1, E2. unfold continuation in Eb. by rewrite Eb. }
  destruct (in_range 0xE0 0xEF a) eqn:E3.
  { destruct s1 as [|b s2]; [by intros [= <-]|]. destruct (second_of_three a b) eqn:Eb; [|by intros [= <-]].
    destruct s2 as [|c s3]; [by intros [= <-]|]. cbn [negb]. destruct (continuation c) eqn:Ec; [|by intros [= <-]].
    intros (m & -> & Hm)%Hrec; [|cbn; lia]. cbn [take Nat.add utf8_valid]. rewrite E1, E2, E3.
    fold (continuation b) (continuation c) (second_of_three a b). by rewrite Eb, Ec. }
  destruct (in_range 0xF0 0xF4 a) eqn:E4; [|by intros [= <-]].
  destruct s1 as [|b s2]; [by intros [= <-]|]. destruct (second_of_four a b) eqn:Eb; [|by intros [= <-]].
  destruct s2 as [|c s3]; [by intros [= <-]|]. cbn [negb]. destruct (continuation c) eqn:Ec; [|by intros [= <-]].
  destruct s3 as [|d s4]; [by intros [= <-]|]. cbn [negb]. destruct (continuation d) eqn:Ed; [|by intros [= <-]].
  intros (m & -> & Hm)%Hrec; [|cbn; lia]. cbn [take Nat.add utf8_valid]. rewrite E1, E2, E3, E4.
  fold (continuation b) (continuation c) (continuation d) (second_of_four a b). by rewrite Eb, Ec, Ed.
Qed.

(** Valid text is unchanged, and whatever the bytes the result is text. *)
Lemma to_string_lossy_valid s : utf8_valid s = true -> to_string_lossy s = s.
Proof.
  intros H. unfold to_string_lossy. apply (utf8_error_valid s 0) in H. destruct (length s); cbn [lossy_loop]; by rewrite H.
Qed.

Lemma to_string_lossy_text s : utf8_valid (to_string_lossy s) = true.
Proof.
  unfold to_string_lossy. generalize (length s) as fuel. intros fuel. revert s.
  induction fuel as [|fuel IH]; intros s; cbn [lossy_loop]; destruct (utf8_error 0 s) as [e|] eqn:E;
    try (by apply (utf8_error_valid s 0)); rewrite utf8_valid_app by (by apply utf8_error_prefix);
    (rewrite utf8_valid_app by done); by destruct (error_len e).
Qed.

Example lossy_examples :
  to_string_lossy (map byte_of [97; 195; 40; 255; 226; 130]) = lit "a" ++ replacement ++ lit "(" ++ replacement ++ replacement.
Proof. vm_compute. reflexivity. Qed.
