(* ===== verification/Redact.v ===== *)
(** * [src/redact.rs]: secret redaction of error messages.

    [redact] scans a message byte by byte and replaces the value of a secret
    query key and the token of a [Bearer] header.  The theorems: nothing that
    looks like a secret key or a bearer header survives with another value,
    and redacting an ASCII message twice changes nothing more. *)

From S2P Require Import Prelude RustStr.
Local Open Scope Z_scope.

Definition SECRET_QUERY_KEYS : list str :=
  map lit ["sig"; "signature"; "skoid"; "sktid"; "skt"; "ske"; "sks"; "skv"; "code";
           "access_token"; "refresh_token"; "id_token"; "client_assertion"; "assertion"]%string.

(** If [bytes] begins with [prefix] (ASCII case-insensitively), the rest. *)
Fixpoint consume_prefix_ci (bytes prefix : str) {struct prefix} : option str :=
  match prefix, bytes with
  | [], _ => Some bytes
  | _ :: _, [] => None
  | b :: prefix', a :: bytes' =>
      if ascii_eqb (to_lower a) (to_lower b) then consume_prefix_ci bytes' prefix' else None
  end.

Definition DQUOTE : ascii := "034"%char.
Definition TAB : ascii := "009"%char.
Definition NEWLINE : ascii := "010"%char.

(** The byte before a key: start of the text or a query separator. *)
Definition prev_ok (prev : option ascii) : bool :=
  match prev with
  | None => true
  | Some c => existsb (ascii_eqb c) ["?"; "&"; " "; TAB; NEWLINE; "("; "'"; DQUOTE; ","]%char
  end.

(** Where a bearer token ends, and where a query value ends. *)
Definition token_stop (c : ascii) : bool :=
  is_ascii_whitespace c || existsb (ascii_eqb c) [DQUOTE; ","; "'"]%char.
Definition value_stop (c : ascii) : bool :=
  existsb (ascii_eqb c) ["&"; " "; TAB; NEWLINE; ")"; "'"; DQUOTE; ","]%char.

Fixpoint count_while (P : ascii -> bool) (s : str) : nat :=
  match s with [] => O | c :: s' => if P c then S (count_while P s') else O end.

(** [iter().position(P).unwrap_or(len)]. *)
Definition position_or_len (P : ascii -> bool) (s : str) : nat :=
  match find_char P s with Some n => n | None => length s end.

(** The rest of the text after a bearer header starting at [s]. *)
Definition match_bearer (s : str) : option str :=
  match consume_prefix_ci s "bearer" with
  | Some rest =>
      let ws_len := count_while is_ascii_whitespace rest in
      if (0 <? ws_len)%nat then
        let tail := drop ws_len rest in Some (drop (position_or_len token_stop tail) tail)
      else None
  | None => None
  end.

(** The first key of the list matching at [s], and the text after its value. *)
Fixpoint match_key (prev : option ascii) (s : str) (keys : list str) : option (str * str) :=
  match keys with
  | [] => None
  | key :: keys' =>
      match consume_prefix_ci s (key ++ "=") with
      | Some rest =>
          if prev_ok prev then Some (key, drop (position_or_len value_stop rest) rest)
          else match_key prev s keys'
      | None => match_key prev s keys'
      end
  end.

(** [String::push(b as char)]: a byte read as a Latin-1 character, in UTF-8. *)
Definition push_char (b : ascii) : str :=
  if byte b <? 128 then [b] else [byte_of (192 + byte b / 64); byte_of (128 + byte b mod 64)].

(** The last byte of the part of [s] consumed when [s'] is left. *)
Definition last_consumed (s s' : str) : option ascii := last (take (length s - length s') s).

(** The main loop from the position where [s] is left; every turn consumes at
    least one byte, so [length s] turns suffice. *)
Fixpoint redact_loop (fuel : nat) (prev : option ascii) (s : str) : str :=
  match fuel, s with
  | O, _ | _, [] => []
  | S fuel, b :: s' =>
      match match_bearer s with
      | Some rest => "Bearer REDACTED" ++ redact_loop fuel (last_consumed s rest) rest
      | None =>
          match match_key prev s SECRET_QUERY_KEYS with
          | Some (key, rest) => key ++ "=REDACTED" ++ redact_loop fuel (last_consumed s rest) rest
          | None => push_char b ++ redact_loop fuel (Some b) s'
          end
      end
  end.

Definition redact (msg : str) : str :=
  let lower := to_ascii_lowercase msg in
  let has_secret_key := existsb (fun k => contains (k ++ "=") lower) SECRET_QUERY_KEYS in
  let has_bearer := contains "bearer" lower in
  if negb has_secret_key && negb has_bearer then msg
  else redact_loop (length msg) None msg.

(** ** What the output must look like *)

(** The text is the marker, up to its end or a byte that ends a value. *)
Definition marker (P : ascii -> bool) (rest : str) : bool :=
  match strip_prefix "REDACTED" rest with Some r => (position_or_len P r =? 0)%nat | None => false end.

(** No position of [s] (preceded by [prev]) starts a secret key or a bearer
    header whose value is not exactly the marker. *)
Definition position_clean (prev : option ascii) (s : str) : Prop :=
  (forall key rest, key ∈ SECRET_QUERY_KEYS -> prev_ok prev = true ->
     consume_prefix_ci s (key ++ "=") = Some rest -> marker value_stop rest = true) /\
  (forall rest, consume_prefix_ci s "bearer" = Some rest ->
     (0 < count_while is_ascii_whitespace rest)%nat ->
     marker token_stop (drop (count_while is_ascii_whitespace rest) rest) = true).

Fixpoint clean (prev : option ascii) (s : str) : Prop :=
  position_clean prev s /\ match s with [] => True | b :: s' => clean (Some b) s' end.

Example redact_sas :
  redact "https://a/c?sv=1&SIG=AbC%3D&se=2" = lit "https://a/c?sv=1&sig=REDACTED&se=2".
Proof. vm_compute. reflexivity. Qed.

Example redact_bearer :
  redact "auth: bearer eyJ.foo more" = lit "auth: Bearer REDACTED more".
Proof. vm_compute. reflexivity. Qed.

(** ** Facts about matching *)

Lemma consume_prefix_ci_app s p q :
  consume_prefix_ci s (p ++ q) =
  match consume_prefix_ci s p with Some r => consume_prefix_ci r q | None => None end.
Proof.
  revert s. induction p as [|x p IH]; intros s; simpl; [done|].
  destruct s as [|a s]; simpl; [done|]. destruct (ascii_eqb _ _); [apply IH|done].
Qed.

Lemma consume_prefix_ci_length s p r :
  consume_prefix_ci s p = Some r -> length s = (length p + length r)%nat.
Proof.
  revert s. induction p as [|x p IH]; intros s H; simpl in *.
  - by simplify_eq.
  - destruct s as [|a s]; [done|]. destruct (ascii_eqb _ _); [|done]. simpl. by rewrite (IH s).
Qed.

Lemma match_bearer_length s r : match_bearer s = Some r -> (length r < length s)%nat.
Proof.
  unfold match_bearer. destruct (consume_prefix_ci s "bearer") as [t|] eqn:E; [|done].
  apply consume_prefix_ci_length in E. simpl in E. destruct (0 <? _)%nat; [|done].
  intros [= <-]. rewrite !length_drop. lia.
Qed.

Lemma match_key_Some prev s keys key r :
  match_key prev s keys = Some (key, r) ->
  key ∈ keys /\ prev_ok prev = true /\ exists rest, consume_prefix_ci s (key ++ "=") = Some rest /\
    r = drop (position_or_len value_stop rest) rest.
Proof.
  induction keys as [|k keys IH]; cbn [match_key]; [done|].
  destruct (consume_prefix_ci s (k ++ "=")) as [rest|] eqn:E.
  - destruct (prev_ok prev) eqn:P.
    + intros H. simplify_eq. split; [left|]. eauto.
    + intros H. destruct (IH H) as (? & ? & ?). split; [by right|]. eauto.
  - intros H. destruct (IH H) as (? & ? & ?). split; [by right|]. eauto.
Qed.

Lemma match_key_None prev s keys key :
  match_key prev s keys = None -> prev_ok prev = true -> key ∈ keys ->
  consume_prefix_ci s (key ++ "=") = None.
Proof.
  intros H P. induction keys as [|k keys IH]; cbn [match_key] in *; [by intros ?%not_elem_of_nil|].
  rewrite elem_of_cons. destruct (consume_prefix_ci s (k ++ "=")) eqn:E.
  - by rewrite P in H.
  - intros [->|Hin]; auto.
Qed.

Lemma match_key_prev prev s keys : prev_ok prev = false -> match_key prev s keys = None.
Proof.
  intros P. induction keys as [|k keys IH]; cbn [match_key]; [done|].
  rewrite P, IH. by destruct (consume_prefix_ci _ _).
Qed.

Lemma match_key_length prev s keys key r :
  match_key prev s keys = Some (key, r) -> (length r < length s)%nat.
Proof.
  intros H. apply match_key_Some in H as (_ & _ & rest & E & ->).
  apply consume_prefix_ci_length in E. rewrite length_app in E. simpl in E.
  rewrite length_drop. lia.
Qed.

(** A text byte that can take part in a key or in the tail of "bearer". *)
Definition text_ok (a : ascii) : bool :=
  (byte a <? 128) && negb (prev_ok (Some a)) && negb (ascii_eqb (to_lower a) "b").

(** A pattern byte all of whose case variants are such text bytes. *)
Definition plain (x : ascii) : bool :=
  forallb (fun a => implb (ascii_eqb (to_lower a) (to_lower x)) (text_ok a)) all_ascii.

Lemma plain_text x a : plain x = true -> to_lower a = to_lower x -> text_ok a = true.
Proof.
  intros Hx Ha. pose proof (ascii_forall _ Hx a) as H. simpl in H.
  rewrite (proj2 (ascii_eqb_eq _ _) Ha) in H. done.
Qed.

Lemma keys_plain key : key ∈ SECRET_QUERY_KEYS -> Forall (fun x => plain x = true) (key ++ "=").
Proof.
  assert (forallb (fun k => forallb plain (k ++ "=")) SECRET_QUERY_KEYS = true) as H
    by (vm_compute; reflexivity).
  rewrite forallb_forall in H. intros Hk. apply list_elem_of_In, H in Hk.
  rewrite forallb_forall in Hk. apply Forall_forall. intros x Hx. by apply Hk, list_elem_of_In.
Qed.

Lemma bearer_plain : Forall (fun x => plain x = true) (lit "earer").
Proof. repeat constructor; vm_compute; reflexivity. Qed.

Lemma push_char_high b a s : byte b >= 128 -> push_char b ++ s = a :: s -> False.
Proof.
  intros Hb H. unfold push_char in H. destruct (Z.ltb_spec (byte b) 128); [lia|].
  apply (f_equal length) in H. simpl in H. lia.
Qed.

(** A pattern found at the start of the loop's output, where no key can
    start, was in the input. *)
Lemma loop_prefix p fuel prev s out' :
  (length s <= fuel)%nat -> prev_ok prev = false -> Forall (fun x => plain x = true) p ->
  consume_prefix_ci (redact_loop fuel prev s) p = Some out' ->
  exists fuel' prev' s', consume_prefix_ci s p = Some s' /\ (length s' <= fuel')%nat /\
    out' = redact_loop fuel' prev' s'.
Proof.
  revert fuel prev s. induction p as [|x p IH]; intros fuel prev s Hf Hp HF H.
  - exists fuel, prev, s. simpl in *. by simplify_eq.
  - inversion HF as [|? ? Hx HF']; subst.
    destruct fuel as [|fuel]; [done|]. destruct s as [|b s]; [done|].
    cbn [redact_loop] in H. destruct (match_bearer (b :: s)) eqn:Hb.
    + cbn in H. destruct (ascii_eqb _ _) eqn:E in H; [|done]. apply ascii_eqb_eq in E.
      pose proof (plain_text x "B"%char Hx E). done.
    + rewrite match_key_prev in H by done. unfold push_char in H.
      destruct (Z.ltb_spec (byte b) 128) as [Hlt|Hge].
      * cbn [app consume_prefix_ci] in H. destruct (ascii_eqb _ _) eqn:E in H; [|done].
        apply ascii_eqb_eq in E. pose proof (plain_text x b Hx E) as Ht.
        unfold text_ok in Ht. rewrite !andb_true_iff, !negb_true_iff in Ht. destruct Ht as [[_ Hn] _].
        simpl in Hf. destruct (IH fuel (Some b) s) as (f' & p' & s' & Hc & ?); [lia|done..|].
        exists f', p', s'. cbn [consume_prefix_ci]. rewrite (proj2 (ascii_eqb_eq _ _) E). done.
      * cbn [app consume_prefix_ci] in H. destruct (ascii_eqb _ _) eqn:E in H; [|done].
        apply ascii_eqb_eq in E. pose proof (plain_text x _ Hx E) as Ht.
        unfold text_ok in Ht. rewrite !andb_true_iff in Ht. destruct Ht as [[Hlt _] _].
        pose proof (byte_range b). rewrite byte_byte_of in Hlt by (Z.div_mod_to_equations; lia).
        apply Z.ltb_lt in Hlt. Z.div_mod_to_equations; lia.
Qed.

(** ** No secret survives *)

Lemma copied_prefix x p fuel b s out' :
  (length s <= fuel)%nat -> Forall (fun y => plain y = true) p ->
  (to_lower b = to_lower x -> prev_ok (Some b) = false) ->
  consume_prefix_ci (b :: redact_loop fuel (Some b) s) (x :: p) = Some out' ->
  exists fuel' prev' s', consume_prefix_ci (b :: s) (x :: p) = Some s' /\ (length s' <= fuel')%nat /\
    out' = redact_loop fuel' prev' s'.
Proof.
  intros Hf HF Hb H. cbn [consume_prefix_ci] in *.
  destruct (ascii_eqb _ _) eqn:E; [|done]. apply ascii_eqb_eq in E.
  eapply loop_prefix; eauto.
Qed.

Lemma loop_ws fuel prev s :
  (0 < count_while is_ascii_whitespace (redact_loop fuel prev s))%nat ->
  (0 < count_while is_ascii_whitespace s)%nat.
Proof.
  destruct fuel as [|fuel]; [simpl; lia|]. destruct s as [|b s]; [simpl; lia|].
  cbn [redact_loop]. destruct (match_bearer (b :: s)).
  { intros H. vm_compute in H. lia. }
  destruct (match_key prev (b :: s) SECRET_QUERY_KEYS) as [[key rest]|] eqn:Hk.
  - apply match_key_Some in Hk as (Hk & _). 
    assert (forallb (fun k => match k with [] => false | c :: _ => negb (is_ascii_whitespace c) end)
              SECRET_QUERY_KEYS = true) as Hall by (vm_compute; reflexivity).
    rewrite forallb_forall in Hall. apply list_elem_of_In, Hall in Hk.
    destruct key as [|c key]; [done|]. simpl. destruct (is_ascii_whitespace c); [done|lia].
  - unfold push_char. simpl. destruct (is_ascii_whitespace b) eqn:Hw; [lia|].
    destruct (Z.ltb_spec (byte b) 128) as [|Hge]; simpl; [rewrite Hw; lia|].
    pose proof (byte_range b). assert (2 <= byte b / 64 <= 3) by (Z.div_mod_to_equations; lia).
    assert (byte b / 64 = 2 \/ byte b / 64 = 3) as [-> | ->] by lia;
      [change (is_ascii_whitespace (byte_of (192 + 2))) with false
      |change (is_ascii_whitespace (byte_of (192 + 3))) with false]; cbn iota; lia.
Qed.

Lemma key_cons key : key ∈ SECRET_QUERY_KEYS -> exists x k, key = x :: k.
Proof.
  assert (forallb (fun k => negb (str_eqb k [])) SECRET_QUERY_KEYS = true) as H
    by (vm_compute; reflexivity).
  rewrite forallb_forall in H. intros Hk. apply list_elem_of_In, H in Hk. destruct key; [done|eauto].
Qed.

Lemma b_not_separator b : to_lower b = "b"%char -> prev_ok (Some b) = false.
Proof.
  intros Hb. pose proof (ascii_forall (fun b => implb (ascii_eqb (to_lower b) "b"%char) (negb (prev_ok (Some b))))
    ltac:(vm_compute; reflexivity) b) as H. simpl in H.
  rewrite (proj2 (ascii_eqb_eq _ _) Hb) in H. by apply negb_true_iff in H.
Qed.

(** A byte the loop copied starts no secret in the output. *)
Lemma copied_no_bearer fuel b s :
  (length s <= fuel)%nat -> match_bearer (b :: s) = None ->
  forall rest, consume_prefix_ci (b :: redact_loop fuel (Some b) s) "bearer" = Some rest ->
    count_while is_ascii_whitespace rest = O.
Proof.
  intros Hf Hb rest H. change (lit "bearer") with ("b"%char :: lit "earer") in H.
  apply copied_prefix in H as (f' & p' & s' & Hc & _ & ->);
    [|done|apply bearer_plain|intros E; apply b_not_separator; exact E].
  destruct (count_while _ _) eqn:Hw; [done|]. exfalso.
  assert (0 < count_while is_ascii_whitespace s')%nat as Hws.
  { apply (loop_ws f' p'). rewrite Hw. lia. }
  unfold match_bearer in Hb. change (lit "bearer") with ("b"%char :: lit "earer") in Hb.
  rewrite Hc in Hb. destruct (Nat.ltb_spec 0 (count_while is_ascii_whitespace s')); [done|lia].
Qed.

Lemma copied_no_key prev fuel b s key :
  (length s <= fuel)%nat -> match_key prev (b :: s) SECRET_QUERY_KEYS = None -> prev_ok prev = true ->
  key ∈ SECRET_QUERY_KEYS -> consume_prefix_ci (b :: redact_loop fuel (Some b) s) (key ++ "=") = None.
Proof.
  intros Hf Hk Hp Hin. destruct (consume_prefix_ci _ _) eqn:H; [|done]. exfalso.
  pose proof (keys_plain key Hin) as HF. destruct (key_cons key Hin) as (x & k & ->). cbn [app] in H, HF.
  inversion HF as [|? ? Hx HF']; subst.
  apply copied_prefix in H as (f' & p' & s' & Hc & _); [|done..|].
  - pose proof (match_key_None _ _ _ (x :: k) Hk Hp Hin) as Hc'. cbn [app] in Hc'. congruence.
  - intros E. pose proof (plain_text x b Hx E) as Ht. unfold text_ok in Ht.
    rewrite !andb_true_iff, !negb_true_iff in Ht. tauto.
Qed.

Lemma copied_position prev prev2 fuel b s :
  (length s <= fuel)%nat -> match_bearer (b :: s) = None ->
  match_key prev (b :: s) SECRET_QUERY_KEYS = None ->
  (prev_ok prev2 = true -> prev_ok prev = true) ->
  position_clean prev2 (b :: redact_loop fuel (Some b) s).
Proof.
  intros Hf Hb Hk Hp. split.
  - intros key rest Hin Hp2 H. rewrite (copied_no_key prev) in H by auto. done.
  - intros rest H Hws. rewrite (copied_no_bearer fuel b s) in Hws by auto. lia.
Qed.

Definition key_free (s : str) : bool :=
  forallb (fun k => match consume_prefix_ci s (k ++ "=") with
                    | None => true | Some rest => marker value_stop rest end) SECRET_QUERY_KEYS.

Lemma key_free_spec s key rest :
  key_free s = true -> key ∈ SECRET_QUERY_KEYS -> consume_prefix_ci s (key ++ "=") = Some rest ->
  marker value_stop rest = true.
Proof.
  intros H Hin E. unfold key_free in H. rewrite forallb_forall in H.
  apply list_elem_of_In, H in Hin. by rewrite E in Hin.
Qed.

Lemma clean_cons prev b s :
  prev_ok prev = false \/ key_free (b :: s) = true -> ascii_eqb (to_lower b) "b" = false ->
  clean (Some b) s -> clean prev (b :: s).
Proof.
  intros Hk Hb Hs. split; [|done]. split.
  - intros key rest Hin Hp E. destruct Hk as [Hk|Hk]; [congruence|]. by eapply key_free_spec.
  - intros rest E. exfalso. cbn [consume_prefix_ci lit String.list_ascii_of_string] in E.
    change (to_lower "b") with "b"%char in E. by rewrite Hb in E.
Qed.

Lemma clean_run prev t z s :
  prev_ok prev = false -> Forall (fun a => text_ok a = true) (t ++ [z]) ->
  clean (Some z) s -> clean prev (t ++ z :: s).
Proof.
  intros Hp HF Hs. revert prev Hp HF. induction t as [|a t IH]; intros prev Hp HF; cbn [app] in *;
    inversion HF as [|? ? Ha HF']; subst; unfold text_ok in Ha;
    rewrite !andb_true_iff, !negb_true_iff in Ha; destruct Ha as [[_ Ha] Hb]; apply clean_cons; auto.
Qed.

Lemma marker_ends P s : position_or_len P s = O -> marker P (lit "REDACTED" ++ s) = true.
Proof. intros Hs. unfold marker. rewrite (proj2 (strip_prefix_Some "REDACTED" (lit "REDACTED" ++ s) s) eq_refl). by rewrite Hs. Qed.

Lemma clean_bearer_piece prev s : position_or_len token_stop s = O -> clean (Some "D"%char) s -> clean prev (lit "Bearer REDACTED" ++ s).
Proof.
  intros Hstop Hs. split; [split|].
  - intros key rest Hin _ E. eapply key_free_spec; [|done|exact E]. vm_compute. reflexivity.
  - intros rest E _. vm_compute in E. injection E as <-. exact (marker_ends _ _ Hstop).
  - apply (clean_run _ (lit "eare") "r"%char); [done|repeat constructor|].
    apply clean_cons; [by left|done|]. apply clean_cons; [right; vm_compute; reflexivity|done|].
    apply (clean_run _ (lit "EDACTE") "D"%char); [done|repeat constructor|done].
Qed.

Lemma clean_key_piece prev key s :
  key ∈ SECRET_QUERY_KEYS -> position_or_len value_stop s = O -> clean (Some "D"%char) s -> clean prev (key ++ lit "=REDACTED" ++ s).
Proof.
  intros Hk Hstop Hs. pose proof (marker_ends _ _ Hstop) as Hm. unfold SECRET_QUERY_KEYS in Hk. simpl in Hk.
  assert (forall c k, key = c :: k -> key_free (c :: k ++ lit "=REDACTED" ++ s) = true ->
    prev_ok (Some c) = false -> ascii_eqb (to_lower c) "b" = false ->
    Forall (fun a => text_ok a = true) (k ++ lit "=REDACTED") ->
    clean prev (key ++ lit "=REDACTED" ++ s)) as Hgen.
  { intros c k -> Hfree Hc Hcb HF. cbn [app]. apply clean_cons; [by right|done|].
    change (lit "=REDACTED") with (lit "=REDACTE" ++ ["D"%char]) in *.
    rewrite <- (assoc_L (++)), (assoc_L (++)). apply clean_run; [done| |done].
    by rewrite <- (assoc_L (++)). }
  repeat (apply elem_of_cons in Hk as [->|Hk];
    [eapply Hgen; [reflexivity| |reflexivity|reflexivity|repeat constructor]; lazy -[marker]; match goal with |- context [marker ?P ?x] => by replace (marker P x) with true end|]).
  by apply not_elem_of_nil in Hk.
Qed.

Lemma clean_high prev c s :
  128 <= byte c -> clean (Some c) s -> clean prev (c :: s).
Proof.
  intros Hc Hs. split; [|done].
  assert (text_ok c = false) as Hn.
  { unfold text_ok. by destruct (Z.ltb_spec (byte c) 128); [lia|]. }
  split.
  - intros key rest Hin _ E. exfalso. pose proof (keys_plain key Hin) as HF.
    destruct (key_cons key Hin) as (x & k & ->). inversion HF as [|? ? Hx _]; subst.
    cbn [app consume_prefix_ci] in E. destruct (ascii_eqb _ _) eqn:Ee in E; [|done].
    apply ascii_eqb_eq in Ee. pose proof (plain_text x c Hx Ee). congruence.
  - intros rest E. exfalso. cbn [consume_prefix_ci lit String.list_ascii_of_string] in E.
    destruct (ascii_eqb _ _) eqn:Ee in E; [|done]. apply ascii_eqb_eq in Ee.
    pose proof (ascii_forall (fun c => implb (ascii_eqb (to_lower c) "b"%char) (byte c <? 128))
      ltac:(vm_compute; reflexivity) c) as H. simpl in H.
    change (to_lower "b") with "b"%char in Ee. rewrite (proj2 (ascii_eqb_eq _ _) Ee) in H.
    simpl in H. lia.
Qed.

(** The byte that ended a replaced value starts the remaining text. *)
Definition stop (c : ascii) : bool := token_stop c || value_stop c.

Definition starts_with_byte (P : ascii -> bool) (s : str) : Prop :=
  match s with [] => True | c :: _ => P c = true end.

Definition key_head (c : ascii) : bool :=
  existsb (fun k => match k with [] => true | x :: _ => ascii_eqb (to_lower c) (to_lower x) end) SECRET_QUERY_KEYS
  || ascii_eqb (to_lower c) "b".

Lemma stop_facts c : stop c = true -> key_head c = false /\ byte c < 128.
Proof.
  intros Hc. pose proof (ascii_forall (fun c => implb (stop c) (negb (key_head c) && (byte c <? 128)))
    ltac:(vm_compute; reflexivity) c) as H. simpl in H. rewrite Hc in H. simpl in H.
  rewrite andb_true_iff, negb_true_iff in H. split; [tauto|lia].
Qed.

Lemma key_head_no_match c s key :
  key_head c = false -> key ∈ SECRET_QUERY_KEYS -> consume_prefix_ci (c :: s) (key ++ "=") = None.
Proof.
  intros Hc Hin. unfold key_head in Hc. apply orb_false_iff in Hc as [Hc _].
  destruct (key_cons key Hin) as (x & k & ->). cbn [app consume_prefix_ci].
  destruct (ascii_eqb (to_lower c) (to_lower x)) eqn:E; [|done].
  assert (existsb (fun k => match k with [] => true | x :: _ => ascii_eqb (to_lower c) (to_lower x) end)
    SECRET_QUERY_KEYS = true); [|congruence].
  apply existsb_exists. exists (x :: k). split; [by apply list_elem_of_In|done].
Qed.

Lemma key_head_no_bearer c s : key_head c = false -> match_bearer (c :: s) = None.
Proof.
  intros Hc. unfold key_head in Hc. apply orb_false_iff in Hc as [_ Hc].
  unfold match_bearer. cbn [consume_prefix_ci lit String.list_ascii_of_string].
  change (to_lower "b") with "b"%char. by rewrite Hc.
Qed.

Lemma match_key_none prev s keys :
  (forall key, key ∈ keys -> consume_prefix_ci s (key ++ "=") = None) -> match_key prev s keys = None.
Proof.
  induction keys as [|k keys IH]; intros H; cbn [match_key]; [done|].
  rewrite H by left. apply IH. intros key Hin. apply H. by right.
Qed.

Lemma drop_position_stop P s : starts_with_byte P (drop (position_or_len P s) s).
Proof.
  unfold position_or_len. destruct (find_char P s) as [n|] eqn:E; [|by rewrite drop_all].
  revert n E. induction s as [|c s IH]; intros n E; simpl in E; [done|].
  destruct (P c) eqn:Hc; [injection E as <-; simpl; done|].
  destruct (find_char P s) as [m|] eqn:Em; simplify_eq/=. by apply IH.
Qed.

(** The loop copies a stop byte it starts on. *)
Lemma loop_stop fuel prev s (P : ascii -> bool) :
  (length s <= fuel)%nat -> (forall c, P c = true -> stop c = true) ->
  starts_with_byte P s -> position_or_len P (redact_loop fuel prev s) = O.
Proof.
  intros Hf HP Hs. destruct s as [|c s]; [by destruct fuel|].
  simpl in Hs, Hf. destruct fuel as [|fuel]; [lia|].
  destruct (stop_facts c (HP c Hs)) as [Hk Hb]. cbn [redact_loop].
  rewrite key_head_no_bearer by done.
  rewrite match_key_none by (intros; by apply key_head_no_match).
  unfold push_char. destruct (Z.ltb_spec (byte c) 128); [|lia].
  unfold position_or_len. simpl. by rewrite Hs.
Qed.

Lemma match_bearer_stop s r : match_bearer s = Some r -> starts_with_byte token_stop r.
Proof.
  unfold match_bearer. destruct (consume_prefix_ci s "bearer") as [t|]; [|done].
  destruct (0 <? _)%nat; [|done]. intros [= <-]. apply drop_position_stop.
Qed.

Lemma redact_loop_clean fuel prev prev2 s :
  (length s <= fuel)%nat -> (prev_ok prev2 = true -> prev_ok prev = true) ->
  clean prev2 (redact_loop fuel prev s).
Proof.
  assert (forall p, clean p []) as Hnil.
  { intros p. split; [|done]. split; [|done]. intros key rest Hin _ E.
    by destruct (key_cons key Hin) as (x & k & ->). }
  revert prev prev2 s. induction fuel as [|fuel IH]; intros prev prev2 s Hf Hp;
    destruct s as [|b s]; cbn [redact_loop]; try apply Hnil.
  simpl in Hf. destruct (match_bearer (b :: s)) as [rest|] eqn:Hb.
  { pose proof (match_bearer_length _ _ Hb) as Hl. simpl in Hl. apply clean_bearer_piece; [|apply IH; [lia|done]].
    apply loop_stop; [lia|by unfold stop; intros c ->|]. by apply match_bearer_stop in Hb. }
  destruct (match_key prev (b :: s) SECRET_QUERY_KEYS) as [[key rest]|] eqn:Hk.
  { pose proof (match_key_length _ _ _ _ _ Hk) as Hl. simpl in Hl.
    apply match_key_Some in Hk as (Hin & _ & r & _ & ->). apply clean_key_piece; [done| |apply IH; [lia|done]].
    apply loop_stop; [lia|by unfold stop; intros c ->; rewrite orb_true_r|apply drop_position_stop]. }
  unfold push_char. destruct (Z.ltb_spec (byte b) 128).
  - cbn [app]. split; [|by apply IH; [lia|]]. eapply copied_position; eauto. lia.
  - pose proof (byte_range b). cbn [app]. apply clean_high; [|apply clean_high].
    + rewrite byte_byte_of; Z.div_mod_to_equations; lia.
    + rewrite byte_byte_of; Z.div_mod_to_equations; lia.
    + apply IH; [lia|]. intros Hpk. exfalso.
      assert (forallb (fun z => negb (prev_ok (Some (byte_of (128 + z))))) (seqZ 0 64) = true) as Hall
        by (vm_compute; reflexivity).
      rewrite forallb_forall in Hall. specialize (Hall (byte b mod 64)).
      rewrite Hpk in Hall. discriminate Hall. apply list_elem_of_In, elem_of_seqZ.
      Z.div_mod_to_equations; lia.
Qed.

(** The fast path: a text without "key=" and "bearer" is clean as it is. *)
Lemma consume_prefix_ci_lower s p r :
  consume_prefix_ci s p = Some r ->
  exists a, s = a ++ r /\ to_ascii_lowercase a = to_ascii_lowercase p.
Proof.
  revert s. induction p as [|x p IH]; intros s H; cbn [consume_prefix_ci] in H.
  - exists []. by simplify_eq.
  - destruct s as [|b s]; [done|]. destruct (ascii_eqb _ _) eqn:E; [|done].
    apply ascii_eqb_eq in E. destruct (IH s H) as (a & -> & Ha). exists (b :: a).
    split; [done|]. simpl. by rewrite E, Ha.
Qed.

Lemma consume_contains pre s p r :
  to_ascii_lowercase p = p -> consume_prefix_ci s p = Some r ->
  contains p (to_ascii_lowercase (pre ++ s)) = true.
Proof.
  intros Hp H. apply consume_prefix_ci_lower in H as (a & -> & Ha). apply contains_true.
  exists (to_ascii_lowercase pre), (to_ascii_lowercase r). unfold to_ascii_lowercase in *.
  rewrite !map_app, Ha. by rewrite Hp.
Qed.

Lemma keys_lower key : key ∈ SECRET_QUERY_KEYS -> to_ascii_lowercase (key ++ "=") = key ++ "=".
Proof.
  assert (forallb (fun k => str_eqb (to_ascii_lowercase (k ++ "=")) (k ++ "=")) SECRET_QUERY_KEYS = true)
    as H by (vm_compute; reflexivity).
  rewrite forallb_forall in H. intros Hk. by apply list_elem_of_In, H, str_eqb_eq in Hk.
Qed.

Lemma fast_path_position pre prev s :
  existsb (fun k => contains (k ++ "=") (to_ascii_lowercase (pre ++ s))) SECRET_QUERY_KEYS = false ->
  contains "bearer" (to_ascii_lowercase (pre ++ s)) = false ->
  position_clean prev s.
Proof.
  intros Hk Hb. split.
  - intros key rest Hin _ E. exfalso.
    apply (consume_contains pre) in E; [|by apply keys_lower].
    assert (existsb (fun k => contains (k ++ "=") (to_ascii_lowercase (pre ++ s))) SECRET_QUERY_KEYS = true);
      [|congruence]. apply existsb_exists. exists key. split; [by apply list_elem_of_In|done].
  - intros rest E _. apply (consume_contains pre) in E; [congruence|reflexivity].
Qed.

Lemma fast_path_clean pre prev s :
  existsb (fun k => contains (k ++ "=") (to_ascii_lowercase (pre ++ s))) SECRET_QUERY_KEYS = false ->
  contains "bearer" (to_ascii_lowercase (pre ++ s)) = false ->
  clean prev s.
Proof.
  revert pre prev. induction s as [|b s IH]; intros pre prev Hk Hb; split;
    try (by eapply fast_path_position); [done|].
  apply (IH (pre ++ [b])); by rewrite <- (assoc_L (++)).
Qed.

(** ** Idempotence on ASCII text *)

Definition is_ascii (s : str) : Prop := Forall (fun c => byte c < 128) s.

Lemma match_bearer_self out :
  match_bearer (lit "Bearer REDACTED" ++ out) = Some (drop (position_or_len token_stop out) out).
Proof.
  unfold match_bearer. change (consume_prefix_ci _ _) with (Some (lit " REDACTED" ++ out)).
  cbn iota. change (count_while _ _) with 1%nat. cbn [drop app lit String.list_ascii_of_string].
  unfold position_or_len. cbn. destruct (find_char token_stop out); done.
Qed.

Lemma match_key_true prev s keys : prev_ok prev = true -> match_key prev s keys = match_key None s keys.
Proof.
  intros Hp. induction keys as [|k keys IH]; cbn [match_key]; [done|]. by rewrite Hp, IH.
Qed.

Lemma match_key_self prev key out :
  key ∈ SECRET_QUERY_KEYS -> prev_ok prev = true ->
  match_key prev (key ++ lit "=REDACTED" ++ out) SECRET_QUERY_KEYS =
  Some (key, drop (position_or_len value_stop out) out).
Proof.
  intros Hin Hp. rewrite match_key_true by done.
  assert (drop (position_or_len value_stop (lit "REDACTED" ++ out)) (lit "REDACTED" ++ out) =
          drop (position_or_len value_stop out) out) as <-.
  { unfold position_or_len. cbn. destruct (find_char value_stop out); done. }
  unfold SECRET_QUERY_KEYS in Hin. simpl in Hin.
  repeat (apply elem_of_cons in Hin as [->|Hin]; [reflexivity|]). by apply not_elem_of_nil in Hin.
Qed.

Lemma key_piece_no_bearer key out :
  key ∈ SECRET_QUERY_KEYS -> match_bearer (key ++ out) = None.
Proof.
  intros Hin. unfold SECRET_QUERY_KEYS in Hin. simpl in Hin.
  repeat (apply elem_of_cons in Hin as [->|Hin]; [reflexivity|]). by apply not_elem_of_nil in Hin.
Qed.

Lemma is_ascii_drop n s : is_ascii s -> is_ascii (drop n s).
Proof. apply Forall_drop. Qed.

Lemma consume_prefix_ci_ascii s p r : consume_prefix_ci s p = Some r -> is_ascii s -> is_ascii r.
Proof.
  intros H Hs. apply consume_prefix_ci_lower in H as (a & -> & _). by apply Forall_app in Hs as [_ ?].
Qed.

Lemma match_bearer_rest s r : match_bearer s = Some r ->
  (is_ascii s -> is_ascii r) /\ starts_with_byte token_stop r.
Proof.
  unfold match_bearer. destruct (consume_prefix_ci s "bearer") as [t|] eqn:E; [|done].
  destruct (0 <? _)%nat; [|done]. intros [= <-]. split; [|apply drop_position_stop].
  intros Hs. eapply is_ascii_drop, is_ascii_drop, consume_prefix_ci_ascii; eauto.
Qed.

Lemma redact_loop_idem fuel fuel2 prev prev2 s :
  (length s <= fuel)%nat -> is_ascii s -> (length (redact_loop fuel prev s) <= fuel2)%nat ->
  prev_ok prev = prev_ok prev2 \/ starts_with_byte stop s ->
  redact_loop fuel2 prev2 (redact_loop fuel prev s) = redact_loop fuel prev s.
Proof.
  revert fuel2 prev prev2 s. induction fuel as [|fuel IH]; intros fuel2 prev prev2 s Hf Ha Hf2 Hp.
  { by destruct fuel2. }
  destruct s as [|b s]; [by destruct fuel2|]. cbn [redact_loop] in *. simpl in Hf.
  destruct (match_bearer (b :: s)) as [rest|] eqn:Hb.
  { pose proof (match_bearer_length _ _ Hb) as Hl. simpl in Hl.
    destruct (match_bearer_rest _ _ Hb) as [Har Hst]. rewrite length_app in Hf2.
    destruct fuel2 as [|fuel2]; [simpl in Hf2; lia|]. cbn [redact_loop].
    change (lit "Bearer REDACTED" ++ ?o) with ("B"%char :: (lit "earer REDACTED" ++ o)).
    cbn [redact_loop]. change ("B"%char :: (lit "earer REDACTED" ++ ?o)) with (lit "Bearer REDACTED" ++ o).
    rewrite match_bearer_self, (loop_stop fuel _ rest) by (lia || done || (intros c Hc; unfold stop; by rewrite Hc)).
    rewrite drop_0. f_equal. apply IH; [lia|auto|simpl in Hf2; lia|]. right.
    destruct rest; [done|]. simpl in *. unfold stop. by rewrite Hst. }
  destruct (match_key prev (b :: s) SECRET_QUERY_KEYS) as [[key rest]|] eqn:Hk.
  { pose proof (match_key_length _ _ _ _ _ Hk) as Hl. simpl in Hl.
    apply match_key_Some in Hk as (Hin & Hpk & t & Et & ->).
    assert (prev_ok prev2 = true) as Hpk2.
    { destruct Hp as [<-|Hs]; [done|]. exfalso. simpl in Hs. destruct (stop_facts b Hs) as [Hh _].
      by rewrite key_head_no_match in Et. }
    pose proof (drop_position_stop value_stop t) as Hst.
    set (rest := drop (position_or_len value_stop t) t) in *.
    set (out := redact_loop fuel (last_consumed (b :: s) rest) rest) in *.
    destruct (key_cons key Hin) as (x & k & Ek). rewrite !length_app in Hf2.
    destruct fuel2 as [|fuel2]; [rewrite Ek in Hf2; simpl in Hf2; lia|].
    assert (key ++ lit "=REDACTED" ++ out = x :: k ++ lit "=REDACTED" ++ out) as Ex by by rewrite Ek.
    rewrite Ex. cbn [redact_loop]. rewrite <- Ex.
    rewrite key_piece_no_bearer, match_key_self by done.
    assert (position_or_len value_stop out = O) as ->.
    { apply loop_stop; [lia| |done]. intros c Hc. unfold stop. rewrite Hc. apply orb_true_r. }
    rewrite drop_0. do 2 f_equal. apply IH; [lia| |fold out; simpl in Hf2; lia|].
    - apply is_ascii_drop. eapply consume_prefix_ci_ascii; eauto.
    - right. clear -Hst. destruct rest; [done|]. simpl in *. unfold stop. rewrite Hst. apply orb_true_r. }
  inversion Ha as [|? ? Hb128 Ha']; subst. unfold push_char in *.
  destruct (Z.ltb_spec (byte b) 128); [|lia]. cbn [app] in *. simpl in Hf2.
  destruct fuel2 as [|fuel2]; [lia|]. cbn [redact_loop].
  assert (match_bearer (b :: redact_loop fuel (Some b) s) = None) as ->.
  { unfold match_bearer. destruct (consume_prefix_ci _ _) as [r|] eqn:E; [|done].
    rewrite (copied_no_bearer fuel b s) by (auto; lia). done. }
  assert (match_key prev2 (b :: redact_loop fuel (Some b) s) SECRET_QUERY_KEYS = None) as ->.
  { destruct (prev_ok prev2) eqn:P2; [|by apply match_key_prev]. apply match_key_none.
    intros key Hin. destruct Hp as [Hp|Hs].
    - apply (copied_no_key prev); auto. lia.
    - simpl in Hs. apply key_head_no_match; [by apply stop_facts|done]. }
  unfold push_char. destruct (Z.ltb_spec (byte b) 128); [|lia]. cbn [app]. f_equal.
  apply IH; [lia|done|lia|by left].
Qed.

(** C36: in the output of [redact], every secret query key (at the start of
    the text or after a separator) and every bearer header is followed by
    REDACTED and then by the end of the text or a byte that ends a value: no
    byte of the value up to the first separator is left.  What the code does
    not regard as the value stays: what follows a separator, so a quoted value
    ([redact_quoted_value_stays]). *)
Theorem redact_clean msg : clean None (redact msg).
Proof.
  unfold redact. destruct (existsb _ _) eqn:Hk; cbn [negb andb].
  - by apply redact_loop_clean.
  - destruct (contains "bearer" (to_ascii_lowercase msg)) eqn:Hb; cbn [negb].
    + by apply redact_loop_clean.
    + by apply (fast_path_clean []).
Qed.

(** Redacting an ASCII message a second time changes nothing. *)
Theorem redact_idempotent msg : is_ascii msg -> redact (redact msg) = redact msg.
Proof.
  intros Ha.
  assert (forall m, redact m = m \/ redact m = redact_loop (length m) None m) as Hc.
  { intros m. unfold redact. destruct (negb _ && negb _); auto. }
  destruct (Hc msg) as [E|E]; rewrite !E; [done|].
  destruct (Hc (redact_loop (length msg) None msg)) as [-> | ->]; [done|].
  by apply redact_loop_idem; [lia| |lia|left].
Qed.

Lemma redact_idempotent_witness :
  redact (redact "url ?sig=abc&x=1 Bearer t") = lit "url ?sig=REDACTED&x=1 Bearer REDACTED".
Proof.
  rewrite (redact_idempotent (lit "url ?sig=abc&x=1 Bearer t")); [vm_compute; reflexivity|].
  apply Forall_forall. intros c Hc. 
  assert (forallb (fun c => byte c <? 128) (lit "url ?sig=abc&x=1 Bearer t") = true) as H by reflexivity.
  rewrite forallb_forall in H. apply Z.ltb_lt, H. by apply list_elem_of_In.
Defined.

(** The same is false outside ASCII: the first pass re-encodes every byte of
    a multi-byte character, and so does the second. *)
Example redact_not_idempotent_utf8 :
  let m := byte_of 195 :: byte_of 169 :: lit " sig=x" in redact (redact m) <> redact m.
Proof. vm_compute. discriminate. Qed.

(** A quoted value ends at once, so it stays in the output. *)
Example redact_quoted_value_stays :
  redact ("sig=" ++ DQUOTE :: lit "abc") = "sig=REDACTED" ++ DQUOTE :: lit "abc".
Proof. vm_compute. reflexivity. Qed.
