(* ===== verification/Errors.v ===== *)
(** * [src/error.rs]: the error type every fallible operation returns.

    Messages are kept: the tests of the repository and several theorems
    (which blob a merge error names, which row an update error names) read
    them.  The last constructor is not a variant of the Rust enum: it stands
    for a Rust panic ([expect], an index out of bounds), which pgrx turns
    into a Postgres ERROR; theorems show where it cannot occur.  The payloads of the [Parquet], [Arrow] and [Io] variants are the
    rendered texts of errors of crates outside the repository. *)

From S2P Require Import Prelude RustStr Redact.
Local Open Scope Z_scope.

Inductive FdwError : Type :=
| InvalidOption (msg : str)
| MissingOption (name : str)
| Azure (msg : str)
| Parquet (msg : str)
| Arrow (msg : str)
| Io (msg : str)
| UnsupportedType (pg_type arrow_type : str)
| SchemaMismatch (msg : str)
| ConcurrentUpdate (blob reason : str)
| RustPanic (msg : str).

#[export] Instance FdwError_eq_dec : EqDecision FdwError.
Proof. solve_decision. Defined.

Abbreviation FdwResult := (Result FdwError).

(** The [Display] text ([#[error("...")]] attributes). *)
Definition display (e : FdwError) : str :=
  match e with
  | InvalidOption m => "invalid option: " ++ m
  | MissingOption m => "missing required option: " ++ m
  | Azure m => "azure storage error: " ++ m
  | Parquet m => "parquet error: " ++ m
  | Arrow m => "arrow error: " ++ m
  | Io m => "io error: " ++ m
  | UnsupportedType p a => "unsupported type mapping: pg " ++ p ++ " ↔ arrow " ++ a
  | SchemaMismatch m => "schema mismatch: " ++ m
  | ConcurrentUpdate b r => "concurrent update on blob " ++ b ++ ": " ++ r
  | RustPanic m => m
  end.

(** [FdwError::azure] and [FdwError::azure_ctx]: SDK texts are redacted. *)
Definition azure_err (e : str) : FdwError := Azure (redact e).
Definition azure_ctx (ctx e : str) : FdwError := Azure (redact (ctx ++ ": " ++ e)).

(** What [raise] reports to Postgres: an SQLSTATE and a redacted message. *)
Record PgReport := mkPgReport { sqlstate : str; report_msg : str }.

Definition raise (e : FdwError) : PgReport :=
  let msg := redact (display e) in
  match e with
  | ConcurrentUpdate _ _ => mkPgReport "40001" msg
  | _ => mkPgReport "XX000" msg
  end.
