(* ===== verification/RowId.v ===== *)
(** * [src/fdw/modify/rowid.rs]: the synthetic ctid.

    A ctid packs a 32-bit [blob_id] (an index into a table of 65536-row
    chunks) and a 16-bit row offset within the chunk.  Fields are machine
    words: [blob_id] is a [u32], [offset] a [u16], absolute rows are [u64]. *)

From S2P Require Import Prelude.
Local Open Scope Z_scope.

Definition CHUNK_ROWS : Z := 65536.

Record RowId := mkRowId { blob_id : Z; offset : Z }.

(** Postgres' [ItemPointerData]: two halves of the block number, a position. *)
Record ItemPointerData := mkItemPointer { bi_hi : Z; bi_lo : Z; ip_posid : Z }.

#[export] Instance RowId_eq_dec : EqDecision RowId.
Proof. solve_decision. Defined.

Definition from_absolute (blob_base_id abs_row : Z) : RowId :=
  let chunk := as_u32 (abs_row / CHUNK_ROWS) in
  let off := as_u16 (abs_row mod CHUNK_ROWS) in
  {| blob_id := saturating_add_u32 blob_base_id chunk; offset := off |}.

Definition to_ctid (r : RowId) : ItemPointerData :=
  {| bi_hi := as_u16 (Z.shiftr (blob_id r) 16);
     bi_lo := as_u16 (Z.land (blob_id r) 65535);
     ip_posid := offset r |}.

Definition from_ctid (c : ItemPointerData) : RowId :=
  {| blob_id := Z.lor (as_u32 (Z.shiftl (bi_hi c) 16)) (bi_lo c);
     offset := ip_posid c |}.

(** [self.blob_id - blob_base_id]: a [u32] subtraction, which panics (debug)
    or wraps (release) below zero; release semantics. *)
Definition chunk_index_within_blob (r : RowId) (blob_base_id : Z) : Z :=
  as_u32 (blob_id r - blob_base_id).

Definition absolute_row_within_blob (r : RowId) (blob_base_id : Z) : Z :=
  chunk_index_within_blob r blob_base_id * CHUNK_ROWS + offset r.

(** ** Well-formed row ids are the machine-representable ones. *)

Definition rowid_wf (r : RowId) : Prop := is_u32 (blob_id r) /\ is_u16 (offset r).

#[export] Hint Unfold CHUNK_ROWS rowid_wf : fdw_int.

Lemma from_absolute_wf base row :
  is_u32 base -> 0 <= row -> rowid_wf (from_absolute base row).
Proof. unfold from_absolute, rowid_wf; simpl. int_lia. Qed.

Lemma from_absolute_exact base row :
  is_u32 base -> 0 <= row -> base + row / CHUNK_ROWS <= u32_max ->
  from_absolute base row = mkRowId (base + row / CHUNK_ROWS) (row mod CHUNK_ROWS).
Proof.
  intros Hb Hr Hs. unfold from_absolute.
  assert (0 <= row / CHUNK_ROWS) by int_lia.
  assert (0 <= row mod CHUNK_ROWS <= u16_max) by int_lia.
  rewrite as_u16_id by done. rewrite as_u32_id by int_lia.
  rewrite saturating_add_u32_id; [done | int_lia..].
Qed.

(** The two 16-bit halves of a block number reassemble it. *)
Lemma split_join_u32 b :
  is_u32 b -> Z.lor (as_u32 (Z.shiftl (as_u16 (Z.shiftr b 16)) 16)) (as_u16 (Z.land b 65535)) = b.
Proof.
  intros Hb. rewrite Z.shiftr_div_pow2, Z.shiftl_mul_pow2 by lia.
  change 65535 with (Z.ones 16). rewrite Z.land_ones by lia.
  rewrite !as_u16_id by int_lia. rewrite as_u32_id by int_lia.
  rewrite <- Z.shiftl_mul_pow2 by lia.
  apply Z.bits_inj'. intros n Hn. rewrite Z.lor_spec.
  destruct (Z.lt_ge_cases n 16).
  - rewrite Z.shiftl_spec_low, Z.mod_pow2_bits_low by lia. done.
  - rewrite Z.shiftl_spec, Z.mod_pow2_bits_high, orb_false_r by lia.
    rewrite <- Z.shiftr_div_pow2, Z.shiftr_spec by lia. f_equal. lia.
Qed.

Lemma ctid_roundtrip r : rowid_wf r -> from_ctid (to_ctid r) = r.
Proof.
  intros [Hb Ho]. destruct r as [b o]. unfold from_ctid, to_ctid; simpl in *.
  by rewrite split_join_u32.
Qed.

(** A well-formed [ItemPointerData] has three 16-bit fields. *)
Definition item_pointer_wf (c : ItemPointerData) : Prop :=
  is_u16 (bi_hi c) /\ is_u16 (bi_lo c) /\ is_u16 (ip_posid c).

Lemma to_ctid_wf r : rowid_wf r -> item_pointer_wf (to_ctid r).
Proof.
  intros [Hb Ho]. unfold item_pointer_wf, to_ctid; simpl. repeat split; int_lia.
Qed.

Lemma absolute_row_from_absolute base row :
  is_u32 base -> 0 <= row -> base + row / CHUNK_ROWS <= u32_max ->
  absolute_row_within_blob (from_absolute base row) base = row.
Proof.
  intros Hb Hr Hs. rewrite from_absolute_exact by done.
  unfold absolute_row_within_blob, chunk_index_within_blob; simpl.
  replace (base + row / CHUNK_ROWS - base) with (row / CHUNK_ROWS) by lia.
  assert (0 <= row / CHUNK_ROWS) by int_lia.
  rewrite as_u32_id by int_lia. int_lia.
Qed.
