(* ===== verification/Options.v ===== *)
(** * [src/fdw/options.rs], [src/azure/auth.rs] (parsing) and
    [src/parquet_io/writer.rs] ([Compression]): option parsers and validators.

    SERVER, USER MAPPING and FOREIGN TABLE options arrive as key/value pairs;
    the parsers fold over them, last value winning, and validate the result.
    [url::Url::parse] is outside the repository and is a parameter. *)

From S2P Require Import Prelude RustStr Redact Errors.
Local Open Scope Z_scope.

(** ** Enumerations *)

Inductive Compression := CNone | Snappy | Zstd | Gzip.
Inductive PgPartitionType := PInt2 | PInt4 | PInt8 | PText | PDate.
Inductive AuthMethod := ManagedIdentity | AadServicePrincipal | SasUrl.

#[export] Instance Compression_eq_dec : EqDecision Compression.
Proof. solve_decision. Defined.
#[export] Instance PgPartitionType_eq_dec : EqDecision PgPartitionType.
Proof. solve_decision. Defined.
#[export] Instance AuthMethod_eq_dec : EqDecision AuthMethod.
Proof. solve_decision. Defined.

(** [match s { "a" | "b" => ..}] on string literals. *)
Definition is_one_of (s : str) (l : list string) : bool := existsb (fun x => str_eqb s (lit x)) l.

Definition Compression_parse (s : str) : FdwResult Compression :=
  let l := to_ascii_lowercase s in
  if is_one_of l ["none"; ""]%string then Ok CNone
  else if is_one_of l ["snappy"]%string then Ok Snappy
  else if is_one_of l ["zstd"]%string then Ok Zstd
  else if is_one_of l ["gzip"]%string then Ok Gzip
  else Err (InvalidOption ("compression='" ++ l ++ "'")).

(** parquet's codecs, with their levels where they have one. *)
Inductive PqCompression :=
| UNCOMPRESSED | SNAPPY | GZIP (level : Z) | ZSTD (level : Z) | OtherCodec (name : str).

(** [Compression::to_pq]; the levels are the codecs' defaults, an argument
    because the crate fixes them. *)
Definition to_pq (gzip_default zstd_default : Z) (c : Compression) : PqCompression :=
  match c with
  | CNone => UNCOMPRESSED | Snappy => SNAPPY
  | Zstd => ZSTD zstd_default | Gzip => GZIP gzip_default
  end.

Definition from_parquet (c : PqCompression) : Compression :=
  match c with
  | UNCOMPRESSED => CNone | SNAPPY => Snappy | GZIP _ => Gzip | ZSTD _ => Zstd
  | OtherCodec _ => CNone
  end.

Definition PgPartitionType_parse (s : str) : FdwResult PgPartitionType :=
  let l := to_ascii_lowercase s in
  if is_one_of l ["int2"; "smallint"]%string then Ok PInt2
  else if is_one_of l ["int4"; "integer"; "int"]%string then Ok PInt4
  else if is_one_of l ["int8"; "bigint"]%string then Ok PInt8
  else if is_one_of l ["text"]%string then Ok PText
  else if is_one_of l ["date"]%string then Ok PDate
  else Err (InvalidOption ("partition_keys: type '" ++ l ++
         "' not supported in v1 (supported: int2, int4, int8, text, date)")).

Definition parse_auth_method (s : str) : FdwResult AuthMethod :=
  if is_one_of s ["managed_identity"]%string then Ok ManagedIdentity
  else if is_one_of s ["aad_sp"]%string then Ok AadServicePrincipal
  else if is_one_of s ["sas_url"]%string then Ok SasUrl
  else if is_one_of s ["account_key"]%string then
    Err (InvalidOption "auth_method='account_key' is not supported by azure_storage_blob 1.0; generate a container SAS client-side and use auth_method='sas_url'")
  else Err (InvalidOption ("auth_method='" ++ s ++ "'")).

(** ** Names and endpoints *)

Definition ALLOWED_ENDPOINT_SUFFIXES : list str :=
  map lit ["blob.core.windows.net"; "dfs.core.windows.net"; "blob.core.chinacloudapi.cn";
           "dfs.core.chinacloudapi.cn"; "blob.core.usgovcloudapi.net"; "dfs.core.usgovcloudapi.net";
           "blob.core.cloudapi.de"; "dfs.core.cloudapi.de"; "127.0.0.1:10000"; "localhost:10000"]%string.

Definition len_between (lo hi : Z) (s : str) : bool :=
  (lo <=? Z.of_nat (length s)) && (Z.of_nat (length s) <=? hi).

Definition validate_account_name (name : str) : FdwResult unit :=
  if negb (len_between 3 24 name)
     || negb (forallb (fun c => is_ascii_lowercase c || is_ascii_digit c) name)
  then Err (InvalidOption ("account_name must be 3-24 lowercase alphanumeric characters (got '" ++ name ++ "')"))
  else Ok tt.

Definition validate_container_name (name : str) : FdwResult unit :=
  let ok := len_between 3 63 name
            && forallb (fun c => is_ascii_lowercase c || is_ascii_digit c || ascii_eqb c "-") name
            && negb (starts_with "-" name) && negb (ends_with "-" name) && negb (contains "--" name) in
  if negb ok
  then Err (InvalidOption ("container must be 3-63 chars of [a-z0-9-], no leading/trailing or doubled '-' (got '" ++ name ++ "')"))
  else Ok tt.

Definition validate_blob_pattern (pattern field_name : str) : FdwResult unit :=
  if str_eqb pattern [] then Err (InvalidOption (field_name ++ " is empty"))
  else if starts_with "/" pattern then
    Err (InvalidOption (field_name ++ " must be a blob name within the container, not an absolute path"))
  else if existsb (fun seg => str_eqb seg "..") (split_on "/" pattern) then
    Err (InvalidOption (field_name ++ " must not contain '..' path segments"))
  else Ok tt.

Definition validate_endpoint (endpoint : str) : FdwResult unit :=
  if contains_char "/" endpoint || contains_char "@" endpoint || contains_char "?" endpoint then
    Err (InvalidOption ("endpoint must be a bare host(:port), not a URL (got '" ++ endpoint ++ "')"))
  else if negb (existsb (fun allowed => eq_ignore_ascii_case endpoint allowed) ALLOWED_ENDPOINT_SUFFIXES) then
    Err (InvalidOption ("endpoint '" ++ endpoint ++ "' is not in the allowlist of known Azure cloud suffixes"))
  else Ok tt.

(** ** IP addresses ([std::net]'s parser) *)

Inductive IpAddr := V4 (o0 o1 o2 o3 : Z) | V6 (segments : list Z).

Definition hex_digit (c : ascii) : option Z :=
  let z := byte (to_lower c) in
  if is_ascii_digit c then Some (byte c - 48)
  else if (97 <=? z) && (z <=? 102) then Some (z - 87) else None.

(** [read_number]: at most [max] digits of the radix, value below [bound],
    a leading zero only where allowed. *)
Fixpoint read_digits (dig : ascii -> option Z) (radix bound : Z) (max : nat) (count : nat) (acc : Z) (s : str)
    : option (nat * Z * str) :=
  match s with
  | [] => Some (count, acc, [])
  | c :: s' =>
      match dig c with
      | None => Some (count, acc, s)
      | Some d =>
          match max with
          | O => None
          | S max' =>
              if acc * radix + d <? bound then read_digits dig radix bound max' (S count) (acc * radix + d) s'
              else None
          end
      end
  end.

Definition read_number (dig : ascii -> option Z) (radix bound : Z) (max : nat) (allow_zero_prefix : bool) (s : str)
    : option (Z * str) :=
  match read_digits dig radix bound max 0 0 s with
  | Some (count, v, r) =>
      if (count =? 0)%nat then None
      else if negb allow_zero_prefix && starts_with "0" s && (1 <? count)%nat then None
      else Some (v, r)
  | None => None
  end.

Definition read_sep (c : ascii) (i : nat) (s : str) : option str :=
  if (i =? 0)%nat then Some s
  else match s with a :: s' => if ascii_eqb a c then Some s' else None | [] => None end.

Fixpoint read_octets (n i : nat) (s : str) : option (list Z * str) :=
  match n with
  | O => Some ([], s)
  | S n' =>
      s1 ← read_sep "." i s;
      '(v, s2) ← read_number parse_digit 10 256 3 false s1;
      '(vs, s3) ← read_octets n' (S i) s2;
      Some (v :: vs, s3)
  end.

(** [read_groups]: 16-bit groups separated by ':', with an IPv4 tail. *)
Fixpoint read_groups (limit i : nat) (s : str) : list Z * bool * str :=
  match limit with
  | O => ([], false, s)
  | S limit' =>
      match (if (limit' =? 0)%nat then None else s1 ← read_sep ":" i s; read_octets 4 0 s1) with
      | Some ([a; b; c; d], r) => ([a * 256 + b; c * 256 + d], true, r)
      | _ =>
          match (s1 ← read_sep ":" i s; read_number hex_digit 16 65536 4 true s1) with
          | Some (g, r) => let '(gs, v4, r') := read_groups limit' (S i) r in (g :: gs, v4, r')
          | None => ([], false, s)
          end
      end
  end.

Definition read_ipv6 (s : str) : option (list Z * str) :=
  let '(head, v4, r) := read_groups 8 0 s in
  if (length head =? 8)%nat then Some (head, r)
  else if v4 then None
  else
    r' ← strip_prefix "::" r;
    let '(tail, _, r'') := read_groups (8 - (length head + 1)) 0 r' in
    Some (head ++ replicate (8 - length head - length tail) 0 ++ tail, r'').

Definition parse_ip (s : str) : option IpAddr :=
  match read_octets 4 0 s with
  | Some ([a; b; c; d], r) => match r with [] => Some (V4 a b c d) | _ => None end
  | _ => match read_ipv6 s with Some (g, []) => Some (V6 g) | _ => None end
  end.

Definition is_private_or_link_local (host : str) : bool :=
  match parse_ip host with
  | None => false
  | Some (V4 a b c d) =>
      (a =? 127) || ((a =? 169) && (b =? 254))
      || ((a =? 10) || ((a =? 172) && (16 <=? b) && (b <=? 31)) || ((a =? 192) && (b =? 168)))
      || ((a =? 0) && (b =? 0) && (c =? 0) && (d =? 0))
      || ((a =? 255) && (b =? 255) && (c =? 255) && (d =? 255))
      || ((224 <=? a) && (a <=? 239))
      || ((a =? 100) && (64 <=? b) && (b <? 128))
  | Some (V6 g) =>
      let s0 := hd 0 g in
      bool_decide (g = [0; 0; 0; 0; 0; 0; 0; 1]) || bool_decide (g = [0; 0; 0; 0; 0; 0; 0; 0])
      || (Z.land s0 65280 =? 65280)
      || (Z.land s0 65472 =? 65152)
      || (Z.land s0 65024 =? 64512)
  end.

(** ** SAS URLs *)

Record Url := mkUrl { scheme : str; host_str : option str }.

(** The host part of an allowlisted suffix, without its port. *)
Definition bare_suffix (sfx : str) : str :=
  let s := to_ascii_lowercase sfx in hd s (split_on ":" s).

Definition is_loopback (host : str) : bool := is_one_of host ["127.0.0.1"; "::1"; "localhost"]%string.

Definition host_allowed (host : str) : bool :=
  existsb (fun sfx => let bare := bare_suffix sfx in
             str_eqb host bare || ends_with ("." ++ bare) host) ALLOWED_ENDPOINT_SUFFIXES.

Definition validate_sas_url (url_parse : str -> Result str Url) (sas : str) : FdwResult unit :=
  url ← map_err (fun e => InvalidOption ("sas_url is not a valid URL: " ++ e)) (url_parse sas);
  h ← ok_or (host_str url) (InvalidOption "sas_url has no host");
  let host := to_ascii_lowercase h in
  let loopback := is_loopback host in
  if negb (str_eqb (scheme url) "https") && negb (str_eqb (scheme url) "http" && loopback) then
    Err (InvalidOption ("sas_url must use https (got scheme '" ++ scheme url ++ "')"))
  else if negb loopback && is_private_or_link_local host then
    Err (InvalidOption ("sas_url host '" ++ host ++ "' is private/link-local — refusing to send credentials there"))
  else if negb (loopback || host_allowed host) then
    Err (InvalidOption ("sas_url host '" ++ host ++ "' is not an Azure storage host"))
  else Ok tt.

(** ** Parsed option sets *)

Record ServerOptions := mkServerOptions {
  account_name : str; endpoint : str; auth_method : AuthMethod; enable_pushdown : bool }.

Record UserMappingOptions := mkUserMapping { sas_url : option str }.

Record TableOptions := mkTableOptions {
  container : str; filename : str; compression : Compression; parallel_workers : option Z;
  partition_columns : list str; partition_keys : list (str * PgPartitionType);
  sorted : list str; files_in_order : bool }.

Definition DEFAULT_ENDPOINT : str := "blob.core.windows.net".

(** The local variables of [parse_server_options_from_slice]. *)
Record ServerAcc := mkServerAcc {
  sa_account : option str; sa_endpoint : str; sa_auth : option AuthMethod; sa_pushdown : bool }.

Definition server_option (a : ServerAcc) (kv : str * str) : FdwResult ServerAcc :=
  let '(k, v) := kv in
  if is_one_of k ["account_name"]%string then
    Ok (mkServerAcc (Some v) (sa_endpoint a) (sa_auth a) (sa_pushdown a))
  else if is_one_of k ["endpoint"]%string then
    Ok (mkServerAcc (sa_account a) v (sa_auth a) (sa_pushdown a))
  else if is_one_of k ["auth_method"]%string then
    m ← parse_auth_method v;
    Ok (mkServerAcc (sa_account a) (sa_endpoint a) (Some m) (sa_pushdown a))
  else if is_one_of k ["enable_pushdown"]%string then
    let l := to_ascii_lowercase v in
    if is_one_of l ["true"; "on"; "1"]%string then
      Ok (mkServerAcc (sa_account a) (sa_endpoint a) (sa_auth a) true)
    else if is_one_of l ["false"; "off"; "0"]%string then
      Ok (mkServerAcc (sa_account a) (sa_endpoint a) (sa_auth a) false)
    else Err (InvalidOption "enable_pushdown must be true|false")
  else Err (InvalidOption ("unknown server option '" ++ k ++ "'")).

Definition parse_server_options_from_slice (kv : list (str * str)) : FdwResult ServerOptions :=
  a ← foldM server_option (mkServerAcc None DEFAULT_ENDPOINT None true) kv;
  account ← ok_or (sa_account a) (MissingOption "account_name");
  auth ← ok_or (sa_auth a) (MissingOption "auth_method");
  let server := mkServerOptions account (sa_endpoint a) auth (sa_pushdown a) in
  _ ← validate_account_name (account_name server);
  _ ← validate_endpoint (endpoint server);
  Ok server.

Definition user_mapping_option (url_parse : str -> Result str Url) (o : UserMappingOptions) (kv : str * str)
    : FdwResult UserMappingOptions :=
  let '(k, v) := kv in
  if is_one_of k ["sas_url"]%string then
    _ ← validate_sas_url url_parse v; Ok (mkUserMapping (Some v))
  else if is_one_of k ["account_key"]%string then
    Err (InvalidOption "user mapping option 'account_key' is not supported; generate a container SAS client-side and set 'sas_url' instead")
  else Err (InvalidOption ("unknown user mapping option '" ++ k ++ "'")).

Definition parse_user_mapping_options_from_slice (url_parse : str -> Result str Url) (kv : list (str * str))
    : FdwResult UserMappingOptions :=
  foldM (user_mapping_option url_parse) (mkUserMapping None) kv.

Record TableAcc := mkTableAcc {
  ta_container : option str; ta_filename : option str; ta_compression : Compression;
  ta_workers : option Z; ta_pcols : option (list str);
  ta_pkeys : option (list (str * PgPartitionType)); ta_sorted : list str; ta_in_order : bool }.

(** A comma separated list: trimmed, empty entries dropped. *)
Definition comma_list (v : str) : list str :=
  List.filter (fun s => negb (str_eqb s [])) (map trim (split_on "," v)).

Definition partition_key_entry (acc : list (str * PgPartitionType)) (entry : str)
    : FdwResult (list (str * PgPartitionType)) :=
  let entry := trim entry in
  if str_eqb entry [] then Ok acc
  else
    '(name, ty_str) ← ok_or (split_once ":" entry)
       (InvalidOption ("partition_keys entry '" ++ entry ++ "' must be 'name:type'"));
    ty ← PgPartitionType_parse (trim ty_str);
    Ok (acc ++ [(trim name, ty)]).

Definition parse_partition_keys (v : str) : FdwResult (list (str * PgPartitionType)) :=
  foldM partition_key_entry [] (split_on "," v).

Definition parse_workers (v : str) : FdwResult Z :=
  n ← ok_or (parse_i32 v)
        (InvalidOption ("parallel_workers must be a non-negative integer; got '" ++ v ++ "'"));
  if n <? 0 then Err (InvalidOption ("parallel_workers must be non-negative; got " ++ show_Z n))
  else Ok n.

Definition table_option (a : TableAcc) (kv : str * str) : FdwResult TableAcc :=
  let '(k, v) := kv in
  let '(mkTableAcc c f z w pc pk so io) := a in
  if is_one_of k ["container"]%string then Ok (mkTableAcc (Some v) f z w pc pk so io)
  else if is_one_of k ["filename"]%string then Ok (mkTableAcc c (Some v) z w pc pk so io)
  else if is_one_of k ["compression"]%string then
    z' ← Compression_parse v; Ok (mkTableAcc c f z' w pc pk so io)
  else if is_one_of k ["parallel_workers"]%string then
    n ← parse_workers v; Ok (mkTableAcc c f z (Some n) pc pk so io)
  else if is_one_of k ["partition_columns"]%string then
    Ok (mkTableAcc c f z w (Some (comma_list v)) pk so io)
  else if is_one_of k ["partition_keys"]%string then
    ks ← parse_partition_keys v; Ok (mkTableAcc c f z w pc (Some ks) so io)
  else if is_one_of k ["sorted"]%string then
    Ok (mkTableAcc c f z w pc pk (comma_list v) io)
  else if is_one_of k ["files_in_order"]%string then
    Ok (mkTableAcc c f z w pc pk so (is_one_of (to_ascii_lowercase v) ["true"; "yes"; "1"; "on"]%string))
  else Err (InvalidOption ("unknown table option '" ++ k ++ "'")).

(** The pairwise comparison of the two partition lists. *)
Fixpoint check_partition_names (i : Z) (cols : list str) (keys : list (str * PgPartitionType)) : FdwResult unit :=
  match cols, keys with
  | col :: cols', (kname, _) :: keys' =>
      if negb (eq_ignore_ascii_case col kname) then
        Err (InvalidOption ("partition_columns/partition_keys disagree at index " ++ show_Z i ++ ": '" ++ col
               ++ "' vs '" ++ kname ++ "' (must be same name in same order)"))
      else check_partition_names (i + 1) cols' keys'
  | _, _ => Ok tt
  end.

Definition resolve_partitions (pc : option (list str)) (pk : option (list (str * PgPartitionType)))
    : FdwResult (list str * list (str * PgPartitionType)) :=
  match pc, pk with
  | None, None => Ok ([], [])
  | Some _, None => Err (InvalidOption "partition_columns set but partition_keys missing")
  | None, Some _ => Err (InvalidOption "partition_keys set but partition_columns missing")
  | Some cols, Some keys =>
      if negb (length cols =? length keys)%nat then
        Err (InvalidOption ("partition_columns (" ++ show_Z (Z.of_nat (length cols)) ++ " entries) and partition_keys ("
               ++ show_Z (Z.of_nat (length keys)) ++ " entries) must have the same length"))
      else _ ← check_partition_names 0 cols keys; Ok (cols, keys)
  end.

Definition check_sorted (so : list str) (io : bool) : FdwResult unit :=
  match bool_decide (so = []), io with
  | false, false => Err (InvalidOption "'sorted' is set but 'files_in_order' is missing or false; both must be set together")
  | true, true => Err (InvalidOption "'files_in_order' is true but 'sorted' is empty; both must be set together")
  | _, _ => Ok tt
  end.

Definition parse_table_options_from_slice (kv : list (str * str)) : FdwResult TableOptions :=
  a ← foldM table_option (mkTableAcc None None Snappy None None None [] false) kv;
  fname ← ok_or (ta_filename a) (MissingOption "filename");
  _ ← validate_blob_pattern fname "filename";
  cont ← ok_or (ta_container a) (MissingOption "container");
  _ ← validate_container_name cont;
  '(pc, pk) ← resolve_partitions (ta_pcols a) (ta_pkeys a);
  _ ← check_sorted (ta_sorted a) (ta_in_order a);
  Ok (mkTableOptions cont fname (ta_compression a) (ta_workers a) pc pk (ta_sorted a) (ta_in_order a)).

Definition validate_combo (server : ServerOptions) (um : UserMappingOptions) : FdwResult unit :=
  match auth_method server, sas_url um with
  | SasUrl, None => Err (MissingOption "sas_url")
  | AadServicePrincipal, Some _ => Err (InvalidOption "auth_method='aad_sp' must not set user mapping option 'sas_url'")
  | _, _ => Ok tt
  end.

(** ** The SQL validator *)

(** The catalogs an option list can come from. *)
Inductive Catalog := ForeignDataWrapperRelationId | ForeignServerRelationId | UserMappingRelationId
                   | ForeignTableRelationId | OtherCatalog (oid : Z).

Definition kv_entry (entry : str) : FdwResult (str * str) :=
  ok_or (split_once "=" entry)
    (InvalidOption ("malformed option '" ++ redact entry ++ "' (expected key=value)")).

Definition parse_kv_list (options : list (option str)) : FdwResult (list (str * str)) :=
  mapM_res kv_entry (omap id options).

Definition validate (url_parse : str -> Result str Url) (options : list (option str)) (catalog : Catalog) : FdwResult unit :=
  kv ← parse_kv_list options;
  match catalog with
  | ForeignDataWrapperRelationId =>
      match kv with
      | (k, _) :: _ => Err (InvalidOption ("unknown foreign-data-wrapper option '" ++ k ++ "'"))
      | [] => Ok tt
      end
  | ForeignServerRelationId => _ ← parse_server_options_from_slice kv; Ok tt
  | UserMappingRelationId => _ ← parse_user_mapping_options_from_slice url_parse kv; Ok tt
  | ForeignTableRelationId => _ ← parse_table_options_from_slice kv; Ok tt
  | OtherCatalog _ => Ok tt
  end.

(** ** What the validators guarantee *)

Definition container_wf (c : str) : Prop :=
  3 <= Z.of_nat (length c) <= 63 /\
  Forall (fun a => is_ascii_lowercase a = true \/ is_ascii_digit a = true \/ a = "-"%char) c /\
  ~ (exists r, c = "-" ++ r) /\ ~ (exists r, c = r ++ "-") /\ ~ (exists a b, c = a ++ "--" ++ b).

Definition pattern_wf (p : str) : Prop :=
  p <> [] /\ ~ (exists r, p = "/" ++ r) /\ lit ".." ∉ split_on "/" p.

Definition table_wf (t : TableOptions) : Prop :=
  container_wf (container t) /\ pattern_wf (filename t) /\
  (forall n, parallel_workers t = Some n -> 0 <= n <= 2147483647) /\
  Forall2 (fun c k => eq_ignore_ascii_case c (fst k) = true) (partition_columns t) (partition_keys t) /\
  Forall (fun c => c <> []) (partition_columns t ++ sorted t) /\
  (sorted t <> [] <-> files_in_order t = true).

Lemma validate_container_name_Ok c : validate_container_name c = Ok tt <-> container_wf c.
Proof.
  unfold validate_container_name, container_wf, len_between.
  destruct (negb _) eqn:E.
  - split; [done|]. intros (Hl & Hc & Hs & He & Hd). exfalso.
    apply negb_true_iff in E. rewrite <- not_true_iff_false in E. apply E.
    rewrite !andb_true_iff, !negb_true_iff, <- !not_true_iff_false.
    rewrite starts_with_true, ends_with_true, contains_true. repeat split; try lia; try done.
    apply forallb_forall. intros x Hx. rewrite Forall_forall in Hc.
    apply list_elem_of_In, Hc in Hx as [Hx|[Hx| ->]]; [rewrite Hx; done|rewrite Hx, orb_true_r; done|].
    apply orb_true_r.
  - split; [intros _|done]. apply negb_false_iff in E.
    rewrite !andb_true_iff, !negb_true_iff, <- !not_true_iff_false in E.
    rewrite starts_with_true, ends_with_true, contains_true in E.
    destruct E as ((((Hl & Hc) & Hs) & He) & Hd). repeat split; try lia; try done.
    apply Forall_forall. intros x Hx. rewrite forallb_forall in Hc. apply list_elem_of_In, Hc in Hx.
    rewrite !orb_true_iff, ascii_eqb_eq in Hx. tauto.
Qed.

Lemma validate_blob_pattern_Ok p f : validate_blob_pattern p f = Ok tt <-> pattern_wf p.
Proof.
  unfold validate_blob_pattern, pattern_wf.
  destruct (str_eqb p []) eqn:E1; [apply str_eqb_eq in E1; split; [done|tauto]|].
  destruct (starts_with "/" p) eqn:E2.
  { rewrite starts_with_true in E2. split; [done|tauto]. }
  destruct (existsb _ _) eqn:E3.
  - split; [done|]. intros (_ & _ & H). destruct H.
    apply existsb_exists in E3 as (x & Hx & Ex). apply str_eqb_eq in Ex as ->. by apply list_elem_of_In.
  - split; [intros _|done]. split; [intros ->; done|]. split.
    + rewrite <- starts_with_true. congruence.
    + intros Hin. assert (existsb (fun seg => str_eqb seg "..") (split_on "/" p) = true); [|congruence].
      apply existsb_exists. exists (lit ".."). split; [by apply list_elem_of_In|by apply str_eqb_eq].
Qed.

Lemma check_partition_names_Ok i cols keys :
  length cols = length keys -> check_partition_names i cols keys = Ok tt ->
  Forall2 (fun c k => eq_ignore_ascii_case c (fst k) = true) cols keys.
Proof.
  revert i keys. induction cols as [|c cols IH]; intros i [|[k ty] keys] Hl H; try done.
  cbn [check_partition_names] in H. destruct (eq_ignore_ascii_case c k) eqn:E; [|done].
  constructor; [done|]. eapply IH; [simpl in Hl; lia|exact H].
Qed.

Lemma parse_int_range lo hi s z : parse_int lo hi s = Some z -> lo <= z <= hi.
Proof.
  assert (forall v, (if (lo <=? v) && (v <=? hi) then Some v else None) = Some z -> lo <= z <= hi) as Hr.
  { intros v H. destruct (_ && _) eqn:E; simplify_eq. apply andb_true_iff in E. lia. }
  unfold parse_int. destruct s as [|c s]; [done|].
  destruct (ascii_eqb c "-"), (ascii_eqb c "+"); try (destruct s; [done|]).
  all: intros H; apply bind_Some in H as (v & _ & H); eauto.
Qed.

(** What the fold over the table options maintains. *)
Definition table_acc_wf (a : TableAcc) : Prop :=
  (forall n, ta_workers a = Some n -> 0 <= n <= 2147483647) /\
  (forall cs, ta_pcols a = Some cs -> Forall (fun c => c <> []) cs) /\
  Forall (fun c => c <> []) (ta_sorted a).

Lemma comma_list_nonempty v : Forall (fun c => c <> []) (comma_list v).
Proof.
  apply Forall_forall. intros x Hx. unfold comma_list in Hx. apply list_elem_of_In, filter_In in Hx as [_ Hx].
  intros ->. done.
Qed.

Lemma parse_workers_range v n : parse_workers v = Ok n -> 0 <= n <= 2147483647.
Proof.
  unfold parse_workers. intros H. inv_ok. destruct (Z.ltb_spec v0 0); inv_ok.
  apply parse_int_range in Hv. lia.
Qed.

Lemma table_option_wf a kv a' : table_acc_wf a -> table_option a kv = Ok a' -> table_acc_wf a'.
Proof.
  destruct a as [c f z w pc pk so io], kv as [k v]. intros (Hw & Hpc & Hso) H. unfold table_option in H.
  repeat case_match; inv_ok; (split; [|split]); simpl in *; try done.
  - intros n [= <-]. by eapply parse_workers_range.
  - intros cs [= <-]. apply comma_list_nonempty.
  - apply comma_list_nonempty.
Qed.

Lemma resolve_partitions_Ok pc pk cols keys :
  (forall cs, pc = Some cs -> Forall (fun c => c <> []) cs) ->
  resolve_partitions pc pk = Ok (cols, keys) ->
  Forall2 (fun c k => eq_ignore_ascii_case c (fst k) = true) cols keys /\ Forall (fun c => c <> []) cols.
Proof.
  intros Hpc H. unfold resolve_partitions in H. destruct pc as [cs|], pk as [ks|]; try done.
  - destruct (Nat.eqb_spec (length cs) (length ks)); [|done]. simpl in H. inv_ok. destruct v.
    split; [by eapply check_partition_names_Ok|by apply Hpc].
  - inv_ok. split; constructor.
Qed.

(** Every accepted FOREIGN TABLE option list yields a well-formed
    configuration: a legal container name, a relative pattern without parent
    segments, a worker cap in range, partition columns matched one to one
    with typed keys, and [sorted] present exactly when [files_in_order] is. *)
Theorem table_options_wf kv t : parse_table_options_from_slice kv = Ok t -> table_wf t.
Proof.
  unfold parse_table_options_from_slice. intros H. apply bind_Ok_inv in H as (a & Ha & H).
  apply (foldM_inv table_acc_wf) in Ha as (Hw & Hpc & Hso); [|by repeat split|intros; by eapply table_option_wf].
  apply bind_Ok_inv in H as (fname & _ & H). apply bind_Ok_inv in H as ([] & Hf & H).
  apply bind_Ok_inv in H as (cont & _ & H). apply bind_Ok_inv in H as ([] & Hc & H).
  apply bind_Ok_inv in H as ([pc pk] & Hp & H). apply bind_Ok_inv in H as ([] & Hs & H). inv_ok.
  apply validate_blob_pattern_Ok in Hf. apply validate_container_name_Ok in Hc.
  apply resolve_partitions_Ok in Hp as [HF Hne]; [|done].
  split; [done|]. split; [done|]. split; [done|]. split; [done|]. split; [by apply Forall_app|]. simpl.
  unfold check_sorted in Hs. case_bool_decide; destruct (ta_in_order a); done.
Qed.

Definition demo_table_options : list (str * str) :=
  [(lit "container", lit "data"); (lit "filename", lit "events/*/*.parquet");
   (lit "partition_columns", lit "year, region"); (lit "partition_keys", lit "Year:int4,region:text");
   (lit "sorted", lit "id"); (lit "files_in_order", lit "on"); (lit "parallel_workers", lit "4")].

Lemma table_options_wf_witness : exists t, parse_table_options_from_slice demo_table_options = Ok t /\ table_wf t.
Proof.
  eexists. split; [vm_compute; reflexivity|].
  apply (table_options_wf demo_table_options). vm_compute. reflexivity.
Defined.

(** The account name and the endpoint an accepted server carries. *)
Definition server_wf (s : ServerOptions) : Prop :=
  3 <= Z.of_nat (length (account_name s)) <= 24 /\
  Forall (fun a => is_ascii_lowercase a = true \/ is_ascii_digit a = true) (account_name s) /\
  exists allowed, allowed ∈ ALLOWED_ENDPOINT_SUFFIXES /\
    to_ascii_lowercase (endpoint s) = allowed.

Lemma allowed_lower a : a ∈ ALLOWED_ENDPOINT_SUFFIXES -> to_ascii_lowercase a = a.
Proof.
  assert (forallb (fun k => str_eqb (to_ascii_lowercase k) k) ALLOWED_ENDPOINT_SUFFIXES = true) as H
    by (vm_compute; reflexivity).
  rewrite forallb_forall in H. intros Hk. by apply list_elem_of_In, H, str_eqb_eq in Hk.
Qed.

(** An accepted server points at a known Azure (or Azurite) endpoint
    through an account name that cannot break out of the host label: the
    bearer token can only be sent to an allowlisted host. *)
Lemma server_options_wf kv s : parse_server_options_from_slice kv = Ok s -> server_wf s.
Proof.
  unfold parse_server_options_from_slice. intros H.
  apply bind_Ok_inv in H as (a & _ & H). apply bind_Ok_inv in H as (account & _ & H).
  apply bind_Ok_inv in H as (auth & _ & H). simpl in H.
  apply bind_Ok_inv in H as ([] & Ha & H). apply bind_Ok_inv in H as ([] & He & H). inv_ok.
  unfold validate_account_name, len_between in Ha.
  destruct (_ || _) eqn:E in Ha; [done|]. rewrite orb_false_iff, !negb_false_iff in E.
  destruct E as [El Ec]. split; [simpl; lia|]. split.
  - apply Forall_forall. intros x Hx. rewrite forallb_forall in Ec. apply list_elem_of_In, Ec in Hx.
    by apply orb_true_iff in Hx.
  - unfold validate_endpoint in He. destruct (_ || _ || _); [done|].
    destruct (existsb _ _) eqn:Ex; [|done]. apply existsb_exists in Ex as (x & Hx & Ex).
    apply list_elem_of_In in Hx. exists x. split; [done|]. apply str_eqb_eq in Ex. simpl. rewrite Ex.
    by apply allowed_lower.
Qed.

Lemma server_options_wf_witness :
  exists s, parse_server_options_from_slice
      [(lit "account_name", lit "acct1"); (lit "auth_method", lit "aad_sp"); (lit "endpoint", lit "BLOB.core.windows.net")]
    = Ok s /\ server_wf s.
Proof.
  eexists. split; [vm_compute; reflexivity|].
  apply (server_options_wf [(lit "account_name", lit "acct1"); (lit "auth_method", lit "aad_sp");
                            (lit "endpoint", lit "BLOB.core.windows.net")]). vm_compute. reflexivity.
Defined.

(** C39: a SAS URL is accepted only over https (http only for a loopback
    host), never for a private or link-local address, and only for a host
    that is, or is a subdomain of, an allowlisted storage host. *)
Theorem sas_url_accepted_host url_parse sas :
  validate_sas_url url_parse sas = Ok tt ->
  exists u h, url_parse sas = Ok u /\ host_str u = Some h /\
    let host := to_ascii_lowercase h in
    (scheme u = lit "https" \/ scheme u = lit "http" /\ is_loopback host = true) /\
    (is_loopback host = true \/
     is_private_or_link_local host = false /\
     exists sfx pre, sfx ∈ ALLOWED_ENDPOINT_SUFFIXES /\
       (host = bare_suffix sfx \/ host = pre ++ "." ++ bare_suffix sfx)).
Proof.
  intros H. unfold validate_sas_url in H. inv_ok. exists v, v0. split; [done|]. split; [done|]. simpl.
  destruct (negb (str_eqb (scheme v) "https") && _) eqn:E1; [done|].
  destruct (negb _ && is_private_or_link_local _) eqn:E2; [done|].
  destruct (negb (_ || host_allowed _)) eqn:E3; [done|]. split.
  - destruct (str_eqb (scheme v) "https") eqn:Es; [left; by apply str_eqb_eq|]. right.
    simpl in E1. apply negb_false_iff, andb_true_iff in E1 as [E1 ?]. split; [by apply str_eqb_eq|done].
  - apply negb_false_iff, orb_true_iff in E3. destruct (is_loopback (to_ascii_lowercase v0)); [by left|].
    right. simpl in E2. split; [done|]. destruct E3 as [?|E3]; [done|].
    unfold host_allowed in E3. apply existsb_exists in E3 as (sfx & Hin & E3).
    apply list_elem_of_In in Hin. apply orb_true_iff in E3 as [E3|E3].
    + exists sfx, []. split; [done|]. left. by apply str_eqb_eq.
    + apply ends_with_true in E3 as [r Hr]. exists sfx, r. split; [done|]. right. exact Hr.
Qed.

Definition demo_url_parse (s : str) : Result str Url :=
  Ok (mkUrl "https" (Some (lit "Acct.blob.core.windows.net"))).

Lemma sas_url_accepted_host_witness :
  exists u h, demo_url_parse "https://Acct.blob.core.windows.net/c?sig=x" = Ok u /\ host_str u = Some h.
Proof.
  destruct (sas_url_accepted_host demo_url_parse "https://Acct.blob.core.windows.net/c?sig=x") as (u & h & H1 & H2 & _).
  - vm_compute. reflexivity.
  - exists u, h. split; [exact H1|exact H2].
Defined.

(** The instance-metadata address and private ranges are refused. *)
Example imds_refused :
  validate_sas_url (fun _ => Ok (mkUrl "https" (Some (lit "169.254.169.254")))) "x" <> Ok tt.
Proof. vm_compute. discriminate. Qed.

(** Options rendered as key=value by Postgres are recovered exactly,
    whatever the values contain (only keys must be free of '='). *)
Lemma parse_kv_list_render kvs :
  Forall (fun kv : str * str => "="%char ∉ fst kv) kvs ->
  parse_kv_list (map (fun kv => Some (fst kv ++ "=" ++ snd kv)) kvs) = Ok kvs.
Proof.
  intros H. unfold parse_kv_list. apply mapM_res_Ok.
  induction H as [|[k v] l Hk _ IH]; simpl; constructor; [|done].
  unfold kv_entry. simpl in Hk.
  assert (split_once "=" (k ++ "="%char :: v) = Some (k, v)) as -> by by apply split_once_Some.
  done.
Qed.
