(* ===== verification/Catalog.v ===== *)
(** * [read_all_options] and [pg_list_to_kv] of [src/fdw/scan.rs]: a
    statement's options, read off the Postgres catalog.

    [src/fdw/modify/insert.rs] has the same two functions, for INSERT, UPDATE
    and DELETE.  The catalog is Postgres's: the three rows the accessors
    return are data of the model, [None] for a null pointer.  A string of the
    catalog is a byte list.

    The options in these rows were accepted by the SQL validator
    ([parquet_azure_fdw_validator]) when the object was created or altered;
    the theorem at the end joins the two ends. *)

From S2P Require Import Prelude RustStr Utf8 Redact Errors Options.
Local Open Scope Z_scope.

(** [DefElem]: [defGetString] is the elem's value, [None] for null. *)
Record DefElem := mkDefElem { defname : str; defGetString : option str }.

(** A [List] of [DefElem] pointers, [None] for a null list or cell. *)
Abbreviation DefList := (option (list (option DefElem))).

Record ForeignTable := mkForeignTable { ft_serverid : Z; ft_options : DefList }.
Record ForeignServer := mkForeignServer { fs_serverid : Z; fs_servername : str; fs_options : DefList }.
Record UserMapping := mkUserMappingRow { um_options : DefList }.

(** The accessors for the current user. *)
Record PgCatalog := mkPgCatalog {
  GetForeignTable : Z -> option ForeignTable;
  GetForeignServer : Z -> option ForeignServer;
  GetUserId : Z;
  GetUserMapping : Z -> Z -> option UserMapping }.

Definition def_to_kv (def : DefElem) : str * str :=
  (to_string_lossy (defname def), match defGetString def with None => [] | Some v => to_string_lossy v end).

Definition pg_list_to_kv (l : DefList) : list (str * str) :=
  match l with None => [] | Some defs => map def_to_kv (omap id defs) end.

Section Read.
Context (url_parse : str -> Result str Url) (db : PgCatalog).

Definition read_all_options (relid : Z) : FdwResult (ServerOptions * UserMappingOptions * TableOptions) :=
  table ← ok_or (GetForeignTable db relid) (InvalidOption ("foreign table oid " ++ show_Z relid ++ " not found"));
  server ← ok_or (GetForeignServer db (ft_serverid table)) (InvalidOption "foreign server not found");
  let um := GetUserMapping db (GetUserId db) (fs_serverid server) in
  let server_kv := pg_list_to_kv (fs_options server) in
  let table_kv := pg_list_to_kv (ft_options table) in
  let um_kv := match um with None => [] | Some um => pg_list_to_kv (um_options um) end in
  server_opts ← parse_server_options_from_slice server_kv;
  um_opts ← parse_user_mapping_options_from_slice url_parse um_kv;
  table_opts ← parse_table_options_from_slice table_kv;
  Ok (server_opts, um_opts, table_opts).

(** ** What the validator saw *)

(** Postgres hands an option list to the validator as [name=value] texts. *)
Definition option_text (def : DefElem) : option str := Some (defname def ++ "=" ++ default [] (defGetString def)).

Definition as_text_array (l : DefList) : list (option str) := map option_text (omap id (default [] l)).

(** A stored name has no '=' (it is what precedes the first one in the stored
    text), and the strings of the catalog are valid in the server encoding. *)
Definition stored_def (def : DefElem) : Prop :=
  ("="%char ∉ defname def) /\ utf8_valid (defname def) = true /\ utf8_valid (default [] (defGetString def)) = true.

(** An option list the validator accepted for the catalog it is stored in. *)
Definition accepted (c : Catalog) (l : DefList) : Prop :=
  Forall stored_def (omap id (default [] l)) /\ validate url_parse (as_text_array l) c = Ok tt.

Lemma def_to_kv_stored def : stored_def def -> def_to_kv def = (defname def, default [] (defGetString def)).
Proof.
  intros (_ & Hn & Hv). unfold def_to_kv. rewrite to_string_lossy_valid by done.
  destruct (defGetString def); [by rewrite to_string_lossy_valid|done].
Qed.

(** What is stored is what the validator parsed. *)
Lemma stored_kv l : Forall stored_def (omap id (default [] l)) -> parse_kv_list (as_text_array l) = Ok (pg_list_to_kv l).
Proof.
  intros H. unfold as_text_array.
  assert (pg_list_to_kv l = map (fun def => (defname def, default [] (defGetString def))) (omap id (default [] l))) as ->.
  { destruct l as [defs|]; [|done]. cbn [pg_list_to_kv default id] in *. apply map_ext_Forall.
    eapply Forall_impl; [exact H|]. intros def. apply def_to_kv_stored. }
  rewrite <- (parse_kv_list_render (map _ _)); [by rewrite map_map|].
  apply Forall_map. eapply Forall_impl; [exact H|]. by intros def (? & _).
Qed.

Lemma accepted_parse c l :
  accepted c l ->
  match c with
  | ForeignServerRelationId => exists s, parse_server_options_from_slice (pg_list_to_kv l) = Ok s
  | UserMappingRelationId => exists u, parse_user_mapping_options_from_slice url_parse (pg_list_to_kv l) = Ok u
  | ForeignTableRelationId => exists t, parse_table_options_from_slice (pg_list_to_kv l) = Ok t
  | _ => True
  end.
Proof.
  intros [Hs Hv]. unfold validate in Hv. rewrite stored_kv in Hv by done. cbn [mbind result_bind] in Hv.
  destruct c; try done; apply bind_Ok_inv in Hv as (v & Hv & _); eauto.
Qed.

(** The URL of an accepted user mapping was checked. *)
Definition um_wf (u : UserMappingOptions) : Prop :=
  forall sas, sas_url u = Some sas -> validate_sas_url url_parse sas = Ok tt.

Lemma user_mapping_wf kv u : parse_user_mapping_options_from_slice url_parse kv = Ok u -> um_wf u.
Proof.
  intros H. apply (foldM_inv um_wf) in H; [done|done|]. intros o [k v] o' _ Ho. unfold user_mapping_option in Ho.
  destruct (is_one_of k _); [|by destruct (is_one_of k _)]. apply bind_Ok_inv in Ho as ([] & Hv & [= <-]). by intros sas [= <-].
Qed.

(** C38: A statement never fails to read options the validator let in: for a
    foreign table whose own options, whose server's and whose user mapping's
    (if there is one) were accepted when they were stored, whatever their
    values contain, [read_all_options] succeeds; the table's options are
    well formed (relative pattern, legal container, partition lists aligned,
    [sorted] and [files_in_order] together), the server is an allow-listed
    endpoint under a legal account name and a SAS URL, if any, passed its
    check.  What is still refused when the statement starts is only the
    combination of the two: a [sas_url] server without one, and a service
    principal with one. *)
Theorem accepted_options_read relid table server :
  GetForeignTable db relid = Some table ->
  GetForeignServer db (ft_serverid table) = Some server ->
  accepted ForeignTableRelationId (ft_options table) ->
  accepted ForeignServerRelationId (fs_options server) ->
  (forall um, GetUserMapping db (GetUserId db) (fs_serverid server) = Some um ->
    accepted UserMappingRelationId (um_options um)) ->
  exists s u t, read_all_options relid = Ok (s, u, t) /\ server_wf s /\ um_wf u /\ table_wf t /\
    (validate_combo s u = Ok tt <->
       ~ (auth_method s = SasUrl /\ sas_url u = None) /\
       ~ (auth_method s = AadServicePrincipal /\ is_Some (sas_url u))).
Proof.
  intros Ht Hs Hat Has Hau. unfold read_all_options. rewrite Ht. cbn [ok_or mbind result_bind]. rewrite Hs. cbn [ok_or mbind result_bind].
  apply accepted_parse in Has as [s Hps], Hat as [t Hpt].
  assert (exists u, parse_user_mapping_options_from_slice url_parse
      match GetUserMapping db (GetUserId db) (fs_serverid server) with None => [] | Some um => pg_list_to_kv (um_options um) end = Ok u) as [u Hpu].
  { destruct (GetUserMapping _ _ _) as [um|]; [|by eexists]. by apply (accepted_parse UserMappingRelationId), Hau. }
  exists s, u, t. rewrite Hps, Hpu, Hpt. split; [done|]. split; [by eapply server_options_wf|].
  split; [by eapply user_mapping_wf|]. split; [by eapply table_options_wf|].
  unfold validate_combo, is_Some. destruct (auth_method s), (sas_url u); split; naive_solver.
Qed.

(** The two lookups that can fail, before any option is looked at. *)
Lemma read_all_options_missing relid :
  (GetForeignTable db relid = None ->
     read_all_options relid = Err (InvalidOption ("foreign table oid " ++ show_Z relid ++ " not found"))) /\
  (forall table, GetForeignTable db relid = Some table -> GetForeignServer db (ft_serverid table) = None ->
     read_all_options relid = Err (InvalidOption "foreign server not found")).
Proof. unfold read_all_options. split; [by intros ->|]. intros table -> Hs. cbn [ok_or mbind result_bind]. by rewrite Hs. Qed.

End Read.

(** ** A catalog *)

Definition def_of (kv : string * string) : option DefElem := Some (mkDefElem (lit kv.1) (Some (lit kv.2))).

Definition demo_catalog : PgCatalog := mkPgCatalog
  (fun relid => if relid =? 16400 then Some (mkForeignTable 7 (Some (map (fun kv => Some (mkDefElem kv.1 (Some kv.2))) demo_table_options))) else None)
  (fun oid => if oid =? 7 then Some (mkForeignServer 7 "az" (Some (map def_of [("account_name", "acct1"); ("auth_method", "sas_url")]%string))) else None)
  10
  (fun user _ => if user =? 10 then Some (mkUserMappingRow (Some [def_of ("sas_url", "https://acct.blob.core.windows.net/c?sig=a=b")%string])) else None).

Lemma accepted_options_read_witness :
  exists s u t, read_all_options demo_url_parse demo_catalog 16400 = Ok (s, u, t) /\ table_wf t /\ validate_combo s u = Ok tt.
Proof.
  destruct (accepted_options_read demo_url_parse demo_catalog 16400
    (mkForeignTable 7 (Some (map (fun kv => Some (mkDefElem kv.1 (Some kv.2))) demo_table_options)))
    (mkForeignServer 7 "az" (Some (map def_of [("account_name", "acct1"); ("auth_method", "sas_url")]%string))))
    as (s & u & t & Hr & _ & _ & Ht & Hc).
  1, 2: reflexivity.
  1, 2: (split; [repeat (apply Forall_cons; split; [split; [apply contains_char_not_elem; vm_compute; reflexivity|split; vm_compute; reflexivity]|]); apply Forall_nil; exact I|vm_compute; reflexivity]).
  - intros um [= <-]. split; [|vm_compute; reflexivity].
    repeat (apply Forall_cons; split; [split; [apply contains_char_not_elem; vm_compute; reflexivity|split; vm_compute; reflexivity]|]); apply Forall_nil; exact I.
  - exists s, u, t. split; [exact Hr|]. split; [exact Ht|]. apply Hc.
    vm_compute in Hr. injection Hr as <- <- <-. split; intros [H1 H2]; [discriminate H2|discriminate H1].
Defined.
