(* ===== verification/Externals.v ===== *)
(** * Interfaces of the crates outside the repository.

    The repository calls [arrow] (columnar arrays, record batches) and
    [roaring] (bitmaps of [u32]).  Their code is not part of it, so each is a
    class of operations with a class of laws stating the documented behaviour
    the repository relies on; the theorems about the repository are proved
    against the classes.  Section [Reference] gives one concrete instance of
    each, used by witnesses to show that the laws can hold together. *)

From S2P Require Import Prelude RustStr Errors.
Local Open Scope Z_scope.

(** ** Arrow data types and values *)

Inductive TimeUnit := Second | Millisecond | Microsecond | Nanosecond.

(** The [DataType] variants the code names; [OtherType] is any other. *)
Inductive DataType :=
| Boolean | Int16 | Int32 | Int64 | Float32 | Float64
| Utf8 | LargeUtf8 | Binary | LargeBinary | Date32
| Timestamp (unit : TimeUnit) (tz : option str)
| Decimal128 (precision scale : Z)
| OtherType (debug : str).

#[export] Instance TimeUnit_eq_dec : EqDecision TimeUnit.
Proof. solve_decision. Defined.
#[export] Instance DataType_eq_dec : EqDecision DataType.
Proof. solve_decision. Defined.

(** One non-null cell.  Floats are their IEEE bit patterns. *)
Inductive Value :=
| VBool (b : bool) | VI16 (z : Z) | VI32 (z : Z) | VI64 (z : Z)
| VF32 (bits : Z) | VF64 (bits : Z)
| VUtf8 (s : str) | VBinary (s : str) | VDate32 (days : Z)
| VTimestamp (us : Z) | VDecimal128 (unscaled : Z).

#[export] Instance Value_eq_dec : EqDecision Value.
Proof. solve_decision. Defined.

(** A cell is a value or NULL. *)
Abbreviation cell := (option Value).

Record Field := mkField { field_name : str; field_type : DataType; nullable : bool }.
Abbreviation Schema := (list Field).

Class ArrowApi := {
  ArrayRef : Type;
  array_type : ArrayRef -> DataType;
  array_cells : ArrayRef -> list cell;
  array_slice : ArrayRef -> nat -> nat -> ArrayRef;
  array_concat : list ArrayRef -> Result str ArrayRef;
  RecordBatch : Type;
  batch_columns : RecordBatch -> list ArrayRef;
  num_rows : RecordBatch -> nat;
  try_new : Schema -> list ArrayRef -> Result str RecordBatch;
  filter_record_batch : RecordBatch -> list bool -> Result str RecordBatch;
  (** [builder.finish()] of a builder of the given type. *)
  build_array : DataType -> list cell -> ArrayRef;
}.

(** [array.len()]. *)
Definition array_len `{ArrowApi} (a : ArrayRef) : nat := length (array_cells a).

(** Keep the positions whose mask bit is set. *)
Fixpoint mask_filter {A} (m : list bool) (l : list A) : list A :=
  match m, l with
  | b :: m', x :: l' => if b then x :: mask_filter m' l' else mask_filter m' l'
  | _, _ => []
  end.

(** Columns that [RecordBatch::try_new] accepts for a schema: same number,
    same types, one length, no NULL in a non-nullable field. *)
Definition conforms `{ArrowApi} (schema : Schema) (cols : list ArrayRef) (n : nat) : Prop :=
  cols <> [] /\
  Forall2 (fun f c => field_type f = array_type c /\ array_len c = n /\
                      (nullable f = false -> None ∉ array_cells c)) schema cols.

Class ArrowLaws (A : ArrowApi) : Prop := {
  slice_cells a off len : (off + len <= array_len a)%nat ->
    array_cells (array_slice a off len) = take len (drop off (array_cells a));
  build_cells t cs : array_cells (build_array t cs) = cs;
  build_type t cs : array_type (build_array t cs) = t;
  slice_type a off len : array_type (array_slice a off len) = array_type a;
  concat_ok a l : Forall (fun b => array_type b = array_type a) l ->
    exists r, array_concat (a :: l) = Ok r /\ array_type r = array_type a /\
              array_cells r = concat (map array_cells (a :: l));
  columns_len b : Forall (fun c => array_len c = num_rows b) (batch_columns b);
  try_new_ok s cols n : conforms s cols n ->
    exists b, try_new s cols = Ok b /\ batch_columns b = cols /\ num_rows b = n;
  try_new_sound s cols b : try_new s cols = Ok b ->
    conforms s cols (num_rows b) /\ batch_columns b = cols;
  filter_ok b m : length m = num_rows b ->
    exists b', filter_record_batch b m = Ok b' /\
      num_rows b' = length (List.filter id m) /\
      Forall2 (fun c c' => array_type c' = array_type c /\
                           array_cells c' = mask_filter m (array_cells c))
              (batch_columns b) (batch_columns b');
}.

(** A batch cannot be built with another number of columns than the schema. *)
Lemma try_new_count {A : ArrowApi} {AL : ArrowLaws A} s cols : length s <> length cols -> exists e, try_new s cols = Err e.
Proof.
  intros Hl. destruct (try_new s cols) as [b|e] eqn:E; [|eauto].
  apply try_new_sound in E as [[_ HF] _]. by apply Forall2_length in HF.
Qed.

(** ** Roaring bitmaps: sets of [u32] *)

Class RoaringApi := {
  Bitmap : Type;
  bm_empty : Bitmap;
  bm_insert : Z -> Bitmap -> Bitmap;
  bm_contains : Bitmap -> Z -> bool;
  (** [bm.range(lo..hi)]: the members in the half-open range, ascending. *)
  bm_range : Bitmap -> Z -> Z -> list Z;
}.

Class RoaringLaws (R : RoaringApi) : Prop := {
  bm_contains_empty x : bm_contains bm_empty x = false;
  bm_contains_insert x y b :
    bm_contains (bm_insert x b) y = bool_decide (x = y) || bm_contains b y;
  bm_range_elem b lo hi x : x ∈ bm_range b lo hi <-> lo <= x < hi /\ bm_contains b x = true;
}.

(** ** Reference instances: arrays are typed lists, bitmaps finite sets *)

Abbreviation RefArray := (DataType * list cell)%type.

Definition ref_rows (cols : list RefArray) : nat :=
  match cols with [] => O | c :: _ => length (snd c) end.

(** A column padded or cut to the batch's row count, so that every value of
    the type [list RefArray] is a well-formed batch. *)
Definition ref_fit (n : nat) (c : RefArray) : RefArray :=
  (fst c, take n (snd c ++ replicate n None)).
Arguments ref_fit : simpl never.

Definition ref_conforms (s : Schema) (cols : list RefArray) : bool :=
  bool_decide (cols <> []) &&
  bool_decide (Forall2 (fun f c => field_type f = fst c /\ length (snd c) = ref_rows cols /\
                          (nullable f = false -> None ∉ snd c)) s cols).

Definition ref_concat (l : list RefArray) : Result str RefArray :=
  match l with
  | [] => Err (lit "concat requires input of at least one array")
  | a :: _ =>
      if forallb (fun b => bool_decide (fst b = fst a)) l
      then Ok (fst a, concat (map snd l))
      else Err (lit "It is not possible to concatenate arrays of different data types.")
  end.

#[export] Instance ref_arrow : ArrowApi := {
  ArrayRef := RefArray;
  array_type := fst;
  array_cells := snd;
  array_slice a off len := (fst a, take len (drop off (snd a)));
  array_concat := ref_concat;
  RecordBatch := list RefArray;
  batch_columns b := map (ref_fit (ref_rows b)) b;
  num_rows := ref_rows;
  try_new s cols := if ref_conforms s cols then Ok cols else Err (lit "invalid batch");
  filter_record_batch b m :=
    Ok (map (fun c => (fst c, mask_filter m (snd (ref_fit (ref_rows b) c)))) b);
  build_array t cs := (t, cs);
}.

Lemma ref_fit_id n (c : RefArray) : length (snd c) = n -> ref_fit n c = c.
Proof.
  destruct c as [t l]; unfold ref_fit; simpl. intros <-.
  by rewrite take_app_length.
Qed.

Lemma ref_fit_length n c : length (snd (ref_fit n c)) = n.
Proof. unfold ref_fit; simpl. rewrite length_take, length_app, length_replicate. lia. Qed.

Lemma mask_filter_length {A} (m : list bool) (l : list A) :
  length m = length l -> length (mask_filter m l) = length (List.filter id m).
Proof.
  revert l. induction m as [|b m IH]; intros [|x l] H; simplify_eq/=; [done|].
  destruct b; simpl; by rewrite IH.
Qed.

Lemma mask_filter_app {A} m1 m2 (l1 l2 : list A) :
  length m1 = length l1 -> mask_filter (m1 ++ m2) (l1 ++ l2) = mask_filter m1 l1 ++ mask_filter m2 l2.
Proof.
  revert l1. induction m1 as [|b m IH]; intros [|x l] H; simplify_eq/=; [done|].
  rewrite IH by done. by destruct b.
Qed.

Lemma mask_filter_true {A} (l : list A) : mask_filter (replicate (length l) true) l = l.
Proof. induction l; simpl; by f_equal. Qed.

Lemma fit_all_id (cols : list RefArray) :
  Forall (fun c => length (snd c) = ref_rows cols) cols ->
  map (ref_fit (ref_rows cols)) cols = cols.
Proof.
  generalize (ref_rows cols) as n. intros n. induction 1 as [|c l Hc _ IH]; simpl; [done|].
  by rewrite ref_fit_id, IH.
Qed.

Lemma ref_conforms_rows s cols :
  ref_conforms s cols = true -> Forall (fun c => length (snd c) = ref_rows cols) cols.
Proof.
  unfold ref_conforms. rewrite andb_true_iff, !bool_decide_eq_true.
  generalize (ref_rows cols) as n. intros n [_ H].
  induction H as [|f c s' cs [_ [Hc _]] _ IH]; by constructor.
Qed.

(** The executable check gives the batch invariant of a reference batch. *)
Lemma ref_conforms_ok s (cols : list RefArray) :
  ref_conforms s cols = true ->
  conforms (H := ref_arrow) s (batch_columns (ArrowApi := ref_arrow) cols) (num_rows (ArrowApi := ref_arrow) cols).
Proof.
  intros H. unfold conforms. simpl. rewrite fit_all_id by by eapply ref_conforms_rows.
  unfold ref_conforms in H. rewrite andb_true_iff, !bool_decide_eq_true in H. done.
Qed.

Lemma ref_filter_rows (b : list RefArray) m :
  length m = ref_rows b ->
  let b' := map (fun c => (fst c, mask_filter m (snd (ref_fit (ref_rows b) c)))) b in
  Forall (fun c => length (snd c) = ref_rows b') b'.
Proof.
  intros Hm b'.
  assert (forall c, length (mask_filter m (snd (ref_fit (ref_rows b) c))) = length (List.filter id m)) as Hc.
  { intros c. apply mask_filter_length. by rewrite ref_fit_length. }
  assert (b <> [] -> ref_rows b' = length (List.filter id m)) as Hr.
  { subst b'. destruct b; [done|]. intros _. apply Hc. }
  apply Forall_map, Forall_forall. intros c Hin. cbn [snd]. rewrite Hc, Hr; [done|].
  intros ->. by apply elem_of_nil in Hin.
Qed.

Lemma ref_filter_columns (b : list RefArray) m :
  length m = ref_rows b ->
  let b' := map (fun c => (fst c, mask_filter m (snd (ref_fit (ref_rows b) c)))) b in
  Forall2 (fun c c' : RefArray => fst c' = fst c /\ snd c' = mask_filter m (snd c))
    (map (ref_fit (ref_rows b)) b) (map (ref_fit (ref_rows b')) b').
Proof.
  intros Hm b'. rewrite (fit_all_id b' (ref_filter_rows b m Hm)). subst b'.
  apply Forall2_fmap_l, Forall2_fmap_r, Forall_Forall2_diag, Forall_true. done.
Qed.

#[export] Instance ref_arrow_laws : ArrowLaws ref_arrow.
Proof.
  constructor; simpl; unfold conforms, array_len; simpl.
  - done.
  - done.
  - done.
  - done.
  - intros a l Hl. unfold ref_concat.
    match goal with |- context [forallb ?f ?x] => assert (forallb f x = true) as -> end.
    { apply forallb_forall. intros x Hx. apply bool_decide_eq_true.
      rewrite Forall_forall in Hl. by apply Hl, list_elem_of_In. }
    rewrite bool_decide_eq_true_2 by done. eauto.
  - intros b. generalize (ref_rows b) as n. intros n.
    induction b as [|c b IH]; simpl; constructor; [apply ref_fit_length | done].
  - intros s cols n [Hne H].
    assert (ref_rows cols = n) as Hn.
    { destruct H as [|f c s' cs [_ [Hc _]] _]; [done | exact Hc]. }
    assert (ref_conforms s cols = true) as Hc.
    { unfold ref_conforms. rewrite Hn, andb_true_iff, !bool_decide_eq_true. done. }
    rewrite Hc. eexists; split; [done|]. split; [|done].
    apply fit_all_id. by eapply ref_conforms_rows.
  - intros s cols b. destruct (ref_conforms s cols) eqn:E; [|done].
    intros [= <-]. pose proof (ref_conforms_ok s cols E) as Hc. unfold conforms, array_len in Hc. simpl in Hc.
    rewrite fit_all_id in Hc |- * by by eapply ref_conforms_rows. done.
  - intros b m Hm. eexists; split; [done|]. split.
    + destruct b as [|c b]; [by destruct m|].
      apply mask_filter_length. etrans; [exact Hm|]. symmetry. apply ref_fit_length.
    + apply (ref_filter_columns b m Hm).
Qed.

#[export] Instance ref_roaring : RoaringApi := {
  Bitmap := gset Z;
  bm_empty := ∅;
  bm_insert x b := {[x]} ∪ b;
  bm_contains b x := bool_decide (x ∈ b);
  bm_range b lo hi := filter (fun x => lo <= x < hi) (merge_sort Z.le (elements b));
}.

#[export] Instance ref_roaring_laws : RoaringLaws ref_roaring.
Proof.
  constructor; simpl.
  - intros x. apply bool_decide_eq_false. set_solver.
  - intros x y b. apply eq_true_iff_eq.
    rewrite orb_true_iff, !bool_decide_eq_true. set_solver.
  - intros b lo hi x. rewrite list_elem_of_filter, merge_sort_Permutation, elem_of_elements.
    by rewrite bool_decide_eq_true.
Qed.
