(* ===== verification/Kernel.v ===== *)
(** * [src/fdw/modify/kernel.rs]: the pure UPDATE/DELETE rewrite kernel.

    [apply_edits_batch] overrides columns of one record batch by splicing
    one-row arrays between slices, then drops deleted rows with a mask;
    [apply_edits] streams it over the batches of a blob with a running row
    offset.  The theorems relate both to a per-row specification. *)

From S2P Require Import Prelude RustStr Errors Externals.
Local Open Scope Z_scope.

Section Defs.
Context {A : ArrowApi} {R : RoaringApi}.

Record RowOverride := mkRowOverride { values : list (option ArrayRef) }.

Record BlobEdits := mkBlobEdits { deletes : Bitmap; updates : gmap Z RowOverride }.

(** [BlobEdits::default()]. *)
Definition BlobEdits_default : BlobEdits := mkBlobEdits bm_empty ∅.

(** [edits.updates.get(abs).and_then(|o| o.values.get(col_idx).and_then(|v| v.as_ref()))] *)
Definition override_at (e : BlobEdits) (col_idx : nat) (abs : Z) : option ArrayRef :=
  o ← updates e !! abs; mjoin (values o !! col_idx).

(** The sorted update keys inside the batch's absolute row range. *)
Definition batch_hits (e : BlobEdits) (base_offset end_ : Z) : list Z :=
  merge_sort Z.le
    (filter (fun k => base_offset <= k < end_) (map_to_list (updates e)).*1).

(** The loop over the hits that collects the pieces of one column. *)
Fixpoint splice_loop (e : BlobEdits) (col_idx : nat) (col : ArrayRef) (base_offset : Z)
    (hits : list Z) (cursor : Z) (pieces : list ArrayRef) : FdwResult (Z * list ArrayRef) :=
  match hits with
  | [] => Ok (cursor, pieces)
  | abs :: hits' =>
      let local := abs - base_offset in
      let pieces :=
        if cursor <? local
        then pieces ++ [array_slice col (Z.to_nat cursor) (Z.to_nat (local - cursor))]
        else pieces in
      match updates e !! abs with
      | None => Err (RustPanic (lit "present"))
      | Some ovr =>
          match mjoin (values ovr !! col_idx) with
          | Some replacement =>
              if bool_decide (array_len replacement = 1%nat)
              then splice_loop e col_idx col base_offset hits' (local + 1) (pieces ++ [replacement])
              else Err (SchemaMismatch
                     ("override array for col " ++ show_Z (Z.of_nat col_idx) ++ " abs row "
                      ++ show_Z abs ++ " has len=" ++ show_Z (Z.of_nat (array_len replacement))
                      ++ ", expected 1"))
          | None =>
              splice_loop e col_idx col base_offset hits' (local + 1)
                (pieces ++ [array_slice col (Z.to_nat local) 1])
          end
      end
  end.

(** One column of a batch with in-range overrides applied. *)
Definition splice_column (e : BlobEdits) (base_offset n : Z) (hits : list Z)
    (col_idx : nat) (col : ArrayRef) : FdwResult ArrayRef :=
  if negb (existsb (fun abs => match override_at e col_idx abs with Some _ => true | None => false end) hits)
  then Ok col
  else
    '(cursor, pieces) ← splice_loop e col_idx col base_offset hits 0 [];
    let pieces :=
      if cursor <? n
      then pieces ++ [array_slice col (Z.to_nat cursor) (Z.to_nat (n - cursor))]
      else pieces in
    map_err Arrow (array_concat pieces).

Fixpoint splice_columns (e : BlobEdits) (base_offset n : Z) (hits : list Z)
    (col_idx : nat) (cols : list ArrayRef) : FdwResult (list ArrayRef) :=
  match cols with
  | [] => Ok []
  | c :: cols' =>
      c' ← splice_column e base_offset n hits col_idx c;
      cs ← splice_columns e base_offset n hits (S col_idx) cols';
      Ok (c' :: cs)
  end.

(** [builder.set_bit(local, false)] for every deleted row of the range. *)
Definition clear_bit (base_offset : Z) (m : list bool) (abs : Z) : FdwResult (list bool) :=
  let local := Z.to_nat (as_u64 (abs - base_offset)) in
  if bool_decide (local < length m)%nat then Ok (<[local := false]> m)
  else Err (RustPanic (lit "set_bit out of range")).

Definition apply_edits_batch (batch : RecordBatch) (base_offset : Z) (schema : Schema)
    (edits : BlobEdits) : FdwResult RecordBatch :=
  let n := Z.of_nat (num_rows batch) in
  let end_ := base_offset + n in
  columns ←
    (if bool_decide (updates edits = ∅) then Ok (batch_columns batch)
     else
       let hits := batch_hits edits base_offset end_ in
       if bool_decide (hits = []) then Ok (batch_columns batch)
       else splice_columns edits base_offset n hits 0 (batch_columns batch));
  updated ← map_err Arrow (try_new schema columns);
  let lo := as_u32 base_offset in
  let hi := as_u32 (Z.min end_ u32_max) in
  match bm_range (deletes edits) lo hi with
  | [] => Ok updated
  | rng =>
      mask ← foldM (clear_bit base_offset) (replicate (num_rows batch) true) rng;
      map_err Arrow (filter_record_batch updated mask)
  end.

(** The streaming wrapper: batch by batch with a running absolute offset. *)
Fixpoint apply_edits_from (offset : Z) (input : list RecordBatch) (schema : Schema)
    (edits : BlobEdits) : FdwResult (list RecordBatch) :=
  match input with
  | [] => Ok []
  | batch :: rest =>
      out ← apply_edits_batch batch offset schema edits;
      outs ← apply_edits_from (offset + Z.of_nat (num_rows batch)) rest schema edits;
      Ok (out :: outs)
  end.

Definition apply_edits (input : list RecordBatch) (schema : Schema) (edits : BlobEdits)
    : FdwResult (list RecordBatch) :=
  apply_edits_from 0 input schema edits.

(** ** The specification: what happens to each row of the blob. *)

(** The value of column [col] at absolute row [abs] after the edits. *)
Definition spec_cell (e : BlobEdits) (col : nat) (abs : Z) (c : cell) : cell :=
  match override_at e col abs with
  | Some a => default c (head (array_cells a))
  | None => c
  end.

Fixpoint rewrite_cells (e : BlobEdits) (col : nat) (abs : Z) (l : list cell) : list cell :=
  match l with
  | [] => []
  | c :: l' => spec_cell e col abs c :: rewrite_cells e col (abs + 1) l'
  end.

(** [true] for every row that survives the deletes. *)
Fixpoint keep_mask (e : BlobEdits) (abs : Z) (n : nat) : list bool :=
  match n with
  | O => []
  | S n' => negb (bm_contains (deletes e) abs) :: keep_mask e (abs + 1) n'
  end.

(** Column [i] of a batch, and of the concatenation of a blob's batches. *)
Definition col_cells (i : nat) (b : RecordBatch) : list cell :=
  match batch_columns b !! i with Some c => array_cells c | None => [] end.

Definition blob_column (i : nat) (bs : list RecordBatch) : list cell :=
  concat (map (col_cells i) bs).

Definition total_rows (bs : list RecordBatch) : nat := sum_list (map num_rows bs).

Lemma total_rows_app (l1 l2 : list RecordBatch) : total_rows (l1 ++ l2) = (total_rows l1 + total_rows l2)%nat.
Proof. unfold total_rows. rewrite map_app. induction l1; simpl; [done|]. simpl in *. lia. Qed.

Lemma blob_column_app i (l1 l2 : list RecordBatch) : blob_column i (l1 ++ l2) = blob_column i l1 ++ blob_column i l2.
Proof. unfold blob_column. by rewrite map_app, concat_app. Qed.

(** Overrides that fit the schema: one row, the column's type, no NULL in a
    NOT NULL column. *)
Definition overrides_ok (schema : Schema) (e : BlobEdits) : Prop :=
  forall abs col a f, override_at e col abs = Some a -> schema !! col = Some f ->
    array_len a = 1%nat /\ array_type a = field_type f /\
    (nullable f = false -> None ∉ array_cells a).

End Defs.

Section Facts.
Context {A : ArrowApi} {AL : ArrowLaws A} {R : RoaringApi} {RL : RoaringLaws R}.
Implicit Types (e : BlobEdits) (l : list cell).

Lemma rewrite_cells_app e col abs l1 l2 :
  rewrite_cells e col abs (l1 ++ l2) =
  rewrite_cells e col abs l1 ++ rewrite_cells e col (abs + Z.of_nat (length l1)) l2.
Proof.
  revert abs. induction l1 as [|c l1 IH]; intros abs; simpl.
  - f_equal; lia.
  - rewrite IH. do 3 f_equal. lia.
Qed.

Lemma rewrite_cells_length e col abs l : length (rewrite_cells e col abs l) = length l.
Proof. revert abs. induction l; intros; simpl; auto. Qed.

Lemma rewrite_cells_id e col abs l :
  (forall k, abs <= k < abs + Z.of_nat (length l) -> override_at e col k = None) ->
  rewrite_cells e col abs l = l.
Proof.
  revert abs. induction l as [|c l IH]; intros abs H; simpl in *; [done|]. f_equal.
  - unfold spec_cell. rewrite H; [done | lia].
  - apply IH. intros k Hk. apply H. lia.
Qed.

Lemma keep_mask_app e abs n m :
  keep_mask e abs (n + m) = keep_mask e abs n ++ keep_mask e (abs + Z.of_nat n) m.
Proof.
  revert abs. induction n as [|n IH]; intros abs; simpl.
  - f_equal; lia.
  - rewrite IH. do 3 f_equal. lia.
Qed.

Lemma keep_mask_length e abs n : length (keep_mask e abs n) = n.
Proof. revert abs. induction n; intros; simpl; auto. Qed.

Lemma keep_mask_lookup e abs n i :
  (i < n)%nat -> keep_mask e abs n !! i = Some (negb (bm_contains (deletes e) (abs + Z.of_nat i))).
Proof.
  revert abs i. induction n as [|n IH]; intros abs i Hi; [lia|].
  destruct i as [|i]; simpl.
  - do 3 f_equal. lia.
  - rewrite IH by lia. do 3 f_equal. lia.
Qed.

(** *** The hits are the update keys of the range, in increasing order. *)

Lemma batch_hits_elem e lo hi k :
  k ∈ batch_hits e lo hi <-> lo <= k < hi /\ is_Some (updates e !! k).
Proof.
  unfold batch_hits. rewrite merge_sort_Permutation, list_elem_of_filter, list_elem_of_fmap.
  split.
  - intros [Hr ([k' o] & -> & Ho)]. apply elem_of_map_to_list in Ho. simpl. eauto.
  - intros [Hr [o Ho]]. split; [done|]. exists (k, o). by rewrite elem_of_map_to_list.
Qed.

Lemma batch_hits_sorted e lo hi : StronglySorted Z.lt (batch_hits e lo hi).
Proof.
  assert (NoDup (batch_hits e lo hi)) as Hnd.
  { unfold batch_hits. rewrite merge_sort_Permutation. apply NoDup_filter, NoDup_fst_map_to_list. }
  assert (StronglySorted Z.le (batch_hits e lo hi)) as Hs.
  { apply StronglySorted_merge_sort; apply _. }
  revert Hnd Hs. generalize (batch_hits e lo hi) as hs. intros hs.
  induction hs as [|x hs IH]; intros Hnd Hs; constructor.
  - apply NoDup_cons in Hnd as [_ Hnd]. apply IH; [done|]. by inversion Hs.
  - apply NoDup_cons in Hnd as [Hx _]. inversion Hs as [|? ? _ Hall]; subst.
    rewrite Forall_forall in Hall |- *. intros y Hy. specialize (Hall y Hy).
    assert (x <> y) by (intros ->; done). lia.
Qed.

(** *** Splicing one column *)

(** Every piece produced has the column's type. *)
Definition same_type (t : DataType) (ps : list ArrayRef) : Prop :=
  Forall (fun p => array_type p = t) ps.

Definition pieces_cells (ps : list ArrayRef) : list cell := concat (map array_cells ps).

Lemma pieces_cells_app ps qs : pieces_cells (ps ++ qs) = pieces_cells ps ++ pieces_cells qs.
Proof. unfold pieces_cells. by rewrite map_app, concat_app. Qed.

Lemma slice_cells_Z (a : ArrayRef) i j :
  0 <= i <= j -> j <= Z.of_nat (array_len a) ->
  array_cells (array_slice a (Z.to_nat i) (Z.to_nat (j - i))) =
  take (Z.to_nat (j - i)) (drop (Z.to_nat i) (array_cells a)).
Proof. intros. apply slice_cells. lia. Qed.

(** The part of the specification from local row [cursor] on. *)
Definition rewrite_from (e : BlobEdits) (col : nat) (base cursor : Z) (l : list cell) :=
  rewrite_cells e col (base + cursor) (drop (Z.to_nat cursor) l).

(** Cutting the specification at a later local row. *)
Lemma rewrite_from_split e col base i j l :
  0 <= i <= j -> j <= Z.of_nat (length l) ->
  (forall k, base + i <= k < base + j -> override_at e col k = None) ->
  rewrite_from e col base i l =
  take (Z.to_nat (j - i)) (drop (Z.to_nat i) l) ++ rewrite_from e col base j l.
Proof.
  intros Hij Hj Hno. unfold rewrite_from.
  rewrite <- (take_drop (Z.to_nat (j - i)) (drop (Z.to_nat i) l)) at 1.
  rewrite rewrite_cells_app, drop_drop, length_take_le by (rewrite length_drop; lia).
  f_equal.
  - apply rewrite_cells_id. intros k Hk. apply Hno.
    rewrite length_take, length_drop in Hk. lia.
  - f_equal; [lia|]. f_equal. lia.
Qed.

Lemma rewrite_from_step e col base i l c :
  0 <= i -> l !! Z.to_nat i = Some c ->
  rewrite_from e col base i l =
  spec_cell e col (base + i) c :: rewrite_from e col base (i + 1) l.
Proof.
  intros Hi Hc. unfold rewrite_from. rewrite (drop_S _ _ _ Hc). simpl.
  f_equal. f_equal; [lia|]. f_equal. lia.
Qed.

(** Overrides of column [col] are one row of type [t]. *)
Definition ovr_typed (e : BlobEdits) (col : nat) (t : DataType) : Prop :=
  forall abs r, override_at e col abs = Some r -> array_len r = 1%nat /\ array_type r = t.

Lemma slice_one (a : ArrayRef) i c :
  0 <= i -> array_cells a !! Z.to_nat i = Some c ->
  array_cells (array_slice a (Z.to_nat i) 1) = [c].
Proof.
  intros Hi Hc. rewrite slice_cells.
  - by rewrite (drop_S _ _ _ Hc).
  - apply lookup_lt_Some in Hc. unfold array_len. lia.
Qed.

(** The piece pushed for a hit row, overridden or copied. *)
Lemma hit_piece e col (a : ArrayRef) base local c :
  ovr_typed e col (array_type a) -> 0 <= local -> array_cells a !! Z.to_nat local = Some c ->
  let p := default (array_slice a (Z.to_nat local) 1) (override_at e col (base + local)) in
  array_cells p = [spec_cell e col (base + local) c] /\ array_type p = array_type a.
Proof.
  intros Hty Hl Hc. unfold spec_cell.
  destruct (override_at e col (base + local)) as [r|] eqn:Hr; simpl.
  - destruct (Hty _ _ Hr) as [H1 Ht]. split; [|done]. unfold array_len in H1.
    by destruct (array_cells r) as [|x [|]].
  - split; [by apply slice_one | apply slice_type].
Qed.

Lemma splice_loop_cons e col (a : ArrayRef) base abs hits cursor ps :
  ovr_typed e col (array_type a) -> is_Some (updates e !! abs) ->
  splice_loop e col a base (abs :: hits) cursor ps =
  splice_loop e col a base hits (abs - base + 1)
    (ps ++ (if cursor <? abs - base
            then [array_slice a (Z.to_nat cursor) (Z.to_nat (abs - base - cursor))] else [])
        ++ [default (array_slice a (Z.to_nat (abs - base)) 1) (override_at e col abs)]).
Proof.
  intros Hty [o Ho]. simpl. rewrite Ho.
  destruct (mjoin (values o !! col)) as [r|] eqn:Hr.
  - assert (override_at e col abs = Some r) as Hov by (unfold override_at; by rewrite Ho).
    destruct (Hty _ _ Hov) as [H1 _]. rewrite bool_decide_eq_true_2, Hov by done.
    destruct (cursor <? abs - base); by rewrite <- ?(assoc_L (++)).
  - assert (override_at e col abs = None) as -> by (unfold override_at; by rewrite Ho).
    destruct (cursor <? abs - base); by rewrite <- ?(assoc_L (++)).
Qed.

Lemma splice_loop_ok e col (a : ArrayRef) base hits cursor ps :
  ovr_typed e col (array_type a) ->
  StronglySorted Z.lt hits ->
  0 <= cursor <= Z.of_nat (array_len a) ->
  (forall k, k ∈ hits -> base + cursor <= k < base + Z.of_nat (array_len a) /\ is_Some (updates e !! k)) ->
  (forall k, base + cursor <= k < base + Z.of_nat (array_len a) -> k ∉ hits -> override_at e col k = None) ->
  exists cursor' new,
    splice_loop e col a base hits cursor ps = Ok (cursor', ps ++ new) /\
    cursor <= cursor' <= Z.of_nat (array_len a) /\ same_type (array_type a) new /\
    pieces_cells new ++ drop (Z.to_nat cursor') (array_cells a) =
      rewrite_from e col base cursor (array_cells a) /\
    (hits <> [] -> new <> []).
Proof.
  intros Hty. revert cursor ps. induction hits as [|abs hits IH]; intros cursor ps Hs Hc Hin Hno.
  - exists cursor, []. simpl. rewrite app_nil_r. repeat split; try done; try lia; [constructor|].
    unfold rewrite_from. rewrite rewrite_cells_id; [done|]. intros k Hk.
    apply Hno; [rewrite length_drop in Hk; unfold array_len in *; lia | apply not_elem_of_nil].
  - inversion Hs as [|? ? Hs' Hall]; subst. rewrite Forall_forall in Hall.
    destruct (Hin abs) as [Hr Hsome]; [left|].
    rewrite splice_loop_cons by done.
    set (pre := if _ <? _ then _ else _). set (p := default _ _).
    set (local := abs - base) in *.
    destruct (IH (local + 1) (ps ++ pre ++ [p]) Hs') as (cur' & new & -> & Hcur & Hst & Heq & _);
      [lia| |  |].
    + intros k Hk. pose proof (Hall k Hk). destruct (Hin k) as [? ?]; [by right|]. split; [lia|done].
    + intros k Hk Hnk. apply Hno; [lia|]. rewrite not_elem_of_cons. split; [lia|done].
    + destruct (lookup_lt_is_Some_2 (array_cells a) (Z.to_nat local)) as [c Hcl];
        [unfold array_len in *; lia|].
      assert (base + local = abs) as Hbl by lia.
      destruct (hit_piece e col a base local c Hty) as [Hpc Hpt]; [lia|done|].
      rewrite Hbl in Hpc, Hpt. fold p in Hpc, Hpt.
      assert (pieces_cells pre = take (Z.to_nat (local - cursor)) (drop (Z.to_nat cursor) (array_cells a))
              /\ same_type (array_type a) pre) as [Hpre Hprt].
      { subst pre. destruct (Z.ltb_spec cursor local).
        - unfold pieces_cells. simpl. rewrite app_nil_r, slice_cells_Z by lia. split; [done|].
          repeat constructor. apply slice_type.
        - replace (Z.to_nat (local - cursor)) with 0%nat by lia. split; [done|constructor]. }
      exists cur', (pre ++ [p] ++ new). rewrite <- !(assoc_L (++)). repeat split; try lia.
      * apply Forall_app; split; [done|]. by constructor.
      * rewrite !pieces_cells_app, <- !(assoc_L (++)), Heq, Hpre.
        rewrite (rewrite_from_split e col base cursor local); [|lia|unfold array_len in *; lia|].
        2:{ intros k Hk. apply Hno; [lia|]. rewrite not_elem_of_cons. split; [lia|].
            intros Hk'. specialize (Hall k Hk'). lia. }
        rewrite (rewrite_from_step _ _ _ local _ c) by (done || lia).
        f_equal. unfold pieces_cells at 1. simpl. rewrite Hpc, Hbl. done.
      * intros _. destruct pre; done.
Qed.

(** One spliced column is the row-wise rewrite of the input column. *)
Lemma splice_column_ok e base n col (a : ArrayRef) :
  ovr_typed e col (array_type a) -> Z.of_nat (array_len a) = n ->
  exists r, splice_column e base n (batch_hits e base (base + n)) col a = Ok r /\
    array_type r = array_type a /\
    array_cells r = rewrite_cells e col base (array_cells a).
Proof.
  intros Hty Hn. unfold splice_column.
  set (hits := batch_hits e base (base + n)).
  assert (forall k, base <= k < base + n -> k ∉ hits -> override_at e col k = None) as Hno.
  { intros k Hk Hnk. unfold override_at. destruct (updates e !! k) as [o|] eqn:Ho; [|done].
    destruct Hnk. apply batch_hits_elem. by rewrite Ho. }
  destruct (existsb _ hits) eqn:Hex; simpl.
  - destruct (splice_loop_ok e col a base hits 0 [] Hty) as (cur & new & -> & Hcur & Hst & Heq & Hne).
    + apply batch_hits_sorted.
    + lia.
    + intros k Hk. apply batch_hits_elem in Hk. rewrite Z.add_0_r, Hn. done.
    + intros k Hk. apply Hno. lia.
    + simpl. set (ps := if _ <? _ then _ else _).
      assert (same_type (array_type a) ps /\ pieces_cells ps = rewrite_cells e col base (array_cells a)
              /\ ps <> []) as (Hpt & Hpc & Hpn).
      { unfold rewrite_from in Heq. rewrite Z.add_0_r in Heq. change (drop _ _) with (array_cells a) in Heq at 2.
        rewrite <- Heq. subst ps. assert (new <> []) as Hnew.
        { apply Hne. intros E. rewrite E in Hex. done. }
        destruct (Z.ltb_spec cur n) as [Hlt|Hge].
        - split; [apply Forall_app; split; [done|]; repeat constructor; apply slice_type|].
          rewrite pieces_cells_app. split; [|by destruct new]. f_equal.
          unfold pieces_cells. simpl. rewrite app_nil_r, slice_cells_Z by lia.
          apply take_ge. rewrite length_drop. unfold array_len in *. lia.
        - split; [done|]. split; [|done]. rewrite drop_ge, app_nil_r; [done|].
          unfold array_len in *. lia. }
      destruct ps as [|p ps]; [done|]. inversion Hpt as [|? ? Hp Hps]; subst.
      destruct (concat_ok p ps) as (r & -> & Hrt & Hrc); [by rewrite Hp|].
      exists r. simpl. rewrite Hrt, Hp, Hrc. split; [done|]. split; done.
  - exists a. split; [done|]. split; [done|]. symmetry. apply rewrite_cells_id.
    intros k Hk. destruct (decide (k ∈ hits)) as [Hin|Hni]; [|apply Hno; unfold array_len in *; [lia|done]].
    destruct (override_at e col k) eqn:E; [|done].
    enough (existsb (fun abs => match override_at e col abs with Some _ => true | None => false end) hits = true) by congruence.
    apply existsb_exists. exists k. rewrite E. split; [by apply list_elem_of_In | done].
Qed.

(** *** All columns of a batch *)

(** [cs] holds the row-wise rewrites of [cols], which start at column [k]. *)
Definition rewritten (e : BlobEdits) (base : Z) (k : nat) (cols cs : list ArrayRef) : Prop :=
  length cs = length cols /\
  forall i c, cols !! i = Some c -> exists c', cs !! i = Some c' /\ array_type c' = array_type c /\
    array_cells c' = rewrite_cells e (k + i) base (array_cells c).

Lemma splice_columns_ok e base n k cols :
  (forall i c, cols !! i = Some c ->
     ovr_typed e (k + i) (array_type c) /\ Z.of_nat (array_len c) = n) ->
  exists cs, splice_columns e base n (batch_hits e base (base + n)) k cols = Ok cs /\
    rewritten e base k cols cs.
Proof.
  revert k. induction cols as [|c cols IH]; intros k H.
  - exists []. done.
  - destruct (H 0%nat c eq_refl) as [Hty Hn]. rewrite Nat.add_0_r in Hty.
    destruct (splice_column_ok e base n k c Hty Hn) as (c' & Hc' & Ht & Hcells).
    destruct (IH (S k)) as (cs & Hcs & Hlen & Hcols).
    { intros i d Hd. destruct (H (S i) d Hd) as [? ?]. rewrite Nat.add_succ_l, <- Nat.add_succ_r. done. }
    exists (c' :: cs). cbn [splice_columns]. rewrite Hc'. simpl. rewrite Hcs. simpl. split; [done|].
    split; [simpl; by rewrite Hlen|]. intros [|i] d Hd; simplify_eq/=.
    + rewrite Nat.add_0_r. eauto.
    + rewrite Nat.add_succ_r. apply (Hcols i d Hd).
Qed.

Lemma rewritten_refl e base cols n :
  Forall (fun c => Z.of_nat (array_len c) = n) cols ->
  (forall k, base <= k < base + n -> updates e !! k = None) ->
  rewritten e base 0 cols cols.
Proof.
  intros Hlen Hno. split; [done|]. intros i c Hc. exists c. split; [done|]. split; [done|].
  symmetry. apply rewrite_cells_id. intros k Hk. unfold override_at. rewrite Hno; [done|].
  rewrite Forall_lookup in Hlen. specialize (Hlen i c Hc). unfold array_len in Hlen. lia.
Qed.

Lemma overrides_typed schema e col f :
  overrides_ok schema e -> schema !! col = Some f -> ovr_typed e col (field_type f).
Proof. intros Hov Hf abs r Hr. destruct (Hov _ _ _ _ Hr Hf) as (? & ? & _). done. Qed.

(** Overriding cannot introduce a NULL in a NOT NULL column. *)
Lemma rewrite_cells_nonnull schema e col f abs l :
  overrides_ok schema e -> schema !! col = Some f -> nullable f = false ->
  None ∉ l -> None ∉ rewrite_cells e col abs l.
Proof.
  intros Hov Hf Hnn. revert abs. induction l as [|c l IH]; intros abs Hl; [done|].
  rewrite not_elem_of_cons in Hl. destruct Hl as [Hc Hl].
  simpl. rewrite not_elem_of_cons. split; [|by apply IH].
  unfold spec_cell. destruct (override_at e col abs) as [a|] eqn:Ha; [|done].
  destruct (Hov _ _ _ _ Ha Hf) as (_ & _ & Hnone). specialize (Hnone Hnn).
  destruct (array_cells a) as [|x xs]; [done|]. simpl. intros Hx. apply Hnone. rewrite Hx. left.
Qed.

Lemma rewritten_conforms schema e base cols cs n :
  overrides_ok schema e -> conforms schema cols n -> rewritten e base 0 cols cs ->
  conforms schema cs n.
Proof.
  intros Hov [Hne Hc] [Hlen Hr]. split.
  { intros ->. destruct cols; done. }
  apply Forall2_same_length_lookup. pose proof (Forall2_length _ _ _ Hc). split; [lia|].
  intros i f c' Hf Hc'. destruct (lookup_lt_is_Some_2 cols i) as [c Hci].
  { apply lookup_lt_Some in Hf. lia. }
  destruct (Hr i c Hci) as (d & Hd & Ht & Hcells). simplify_eq.
  destruct (Forall2_lookup_lr _ _ _ _ _ _ Hc Hf Hci) as (Hft & Hcl & Hnn).
  rewrite Ht. unfold array_len in *. rewrite Hcells, rewrite_cells_length. repeat split; [done|done|].
  intros Hfn. eapply rewrite_cells_nonnull; eauto.
Qed.

(** The column stage of [apply_edits_batch]. *)
Lemma columns_stage e base schema (b : RecordBatch) :
  conforms schema (batch_columns b) (num_rows b) -> overrides_ok schema e ->
  let n := Z.of_nat (num_rows b) in
  exists cs,
    (if bool_decide (updates e = ∅) then Ok (batch_columns b)
     else if bool_decide (batch_hits e base (base + n) = []) then Ok (batch_columns b)
     else splice_columns e base n (batch_hits e base (base + n)) 0 (batch_columns b)) =
      (Ok cs : FdwResult _) /\
    rewritten e base 0 (batch_columns b) cs.
Proof.
  intros Hc Hov n.
  assert (Forall (fun c => Z.of_nat (array_len c) = n) (batch_columns b)) as Hlen.
  { eapply Forall_impl; [apply columns_len|]. simpl. intros c ->. done. }
  case_bool_decide as Hu.
  { eexists. split; [done|]. eapply rewritten_refl; [done|]. intros k _. rewrite Hu. done. }
  case_bool_decide as Hh.
  { eexists. split; [done|]. eapply rewritten_refl; [done|]. intros k Hk.
    apply eq_None_not_Some. intros Hs. apply (not_elem_of_nil k). rewrite <- Hh.
    by apply batch_hits_elem. }
  apply splice_columns_ok. intros i c Hi. rewrite Forall_lookup in Hlen. split; [|by eapply Hlen].
  destruct Hc as [_ Hc]. destruct (Forall2_lookup_r _ _ _ _ _ Hc Hi) as (f & Hf & Ht & _).
  rewrite <- Ht. eapply overrides_typed; eauto.
Qed.

(** *** The delete mask *)

Lemma clear_bits_ok base rng m :
  0 <= base -> (forall k, k ∈ rng -> base <= k < base + Z.of_nat (length m) /\ k <= u32_max) ->
  exists m', foldM (clear_bit base) m rng = Ok m' /\ length m' = length m /\
    forall i b, m !! i = Some b -> m' !! i = Some (b && negb (bool_decide (base + Z.of_nat i ∈ rng))).
Proof.
  intros Hb. revert m. induction rng as [|k rng IH]; intros m Hin.
  - exists m. repeat split; [done..|]. intros i b Hi. by rewrite Hi, andb_true_r.
  - destruct (Hin k) as [Hk Hk32]; [left|].
    assert (as_u64 (k - base) = k - base) as Hu by int_lia.
    assert (clear_bit base m k = Ok (<[Z.to_nat (k - base):=false]> m)) as Hclr.
    { unfold clear_bit. rewrite Hu. by rewrite bool_decide_eq_true_2 by lia. }
    cbn [foldM]. rewrite Hclr. cbn [mbind result_bind].
    destruct (IH (<[Z.to_nat (k - base):=false]> m)) as (m' & Hm' & Hl & Hlk).
    { intros k' Hk'. rewrite length_insert. apply Hin. by right. }
    exists m'. rewrite length_insert in Hl. repeat split; [done..|]. intros i b Hi.
    destruct (decide (i = Z.to_nat (k - base))) as [->|Hne].
    + erewrite Hlk; [|apply list_lookup_insert_eq; lia]. f_equal. symmetry.
      apply andb_false_iff. right. apply negb_false_iff, bool_decide_eq_true.
      replace (base + Z.of_nat (Z.to_nat (k - base))) with k by lia. left.
    + erewrite Hlk; [|rewrite list_lookup_insert_ne by done; exact Hi].
      do 3 f_equal. apply bool_decide_ext. rewrite elem_of_cons. split; [by right|].
      intros [?|?]; [lia|done].
Qed.

Lemma mask_stage e base n :
  0 <= base -> base + Z.of_nat n <= u32_max ->
  foldM (clear_bit base) (replicate n true)
    (bm_range (deletes e) (as_u32 base) (as_u32 (Z.min (base + Z.of_nat n) u32_max))) =
  Ok (keep_mask e base n).
Proof.
  intros Hb Hn. rewrite Z.min_l by done. rewrite !as_u32_id by int_lia.
  destruct (clear_bits_ok base (bm_range (deletes e) base (base + Z.of_nat n)) (replicate n true))
    as (m' & -> & Hl & Hlk); [done| |].
  { intros k Hk. apply bm_range_elem in Hk. rewrite length_replicate. lia. }
  f_equal. rewrite length_replicate in Hl. apply list_eq. intros i.
  destruct (decide (i < n)%nat) as [Hi|Hi].
  - erewrite Hlk; [|by apply lookup_replicate_2]. rewrite keep_mask_lookup by done. f_equal.
    simpl. f_equal. apply eq_true_iff_eq. rewrite bool_decide_eq_true, bm_range_elem. 
    split; [intros [_ ?]; done | intros ?; split; [lia|done]].
  - rewrite !lookup_ge_None_2; [done|rewrite keep_mask_length; lia|lia].
Qed.

Lemma keep_mask_all e base n :
  0 <= base -> base + Z.of_nat n <= u32_max ->
  bm_range (deletes e) (as_u32 base) (as_u32 (Z.min (base + Z.of_nat n) u32_max)) = [] ->
  keep_mask e base n = replicate n true.
Proof.
  intros Hb Hn Hr. pose proof (mask_stage e base n Hb Hn) as Hm. rewrite Hr in Hm. simpl in Hm. congruence.
Qed.

(** *** One batch *)

Lemma col_cells_some i (b : RecordBatch) c :
  batch_columns b !! i = Some c -> col_cells i b = array_cells c.
Proof. unfold col_cells. by intros ->. Qed.

Lemma col_cells_none i (b : RecordBatch) :
  batch_columns b !! i = None -> col_cells i b = [].
Proof. unfold col_cells. by intros ->. Qed.

Lemma col_cells_length i (b : RecordBatch) c :
  batch_columns b !! i = Some c -> length (col_cells i b) = num_rows b.
Proof.
  intros Hc. rewrite (col_cells_some _ _ _ Hc). pose proof (columns_len b) as H.
  rewrite Forall_lookup in H. apply (H _ _ Hc).
Qed.

Lemma mask_filter_nil {T} (m : list bool) : mask_filter m ([] : list T) = [].
Proof. by destruct m. Qed.

(** What a rewritten batch looks like. *)
Definition batch_rewritten (e : BlobEdits) (base : Z) (b out : RecordBatch) : Prop :=
  length (batch_columns out) = length (batch_columns b) /\
  num_rows out = length (List.filter id (keep_mask e base (num_rows b))) /\
  forall i, col_cells i out =
    mask_filter (keep_mask e base (num_rows b)) (rewrite_cells e i base (col_cells i b)).

Lemma rewritten_col e base (b : RecordBatch) cs i :
  rewritten e base 0 (batch_columns b) cs ->
  match cs !! i with Some c => array_cells c | None => [] end =
  rewrite_cells e i base (col_cells i b).
Proof.
  intros [Hlen Hr]. destruct (batch_columns b !! i) as [c|] eqn:Hc.
  - destruct (Hr i c Hc) as (c' & -> & _ & ->). by rewrite (col_cells_some _ _ _ Hc).
  - rewrite col_cells_none by done. rewrite (lookup_ge_None_2 cs); [done|].
    apply lookup_ge_None_1 in Hc. lia.
Qed.

Lemma filter_true_length n : length (List.filter id (replicate n true)) = n.
Proof. induction n; simpl; auto. Qed.

Lemma mask_filter_elem {T} (m : list bool) (l : list T) x : x ∈ mask_filter m l -> x ∈ l.
Proof.
  revert l. induction m as [|b m IH]; intros [|y l] H; simpl in H; try by apply not_elem_of_nil in H.
  destruct b; [apply elem_of_cons in H as [->|H]; [left|]|]; right; auto.
Qed.

(** Dropping rows keeps a batch's shape. *)
Lemma filter_conforms schema (u out : RecordBatch) m :
  conforms schema (batch_columns u) (num_rows u) ->
  Forall2 (fun c c' => array_type c' = array_type c /\ array_cells c' = mask_filter m (array_cells c))
    (batch_columns u) (batch_columns out) ->
  conforms schema (batch_columns out) (num_rows out).
Proof.
  intros [Hne HF] HF2. pose proof (columns_len out) as Hlen. split.
  { intros E. rewrite E in HF2. inversion HF2. congruence. }
  revert Hlen. generalize (num_rows out) as n. intros n. clear Hne. revert HF. generalize schema as fs.
  induction HF2 as [|c c' cs cs' [Ht Hc] _ IH]; intros fs HF Hlen; inversion HF; subst; constructor.
  - inversion Hlen; subst. destruct H2 as (Hft & _ & Hnn). rewrite Ht, Hc. split; [done|]. split; [done|].
    intros Hf Hin. apply (Hnn Hf). by eapply mask_filter_elem.
  - apply IH; [done|]. by inversion Hlen.
Qed.

Lemma apply_edits_batch_ok e base schema (b : RecordBatch) :
  0 <= base -> base + Z.of_nat (num_rows b) <= u32_max ->
  conforms schema (batch_columns b) (num_rows b) -> overrides_ok schema e ->
  exists out, apply_edits_batch b base schema e = Ok out /\ batch_rewritten e base b out /\
    conforms schema (batch_columns out) (num_rows out).
Proof.
  intros Hb Hn Hc Hov. unfold apply_edits_batch.
  destruct (columns_stage e base schema b Hc Hov) as (cs & Hcs & Hrw). simpl in Hcs. rewrite Hcs.
  cbn [mbind result_bind].
  destruct (try_new_ok schema cs (num_rows b)) as (u & Htry & Hu & Hun);
    [by eapply rewritten_conforms|]. rewrite Htry. cbn [mbind result_bind map_err].
  assert (conforms schema (batch_columns u) (num_rows u)) as Hcu.
  { rewrite Hu. by apply try_new_sound in Htry as [? _]. }
  assert (forall i, col_cells i u = rewrite_cells e i base (col_cells i b)) as Hcol.
  { intros i. unfold col_cells at 1. rewrite Hu. by apply rewritten_col. }
  assert (length (batch_columns u) = length (batch_columns b)) as Hlen.
  { rewrite Hu. apply Hrw. }
  pose proof (mask_stage e base (num_rows b) Hb Hn) as Hm.
  destruct (bm_range _ _ _) as [|x rng] eqn:Hrng.
  - exists u. split; [done|]. split; [|done]. split; [done|]. rewrite (keep_mask_all e base) by done.
    split; [by rewrite filter_true_length|]. intros i. rewrite Hcol.
    destruct (batch_columns b !! i) as [c|] eqn:Hci.
    + rewrite <- (col_cells_length i b c Hci), <- (rewrite_cells_length e i base).
      by rewrite mask_filter_true.
    + rewrite (col_cells_none i b) by done. simpl. by rewrite mask_filter_nil.
  - rewrite Hm. cbn [mbind result_bind].
    destruct (filter_ok u (keep_mask e base (num_rows b))) as (out & -> & Hrows & HF).
    { rewrite keep_mask_length. done. }
    exists out. split; [done|]. split; [|by eapply filter_conforms].
    split; [by rewrite <- (Forall2_length _ _ _ HF)|].
    split; [done|]. intros i. rewrite <- Hcol.
    destruct (batch_columns u !! i) as [c|] eqn:Hci.
    + destruct (Forall2_lookup_l _ _ _ _ _ HF Hci) as (c' & Hc' & _ & Hcells).
      by rewrite (col_cells_some _ _ _ Hc'), (col_cells_some _ _ _ Hci).
    + rewrite (col_cells_none i u) by done. rewrite mask_filter_nil. apply col_cells_none.
      apply lookup_ge_None_1 in Hci. apply lookup_ge_None_2.
      by rewrite <- (Forall2_length _ _ _ HF).
Qed.

(** *** The stream of batches of a blob *)

Lemma total_rows_cons (b : RecordBatch) bs : total_rows (b :: bs) = (num_rows b + total_rows bs)%nat.
Proof. done. Qed.

Lemma blob_column_cons i (b : RecordBatch) bs : blob_column i (b :: bs) = col_cells i b ++ blob_column i bs.
Proof. done. Qed.

(** Column [i] exists in every batch of a stream that conforms to a schema. *)
Lemma conforms_column schema (b : RecordBatch) i n :
  conforms schema (batch_columns b) n -> (i < length schema)%nat -> length (col_cells i b) = num_rows b.
Proof.
  intros [_ Hc] Hi. apply Forall2_length in Hc.
  destruct (lookup_lt_is_Some_2 (batch_columns b) i) as [c Hci]; [lia|].
  by eapply col_cells_length.
Qed.

Lemma apply_edits_from_ok e schema input offset :
  0 <= offset -> offset + Z.of_nat (total_rows input) <= u32_max ->
  Forall (fun b => conforms schema (batch_columns b) (num_rows b)) input -> overrides_ok schema e ->
  exists outs, apply_edits_from offset input schema e = Ok outs /\ length outs = length input /\
    forall i, (i < length schema)%nat ->
      blob_column i outs = mask_filter (keep_mask e offset (total_rows input))
                             (rewrite_cells e i offset (blob_column i input)).
Proof.
  intros Hoff Hmax Hc Hov. revert offset Hoff Hmax.
  induction Hc as [|b bs Hb _ IH]; intros offset Hoff Hmax.
  - exists []. repeat split.
  - rewrite total_rows_cons in Hmax.
    destruct (apply_edits_batch_ok e offset schema b) as (out & Hout & (_ & _ & Hcol) & _); [lia|lia|done|done|].
    destruct (IH (offset + Z.of_nat (num_rows b))) as (outs & Houts & Hlen & Hcols); [lia|lia|].
    exists (out :: outs). cbn [apply_edits_from]. rewrite Hout. cbn [mbind result_bind].
    rewrite Houts. split; [done|]. split; [simpl; lia|]. intros i Hi.
    rewrite !blob_column_cons, total_rows_cons, keep_mask_app, rewrite_cells_app.
    rewrite (conforms_column schema b i (num_rows b)) by done.
    rewrite mask_filter_app.
    + rewrite Hcol, Hcols by done. done.
    + rewrite keep_mask_length, rewrite_cells_length. by erewrite conforms_column.
Qed.

(** *** Malformed overrides are reported *)

Lemma splice_loop_len1 e col (a : ArrayRef) base hits cursor ps r :
  splice_loop e col a base hits cursor ps = Ok r ->
  forall abs o, abs ∈ hits -> override_at e col abs = Some o -> array_len o = 1%nat.
Proof.
  revert cursor ps. induction hits as [|x hits IH]; intros cursor ps H abs o Hin Ho.
  { by apply not_elem_of_nil in Hin. }
  cbn [splice_loop] in H. destruct (updates e !! x) as [ov|] eqn:Hx; [|done].
  apply elem_of_cons in Hin. destruct (mjoin (values ov !! col)) as [rep|] eqn:Hr.
  - case_bool_decide as H1; [|done]. destruct Hin as [->|Hin]; [|eauto].
    unfold override_at in Ho. rewrite Hx in Ho. simpl in Ho. congruence.
  - destruct Hin as [->|Hin]; [|eauto].
    unfold override_at in Ho. rewrite Hx in Ho. simpl in Ho. congruence.
Qed.

Lemma splice_columns_len1 e base n hits k cols cs :
  splice_columns e base n hits k cols = Ok cs ->
  forall i abs o, (i < length cols)%nat -> abs ∈ hits -> override_at e (k + i) abs = Some o ->
    array_len o = 1%nat.
Proof.
  revert k cs. induction cols as [|c cols IH]; intros k cs H i abs o Hi Hin Ho; simpl in Hi; [lia|].
  cbn [splice_columns] in H. inv_ok. destruct i as [|i].
  - rewrite Nat.add_0_r in Ho. unfold splice_column in Hv. destruct (existsb _ hits) eqn:Hex; simpl in Hv.
    + inv_ok. destruct v1. by eapply splice_loop_len1.
    + assert (existsb (fun abs => match override_at e k abs with Some _ => true | None => false end) hits = true); [|congruence].
      apply existsb_exists. exists abs. rewrite Ho. split; [by apply list_elem_of_In|done].
  - eapply (IH (S k) _ Hv0 i); [lia|done|]. rewrite Nat.add_succ_l, <- Nat.add_succ_r. done.
Qed.

(** C10: rewriting one batch at absolute offset [base] yields exactly the rows
    of the batch that are not deleted, in order, each cell replaced by its
    override when the edit map has one for that absolute row and column. *)
Theorem apply_edits_batch_spec e base schema (b : RecordBatch) :
  0 <= base -> base + Z.of_nat (num_rows b) <= u32_max ->
  conforms schema (batch_columns b) (num_rows b) -> overrides_ok schema e ->
  exists out, apply_edits_batch b base schema e = Ok out /\
    num_rows out = length (List.filter id (keep_mask e base (num_rows b))) /\
    forall i, col_cells i out =
      mask_filter (keep_mask e base (num_rows b)) (rewrite_cells e i base (col_cells i b)).
Proof.
  intros. destruct (apply_edits_batch_ok e base schema b) as (out & ? & (_ & ? & ?) & _); eauto.
Qed.

(** Streaming the rewrite over a blob's batches with a running offset is
    the same as rewriting the concatenated blob once: each output column is
    the input column with overrides applied and deleted rows dropped, so the
    batch boundaries are invisible. *)
Theorem apply_edits_spec e schema input :
  Z.of_nat (total_rows input) <= u32_max ->
  Forall (fun b => conforms schema (batch_columns b) (num_rows b)) input -> overrides_ok schema e ->
  exists outs, apply_edits input schema e = Ok outs /\ length outs = length input /\
    forall i, (i < length schema)%nat ->
      blob_column i outs = mask_filter (keep_mask e 0 (total_rows input))
                             (rewrite_cells e i 0 (blob_column i input)).
Proof. intros. apply apply_edits_from_ok; auto; lia. Qed.

(** An override array whose length is not one, for a row of the batch and
    an existing column, makes the batch fail instead of shifting rows. *)
Theorem apply_edits_batch_bad_override e base schema (b : RecordBatch) i abs o :
  base <= abs < base + Z.of_nat (num_rows b) -> (i < length (batch_columns b))%nat ->
  override_at e i abs = Some o -> array_len o <> 1%nat ->
  exists err, apply_edits_batch b base schema e = Err err.
Proof.
  intros Habs Hi Ho Hne. destruct (apply_edits_batch b base schema e) as [out|err] eqn:H; [|eauto].
  exfalso. unfold apply_edits_batch in H. apply bind_Ok_inv in H as (cs & Hcs & _).
  assert (is_Some (updates e !! abs)) as Hs.
  { unfold override_at in Ho. by destruct (updates e !! abs). }
  assert (abs ∈ batch_hits e base (base + Z.of_nat (num_rows b))) as Hin by by apply batch_hits_elem.
  case_bool_decide as Hu. { rewrite Hu in Hs. by destruct Hs. }
  case_bool_decide as Hh. { rewrite Hh in Hin. by apply not_elem_of_nil in Hin. }
  apply Hne. eapply (splice_columns_len1 _ _ _ _ 0); eauto.
Qed.

End Facts.

(** ** Concrete instances: a two-column blob of two batches, one update and
    one delete. *)

Definition demo_schema : Schema := [mkField "id" Int64 false; mkField "name" Utf8 true].

Definition demo_batch (ids : list Z) (names : list string) : list RefArray :=
  [(Int64, map (fun z => Some (VI64 z)) ids); (Utf8, map (fun s => Some (VUtf8 (lit s))) names)].

Definition demo_blob : list (list RefArray) :=
  [demo_batch [1; 2] ["a"; "b"]%string; demo_batch [3; 4] ["c"; "d"]%string].

(** Delete row 0 and set [name] of row 2 to NULL. *)
Definition demo_edits : BlobEdits (R := ref_roaring) :=
  mkBlobEdits {[0]} {[2 := mkRowOverride [None; Some ((Utf8, [None]) : RefArray)]]}.

Lemma demo_overrides_ok : overrides_ok demo_schema demo_edits.
Proof.
  intros abs col a f Ha Hf. unfold override_at, demo_edits in Ha. simpl in Ha.
  destruct (decide (abs = 2)) as [->|Hne].
  - rewrite lookup_singleton_eq in Ha. simpl in Ha.
    destruct col as [|[|col]]; simplify_eq/=. done.
  - by rewrite lookup_singleton_ne in Ha by done.
Qed.

Lemma demo_conforms b : b ∈ demo_blob ->
  conforms (H := ref_arrow) demo_schema (batch_columns (ArrowApi := ref_arrow) b) (num_rows (ArrowApi := ref_arrow) b).
Proof.
  intros Hb. repeat (apply elem_of_cons in Hb as [->|Hb]); [| |by apply not_elem_of_nil in Hb].
  all: apply ref_conforms_ok; reflexivity.
Qed.

Lemma apply_edits_batch_spec_witness :
  exists out, apply_edits_batch (A := ref_arrow) (demo_batch [1; 2] ["a"; "b"]%string) 0 demo_schema demo_edits = Ok out
    /\ col_cells (A := ref_arrow) 0 out = [Some (VI64 2)].
Proof.
  destruct (apply_edits_batch_spec demo_edits 0 demo_schema (demo_batch [1; 2] ["a"; "b"]%string))
    as (out & H & _ & Hc).
  - lia.
  - vm_compute. discriminate.
  - apply demo_conforms. left.
  - apply demo_overrides_ok.
  - exists out. split; [exact H|]. rewrite Hc. vm_compute. reflexivity.
Defined.

Lemma apply_edits_spec_witness :
  exists outs, apply_edits (A := ref_arrow) demo_blob demo_schema demo_edits = Ok outs
    /\ blob_column (A := ref_arrow) 1 outs = [Some (VUtf8 "b"); None; Some (VUtf8 "d")].
Proof.
  destruct (apply_edits_spec demo_edits demo_schema demo_blob) as (outs & H & _ & Hc).
  - vm_compute. discriminate.
  - apply Forall_forall. intros b Hb. apply demo_conforms, Hb.
  - apply demo_overrides_ok.
  - exists outs. split; [exact H|]. rewrite Hc by (simpl; lia). vm_compute. reflexivity.
Defined.

Lemma apply_edits_batch_bad_override_witness :
  exists err, apply_edits_batch (A := ref_arrow) (R := ref_roaring) (demo_batch [1; 2] ["a"; "b"]%string) 0 demo_schema
    (mkBlobEdits ∅ {[1 := mkRowOverride [Some ((Int64, []) : RefArray)]]}) = Err err.
Proof.
  apply (apply_edits_batch_bad_override (A := ref_arrow) _ _ _ _ 0 1 ((Int64, []) : RefArray)).
  - split; vm_compute; congruence.
  - simpl; lia.
  - reflexivity.
  - discriminate.
Defined.
