(* ===== verification/Convert.v ===== *)
(** * [src/convert/]: Postgres datums to Arrow cells and back.

    [pg_to_arrow.rs] (schema mapping, builders), [arrow_to_pg.rs] (read
    side, decimal formatting, partition value parsing) and
    [partition_datum.rs] (write side of partition values).

    A datum is a machine word or a pointer to a varlena value; reading the
    word of a pointer would give an address, which no code does.  [chrono]
    and pgrx's checked constructors are outside the repository: class
    [PgApi].  A text datum carries the UTF-8 text [text_to_cstring] yields. *)

From S2P Require Import Prelude RustStr Redact Errors Options Externals.
Local Open Scope Z_scope.

(** ** Type oids *)

Definition BOOLOID : Z := 16.
Definition BYTEAOID : Z := 17.
Definition INT8OID : Z := 20.
Definition INT2OID : Z := 21.
Definition INT4OID : Z := 23.
Definition TEXTOID : Z := 25.
Definition TIDOID : Z := 27.
Definition FLOAT4OID : Z := 700.
Definition FLOAT8OID : Z := 701.
Definition VARCHAROID : Z := 1043.
Definition DATEOID : Z := 1082.
Definition TIMESTAMPOID : Z := 1114.
Definition TIMESTAMPTZOID : Z := 1184.
Definition NUMERICOID : Z := 1700.
Definition JSONBOID : Z := 3802.

Inductive Datum :=
| DWord (w : Z) | DText (s : str) | DBytea (s : str) | DNumeric (s : str) | DJsonb (v : str).

#[export] Instance Datum_eq_dec : EqDecision Datum.
Proof. solve_decision. Defined.

(** [Datum::value()] of a by-value datum, and the text of a varlena one. *)
Definition word (d : Datum) : Z := match d with DWord w => w | _ => 0 end.
Definition text_datum_to_str (d : Datum) : str := match d with DText s => s | _ => [] end.

Definition datum_to_bool (d : Datum) : bool := negb (word d mod 256 =? 0).
Definition datum_to_i16 (d : Datum) : Z := as_i16 (word d).
Definition datum_to_i32 (d : Datum) : Z := as_i32 (word d).
Definition datum_to_i64 (d : Datum) : Z := as_i64 (word d).

(** The crates' checked conversions. *)
Class PgApi := {
  (** [NaiveDate] as days from 2000-01-01: [parse_from_str(_, "%Y-%m-%d")]
      and [checked_add_signed] followed by [format]. *)
  chrono_parse_ymd : str -> Result str Z;
  chrono_format_days : Z -> option str;
  pg_date_try_from : Z -> Result str Z;
  pg_timestamp_try_from : Z -> Result str Z;
  any_numeric_try_from : str -> Result str str;
  json_from_str : str -> Result str str;
  (** [{:?}] of a data type. *)
  debug_type : DataType -> str;
}.

Class PgLaws (P : PgApi) : Prop := {
  format_parse d s : chrono_format_days d = Some s -> chrono_parse_ymd s = Ok d;
  format_chars d s : chrono_format_days d = Some s ->
    s <> [] /\ Forall (fun c => is_ascii_digit c = true \/ c = "-"%char \/ c = "+"%char) s;
  date_try_from_id d d' : pg_date_try_from d = Ok d' -> d' = d;
}.

(** ** Postgres types to Arrow types *)

Definition pg_oid_to_arrow_type (oid : Z) : FdwResult DataType :=
  if oid =? BOOLOID then Ok Boolean
  else if oid =? INT2OID then Ok Int16
  else if oid =? INT4OID then Ok Int32
  else if oid =? INT8OID then Ok Int64
  else if oid =? FLOAT4OID then Ok Float32
  else if oid =? FLOAT8OID then Ok Float64
  else if (oid =? TEXTOID) || (oid =? VARCHAROID) then Ok Utf8
  else if oid =? BYTEAOID then Ok Binary
  else if oid =? DATEOID then Ok Date32
  else if oid =? TIMESTAMPOID then Ok (Timestamp Microsecond None)
  else if oid =? TIMESTAMPTZOID then Ok (Timestamp Microsecond (Some (lit "UTC")))
  else if oid =? NUMERICOID then Ok (Decimal128 38 9)
  else if oid =? JSONBOID then Ok Utf8
  else Err (UnsupportedType ("oid=" ++ show_Z oid) "<none>").

(** [FormData_pg_attribute]: the fields the code reads.  [attname] is [None]
    when the bytes are not UTF-8. *)
Record PgAttribute := mkAttr {
  attname : option str; atttypid : Z; attnotnull : bool; attisdropped : bool; attnum : Z }.

Definition attr_field (fields : Schema) (att : PgAttribute) : FdwResult Schema :=
  dt ← pg_oid_to_arrow_type (atttypid att);
  let name := default ("col" ++ show_Z (Z.of_nat (length fields))) (attname att) in
  Ok (fields ++ [mkField name dt (negb (attnotnull att))]).

Definition pg_attrs_to_arrow_schema (attrs : list PgAttribute) : FdwResult Schema :=
  foldM attr_field [] attrs.

(** ** Column builders *)

(** The concrete builder behind [Box<dyn ArrayBuilder>]. *)
Inductive BuilderKind :=
| KBoolean | KInt16 | KInt32 | KInt64 | KFloat32 | KFloat64 | KString | KBinary | KDate32
| KTimestampMicrosecond | KDecimal128.

#[export] Instance BuilderKind_eq_dec : EqDecision BuilderKind.
Proof. solve_decision. Defined.

Record Builder := mkBuilder { b_kind : BuilderKind; b_type : DataType; b_cells : list cell }.

Record RecordBatchBuilders := mkBuilders { rb_schema : Schema; rb_builders : list Builder }.

(** [with_precision_and_scale]: the crate's bounds for Decimal128. *)
Definition decimal128_params_ok (p s : Z) : bool :=
  (1 <=? p) && (p <=? 38) && (s <=? 38) && (s <=? p).

Section Builders.
Context {P : PgApi}.

Definition make_builder (dt : DataType) : FdwResult Builder :=
  match dt with
  | Boolean => Ok (mkBuilder KBoolean dt [])
  | Int16 => Ok (mkBuilder KInt16 dt [])
  | Int32 => Ok (mkBuilder KInt32 dt [])
  | Int64 => Ok (mkBuilder KInt64 dt [])
  | Float32 => Ok (mkBuilder KFloat32 dt [])
  | Float64 => Ok (mkBuilder KFloat64 dt [])
  | Utf8 => Ok (mkBuilder KString dt [])
  | Binary => Ok (mkBuilder KBinary dt [])
  | Date32 => Ok (mkBuilder KDate32 dt [])
  | Timestamp Microsecond None => Ok (mkBuilder KTimestampMicrosecond dt [])
  | Timestamp Microsecond (Some _) => Ok (mkBuilder KTimestampMicrosecond dt [])
  | Decimal128 p s =>
      if decimal128_params_ok p s then Ok (mkBuilder KDecimal128 dt [])
      else Err (Arrow "invalid decimal precision or scale")
  | other => Err (UnsupportedType "<n/a>" (debug_type other))
  end.

Definition builders_new (schema : Schema) : FdwResult RecordBatchBuilders :=
  bs ← mapM_res (fun f => make_builder (field_type f)) schema; Ok (mkBuilders schema bs).

Definition builders_len (b : RecordBatchBuilders) : nat :=
  match rb_builders b with [] => O | x :: _ => length (b_cells x) end.

Definition out_of_range (b : RecordBatchBuilders) (col : nat) : FdwError :=
  SchemaMismatch ("column index " ++ show_Z (Z.of_nat col) ++ " out of range (have "
                  ++ show_Z (Z.of_nat (length (rb_schema b))) ++ ")").

Definition push_cell (b : RecordBatchBuilders) (col : nat) (x : Builder) (c : cell) : RecordBatchBuilders :=
  mkBuilders (rb_schema b) (<[col := mkBuilder (b_kind x) (b_type x) (b_cells x ++ [c])]> (rb_builders b)).

(** [typed_builder::<T>(col)?] followed by the append. *)
Definition append_typed (k : BuilderKind) (type_name : str) (b : RecordBatchBuilders) (col : nat) (c : cell)
    : FdwResult RecordBatchBuilders :=
  x ← ok_or (rb_builders b !! col) (out_of_range b col);
  if bool_decide (b_kind x = k) then Ok (push_cell b col x c)
  else Err (SchemaMismatch ("builder for column " ++ show_Z (Z.of_nat col) ++ " is not a " ++ type_name)).

Definition append_bool b col (v : option bool) := append_typed KBoolean "BooleanBuilder" b col (VBool <$> v).
Definition append_i16 b col (v : option Z) := append_typed KInt16 "Int16Builder" b col (VI16 <$> v).
Definition append_i32 b col (v : option Z) := append_typed KInt32 "Int32Builder" b col (VI32 <$> v).
Definition append_i64 b col (v : option Z) := append_typed KInt64 "Int64Builder" b col (VI64 <$> v).
Definition append_f32 b col (v : option Z) := append_typed KFloat32 "Float32Builder" b col (VF32 <$> v).
Definition append_f64 b col (v : option Z) := append_typed KFloat64 "Float64Builder" b col (VF64 <$> v).
Definition append_date b col (v : option Z) := append_typed KDate32 "Date32Builder" b col (VDate32 <$> v).
Definition append_ts_us b col (v : option Z) := append_typed KTimestampMicrosecond "TimestampMicrosecondBuilder" b col (VTimestamp <$> v).
Definition append_tstz_us b col (v : option Z) := append_ts_us b col v.
Definition append_str b col (v : option str) := append_typed KString "StringBuilder" b col (VUtf8 <$> v).
Definition append_bytes b col (v : option str) := append_typed KBinary "BinaryBuilder" b col (VBinary <$> v).
Definition append_decimal128 b col (v : option Z) := append_typed KDecimal128 "Decimal128Builder" b col (VDecimal128 <$> v).
Definition append_jsonb_text b col (v : option str) := append_str b col v.

(** Every builder kind [make_builder] creates has an arm. *)
Definition append_null (b : RecordBatchBuilders) (col : nat) : FdwResult RecordBatchBuilders :=
  x ← ok_or (rb_builders b !! col) (out_of_range b col); Ok (push_cell b col x None).

Fixpoint check_lengths (expected : nat) (i : nat) (bs : list Builder) : FdwResult unit :=
  match bs with
  | [] => Ok tt
  | x :: bs' =>
      if (length (b_cells x) =? expected)%nat then check_lengths expected (S i) bs'
      else Err (SchemaMismatch ("column " ++ show_Z (Z.of_nat i) ++ " has " ++ show_Z (Z.of_nat (length (b_cells x)))
                 ++ " rows, column 0 has " ++ show_Z (Z.of_nat expected)
                 ++ "; every column must be appended for every row"))
  end.

Definition builders_finish {A : ArrowApi} (b : RecordBatchBuilders) : FdwResult RecordBatch :=
  _ ← match rb_builders b with
      | [] => Ok tt
      | x :: bs => check_lengths (length (b_cells x)) 1 bs
      end;
  map_err Arrow (try_new (rb_schema b) (map (fun x => build_array (b_type x) (b_cells x)) (rb_builders b))).

(** [insert.rs]: [append_one], shared by the INSERT and UPDATE paths. *)
Definition append_one (b : RecordBatchBuilders) (col : nat) (oid : Z) (datum : Datum) (is_null : bool)
    : FdwResult RecordBatchBuilders :=
  if is_null then append_null b col
  else if oid =? BOOLOID then append_bool b col (Some (datum_to_bool datum))
  else if oid =? INT2OID then append_i16 b col (Some (datum_to_i16 datum))
  else if oid =? INT4OID then append_i32 b col (Some (datum_to_i32 datum))
  else if oid =? INT8OID then append_i64 b col (Some (datum_to_i64 datum))
  else if oid =? FLOAT4OID then append_f32 b col (Some (as_u32 (word datum)))
  else if oid =? FLOAT8OID then append_f64 b col (Some (as_u64 (word datum)))
  else if (oid =? TEXTOID) || (oid =? VARCHAROID) then append_str b col (Some (text_datum_to_str datum))
  else Err (UnsupportedType ("oid=" ++ show_Z oid ++ " (write path)") "<n/a>").

(** ** Arrow cells to datums *)

Definition UNIX_TO_PG_EPOCH_DAYS : Z := 10957.
Definition UNIX_TO_PG_EPOCH_MICROS : Z := 946684800000000.

Definition zeros (n : nat) : str := replicate n "0"%char.

(** [scale as usize] and [(-s) as usize] for an [i8] scale. *)
Definition format_decimal128 (value scale : Z) : str :=
  if value =? 0 then
    if 0 <? scale then "0." ++ zeros (Z.to_nat scale) else "0"
  else
    let digits := show_nonneg (Z.abs value) in
    let s :=
      if 0 <? scale then
        let n := Z.to_nat scale in
        if (length digits <=? n)%nat then "0." ++ zeros (n - length digits) ++ digits
        else take (length digits - n) digits ++ "." ++ drop (length digits - n) digits
      else if scale =? 0 then digits
      else digits ++ zeros (Z.to_nat (- scale)) in
    if value <? 0 then "-" ++ s else s.

Definition checked_sub_i32 (a b : Z) : option Z :=
  if ((-2147483648 <=? a - b) && (a - b <=? 2147483647)) then Some (a - b) else None.
Definition checked_sub_i64 (a b : Z) : option Z :=
  if ((-9223372036854775808 <=? a - b) && (a - b <=? 9223372036854775807)) then Some (a - b) else None.

Definition pg_timestamp (label : str) (us : Z) : FdwResult Datum :=
  pg_us ← ok_or (checked_sub_i64 us UNIX_TO_PG_EPOCH_MICROS)
            (SchemaMismatch ("timestamp out of range: unix-micros=" ++ show_Z us));
  ts ← map_err (fun e => SchemaMismatch (label ++ " out of range: " ++ e)) (pg_timestamp_try_from pg_us);
  Ok (DWord (as_u64 ts)).

Definition json_value_to_datum (s : str) : FdwResult Datum :=
  v ← map_err (fun e => SchemaMismatch ("invalid jsonb text: " ++ e)) (json_from_str s); Ok (DJsonb v).

(** One cell of an array of type [t], converted to a datum of type [oid];
    [None] is SQL NULL.  The last arm of each pair is a failed downcast,
    which an array whose cells match its type never takes. *)
Definition arrow_value_to_datum (t : DataType) (c : cell) (oid : Z) : FdwResult (option Datum) :=
  let unsupported := Err (UnsupportedType ("oid=" ++ show_Z oid) (debug_type t)) in
  let bad_cast := Err (SchemaMismatch ("downcast failed for arrow type " ++ debug_type t)) in
  match c with
  | None => Ok None
  | Some v =>
      match t with
      | Boolean => if oid =? BOOLOID then
          match v with VBool x => Ok (Some (DWord (if x then 1 else 0))) | _ => bad_cast end else unsupported
      | Int16 => if oid =? INT2OID then
          match v with VI16 z => Ok (Some (DWord (as_u64 z))) | _ => bad_cast end else unsupported
      | Int32 => if oid =? INT4OID then
          match v with VI32 z => Ok (Some (DWord (as_u64 z))) | _ => bad_cast end else unsupported
      | Int64 => if oid =? INT8OID then
          match v with VI64 z => Ok (Some (DWord (as_u64 z))) | _ => bad_cast end else unsupported
      | Float32 => if oid =? FLOAT4OID then
          match v with VF32 z => Ok (Some (DWord z)) | _ => bad_cast end else unsupported
      | Float64 => if oid =? FLOAT8OID then
          match v with VF64 z => Ok (Some (DWord z)) | _ => bad_cast end else unsupported
      | Utf8 | LargeUtf8 =>
          if (oid =? TEXTOID) || (oid =? VARCHAROID) then
            match v with VUtf8 s => Ok (Some (DText s)) | _ => bad_cast end
          else if oid =? JSONBOID then
            match v with VUtf8 s => d ← json_value_to_datum s; Ok (Some d) | _ => bad_cast end
          else unsupported
      | Binary | LargeBinary => if oid =? BYTEAOID then
          match v with VBinary s => Ok (Some (DBytea s)) | _ => bad_cast end else unsupported
      | Date32 => if oid =? DATEOID then
          match v with
          | VDate32 z =>
              pg_days ← ok_or (checked_sub_i32 z UNIX_TO_PG_EPOCH_DAYS)
                          (SchemaMismatch ("date out of range: unix-days=" ++ show_Z z));
              d ← map_err SchemaMismatch (pg_date_try_from pg_days);
              Ok (Some (DWord (as_u64 d)))
          | _ => bad_cast end else unsupported
      | Timestamp Microsecond None => if oid =? TIMESTAMPOID then
          match v with VTimestamp us => d ← pg_timestamp "timestamp" us; Ok (Some d) | _ => bad_cast end
          else unsupported
      | Timestamp Microsecond (Some _) => if oid =? TIMESTAMPTZOID then
          match v with VTimestamp us => d ← pg_timestamp "timestamptz" us; Ok (Some d) | _ => bad_cast end
          else unsupported
      | Decimal128 _ scale => if oid =? NUMERICOID then
          match v with
          | VDecimal128 z =>
              let s := format_decimal128 z scale in
              n ← map_err (fun e => SchemaMismatch ("invalid numeric " ++ s ++ ": " ++ e)) (any_numeric_try_from s);
              Ok (Some (DNumeric n))
          | _ => bad_cast end else unsupported
      | _ => unsupported
      end
  end.

(** [arrow_type_to_pg_typename]: the DDL type of IMPORT FOREIGN SCHEMA. *)
Definition arrow_type_to_pg_typename (t : DataType) : FdwResult str :=
  match t with
  | Boolean => Ok (lit "BOOLEAN") | Int16 => Ok (lit "SMALLINT") | Int32 => Ok (lit "INTEGER")
  | Int64 => Ok (lit "BIGINT") | Float32 => Ok (lit "REAL") | Float64 => Ok (lit "DOUBLE PRECISION")
  | Utf8 | LargeUtf8 => Ok (lit "TEXT") | Binary | LargeBinary => Ok (lit "BYTEA")
  | Date32 => Ok (lit "DATE")
  | Timestamp Microsecond None => Ok (lit "TIMESTAMP")
  | Timestamp Microsecond (Some _) => Ok (lit "TIMESTAMPTZ")
  | Decimal128 p s => Ok ("NUMERIC(" ++ show_Z p ++ "," ++ show_Z s ++ ")")
  | other => Err (SchemaMismatch ("arrow type " ++ debug_type other ++ " has no SP-2 DDL mapping"))
  end.

(** ** Partition values *)

Definition parse_int_partition (parse : str -> option Z) (ty : str) (raw : str) : FdwResult Datum :=
  v ← ok_or (parse raw) (SchemaMismatch ("'" ++ raw ++ "' is not " ++ ty));
  if v <? 0 then Err (SchemaMismatch ("negative partition value '" ++ raw ++ "' not supported in v1"))
  else Ok (DWord (as_u64 v)).

Definition parse_text_to_datum (ty : PgPartitionType) (raw : str) : FdwResult Datum :=
  match ty with
  | PInt2 => parse_int_partition parse_i16 "int2" raw
  | PInt4 => parse_int_partition parse_i32 "int4" raw
  | PInt8 => parse_int_partition parse_i64 "int8" raw
  | PText => Ok (DText raw)
  | PDate =>
      days ← map_err (fun e => SchemaMismatch ("date '" ++ raw ++ "' parse failed: " ++ e)) (chrono_parse_ymd raw);
      if (-2147483648 <=? days) && (days <=? 2147483647) then
        d ← map_err (fun e => SchemaMismatch ("date '" ++ raw ++ "' invalid: " ++ e)) (pg_date_try_from days);
        Ok (DWord (as_u64 d))
      else Err (SchemaMismatch ("date '" ++ raw ++ "' out of i32 range"))
  end.

Definition negative_partition : FdwError := SchemaMismatch "negative partition value not supported in v1".

Definition datum_to_partition_string (datum : Datum) (oid : Z) : FdwResult str :=
  if oid =? INT2OID then
    let v := datum_to_i16 datum in if v <? 0 then Err negative_partition else Ok (show_Z v)
  else if oid =? INT4OID then
    let v := datum_to_i32 datum in if v <? 0 then Err negative_partition else Ok (show_Z v)
  else if oid =? INT8OID then
    let v := datum_to_i64 datum in if v <? 0 then Err negative_partition else Ok (show_Z v)
  else if oid =? DATEOID then
    let pg_days := datum_to_i32 datum in
    ok_or (chrono_format_days pg_days)
      (SchemaMismatch ("partition date out of range: pg-days=" ++ show_Z pg_days))
  else if (oid =? TEXTOID) || (oid =? VARCHAROID) then
    let owned := text_datum_to_str datum in
    if str_eqb owned [] then Err (SchemaMismatch "partition text value cannot be empty")
    else if contains_char "/" owned || contains_char "=" owned then
      Err (SchemaMismatch ("partition text value '" ++ owned ++ "' contains '/' or '='; these characters collide with the Hive path grammar"))
    else if contains ".." owned then
      Err (SchemaMismatch ("text partition value '" ++ owned ++ "' must not contain '..' (path-traversal symmetry with read-side SSRF validator)"))
    else Ok owned
  else Err (UnsupportedType ("oid=" ++ show_Z oid ++ " (partition string)") "<n/a>").

End Builders.

(** ** Reading back what the formatter wrote *)

(** The value of a decimal text: unscaled integer and fraction digits. *)
Definition read_unsigned (s : str) : option (Z * nat) :=
  match split_once "." s with
  | None => v ← parse_digits 0 s; Some (v, O)
  | Some (a, b) => v ← parse_digits 0 (a ++ b); Some (v, length b)
  end.

Definition read_decimal (s : str) : option (Z * nat) :=
  match s with
  | c :: s' => if ascii_eqb c "-" then '(v, n) ← read_unsigned s'; Some (- v, n) else read_unsigned s
  | [] => None
  end.

Lemma parse_digits_app acc a b :
  parse_digits acc (a ++ b) = v ← parse_digits acc a; parse_digits v b.
Proof.
  revert acc. induction a as [|c a IH]; intros acc; simpl; [done|].
  destruct (parse_digit c); simpl; [apply IH|done].
Qed.

Lemma parse_digits_zeros acc n : parse_digits acc (zeros n) = Some (acc * 10 ^ Z.of_nat n).
Proof.
  revert acc. induction n as [|n IH]; intros acc; [simpl; f_equal; lia|].
  cbn [zeros replicate parse_digits]. change (parse_digit "0") with (Some 0). cbn [mbind option_bind].
  fold (zeros n). rewrite IH, Nat2Z.inj_succ, Z.pow_succ_r by lia. f_equal. lia.
Qed.

Lemma parse_zeros_prefix n s : parse_digits 0 (zeros n ++ s) = parse_digits 0 s.
Proof. rewrite parse_digits_app, parse_digits_zeros. simpl. f_equal. Qed.

Lemma digits_no_dot s : Forall (fun c => is_ascii_digit c = true) s -> "."%char ∉ s.
Proof. intros H Hin. rewrite Forall_forall in H. apply H in Hin. done. Qed.

Lemma zeros_digits n : Forall (fun c => is_ascii_digit c = true) (zeros n).
Proof. by apply Forall_replicate. Qed.

Lemma read_unsigned_plain s v :
  Forall (fun c => is_ascii_digit c = true) s -> parse_digits 0 s = Some v -> read_unsigned s = Some (v, O).
Proof.
  intros Hd Hv. unfold read_unsigned. rewrite (proj2 (split_once_None _ _)) by by apply digits_no_dot.
  by rewrite Hv.
Qed.

Lemma read_unsigned_frac a b v :
  Forall (fun c => is_ascii_digit c = true) a -> parse_digits 0 (a ++ b) = Some v ->
  read_unsigned (a ++ "." ++ b) = Some (v, length b).
Proof.
  intros Hd Hv. unfold read_unsigned.
  assert (split_once "." (a ++ "." ++ b) = Some (a, b)) as ->.
  { apply split_once_Some. split; [done|by apply digits_no_dot]. }
  by rewrite Hv.
Qed.

(** The body the formatter builds before the sign. *)
Lemma read_formatted_digits v s :
  0 < v ->
  let digits := show_nonneg v in
  read_unsigned
    (if 0 <? s then
       let n := Z.to_nat s in
       if (length digits <=? n)%nat then "0." ++ zeros (n - length digits) ++ digits
       else take (length digits - n) digits ++ "." ++ drop (length digits - n) digits
     else if s =? 0 then digits else digits ++ zeros (Z.to_nat (- s))) =
  Some (v * 10 ^ (Z.max 0 (- s)), Z.to_nat (Z.max 0 s)).
Proof.
  intros Hv digits. assert (0 <= v) as Hv0 by lia.
  pose proof (show_nonneg_digits v Hv0) as Hd. pose proof (parse_show_nonneg v Hv0) as Hp. fold digits in Hd, Hp.
  destruct (Z.ltb_spec 0 s) as [Hs|Hs].
  - rewrite (Z.max_l 0 (- s)), (Z.max_r 0 s), Z.pow_0_r, Z.mul_1_r by lia. cbv zeta.
    destruct (Nat.leb_spec (length digits) (Z.to_nat s)).
    + change (lit "0." ++ ?x) with (zeros 1 ++ lit "." ++ x).
      erewrite read_unsigned_frac; [|apply zeros_digits|by rewrite !parse_zeros_prefix].
      do 2 f_equal. rewrite length_app. unfold zeros. rewrite length_replicate. lia.
    + erewrite read_unsigned_frac; [|by apply Forall_take|by rewrite take_drop].
      do 2 f_equal. rewrite length_drop. lia.
  - destruct (Z.eqb_spec s 0) as [->|Hne].
    + rewrite Z.pow_0_r, Z.mul_1_r. by apply read_unsigned_plain.
    + rewrite (Z.max_r 0 (- s)), (Z.max_l 0 s) by lia. simpl Z.to_nat.
      apply read_unsigned_plain; [apply Forall_app; split; [done|apply zeros_digits]|].
      rewrite parse_digits_app, Hp. cbn [mbind option_bind]. rewrite parse_digits_zeros.
      f_equal. f_equal. f_equal. lia.
Qed.

Lemma read_decimal_nonneg s v n : read_unsigned s = Some (v, n) ->
  (forall s', s <> "-"%char :: s') -> s <> [] -> read_decimal s = Some (v, n).
Proof.
  intros H Hneg Hne. destruct s as [|c s]; [done|]. cbn [read_decimal].
  destruct (ascii_eqb c "-") eqn:E; [|done]. apply ascii_eqb_eq in E as ->. by destruct (Hneg s).
Qed.

Lemma read_unsigned_not_minus s v n : read_unsigned s = Some (v, n) -> forall s', s <> "-"%char :: s'.
Proof.
  intros H s' ->. unfold read_unsigned in H. cbn [split_once] in H.
  change (ascii_eqb "." "-") with false in H. cbn iota in H.
  destruct (split_once "." s') as [[a b]|]; cbn in H; done.
Qed.

Lemma read_decimal_minus s v n : read_unsigned s = Some (v, n) ->
  read_decimal ("-" ++ s) = Some (- v, n).
Proof. intros H. cbn. by rewrite H. Qed.

(** C37: the text produced for a Decimal128 denotes exactly the unscaled value
    divided by ten to the scale, for every value and every scale an [i8] can
    negate: no digit is lost, invented or moved. *)
Theorem format_decimal128_exact v s :
  -128 < s <= 127 ->
  read_decimal (format_decimal128 v s) = Some (v * 10 ^ (Z.max 0 (- s)), Z.to_nat (Z.max 0 s)).
Proof.
  intros Hs. unfold format_decimal128. destruct (Z.eqb_spec v 0) as [->|Hv].
  - destruct (Z.ltb_spec 0 s) as [Hp|Hp].
    + rewrite (Z.max_r 0 s) by lia. change (lit "0." ++ ?x) with (zeros 1 ++ lit "." ++ x).
      eapply read_decimal_nonneg; [|done|done].
      erewrite read_unsigned_frac; [|apply zeros_digits|by rewrite parse_zeros_prefix, parse_digits_zeros].
      do 2 f_equal. unfold zeros. by rewrite length_replicate.
    + rewrite (Z.max_l 0 s) by lia. reflexivity.
  - cbv zeta. destruct (Z.ltb_spec v 0) as [Hneg|Hpos].
    + erewrite read_decimal_minus; [|apply (read_formatted_digits (Z.abs v) s); lia].
      do 2 f_equal. rewrite Z.abs_neq by lia. lia.
    + pose proof (read_formatted_digits (Z.abs v) s ltac:(lia)) as Hr. rewrite Z.abs_eq in * by lia.
      apply read_decimal_nonneg; [done|by eapply read_unsigned_not_minus|].
      intros E. cbv zeta in Hr. rewrite E in Hr.
      assert (0 < 10 ^ Z.max 0 (- s)) by (apply Z.pow_pos_nonneg; lia).
      assert (0 = v * 10 ^ Z.max 0 (- s)) by (cbn in Hr; congruence). nia.
Qed.

Lemma format_decimal128_exact_witness :
  read_decimal (format_decimal128 (-12345) 3) = Some (-12345, 3%nat).
Proof. rewrite (format_decimal128_exact (-12345) 3); [reflexivity|lia]. Defined.

(** ** Round trips through the builders and the partition path *)

(** The datums the executor delivers for a type. *)
Definition canonical (oid : Z) (d : Datum) : Prop :=
  (oid = BOOLOID /\ (d = DWord 0 \/ d = DWord 1)) \/
  (oid = INT2OID /\ exists z, in_i16 z /\ d = DWord (as_u64 z)) \/
  (oid = INT4OID /\ exists z, in_i32 z /\ d = DWord (as_u64 z)) \/
  (oid = INT8OID /\ exists z, in_i64 z /\ d = DWord (as_u64 z)) \/
  (oid = FLOAT4OID /\ exists w, is_u32 w /\ d = DWord w) \/
  (oid = FLOAT8OID /\ exists w, is_u64 w /\ d = DWord w) \/
  ((oid = TEXTOID \/ oid = VARCHAROID) /\ exists s, d = DText s).

Lemma as_i16_word z : in_i16 z -> as_i16 (as_u64 z) = z.
Proof.
  intros Hz. unfold as_i16, as_signed. destruct (Z.ltb_spec (as_u64 z mod 65536) (65536 / 2)); int_lia.
Qed.
Lemma as_i32_word z : in_i32 z -> as_i32 (as_u64 z) = z.
Proof.
  intros Hz. unfold as_i32, as_signed.
  destruct (Z.ltb_spec (as_u64 z mod 4294967296) (4294967296 / 2)); int_lia.
Qed.
Lemma as_i64_word z : in_i64 z -> as_i64 (as_u64 z) = z.
Proof.
  intros Hz. unfold as_i64, as_signed.
  destruct (Z.ltb_spec (as_u64 z mod 18446744073709551616) (18446744073709551616 / 2)); int_lia.
Qed.
Lemma as_u64_id z : is_u64 z -> as_u64 z = z.
Proof. intros; int_lia. Qed.

Section RoundTrips.
Context {P : PgApi} {PL : PgLaws P}.

Lemma make_builder_pg oid t : pg_oid_to_arrow_type oid = Ok t -> exists k, make_builder t = Ok (mkBuilder k t []).
Proof. unfold pg_oid_to_arrow_type. intros Ht. repeat case_match; simplify_eq; cbn; eauto. Qed.

(** The cell [append_one] pushes for a value of a writable type. *)
Lemma append_one_cell b col x oid d t :
  canonical oid d -> pg_oid_to_arrow_type oid = Ok t -> make_builder t = Ok (mkBuilder (b_kind x) t []) ->
  rb_builders b !! col = Some x ->
  exists v, append_one b col oid d false = Ok (push_cell b col x (Some v)) /\ arrow_value_to_datum t (Some v) oid = Ok (Some d).
Proof.
  intros Hc Ht Hk Hx.
  assert (forall k nm c, b_kind x = k -> append_typed k nm b col c = Ok (push_cell b col x c)) as Ha.
  { intros k nm c Hkx. unfold append_typed. rewrite Hx. cbn. by rewrite bool_decide_true. }
  destruct Hc as [[-> [-> | ->]]|[[-> (z & Hz & ->)]|[[-> (z & Hz & ->)]|[[-> (z & Hz & ->)]|
    [[-> (w & Hw & ->)]|[[-> (w & Hw & ->)]|[[-> | ->] (s & ->)]]]]]]];
    cbn in Ht; inv_ok; cbn in Hk; injection Hk as Hk; symmetry in Hk; eexists; unfold append_one; cbn [word Z.eqb BOOLOID INT2OID orb];
    (split; [by apply Ha|]); try done.
  - unfold datum_to_i16. cbn [word]. by rewrite as_i16_word.
  - unfold datum_to_i32. cbn [word]. by rewrite as_i32_word.
  - unfold datum_to_i64. cbn [word]. by rewrite as_i64_word.
  - cbn. by rewrite as_u32_id.
  - cbn. by rewrite as_u64_id.
Qed.

(** A value of a writable type appended to its column's builder is read
    back as the same datum: the two type matrices agree. *)
Theorem write_read_roundtrip sch oid d t x :
  canonical oid d -> pg_oid_to_arrow_type oid = Ok t -> make_builder t = Ok x ->
  exists c, append_one (mkBuilders sch [x]) 0 oid d false =
              Ok (mkBuilders sch [mkBuilder (b_kind x) t [c]]) /\
    arrow_value_to_datum t c oid = Ok (Some d).
Proof.
  intros Hc Ht Hx. destruct (make_builder_pg oid t Ht) as [k Hk]. rewrite Hk in Hx. injection Hx as <-.
  destruct (append_one_cell (mkBuilders sch [mkBuilder k t []]) 0 (mkBuilder k t []) oid d t Hc Ht Hk eq_refl) as (v & Ha & Hr).
  exists (Some v). by rewrite Ha.
Qed.

(** The oid a partition key type declares. *)
Definition partition_type_oid (ty : PgPartitionType) : Z :=
  match ty with PInt2 => INT2OID | PInt4 => INT4OID | PInt8 => INT8OID | PText => TEXTOID | PDate => DATEOID end.

Definition partition_canonical (ty : PgPartitionType) (d : Datum) : Prop :=
  match ty with
  | PInt2 => exists z, in_i16 z /\ d = DWord (as_u64 z)
  | PInt4 => exists z, in_i32 z /\ d = DWord (as_u64 z)
  | PInt8 => exists z, in_i64 z /\ d = DWord (as_u64 z)
  | PText => exists s, d = DText s
  | PDate => exists z, in_i32 z /\ is_ok (pg_date_try_from z) = true /\ d = DWord (as_u64 z)
  end.

Lemma int_partition_roundtrip parse ty z :
  parse (show_Z z) = Some z -> 0 <= z ->
  parse_int_partition parse ty (show_Z z) = Ok (DWord (as_u64 z)).
Proof.
  intros Hp Hz. unfold parse_int_partition. rewrite Hp. simpl. by destruct (Z.ltb_spec z 0); [lia|].
Qed.

Lemma date_partition_roundtrip z s :
  in_i32 z -> is_ok (pg_date_try_from z) = true -> chrono_format_days z = Some s ->
  parse_text_to_datum PDate s = Ok (DWord (as_u64 z)).
Proof.
  intros Hz Hok Hf. cbn [parse_text_to_datum]. rewrite (format_parse _ _ Hf). cbn [map_err mbind result_bind].
  destruct (Z.leb_spec (-2147483648) z), (Z.leb_spec z 2147483647); try int_lia. cbn [andb].
  destruct (pg_date_try_from z) as [d|] eqn:Hd; [|done]. rewrite (date_try_from_id _ _ Hd). done.
Qed.

(** The text a partition value is written as (into the blob path) parses
    back to the same datum, for each partition key type. *)
Theorem partition_value_roundtrip ty d s :
  partition_canonical ty d ->
  datum_to_partition_string d (partition_type_oid ty) = Ok s ->
  parse_text_to_datum ty s = Ok d.
Proof.
  intros Hc H. destruct ty; cbn in Hc; unfold datum_to_partition_string in H; cbn in H.
  - destruct Hc as (z & Hz & ->). unfold datum_to_i16 in H. cbn [word] in H. rewrite as_i16_word in H by done.
    destruct (Z.ltb_spec z 0); [done|]. inv_ok. apply int_partition_roundtrip; [|done].
    apply parse_show_Z. unfold in_i16 in Hz. lia.
  - destruct Hc as (z & Hz & ->). unfold datum_to_i32 in H. cbn [word] in H. rewrite as_i32_word in H by done.
    destruct (Z.ltb_spec z 0); [done|]. inv_ok. apply int_partition_roundtrip; [|done].
    apply parse_show_Z. unfold in_i32 in Hz. lia.
  - destruct Hc as (z & Hz & ->). unfold datum_to_i64 in H. cbn [word] in H. rewrite as_i64_word in H by done.
    destruct (Z.ltb_spec z 0); [done|]. inv_ok. apply int_partition_roundtrip; [|done].
    apply parse_show_Z. unfold in_i64 in Hz. lia.
  - destruct Hc as (t & ->). cbn in H. repeat case_match; by inv_ok.
  - destruct Hc as (z & Hz & Hok & ->). unfold datum_to_i32 in H. cbn [word] in H. rewrite as_i32_word in H by done.
    inv_ok. by apply date_partition_roundtrip.
Qed.

(** The write path rejects every value of six types whose columns the
    schema mapping accepts: bytea, date, timestamp, timestamptz, numeric and
    jsonb columns can only be written as NULL. *)
Theorem append_one_unsupported b col oid d :
  oid ∈ [BYTEAOID; DATEOID; TIMESTAMPOID; TIMESTAMPTZOID; NUMERICOID; JSONBOID] ->
  is_ok (pg_oid_to_arrow_type oid) = true /\
  append_one b col oid d false = Err (UnsupportedType ("oid=" ++ show_Z oid ++ " (write path)") "<n/a>").
Proof.
  rewrite !elem_of_cons, elem_of_nil.
  intros [->|[->|[->|[->|[->|[->|[]]]]]]]; split; reflexivity.
Qed.

(** Building one column: the pieces UPDATE uses. *)
Lemma one_row_finish {A : ArrowApi} {AL : ArrowLaws A} f k c :
  (nullable f = false -> c <> None) ->
  exists rb, builders_finish (mkBuilders [f] [mkBuilder k (field_type f) [c]]) = Ok rb /\
    batch_columns rb = [build_array (field_type f) [c]].
Proof.
  intros Hn. unfold builders_finish. cbn.
  destruct (try_new_ok [f] [build_array (field_type f) [c]] 1) as (rb & Hrb & Hc & _).
  - split; [done|]. constructor; [|constructor]. rewrite build_type. unfold array_len. rewrite build_cells.
    split; [done|]. split; [done|]. intros Hf. rewrite not_elem_of_cons. split; [|apply not_elem_of_nil].
    intros E. by apply Hn.
  - exists rb. cbn in Hrb. by rewrite Hrb.
Qed.
End RoundTrips.

(** ** A concrete instance of the external conversions *)

#[export] Instance ref_pg : PgApi := {
  chrono_parse_ymd s := match parse_i32 s with Some z => Ok z | None => Err (lit "bad date") end;
  chrono_format_days d := if (0 <=? d) && (d <=? 2147483647) then Some (show_Z d) else None;
  pg_date_try_from d := Ok d;
  pg_timestamp_try_from d := Ok d;
  any_numeric_try_from s := Ok s;
  json_from_str s := Ok s;
  debug_type _ := lit "type";
}.

Lemma show_Z_digits z : 0 <= z -> show_Z z = show_nonneg z.
Proof. intros Hz. unfold show_Z. by destruct (Z.ltb_spec z 0); [lia|]. Qed.

#[export] Instance ref_pg_laws : PgLaws ref_pg.
Proof.
  constructor; simpl.
  - intros d s. destruct (_ && _) eqn:E; [|done]. intros [= <-]. apply andb_true_iff in E.
    unfold parse_i32. by rewrite parse_show_Z by lia.
  - intros d s. destruct (_ && _) eqn:E; [|done]. intros [= <-]. apply andb_true_iff in E.
    rewrite show_Z_digits by lia. split; [apply show_nonneg_nonempty|].
    eapply Forall_impl; [apply show_nonneg_digits; lia|]. auto.
  - congruence.
Qed.

Lemma write_read_roundtrip_witness :
  exists c, append_one (mkBuilders [] [mkBuilder KInt32 Int32 []]) 0 INT4OID (DWord (as_u64 (-7))) false
      = Ok (mkBuilders [] [mkBuilder KInt32 Int32 [c]]) /\
    arrow_value_to_datum Int32 c INT4OID = Ok (Some (DWord (as_u64 (-7)))).
Proof.
  apply (write_read_roundtrip [] INT4OID (DWord (as_u64 (-7))) Int32 (mkBuilder KInt32 Int32 [])).
  - right. right. left. split; [reflexivity|]. exists (-7). split; [unfold in_i32; lia|reflexivity].
  - reflexivity.
  - reflexivity.
Defined.

Lemma partition_value_roundtrip_witness :
  parse_text_to_datum PInt4 "2025" = Ok (DWord 2025).
Proof.
  apply (partition_value_roundtrip PInt4 (DWord 2025) "2025").
  - exists 2025. split; [unfold in_i32; lia|reflexivity].
  - vm_compute. reflexivity.
Defined.

Lemma append_one_unsupported_witness :
  append_one (mkBuilders [] []) 0 DATEOID (DWord 1) false =
  Err (UnsupportedType ("oid=" ++ show_Z DATEOID ++ " (write path)") "<n/a>").
Proof. apply (append_one_unsupported (mkBuilders [] []) 0 DATEOID (DWord 1)). set_solver. Defined.
