(* ===== verification/BlobService.v ===== *)
(** * The Azure SDK's blob client, as an interface.

    [azure_storage_blob] is outside the repository: its container client is a
    class of operations on a service state.  [BlobLaws] states the documented
    behaviour of the service as one client sees it between its own requests;
    [logged] wraps any implementation so that it records the requests that
    reach it, which is how ordering properties are stated without assuming
    anything about the answers.  [ref_blob] is a concrete implementation for
    the witnesses. *)

From S2P Require Import Prelude RustStr Redact Errors.
Local Open Scope Z_scope.

(** ** State and errors together: code that threads a state and uses [?] *)

Definition SM (S A : Type) : Type := S -> S * FdwResult A.

#[export] Instance sm_ret {S} : MRet (SM S) := fun _ a s => (s, Ok a).
#[export] Instance sm_bind {S} : MBind (SM S) := fun _ _ f m s =>
  match m s with (s', Ok a) => f a s' | (s', Err e) => (s', Err e) end.

(** A result without effects, and an effect that cannot fail. *)
Definition lift {S A} (r : FdwResult A) : SM S A := fun s => (s, r).
Definition modify_state {S} (f : S -> S) : SM S unit := fun s => (f s, Ok tt).

(** A loop over a list threading state and an accumulator. *)
Fixpoint sm_fold {S A B} (f : B -> A -> SM S B) (b : B) (l : list A) : SM S B :=
  match l with
  | [] => mret b
  | x :: l' => b' ← f b x; sm_fold f b' l'
  end.

Fixpoint sm_iter {S A} (f : A -> SM S unit) (l : list A) : SM S unit :=
  match l with
  | [] => mret tt
  | x :: l' => _ ← f x; sm_iter f l'
  end.

Lemma sm_bind_Ok {S A B} (m : SM S A) (f : A -> SM S B) s s' a :
  m s = (s', Ok a) -> (m ≫= f) s = f a s'.
Proof. unfold mbind, sm_bind. by intros ->. Qed.

Lemma sm_bind_Err {S A B} (m : SM S A) (f : A -> SM S B) s s' e :
  m s = (s', Err e) -> (m ≫= f) s = (s', Err e).
Proof. unfold mbind, sm_bind. by intros ->. Qed.

Lemma sm_bind_inv {S A B} (m : SM S A) (f : A -> SM S B) s s' b :
  (m ≫= f) s = (s', Ok b) -> exists s1 a, m s = (s1, Ok a) /\ f a s1 = (s', Ok b).
Proof. unfold mbind, sm_bind. destruct (m s) as [s1 [a|e]]; [eauto|done]. Qed.

(** Either the first part failed or it handed over to the second. *)
Lemma sm_bind_cases {S A B} (m : SM S A) (f : A -> SM S B) s :
  (exists s1 e, m s = (s1, Err e) /\ (m ≫= f) s = (s1, Err e)) \/
  (exists s1 a, m s = (s1, Ok a) /\ (m ≫= f) s = f a s1).
Proof. unfold mbind, sm_bind. destruct (m s) as [s1 [a|e]]; eauto 6. Qed.

(** ** The SDK *)

(** [bytes::Bytes]: the bodies of blobs, seen only through their length and
    the parquet reader. *)
Class BytesApi := { Bytes : Type; bytes_len : Bytes -> Z; bytes_new : Bytes }.

(** The content of a container: blob name to (etag, body). *)
Abbreviation Container := (gmap str (str * Bytes)).

Section Sdk.
Context {Y : BytesApi}.


Record SdkError := mkSdkError { http_status : option Z; sdk_text : str }.

Record BlobItem := mkBlobItem { item_name : option str; item_properties : option (option str) }.

Record Download := mkDownload {
  dl_content_length : option Z; dl_etag : option str; dl_body : Result SdkError Bytes }.

(** The conditional headers of a request. *)
Record Cond := mkCond { if_match : option str; if_none_match : option str }.
Definition no_cond : Cond := mkCond None None.

Class BlobApi := {
  Svc : Type;
  sdk_list_blobs : option str -> Svc -> Svc * Result SdkError (list (Result SdkError BlobItem));
  sdk_get_properties : str -> Svc -> Svc * Result SdkError (Result SdkError (option str));
  sdk_download : str -> Cond -> Svc -> Svc * Result SdkError Download;
  sdk_upload : str -> Bytes -> Cond -> Svc -> Svc * Result SdkError (option str);
  sdk_delete : str -> Cond -> Svc -> Svc * Result SdkError unit;
}.

(** Listings are ordered by blob name. *)
Definition by_name (a b : str * (str * Bytes)) : Prop := str_leb a.1 b.1 = true.
#[export] Instance by_name_dec : RelDecision by_name.
Proof. intros a b. unfold by_name. apply _. Defined.

(** Whether the stored version satisfies the conditions. *)
Definition cond_holds (c : Cond) (cur : option (str * Bytes)) : Prop :=
  (forall e, if_match c = Some e -> exists body, cur = Some (e, body)) /\
  (forall e, if_none_match c = Some e -> e = lit "*" /\ cur = None).

Definition PRECONDITION_FAILED : Z := 412.
Definition NOT_FOUND : Z := 404.

Class BlobLaws (B : BlobApi) := {
  blobs : Svc -> Container;
  list_law prefix s : exists s',
    sdk_list_blobs (Some prefix) s =
      (s', Ok (map (fun '(n, (e, _)) => Ok (mkBlobItem (Some n) (Some (Some e))))
                 (List.filter (fun '(n, _) => starts_with prefix n)
                    (merge_sort by_name (map_to_list (blobs s)))))) /\
    blobs s' = blobs s;
  props_law b s : exists s' r, sdk_get_properties b s = (s', r) /\ blobs s' = blobs s /\
    match blobs s !! b with
    | Some (e, _) => r = Ok (Ok (Some e))
    | None => exists er, r = Err er /\ http_status er = Some NOT_FOUND
    end;
  download_law b c s : exists s' r, sdk_download b c s = (s', r) /\ blobs s' = blobs s /\
    match blobs s !! b with
    | Some (e, body) =>
        if bool_decide (if_match c = None \/ if_match c = Some e)
        then exists len, r = Ok (mkDownload len (Some e) (Ok body)) /\
               (len = None \/ len = Some (bytes_len body))
        else exists er, r = Err er /\ http_status er = Some PRECONDITION_FAILED
    | None => exists er, r = Err er /\ http_status er = Some NOT_FOUND
    end;
  upload_law b body c s : cond_holds c (blobs s !! b) ->
    exists s' e, sdk_upload b body c s = (s', Ok (Some e)) /\
      blobs s' = <[b := (e, body)]> (blobs s) /\
      (forall e0 b0, blobs s !! b = Some (e0, b0) -> e <> e0);
  upload_fails b body c s : ~ cond_holds c (blobs s !! b) ->
    exists s' er, sdk_upload b body c s = (s', Err er) /\ blobs s' = blobs s /\
      (forall e, if_match c = Some e -> http_status er = Some PRECONDITION_FAILED);
  delete_law b c s : is_Some (blobs s !! b) -> cond_holds c (blobs s !! b) ->
    exists s', sdk_delete b c s = (s', Ok tt) /\ blobs s' = delete b (blobs s);
  delete_fails b c s : ~ (is_Some (blobs s !! b) /\ cond_holds c (blobs s !! b)) ->
    exists s' er, sdk_delete b c s = (s', Err er) /\ blobs s' = blobs s /\
      http_status er = Some (if bool_decide (is_Some (blobs s !! b)) then PRECONDITION_FAILED else NOT_FOUND);
}.

(** ** Recording the requests that change the container *)

Inductive Request :=
| ReqUpload (blob : str) (body : Bytes) (c : Cond)
| ReqDelete (blob : str) (c : Cond).

Definition logged (B : BlobApi) : BlobApi := {|
  Svc := @Svc B * list Request;
  sdk_list_blobs p s := let '(s', r) := sdk_list_blobs p s.1 in ((s', s.2), r);
  sdk_get_properties b s := let '(s', r) := sdk_get_properties b s.1 in ((s', s.2), r);
  sdk_download b c s := let '(s', r) := sdk_download b c s.1 in ((s', s.2), r);
  sdk_upload b body c s :=
    let '(s', r) := sdk_upload b body c s.1 in ((s', s.2 ++ [ReqUpload b body c]), r);
  sdk_delete b c s :=
    let '(s', r) := sdk_delete b c s.1 in ((s', s.2 ++ [ReqDelete b c]), r);
|}.

(** ** A concrete service: the container itself *)

Definition cond_ok (c : Cond) (cur : option (str * Bytes)) : bool :=
  match if_match c with
  | None => true
  | Some e => match cur with Some (e', _) => str_eqb e e' | None => false end
  end &&
  match if_none_match c with
  | None => true
  | Some e => str_eqb e "*" && match cur with None => true | Some _ => false end
  end.

Definition ref_status (n : Z) : SdkError := mkSdkError (Some n) "refused".

(** Every version of a blob gets a longer etag than the one before. *)
Definition next_etag (cur : option (str * Bytes)) : str :=
  match cur with Some (e, _) => "v" ++ e | None => "v" end.

Definition ref_blob : BlobApi := {|
  Svc := gmap str (str * Bytes);
  sdk_list_blobs p s :=
    (s, Ok (map (fun '(n, (e, _)) => Ok (mkBlobItem (Some n) (Some (Some e))))
              (List.filter (fun '(n, _) => starts_with (default [] p) n)
                 (merge_sort by_name (map_to_list s)))));
  sdk_get_properties b s :=
    (s, match s !! b with Some (e, _) => Ok (Ok (Some e)) | None => Err (ref_status NOT_FOUND) end);
  sdk_download b c s :=
    (s, match s !! b with
        | Some (e, body) =>
            if bool_decide (if_match c = None \/ if_match c = Some e)
            then Ok (mkDownload (Some (bytes_len body)) (Some e) (Ok body))
            else Err (ref_status PRECONDITION_FAILED)
        | None => Err (ref_status NOT_FOUND)
        end);
  sdk_upload b body c s :=
    if cond_ok c (s !! b)
    then (<[b := (next_etag (s !! b), body)]> s, Ok (Some (next_etag (s !! b))))
    else (s, Err (ref_status PRECONDITION_FAILED));
  sdk_delete b c s :=
    if bool_decide (is_Some (s !! b)) && cond_ok c (s !! b) then (delete b s, Ok tt)
    else (s, Err (ref_status (if bool_decide (is_Some (s !! b)) then PRECONDITION_FAILED else NOT_FOUND)));
|}.

Lemma cond_ok_holds c cur : cond_ok c cur = true <-> cond_holds c cur.
Proof.
  unfold cond_ok, cond_holds. destruct c as [im inm]; simpl. rewrite andb_true_iff. split.
  - intros [H1 H2]. split; intros e ->.
    + destruct cur as [[e' b]|]; [|done]. apply str_eqb_eq in H1 as ->. eauto.
    + apply andb_true_iff in H2 as [H2 H3]. apply str_eqb_eq in H2. by destruct cur.
  - intros [H1 H2]. split.
    + destruct im as [e|]; [|done]. destruct (H1 e eq_refl) as [b ->]. by apply str_eqb_eq.
    + destruct inm as [e|]; [|done]. destruct (H2 e eq_refl) as [-> ->]. done.
Qed.

Lemma next_etag_fresh e b : next_etag (Some (e, b)) <> e.
Proof. intros H. apply (f_equal length) in H. simpl in H. lia. Qed.

#[export] Program Instance ref_blob_laws : BlobLaws ref_blob := {| blobs := fun s => s |}.
Next Obligation. intros prefix s. eexists. split; [simpl; done|done]. Qed.
Next Obligation. intros b s. simpl in s. eexists _, _. split; [simpl; done|]. split; [done|]. simpl. destruct (s !! b) as [[]|]; [done|]. eexists. split; done. Qed.
Next Obligation.
  intros b c s. simpl in s. eexists _, _. split; [simpl; done|]. split; [done|]. simpl.
  destruct (s !! b) as [[e body]|]; [|eexists; split; done].
  case_bool_decide; eexists; (split; [done|]); auto.
Qed.
Next Obligation.
  intros b body c s Hc. simpl in *. rewrite (proj2 (cond_ok_holds _ _) Hc).
  eexists _, _. split; [done|]. split; [done|]. intros e0 b0 ->. apply next_etag_fresh.
Qed.
Next Obligation.
  intros b body c s Hc. simpl in *. destruct (cond_ok c (s !! b)) eqn:E.
  - by apply cond_ok_holds in E.
  - eexists _, _. split; [done|]. split; done.
Qed.
Next Obligation.
  intros b c s Hs Hc. simpl in *. rewrite (proj2 (cond_ok_holds _ _) Hc), bool_decide_eq_true_2 by done. eauto.
Qed.
Next Obligation.
  intros b c s Hc. simpl in *. destruct (_ && _) eqn:E.
  - apply andb_true_iff in E as [E1 E2]. apply bool_decide_eq_true in E1. apply cond_ok_holds in E2. tauto.
  - eexists _, _. split; [done|]. split; [done|]. done.
Qed.
End Sdk.
