(* ===== verification/Store.v ===== *)
(** * [src/azure/mod.rs], [src/azure/writer.rs], [src/azure/auth.rs]: the
    container client.

    Every method maps the SDK's answers to the repository's errors: a failed
    precondition and a missing blob become [ConcurrentUpdate], anything else
    a redacted [Azure] error.  Bodies are bounded by [MAX_BLOB_BYTES] in both
    directions, listings by [MAX_LIST_RESULTS], and staging blobs never
    appear in a listing. *)

From S2P Require Import Prelude RustStr Redact Errors Options BlobService.
Local Open Scope Z_scope.

Definition MAX_LIST_RESULTS : Z := 100000.
Definition MAX_BLOB_BYTES : Z := 512 * 1024 * 1024.

Definition is_staging_name (name : str) : bool := contains ".tmp." name.

(** ** Credentials and construction *)

Inductive Credential := Token (kind : AuthMethod) | SasCredential (container_url : str).

(** [build_credential]: [env] is the process environment; the two results are
    the SDK constructors' answers. *)
Definition build_credential (env : str -> option str) (managed_identity : Result str unit)
    (client_secret : str -> str -> str -> Result str unit)
    (method : AuthMethod) (_account_name : str) (sas_url : option str) : FdwResult Credential :=
  match method with
  | ManagedIdentity =>
      _ ← map_err azure_err managed_identity; Ok (Token ManagedIdentity)
  | AadServicePrincipal =>
      tenant_id ← ok_or (env "AZURE_TENANT_ID") (MissingOption "AZURE_TENANT_ID");
      client_id ← ok_or (env "AZURE_CLIENT_ID") (MissingOption "AZURE_CLIENT_ID");
      client_secret_v ← ok_or (env "AZURE_CLIENT_SECRET") (MissingOption "AZURE_CLIENT_SECRET");
      _ ← map_err azure_err (client_secret tenant_id client_id client_secret_v);
      Ok (Token AadServicePrincipal)
  | SasUrl =>
      url ← ok_or sas_url (MissingOption "sas_url"); Ok (SasCredential url)
  end.

Record AzureBlobClient := mkClient { client_url : str; client_account : str; client_container : str }.

(** [AzureBlobClient::new]; [url_parse] and [sdk_new] are the crates' parser
    and constructor. *)
Definition client_new (url_parse : str -> Result str unit) (sdk_new : str -> bool -> Result str unit)
    (endpoint account : str) (cred : Credential) (container : str) : FdwResult AzureBlobClient :=
  url ← match cred with
        | Token _ =>
            let url_str := "https://" ++ account ++ "." ++ endpoint ++ "/" ++ container in
            _ ← map_err (azure_ctx ("bad container url '" ++ url_str ++ "'")) (url_parse url_str);
            _ ← map_err azure_err (sdk_new url_str true);
            Ok url_str
        | SasCredential container_url =>
            _ ← map_err (azure_ctx "bad sas container url") (url_parse container_url);
            _ ← map_err azure_err (sdk_new container_url false);
            Ok container_url
        end;
  Ok (mkClient url account container).

(** [generate_blob_name]: [ts] and [id] are the clock's and uuid's texts. *)
Definition generate_blob_name (ts id prefix : str) : str :=
  let trimmed := trim_end_matches "/" prefix in
  if str_eqb trimmed [] then ts ++ "-" ++ id ++ ".parquet"
  else trimmed ++ "/" ++ ts ++ "-" ++ id ++ ".parquet".

Section Client.
Context {Y : BytesApi} {B : BlobApi}.

(** [call.await.map_err(f)?]. *)
Definition call {A} (op : Svc -> Svc * Result SdkError A) (f : SdkError -> FdwError) : SM Svc A :=
  fun s => let '(s', r) := op s in (s', map_err f r).

Definition sdk_azure (e : SdkError) : FdwError := azure_err (sdk_text e).

Definition status_is (e : SdkError) (code : Z) : bool := bool_decide (http_status e = Some code).

(** One listed item of [list_with_prefix_etags]. *)
Definition list_item (out : list (str * str)) (item : Result SdkError BlobItem) : FdwResult (list (str * str)) :=
  it ← map_err sdk_azure item;
  match item_name it with
  | None => Ok out
  | Some name =>
      if is_staging_name name then Ok out
      else if MAX_LIST_RESULTS <=? Z.of_nat (length out) then
        Err (Azure ("list_with_prefix exceeded MAX_LIST_RESULTS=" ++ show_Z MAX_LIST_RESULTS
                    ++ "; narrow the prefix or split the container"))
      else
        etag ← ok_or (mjoin (item_properties it))
                 (Azure ("list response for '" ++ name ++ "' missing etag"));
        Ok (out ++ [(name, etag)])
  end.

Definition list_with_prefix_etags (prefix : str) : SM Svc (list (str * str)) :=
  items ← call (sdk_list_blobs (Some prefix)) sdk_azure;
  lift (foldM list_item [] items).

Definition list_with_prefix (prefix : str) : SM Svc (list str) :=
  l ← list_with_prefix_etags prefix; mret (map fst l).

Definition head_etag (blob : str) : SM Svc str :=
  resp ← call (sdk_get_properties blob)
           (fun e => if status_is e NOT_FOUND then ConcurrentUpdate blob "blob disappeared" else sdk_azure e);
  etag ← lift (map_err sdk_azure resp);
  lift (ok_or etag (Azure ("HEAD '" ++ blob ++ "' missing etag"))).

(** The size checks on the announced and on the actual length. *)
Definition check_content_length (blob suffix : str) (len : option Z) : FdwResult unit :=
  match len with
  | Some n =>
      if MAX_BLOB_BYTES <? n then
        Err (Azure ("blob '" ++ blob ++ "' is " ++ show_Z n ++ " bytes, exceeds MAX_BLOB_BYTES="
                    ++ show_Z MAX_BLOB_BYTES ++ suffix))
      else Ok tt
  | None => Ok tt
  end.

Definition check_body (blob : str) (body : Bytes) : FdwResult unit :=
  if MAX_BLOB_BYTES <? bytes_len body then
    Err (Azure ("blob '" ++ blob ++ "' body is " ++ show_Z (bytes_len body) ++ " bytes, exceeds MAX_BLOB_BYTES="
                ++ show_Z MAX_BLOB_BYTES))
  else Ok tt.

Definition get_body_if_match (blob etag : str) : SM Svc Bytes :=
  resp ← call (sdk_download blob (mkCond (Some etag) None))
           (fun e => if status_is e PRECONDITION_FAILED
                     then ConcurrentUpdate blob "blob changed since SELECT (etag mismatch on GET)"
                     else if status_is e NOT_FOUND then ConcurrentUpdate blob "blob disappeared"
                     else sdk_azure e);
  _ ← lift (check_content_length blob [] (dl_content_length resp));
  body ← lift (map_err sdk_azure (dl_body resp));
  _ ← lift (check_body blob body);
  mret body.

Definition get_with_etag (blob : str) : SM Svc (Bytes * str) :=
  resp ← call (sdk_download blob no_cond)
           (fun e => if status_is e NOT_FOUND then ConcurrentUpdate blob "blob disappeared" else sdk_azure e);
  _ ← lift (check_content_length blob "; refusing to buffer in memory" (dl_content_length resp));
  etag ← lift (ok_or (dl_etag resp) (Azure "response missing ETag"));
  body ← lift (map_err sdk_azure (dl_body resp));
  _ ← lift (check_body blob body);
  mret (body, etag).

Definition check_upload_size (blob : str) (body : Bytes) : FdwResult unit :=
  if MAX_BLOB_BYTES <? bytes_len body then
    Err (Azure ("refusing to upload blob '" ++ blob ++ "': " ++ show_Z (bytes_len body)
                ++ " bytes exceeds MAX_BLOB_BYTES=" ++ show_Z MAX_BLOB_BYTES))
  else Ok tt.

Definition put_if_match (blob : str) (body : Bytes) (etag : str) : SM Svc str :=
  _ ← lift (check_upload_size blob body);
  resp ← call (sdk_upload blob body (mkCond (Some etag) None))
           (fun e => if status_is e PRECONDITION_FAILED then ConcurrentUpdate blob "etag mismatch" else sdk_azure e);
  lift (ok_or resp (Azure "upload response missing ETag")).

Definition put_if_none_match (blob : str) (body : Bytes) : SM Svc str :=
  _ ← lift (check_upload_size blob body);
  resp ← call (sdk_upload blob body (mkCond None (Some (lit "*"))))
           (fun e => if status_is e PRECONDITION_FAILED
                     then ConcurrentUpdate blob "staging-name collision (If-None-Match)" else sdk_azure e);
  lift (ok_or resp (Azure "upload response missing ETag")).

Definition delete_if_match (blob etag : str) : SM Svc unit :=
  call (sdk_delete blob (mkCond (Some etag) None))
    (fun e => if status_is e PRECONDITION_FAILED then ConcurrentUpdate blob "etag mismatch"
              else if status_is e NOT_FOUND then ConcurrentUpdate blob "blob disappeared"
              else sdk_azure e).

Definition delete_unconditional (blob : str) : SM Svc unit := fun s =>
  let '(s', r) := sdk_delete blob no_cond s in
  (s', match r with
       | Ok _ => Ok tt
       | Err e => if status_is e NOT_FOUND then Ok tt else Err (sdk_azure e)
       end).

(** [AzureBlobWriter::upload]: the INSERT path's one-shot PUT. *)
Definition writer_upload (name : str) (body : Bytes) : SM Svc unit :=
  _ ← lift (check_upload_size name body);
  _ ← call (sdk_upload name body no_cond) sdk_azure;
  mret tt.

End Client.

(** ** Behaviour over a service that keeps its laws *)

Section Facts.
Context {Y : BytesApi} {B : BlobApi} {L : BlobLaws B}.
Implicit Types s : Svc.

Lemma get_body_ok blob e body s :
  blobs s !! blob = Some (e, body) -> bytes_len body <= MAX_BLOB_BYTES ->
  exists s', get_body_if_match blob e s = (s', Ok body) /\ blobs s' = blobs s.
Proof.
  intros Hb Hlen. unfold get_body_if_match.
  destruct (download_law blob (mkCond (Some e) None) s) as (s' & r & Hd & Hs & Hr).
  rewrite Hb in Hr. simpl in Hr. rewrite bool_decide_eq_true_2 in Hr by auto.
  destruct Hr as (len & -> & Hl). exists s'. split; [|done].
  erewrite sm_bind_Ok; [|unfold call; by rewrite Hd].
  assert (check_content_length blob [] len = Ok tt) as Hc.
  { destruct Hl as [-> | ->]; [done|]. simpl.
    destruct (Z.ltb_spec MAX_BLOB_BYTES (bytes_len body)); [lia|done]. }
  erewrite sm_bind_Ok; [|unfold lift; simpl; by rewrite Hc].
  erewrite sm_bind_Ok; [|unfold lift; simpl; done].
  assert (check_body blob body = Ok tt) as Hc2.
  { unfold check_body. destruct (Z.ltb_spec MAX_BLOB_BYTES (bytes_len body)); [lia|done]. }
  erewrite sm_bind_Ok; [|unfold lift; by rewrite Hc2]. done.
Qed.

Lemma get_body_changed blob e s :
  (forall body, blobs s !! blob <> Some (e, body)) ->
  exists s' reason, get_body_if_match blob e s = (s', Err (ConcurrentUpdate blob reason)) /\
    blobs s' = blobs s.
Proof.
  intros Hb. unfold get_body_if_match.
  destruct (download_law blob (mkCond (Some e) None) s) as (s' & r & Hd & Hs & Hr).
  destruct (blobs s !! blob) as [[e' body]|].
  - rewrite bool_decide_eq_false_2 in Hr by (intros [?|?]; simplify_eq/=; by eapply Hb).
    destruct Hr as (er & -> & Hst). eexists s', _. split; [|done].
    eapply sm_bind_Err. unfold call. rewrite Hd. simpl. unfold status_is. by rewrite Hst.
  - destruct Hr as (er & -> & Hst). eexists s', _. split; [|done].
    eapply sm_bind_Err. unfold call. rewrite Hd. simpl. unfold status_is. by rewrite Hst.
Qed.

Lemma check_upload_small blob body : bytes_len body <= MAX_BLOB_BYTES -> check_upload_size blob body = Ok tt.
Proof. intros H. unfold check_upload_size. destruct (Z.ltb_spec MAX_BLOB_BYTES (bytes_len body)); [lia|done]. Qed.

Lemma put_if_match_ok blob body e old s :
  blobs s !! blob = Some (e, old) -> bytes_len body <= MAX_BLOB_BYTES ->
  exists s' e', put_if_match blob body e s = (s', Ok e') /\
    blobs s' = <[blob := (e', body)]> (blobs s) /\ e' <> e.
Proof.
  intros Hb Hlen. unfold put_if_match.
  erewrite sm_bind_Ok; [|unfold lift; by rewrite check_upload_small].
  destruct (upload_law blob body (mkCond (Some e) None) s) as (s' & e' & Hu & Hs & Hf).
  { rewrite Hb. split; [|done]. intros ? [= <-]. eauto. }
  exists s', e'. split; [|split; [done|by eapply Hf]].
  erewrite sm_bind_Ok; [|unfold call; by rewrite Hu]. done.
Qed.

Lemma put_if_match_changed blob body e s :
  (forall old, blobs s !! blob <> Some (e, old)) -> bytes_len body <= MAX_BLOB_BYTES ->
  exists s', put_if_match blob body e s = (s', Err (ConcurrentUpdate blob "etag mismatch")) /\
    blobs s' = blobs s.
Proof.
  intros Hb Hlen. unfold put_if_match.
  erewrite sm_bind_Ok; [|unfold lift; by rewrite check_upload_small].
  destruct (upload_fails blob body (mkCond (Some e) None) s) as (s' & er & Hu & Hs & Hst).
  { intros [H _]. destruct (H e eq_refl) as [old Ho]. by eapply Hb. }
  exists s'. split; [|done]. eapply sm_bind_Err. unfold call. rewrite Hu. simpl.
  unfold status_is. by rewrite (Hst e).
Qed.

Lemma put_if_none_match_ok blob body s :
  blobs s !! blob = None -> bytes_len body <= MAX_BLOB_BYTES ->
  exists s' e', put_if_none_match blob body s = (s', Ok e') /\ blobs s' = <[blob := (e', body)]> (blobs s).
Proof.
  intros Hb Hlen. unfold put_if_none_match.
  erewrite sm_bind_Ok; [|unfold lift; by rewrite check_upload_small].
  destruct (upload_law blob body (mkCond None (Some (lit "*"))) s) as (s' & e' & Hu & Hs & _).
  { split; [done|]. intros ? [= <-]. done. }
  exists s', e'. split; [|done]. erewrite sm_bind_Ok; [|unfold call; by rewrite Hu]. done.
Qed.

Lemma delete_if_match_ok blob e body s :
  blobs s !! blob = Some (e, body) ->
  exists s', delete_if_match blob e s = (s', Ok tt) /\ blobs s' = delete blob (blobs s).
Proof.
  intros Hb. destruct (delete_law blob (mkCond (Some e) None) s) as (s' & Hd & Hs).
  - rewrite Hb. eauto.
  - rewrite Hb. split; [|done]. intros ? [= <-]. eauto.
  - exists s'. split; [|done]. unfold delete_if_match, call. by rewrite Hd.
Qed.

Lemma delete_unconditional_ok blob s :
  exists s', delete_unconditional blob s = (s', Ok tt) /\ blobs s' = delete blob (blobs s).
Proof.
  unfold delete_unconditional. destruct (blobs s !! blob) as [[e body]|] eqn:Hb.
  - destruct (delete_law blob no_cond s) as (s' & Hd & Hs); [rewrite Hb; eauto|by split|].
    exists s'. by rewrite Hd.
  - destruct (delete_fails blob no_cond s) as (s' & er & Hd & Hs & Hst).
    { rewrite Hb. intros [[? ?] _]. done. }
    rewrite Hb, bool_decide_eq_false_2 in Hst by (intros [? ?]; done).
    exists s'. rewrite Hd. unfold status_is. rewrite Hst. split; [done|].
    by rewrite Hs, delete_id.
Qed.

(** The listing is the visible part of the container, in name order. *)
Definition visible (prefix : str) (c : Container) : list (str * str) :=
  map (fun '(n, (e, _)) => (n, e))
    (List.filter (fun '(n, _) => starts_with prefix n && negb (is_staging_name n))
       (merge_sort by_name (map_to_list c))).

Lemma list_items_ok out (l : list (str * (str * Bytes))) prefix :
  Z.of_nat (length out + length l) <= MAX_LIST_RESULTS ->
  foldM list_item out (map (fun '(n, (e, _)) => Ok (mkBlobItem (Some n) (Some (Some e))))
                         (List.filter (fun '(n, _) => starts_with prefix n) l)) =
  Ok (out ++ map (fun '(n, (e, _)) => (n, e))
        (List.filter (fun '(n, _) => starts_with prefix n && negb (is_staging_name n)) l)).
Proof.
  revert out. induction l as [|[n [e b]] l IH]; intros out Hlen; simpl; [by rewrite app_nil_r|].
  simpl in Hlen. destruct (starts_with prefix n); simpl; [|apply IH; lia].
  assert (list_item out (Ok (mkBlobItem (Some n) (Some (Some e)))) =
          Ok (if is_staging_name n then out else out ++ [(n, e)])) as Hitem.
  { unfold list_item. simpl. destruct (is_staging_name n); [done|].
    by destruct (Z.leb_spec MAX_LIST_RESULTS (Z.of_nat (length out))); [lia|]. }
  rewrite Hitem. cbn [mbind result_bind].
  destruct (is_staging_name n) eqn:Hst; simpl; [apply IH; lia|].
  rewrite IH by (rewrite length_app; simpl; lia). by rewrite <- (assoc_L (++)).
Qed.

Lemma list_visible prefix s :
  Z.of_nat (size (blobs s)) <= MAX_LIST_RESULTS ->
  exists s', list_with_prefix_etags prefix s = (s', Ok (visible prefix (blobs s))) /\ blobs s' = blobs s.
Proof.
  intros Hlen. destruct (list_law prefix s) as (s' & Hl & Hs). exists s'. split; [|done].
  unfold list_with_prefix_etags. erewrite sm_bind_Ok; [|unfold call; by rewrite Hl].
  unfold lift. rewrite list_items_ok; [done|].
  rewrite Nat.add_0_l, merge_sort_Permutation, length_map_to_list. done.
Qed.

(** Below the listing cap, a listing returns exactly the blobs under the
    prefix with their current etags, in name order, staging blobs excluded,
    and changes nothing. *)
Theorem list_with_prefix_etags_spec prefix s :
  Z.of_nat (size (blobs s)) <= MAX_LIST_RESULTS ->
  exists s', list_with_prefix_etags prefix s = (s', Ok (visible prefix (blobs s))) /\ blobs s' = blobs s.
Proof. apply list_visible. Qed.
End Facts.

(** Bodies that are texts, for the examples. *)
Definition str_bytes : BytesApi := {| Bytes := str; bytes_len s := Z.of_nat (length s); bytes_new := [] |}.

Definition demo_container : gmap str (str * str) :=
  {[ lit "data/b.parquet" := (lit "e2", lit "B"); lit "data/a.parquet" := (lit "e1", lit "A");
     lit "data/a.tmp.0.parquet" := (lit "e3", lit "T"); lit "x" := (lit "e4", lit "X") ]}.

Lemma list_with_prefix_etags_spec_witness :
  exists s', list_with_prefix_etags (Y := str_bytes) (B := ref_blob) "data/" demo_container =
    (s', Ok [(lit "data/a.parquet", lit "e1"); (lit "data/b.parquet", lit "e2")]).
Proof.
  destruct (list_with_prefix_etags_spec (Y := str_bytes) (B := ref_blob) "data/" demo_container) as (s' & H & _).
  - vm_compute. discriminate.
  - exists s'. rewrite H. vm_compute. reflexivity.
Defined.
