(* ===== verification/FakeStore.v ===== *)
(** * [src/test_harness/fake_blob_store.rs]: the in-memory blob service of the
    test suite.

    A map from container and blob to a body and an etag behind a lock, and one
    responder per HTTP method.  The request is what the responders read of it:
    raw path segments, decoded query pairs, header values and the body; the
    url and HTTP crates produce these.  A panic while the lock is held is
    [None]: the lock is poisoned and the service is gone. *)

From S2P Require Import Prelude RustStr BlobService.
Local Open Scope Z_scope.

(** ** State *)

Record BlobEntry := mkBlobEntry { entry_body : str; entry_etag : str }.

Record State := mkState { fs_blobs : gmap str BlobEntry; next_etag_seq : Z }.

Definition state_new : State := mkState ∅ 1.

Definition dq : ascii := "034".

(** [{:016X}] of a u64: it has at most 16 hexadecimal digits. *)
Definition hex_digit (d : Z) : ascii := if d <? 10 then byte_of (48 + d) else byte_of (55 + d).

Fixpoint hex_digits (n : nat) (z : Z) : str :=
  match n with
  | O => []
  | S n' => hex_digits n' (z / 16) ++ [hex_digit (z mod 16)]
  end.

Definition etag_text (seq : Z) : str := dq :: "0x" ++ hex_digits 16 seq ++ [dq].

Definition mint_etag (st : State) : option (str * State) :=
  let seq := next_etag_seq st in
  if seq + 1 <=? u64_max
  then Some (etag_text seq, mkState (fs_blobs st) (seq + 1))
  else None.

Definition blob_key (container blob : str) : str := container ++ "/" ++ blob.

(** ** The helpers the tests call directly *)

Definition insert_entry (st : State) (key body : str) : option (str * State) :=
  '(etag, st') ← mint_etag st;
  Some (etag, mkState (<[key := mkBlobEntry body etag]> (fs_blobs st')) (next_etag_seq st')).

Definition put_blob (st : State) (container blob body : str) : option (str * State) :=
  insert_entry st (blob_key container blob) body.

Definition get_blob (st : State) (container blob : str) : option str :=
  entry_body <$> fs_blobs st !! blob_key container blob.

Definition read_etag (st : State) (container blob : str) : option str :=
  entry_etag <$> fs_blobs st !! blob_key container blob.

(** The entries of a container under a prefix, sorted by name: [strip_prefix],
    [filter] and [sort_by] over the map. *)
Definition name_le (a b : str * str) : Prop := str_leb a.1 b.1 = true.
#[export] Instance name_le_dec : RelDecision name_le.
Proof. intros a b. unfold name_le. apply _. Defined.

Definition names_etags (st : State) (container : str) (prefix : option str) : list (str * str) :=
  merge_sort name_le
    (List.filter (fun ne => match prefix with Some p => starts_with p ne.1 | None => true end)
       (omap (fun kv => n ← strip_prefix (container ++ "/") kv.1; Some (n, entry_etag kv.2))
          (map_to_list (fs_blobs st)))).

Definition list_blobs (st : State) (container : str) (prefix : option str) : list str :=
  map fst (names_etags st container prefix).

(** ** Requests *)

Inductive Method := GET | HEAD | PUT | DELETE.

(** [req_header h] is [headers.get(h)]: absent, or a value that is text
    ([to_str] succeeds) or is not. *)
Record HttpRequest := mkHttpRequest {
  req_method : Method;
  req_segments : option (list str);
  req_query : list (str * str);
  req_header : str -> option (option str);
  req_body : str }.

(** [c.to_digit(16)]. *)
Definition to_digit16 (c : ascii) : option Z :=
  if is_ascii_digit c then Some (byte c - 48)
  else if (97 <=? byte c) && (byte c <=? 102) then Some (byte c - 87)
  else if (65 <=? byte c) && (byte c <=? 70) then Some (byte c - 55)
  else None.

Fixpoint percent_decode_loop (s : str) : str :=
  match s with
  | [] => []
  | c :: s1 =>
      match s1 with
      | h :: l :: s3 =>
          if ascii_eqb c "%" then
            match to_digit16 h, to_digit16 l with
            | Some h, Some l => byte_of (h * 16 + l) :: percent_decode_loop s3
            | _, _ => c :: percent_decode_loop s1
            end
          else c :: percent_decode_loop s1
      | _ => c :: percent_decode_loop s1
      end
  end.

Definition percent_decode (s : str) : str :=
  let out := percent_decode_loop s in
  if utf8_valid out then out else s.

Definition nonempty_segments (req : HttpRequest) : list str :=
  List.filter (fun seg => negb (str_eqb seg [])) (default [] (req_segments req)).

Definition split_container_blob (req : HttpRequest) : option (str * str) :=
  match nonempty_segments req with
  | container :: seg :: segs => Some (percent_decode container, join_with "/" (map percent_decode (seg :: segs)))
  | _ => None
  end.

Definition if_match_header (req : HttpRequest) : option str := mjoin (req_header req (lit "If-Match")).

(** [s.parse::<usize>()]. *)
Definition parse_usize (s : str) : option Z :=
  match s with
  | [] => None
  | c :: s' =>
      v ← (if ascii_eqb c "+" then match s' with [] => None | _ => parse_digits 0 s' end else parse_digits 0 s);
      if v <=? u64_max then Some v else None
  end.

Definition len (s : str) : Z := Z.of_nat (length s).

(** [body_len.saturating_sub(1)]. *)
Definition last_index (body_len : Z) : Z := Z.max 0 (body_len - 1).

Definition parse_range_header (req : HttpRequest) (body_len : Z) : option (Z * Z) :=
  raw ← mjoin (match req_header req (lit "x-ms-range") with Some v => Some v | None => req_header req (lit "Range") end);
  spec ← strip_prefix "bytes=" raw;
  '(start_s, end_s) ← split_once "-" spec;
  start ← parse_usize (trim start_s);
  end_ ← (if str_eqb (trim end_s) [] then Some (last_index body_len) else parse_usize (trim end_s));
  let end_ := Z.min end_ (last_index body_len) in
  if end_ <? start then None else Some (start, end_).

(** [entry.body.slice(start..=end)] panics outside the body. *)
Definition slice_inclusive (body : str) (start end_ : Z) : option str :=
  if (start <=? end_ + 1) && (end_ + 1 <=? len body)
  then Some (take (Z.to_nat (end_ + 1 - start)) (drop (Z.to_nat start) body)) else None.

(** ** Responses; [now] is the text of [last_modified_now] *)

Record ResponseTemplate := mkResponse { status : Z; headers : list (str * str); resp_body : str }.

Definition plain_response (code : Z) : ResponseTemplate := mkResponse code [] [].

Definition get_response (now : str) (req : HttpRequest) (st : State) : option (State * ResponseTemplate) :=
  match split_container_blob req with
  | None => Some (st, mkResponse 400 [] "bad path")
  | Some (container, blob) =>
      match fs_blobs st !! blob_key container blob with
      | None => Some (st, plain_response 404)
      | Some entry =>
          let total_len := len (entry_body entry) in
          match parse_range_header req total_len with
          | Some (start, end_) =>
              slice ← slice_inclusive (entry_body entry) start end_;
              let content_range := "bytes " ++ show_Z start ++ "-" ++ show_Z end_ ++ "/" ++ show_Z total_len in
              Some (st, mkResponse 206
                [(lit "ETag", entry_etag entry); (lit "Last-Modified", now); (lit "Content-Length", show_Z (len slice));
                 (lit "Content-Range", content_range); (lit "x-ms-version", lit "2022-11-02");
                 (lit "x-ms-blob-type", lit "BlockBlob")] slice)
          | None =>
              Some (st, mkResponse 200
                [(lit "ETag", entry_etag entry); (lit "Last-Modified", now); (lit "Content-Length", show_Z total_len);
                 (lit "x-ms-version", lit "2022-11-02"); (lit "x-ms-blob-type", lit "BlockBlob")] (entry_body entry))
          end
      end
  end.

Definition head_response (now : str) (req : HttpRequest) (st : State) : State * ResponseTemplate :=
  (st, match split_container_blob req with
       | None => plain_response 400
       | Some (container, blob) =>
           match fs_blobs st !! blob_key container blob with
           | None => plain_response 404
           | Some entry => mkResponse 200
               [(lit "ETag", entry_etag entry); (lit "Last-Modified", now);
                (lit "Content-Length", show_Z (len (entry_body entry))); (lit "x-ms-version", lit "2022-11-02");
                (lit "x-ms-blob-type", lit "BlockBlob"); (lit "Accept-Ranges", lit "bytes")] []
           end
       end).

(** The characters replaced are single bytes and no part of a longer UTF-8
    sequence, so the loop over [chars] is one over bytes. *)
Definition escape_char (c : ascii) : str :=
  if ascii_eqb c "<" then "&lt;" else if ascii_eqb c ">" then "&gt;" else if ascii_eqb c "&" then "&amp;"
  else if ascii_eqb c dq then "&quot;" else if ascii_eqb c "'" then "&apos;" else [c].

Definition xml_escape (s : str) : str := concat (map escape_char s).

Definition xml_blob (ne : str * str) : str :=
  "<Blob><Name>" ++ xml_escape ne.1 ++ "</Name><Properties><Etag>" ++ xml_escape ne.2 ++ "</Etag></Properties></Blob>".

Definition xml_head (container : str) (prefix : option str) : str :=
  "<?xml version=" ++ dq :: "1.0" ++ dq :: " encoding=" ++ dq :: "utf-8" ++ dq :: "?>"
  ++ "<EnumerationResults ServiceEndpoint=" ++ dq :: "http://127.0.0.1/" ++ dq :: " ContainerName=" ++ dq :: container ++ dq :: ">"
  ++ match prefix with Some p => "<Prefix>" ++ xml_escape p ++ "</Prefix>" | None => [] end
  ++ "<Blobs>".

Definition xml_tail : str := "</Blobs><NextMarker/></EnumerationResults>".

Definition list_xml (container : str) (prefix : option str) (items : list (str * str)) : str :=
  xml_head container prefix ++ concat (map xml_blob items) ++ xml_tail.

Definition respond_list (req : HttpRequest) (st : State) : State * ResponseTemplate :=
  (st, match map percent_decode (nonempty_segments req) with
       | [] => mkResponse 400 [] "missing container"
       | container :: _ =>
           let prefix := snd <$> find (fun kv => str_eqb kv.1 "prefix") (req_query req) in
           let xml := list_xml container prefix (names_etags st container prefix) in
           mkResponse 200
             [(lit "Content-Type", lit "application/xml"); (lit "Content-Length", show_Z (len xml));
              (lit "x-ms-version", lit "2022-11-02")] xml
       end).

Definition is_list (req : HttpRequest) : bool :=
  existsb (fun kv => str_eqb kv.1 "comp" && str_eqb kv.2 "list") (req_query req).

Definition put_response (now : str) (req : HttpRequest) (st : State) : option (State * ResponseTemplate) :=
  match split_container_blob req with
  | None => Some (st, mkResponse 400 [] "bad path")
  | Some (container, blob) =>
      let key := blob_key container blob in
      let refused := match if_match_header req with
                     | Some want => match fs_blobs st !! key with
                                    | None => true
                                    | Some entry => negb (str_eqb (entry_etag entry) want)
                                    end
                     | None => false
                     end in
      if refused then Some (st, plain_response 412)
      else
        '(new_etag, st') ← insert_entry st key (req_body req);
        Some (st', mkResponse 201
          [(lit "ETag", new_etag); (lit "Last-Modified", now); (lit "x-ms-version", lit "2022-11-02");
           (lit "x-ms-request-server-encrypted", lit "true")] [])
  end.

Definition delete_response (req : HttpRequest) (st : State) : State * ResponseTemplate :=
  match split_container_blob req with
  | None => (st, mkResponse 400 [] "bad path")
  | Some (container, blob) =>
      let key := blob_key container blob in
      match fs_blobs st !! key with
      | None => (st, plain_response 404)
      | Some entry =>
          if match if_match_header req with Some want => negb (str_eqb (entry_etag entry) want) | None => false end
          then (st, plain_response 412)
          else (mkState (delete key (fs_blobs st)) (next_etag_seq st),
                mkResponse 202 [(lit "x-ms-version", lit "2022-11-02")] [])
      end
  end.

(** The mocks [boot_server] mounts. *)
Definition respond (now : str) (req : HttpRequest) (st : State) : option (State * ResponseTemplate) :=
  match req_method req with
  | GET => if is_list req then Some (respond_list req st) else get_response now req st
  | HEAD => Some (head_response now req st)
  | PUT => put_response now req st
  | DELETE => Some (delete_response req st)
  end.
