(* ===== verification/FakeFacts.v ===== *)
(** * The in-memory service of the tests keeps the contract of the service.

    [view] is a container as [BlobService] describes it; [contract] is what
    [BlobLaws] promises of one request.  The responders keep it on every
    request, except that PUT does not look at If-None-Match and GET does not
    look at If-Match. *)

From S2P Require Import Prelude RustStr Redact Errors Options BlobService Store FakeStore.
Local Open Scope Z_scope.

(** ** Etags *)

Lemma hex_digit_inj a b : 0 <= a < 16 -> 0 <= b < 16 -> hex_digit a = hex_digit b -> a = b.
Proof.
  intros Ha Hb H. apply (f_equal byte) in H. unfold hex_digit in H.
  destruct (Z.ltb_spec a 10), (Z.ltb_spec b 10); rewrite !byte_byte_of in H by lia; lia.
Qed.

Lemma hex_digits_inj n : forall a b, 0 <= a < 16 ^ Z.of_nat n -> 0 <= b < 16 ^ Z.of_nat n -> hex_digits n a = hex_digits n b -> a = b.
Proof.
  induction n as [|n IH]; intros a b Ha Hb H; [lia|]. rewrite Nat2Z.inj_succ, Z.pow_succ_r in Ha, Hb by lia. cbn [hex_digits] in H.
  apply app_inj_tail in H as [Hd Hl]. apply hex_digit_inj in Hl; [|apply Z.mod_pos_bound; lia..].
  apply IH in Hd; [|split; [apply Z.div_pos; lia|apply Z.div_lt_upper_bound; lia]..].
  rewrite (Z.div_mod a 16), (Z.div_mod b 16) by lia. lia.
Qed.

Lemma etag_text_inj a b : is_u64 a -> is_u64 b -> etag_text a = etag_text b -> a = b.
Proof.
  intros Ha Hb H. apply (f_equal tail) in H. unfold etag_text in H. cbn [tail] in H. apply app_inv_head, app_inj_tail in H as [H _].
  change (16 ^ Z.of_nat 16) with 18446744073709551616 in *. eapply (hex_digits_inj 16); [| |exact H]; int_lia.
Qed.

(** ** Reachable states *)

(** Every stored etag was minted before. *)
Definition fs_wf (st : State) : Prop :=
  1 <= next_etag_seq st <= u64_max /\
  forall k e, fs_blobs st !! k = Some e -> exists n, 0 <= n < next_etag_seq st /\ entry_etag e = etag_text n.

Lemma insert_entry_ok st key body : fs_wf st -> next_etag_seq st < u64_max ->
  exists e st', insert_entry st key body = Some (e, st') /\ fs_blobs st' = <[key := mkBlobEntry body e]> (fs_blobs st) /\
    fs_wf st' /\ forall k x, fs_blobs st !! k = Some x -> entry_etag x <> e.
Proof.
  intros [Hseq Hold] Hlt. unfold insert_entry, mint_etag. destruct (Z.leb_spec (next_etag_seq st + 1) u64_max); [|lia]. cbn.
  eexists _, _. split; [reflexivity|]. cbn [fs_blobs next_etag_seq]. split; [done|]. split.
  - split; cbn [next_etag_seq fs_blobs]; [lia|]. intros k e [[<- <-]|[_ He]]%lookup_insert_Some; [exists (next_etag_seq st); cbn [entry_etag]; split; [lia|done]|].
    destruct (Hold k e He) as (n & Hn & ->). exists n. split; [lia|done].
  - intros k x Hx E. destruct (Hold k x Hx) as (n & Hn & E'). rewrite E' in E. apply etag_text_inj in E; unfold is_u64; lia.
Qed.

Lemma insert_entry_panics st key body : next_etag_seq st = u64_max -> insert_entry st key body = None.
Proof. intros H. unfold insert_entry, mint_etag. by rewrite H. Qed.

(** ** A container of the store *)

Lemma blob_key_inj c a b : blob_key c a = blob_key c b -> a = b.
Proof. unfold blob_key. rewrite !app_assoc. apply app_inv_head. Qed.

Lemma strip_key c k b : strip_prefix (c ++ "/") k = Some b <-> k = blob_key c b.
Proof. rewrite strip_prefix_Some. unfold blob_key. by rewrite app_assoc. Qed.

Definition view_item (c : str) (kv : str * BlobEntry) : option (str * (str * str)) :=
  n ← strip_prefix (c ++ "/") kv.1; Some (n, (entry_etag kv.2, entry_body kv.2)).

Definition view (c : str) (st : State) : gmap str (str * str) := list_to_map (omap (view_item c) (map_to_list (fs_blobs st))).

Lemma view_item_elem (c : str) (m : gmap str BlobEntry) (n : str) (x : str * str) :
  (n, x) ∈ omap (view_item c) (map_to_list m) <-> exists e, m !! blob_key c n = Some e /\ x = (entry_etag e, entry_body e).
Proof.
  rewrite list_elem_of_omap. split.
  - intros ([k e] & Hin & H). apply elem_of_map_to_list in Hin. unfold view_item in H. cbn [fst snd] in H.
    destruct (strip_prefix _ k) as [n'|] eqn:E; [|done]. injection H as <- <-. apply strip_key in E as ->. by exists e.
  - intros (e & He & ->). exists (blob_key c n, e). split; [by apply elem_of_map_to_list|]. unfold view_item. cbn [fst snd].
    by rewrite (proj2 (strip_key c _ n) eq_refl).
Qed.

Lemma view_lookup c st b : view c st !! b = (fun e => (entry_etag e, entry_body e)) <$> fs_blobs st !! blob_key c b.
Proof.
  unfold view. destruct (fs_blobs st !! blob_key c b) as [e|] eqn:E; cbn.
  - apply elem_of_list_to_map_1'; [|by apply view_item_elem; exists e]. intros y (e' & He' & ->)%view_item_elem. by assert (e' = e) as -> by congruence.
  - apply not_elem_of_list_to_map_1. intros ([n x] & Hn & Hin)%list_elem_of_fmap. cbn [fst] in Hn. subst n. apply view_item_elem in Hin as (e & He & _). congruence.
Qed.

Lemma view_insert c b body e (st st' : State) :
  fs_blobs st' = <[blob_key c b := mkBlobEntry body e]> (fs_blobs st) -> view c st' = <[b := (e, body)]> (view c st).
Proof.
  intros H. apply map_eq. intros n. rewrite view_lookup, H. destruct (decide (n = b)) as [->|Hne].
  - by rewrite !lookup_insert_eq.
  - rewrite !lookup_insert_ne by (congruence || (intros E%blob_key_inj; congruence)). by rewrite view_lookup.
Qed.

Lemma view_delete c b (st st' : State) : fs_blobs st' = delete (blob_key c b) (fs_blobs st) -> view c st' = delete b (view c st).
Proof.
  intros H. apply map_eq. intros n. rewrite view_lookup, H. destruct (decide (n = b)) as [->|Hne].
  - by rewrite !lookup_delete_eq.
  - rewrite !lookup_delete_ne by (congruence || (intros E%blob_key_inj; congruence)). by rewrite view_lookup.
Qed.

(** Containers do not mix: their names hold no slash. *)
Lemma other_key c c' b b' : "/"%char ∉ c -> "/"%char ∉ c' -> blob_key c b = blob_key c' b' -> c = c'.
Proof.
  intros Hc Hc' E. assert (split_once "/" (blob_key c b) = Some (c, b)) as H by (by apply split_once_Some).
  assert (split_once "/" (blob_key c' b') = Some (c', b')) as H' by (by apply split_once_Some). rewrite E in H. congruence.
Qed.

(** ** The contract *)

(** A value of a response header. *)
Definition header_of (name : str) (r : ResponseTemplate) : option str := snd <$> find (fun kv => str_eqb kv.1 name) (headers r).

(** The conditions of a request. *)
Definition conds (req : HttpRequest) : Cond := mkCond (if_match_header req) (mjoin (req_header req (lit "If-None-Match"))).

Definition allowed (c : Cond) (cur : option (str * str)) : bool := cond_ok (Y := str_bytes) c cur.

(** What [BlobLaws] promises of one request about blob [b] of a container
    holding [C]: the next content [C'] and the answer. *)
Definition contract (req : HttpRequest) (b : str) (C C' : gmap str (str * str)) (r : ResponseTemplate) : Prop :=
  let cond := conds req in
  match req_method req with
  | PUT =>
      if allowed cond (C !! b)
      then status r = 201 /\ exists e, header_of "ETag" r = Some e /\ C' = <[b := (e, req_body req)]> C /\
             forall n e' body', C !! n = Some (e', body') -> e' <> e
      else status r = PRECONDITION_FAILED /\ C' = C
  | DELETE =>
      match C !! b with
      | None => status r = NOT_FOUND /\ C' = C
      | Some _ => if allowed cond (C !! b) then status r = 202 /\ C' = delete b C
                  else status r = PRECONDITION_FAILED /\ C' = C
      end
  | GET =>
      C' = C /\
      match C !! b with
      | None => status r = NOT_FOUND
      | Some (e, body) =>
          if bool_decide (if_match cond = None \/ if_match cond = Some e)
          then status r = 200 /\ header_of "ETag" r = Some e /\ header_of "Content-Length" r = Some (show_Z (len body)) /\ resp_body r = body
          else status r = PRECONDITION_FAILED
      end
  | HEAD =>
      C' = C /\
      match C !! b with
      | None => status r = NOT_FOUND
      | Some (e, body) => status r = 200 /\ header_of "ETag" r = Some e /\ header_of "Content-Length" r = Some (show_Z (len body))
      end
  end.

(** What the fake does not look at. *)
Definition within_scope (req : HttpRequest) : Prop :=
  match req_method req with
  | PUT => req_header req (lit "If-None-Match") = None
  | DELETE => req_header req (lit "If-None-Match") = None
  | GET => is_list req = false /\ if_match_header req = None /\ req_header req (lit "x-ms-range") = None /\ req_header req (lit "Range") = None
  | HEAD => True
  end.

Lemma if_match_refused c st b w :
  match fs_blobs st !! blob_key c b with None => true | Some entry => negb (str_eqb (entry_etag entry) w) end =
  negb (allowed (mkCond (Some w) None) (view c st !! b)).
Proof.
  rewrite view_lookup. unfold allowed, cond_ok. cbn [if_match if_none_match]. destruct (fs_blobs st !! blob_key c b) as [e|]; cbn; [|done].
  rewrite andb_true_r. f_equal. apply eq_true_iff_eq. by rewrite !str_eqb_eq.
Qed.

Lemma put_refused c st b req : req_header req (lit "If-None-Match") = None ->
  match if_match_header req with
  | Some want => match fs_blobs st !! blob_key c b with None => true | Some entry => negb (str_eqb (entry_etag entry) want) end
  | None => false end = negb (allowed (conds req) (view c st !! b)).
Proof.
  intros H. unfold conds. rewrite H. cbn [mjoin option_join]. destruct (if_match_header req) as [w|]; [apply if_match_refused|done].
Qed.

Lemma put_keeps now req st c b : fs_wf st -> next_etag_seq st < u64_max -> split_container_blob req = Some (c, b) ->
  req_method req = PUT -> req_header req (lit "If-None-Match") = None ->
  exists st' r, put_response now req st = Some (st', r) /\ fs_wf st' /\ contract req b (view c st) (view c st') r /\
    forall k, k <> blob_key c b -> fs_blobs st' !! k = fs_blobs st !! k.
Proof.
  intros Hwf Hlt Hs Hm Hn. unfold put_response, contract. rewrite Hs, Hm. cbn zeta. rewrite put_refused by done.
  destruct (allowed _ _) eqn:E; cbn [negb]; [|by exists st, (plain_response 412)].
  destruct (insert_entry_ok st (blob_key c b) (req_body req) Hwf Hlt) as (e & st' & -> & Hb & Hwf' & Hfresh). cbn.
  eexists st', _. split; [reflexivity|]. split; [done|]. split.
  - split; [done|]. exists e. split; [done|]. split; [by apply view_insert|]. intros n e' body' Hv. rewrite view_lookup in Hv.
    destruct (fs_blobs st !! blob_key c n) as [x|] eqn:Ex; [|done]. injection Hv as <- <-. by eapply Hfresh.
  - intros k Hk. by rewrite Hb, lookup_insert_ne.
Qed.

Lemma delete_keeps req st c b : fs_wf st -> split_container_blob req = Some (c, b) ->
  req_method req = DELETE -> req_header req (lit "If-None-Match") = None ->
  exists st' r, delete_response req st = (st', r) /\ fs_wf st' /\ contract req b (view c st) (view c st') r /\
    forall k, k <> blob_key c b -> fs_blobs st' !! k = fs_blobs st !! k.
Proof.
  intros Hwf Hs Hm Hn. unfold delete_response, contract. rewrite Hs, Hm. cbn zeta.
  pose proof (put_refused c st b req Hn) as Hr. pose proof (view_lookup c st b) as Hv.
  destruct (fs_blobs st !! blob_key c b) as [x|] eqn:Ex; cbn in Hv; rewrite Hv; [|by exists st, (plain_response 404)].
  rewrite Hv in Hr. rewrite Hr. destruct (allowed _ _) eqn:E; cbn [negb]; [|by exists st, (plain_response 412)].
  eexists _, _. split; [reflexivity|]. split.
  - destruct Hwf as [Hseq Hold]. split; [done|]. cbn [fs_blobs]. intros k e [_ He]%lookup_delete_Some. by apply (Hold k).
  - split; [split; [done|by apply view_delete]|]. intros k Hk. cbn [fs_blobs]. by rewrite lookup_delete_ne.
Qed.

Lemma read_keeps now req st c b : split_container_blob req = Some (c, b) -> within_scope req -> req_method req = GET \/ req_method req = HEAD ->
  exists r, respond now req st = Some (st, r) /\ contract req b (view c st) (view c st) r.
Proof.
  intros Hs Hsc Hm. unfold respond, contract, within_scope in *. rewrite !view_lookup. destruct Hm as [Hm|Hm]; rewrite Hm in *.
  - destruct Hsc as (-> & Him & Hr1 & Hr2). unfold get_response, parse_range_header, conds. rewrite Hs, Hr1, Hr2, Him. cbn [mjoin option_join mbind option_bind if_match].
    destruct (fs_blobs st !! blob_key c b) as [x|]; cbn; eexists; (split; [reflexivity|]); [|done]. done.
  - unfold head_response. rewrite Hs. eexists. split; [reflexivity|]. split; [done|]. destruct (fs_blobs st !! blob_key c b) as [x|]; done.
Qed.

(** C40: the service the tests run against keeps the contract of the real one on
    every request within its scope (a PUT or DELETE without If-None-Match, a
    GET without If-Match and range): the answer and the next content of the
    addressed container are those [BlobLaws] promises, no other blob changes,
    every new etag is new to the whole container, and the service does not
    panic before the etag counter ends. *)
Theorem fake_keeps_contract now req st c b :
  fs_wf st -> next_etag_seq st < u64_max -> split_container_blob req = Some (c, b) -> within_scope req ->
  exists st' r, respond now req st = Some (st', r) /\ fs_wf st' /\ contract req b (view c st) (view c st') r /\
    forall k, k <> blob_key c b -> fs_blobs st' !! k = fs_blobs st !! k.
Proof.
  intros Hwf Hlt Hs Hsc. destruct (req_method req) eqn:Hm.
  - destruct (read_keeps now req st c b Hs Hsc (or_introl Hm)) as (r & Hr & Hc). by exists st, r.
  - destruct (read_keeps now req st c b Hs Hsc (or_intror Hm)) as (r & Hr & Hc). by exists st, r.
  - unfold within_scope in Hsc. rewrite Hm in Hsc. unfold respond. rewrite Hm. by apply put_keeps.
  - unfold within_scope in Hsc. rewrite Hm in Hsc. unfold respond. rewrite Hm. destruct (delete_keeps req st c b Hwf Hs Hm Hsc) as (st' & r & -> & H). by exists st', r.
Qed.

(** A create-only PUT overwrites an existing blob. *)
Theorem fake_ignores_if_none_match now req st c b x :
  fs_wf st -> next_etag_seq st < u64_max -> split_container_blob req = Some (c, b) ->
  req_method req = PUT -> conds req = mkCond None (Some (lit "*")) -> view c st !! b = Some x ->
  exists st' r e, respond now req st = Some (st', r) /\ status r = 201 /\ view c st' !! b = Some (e, req_body req) /\
    allowed (conds req) (view c st !! b) = false.
Proof.
  intros Hwf Hlt Hs Hm Hc Hv. assert (if_match_header req = None) as Him by (unfold conds in Hc; congruence).
  unfold respond, put_response. rewrite Hm, Hs, Him. destruct (insert_entry_ok st (blob_key c b) (req_body req) Hwf Hlt) as (e & st' & Hi & Hb & _).
  cbn zeta. rewrite Hi. cbn. eexists st', _, e. split; [reflexivity|]. split; [done|]. split; [|by rewrite Hc, Hv; destruct x].
  by rewrite (view_insert c b (req_body req) e st st' Hb), lookup_insert_eq.
Qed.

(** A GET with a stale If-Match returns the current body. *)
Theorem fake_ignores_if_match_on_get now req st c b e body stale :
  split_container_blob req = Some (c, b) -> req_method req = GET -> is_list req = false -> if_match_header req = Some stale ->
  req_header req (lit "x-ms-range") = None -> req_header req (lit "Range") = None ->
  view c st !! b = Some (e, body) -> e <> stale ->
  exists r, respond now req st = Some (st, r) /\ status r = 200 /\ resp_body r = body.
Proof.
  intros Hs Hm Hl _ Hr1 Hr2 Hv _. rewrite view_lookup in Hv. destruct (fs_blobs st !! blob_key c b) as [x|] eqn:Ex; [|done]. injection Hv as <- <-.
  unfold respond, get_response, parse_range_header. rewrite Hm, Hl, Hs, Ex, Hr1, Hr2. cbn. by eexists.
Qed.
