(* ===== verification/FakeWire.v ===== *)
(** * What travels between the client and the in-memory service: blob names in
    paths, the XML of a listing, byte ranges. *)

From S2P Require Import Prelude RustStr Redact Errors Options BlobService Store FakeStore FakeFacts.
Local Open Scope Z_scope.

(** ** Names in paths *)

(** Percent-encoding of every byte that is not [safe]. *)
Definition encode_byte (safe : ascii -> bool) (c : ascii) : str :=
  if safe c then [c] else "%"%char :: hex_digit (byte c / 16) :: [hex_digit (byte c mod 16)].

Definition percent_encode (safe : ascii -> bool) (s : str) : str := concat (map (encode_byte safe) s).

Lemma digit16_hex d : 0 <= d < 16 -> to_digit16 (hex_digit d) = Some d.
Proof.
  intros H. assert (forallb (fun d => bool_decide (to_digit16 (hex_digit d) = Some d)) (seqZ 0 16) = true) as Hall by (vm_compute; reflexivity).
  rewrite forallb_forall in Hall. apply (bool_decide_eq_true_1 _), Hall, list_elem_of_In, elem_of_seqZ. lia.
Qed.

Lemma decode_loop_safe c s : c <> "%"%char -> percent_decode_loop (c :: s) = c :: percent_decode_loop s.
Proof. intros H. cbn [percent_decode_loop]. destruct s as [|h [|l s]]; [done..|]. by rewrite (proj2 (ascii_eqb_neq c "%") H). Qed.

Lemma decode_loop_escape c s :
  percent_decode_loop ("%"%char :: hex_digit (byte c / 16) :: hex_digit (byte c mod 16) :: s) = c :: percent_decode_loop s.
Proof.
  cbn [percent_decode_loop]. pose proof (byte_range c). rewrite ascii_eqb_refl, !digit16_hex by (Z.div_mod_to_equations; lia).
  rewrite <- (byte_of_byte c) at 3. do 2 f_equal. pose proof (Z.div_mod (byte c) 16). lia.
Qed.

Lemma percent_decode_encode safe s : safe "%"%char = false -> utf8_valid s = true -> percent_decode (percent_encode safe s) = s.
Proof.
  intros Hp Hu. unfold percent_decode. assert (percent_decode_loop (percent_encode safe s) = s) as ->; [|by rewrite Hu].
  clear Hu. unfold percent_encode. induction s as [|c s IH]; [done|]. cbn [map concat]. unfold encode_byte at 1. destruct (safe c) eqn:E.
  - cbn [app]. rewrite decode_loop_safe; [by rewrite IH|]. intros ->. congruence.
  - change ((?a :: ?b :: [?d]) ++ ?t) with (a :: b :: d :: t). by rewrite decode_loop_escape, IH.
Qed.

Lemma percent_encode_nonempty safe s : s <> [] -> percent_encode safe s <> [].
Proof. destruct s as [|c s]; [done|]. intros _. unfold percent_encode, encode_byte. cbn. by destruct (safe c). Qed.

(** A request whose path has the container and the whole blob name as one
    encoded segment each addresses that blob, slashes in the name included. *)
Lemma encoded_path_addresses req safe c b :
  safe "%"%char = false -> utf8_valid c = true -> utf8_valid b = true -> c <> [] -> b <> [] ->
  req_segments req = Some [percent_encode safe c; percent_encode safe b] -> split_container_blob req = Some (c, b).
Proof.
  intros Hp Hc Hb Hc0 Hb0 Hs. unfold split_container_blob, nonempty_segments. rewrite Hs. cbn [default List.filter].
  assert (forall x, x <> [] -> negb (str_eqb (percent_encode safe x) []) = true) as Hne.
  { intros x Hx. apply negb_true_iff, not_true_iff_false. rewrite str_eqb_eq. by apply percent_encode_nonempty. }
  cbn. rewrite !Hne by done. by rewrite !percent_decode_encode.
Qed.

(** ** Listings *)

Lemma names_etags_elem st c p n e :
  (n, e) ∈ names_etags st c p <-> (exists body, view c st !! n = Some (e, body)) /\ match p with Some p => starts_with p n = true | None => True end.
Proof.
  unfold names_etags. rewrite merge_sort_Permutation. rewrite list_elem_of_In, filter_In, <- list_elem_of_In, list_elem_of_omap. cbn [fst].
  assert ((exists kv, kv ∈ map_to_list (fs_blobs st) /\ (n0 ← strip_prefix (c ++ "/") kv.1; Some (n0, entry_etag kv.2)) = Some (n, e)) <->
          exists body, view c st !! n = Some (e, body)) as ->.
  { rewrite view_lookup. split.
    - intros ([k x] & Hin%elem_of_map_to_list & H). cbn [fst snd] in H. destruct (strip_prefix _ k) as [m|] eqn:E; [|done]. injection H as -> <-.
      apply strip_key in E as ->. rewrite Hin. by exists (entry_body x).
    - intros [body H]. destruct (fs_blobs st !! blob_key c n) as [x|] eqn:Ex; [|done]. injection H as <- _.
      exists (blob_key c n, x). split; [by apply elem_of_map_to_list|]. cbn [fst snd]. by rewrite (proj2 (strip_key c _ n) eq_refl). }
  destruct p; [done|]. split; [by intros [? _]|]. by intros [? _].
Qed.

#[export] Instance name_le_trans : Transitive name_le.
Proof. intros x y z. unfold name_le. apply str_leb_trans. Qed.
#[export] Instance name_le_total : Total name_le.
Proof. intros x y. unfold name_le. apply str_leb_total. Qed.

Lemma names_etags_sorted st c p : StronglySorted name_le (names_etags st c p).
Proof. apply (StronglySorted_merge_sort name_le). Qed.

Lemma names_etags_nodup st c p : NoDup (map fst (names_etags st c p)).
Proof.
  unfold names_etags. rewrite merge_sort_Permutation.
  assert (forall l : list (str * BlobEntry), NoDup l.*1 -> NoDup (map fst (List.filter (fun ne => match p with Some p => starts_with p ne.1 | None => true end)
    (omap (fun kv => n ← strip_prefix (c ++ "/") kv.1; Some (n, entry_etag kv.2)) l)))) as H; [|apply H, NoDup_fst_map_to_list].
  induction l as [|[k x] l IH]; cbn [fmap list_fmap fst]; [constructor|]. rewrite NoDup_cons. intros [Hk Hl]. cbn [omap list_omap fst snd].
  destruct (strip_prefix _ k) as [n|] eqn:E; cbn; [|by apply IH]. apply strip_key in E as ->. destruct (match p with Some _ => _ | None => _ end); [|by apply IH].
  cbn [map fst]. apply NoDup_cons. split; [|by apply IH]. intros ([n' e'] & En & Hin)%list_elem_of_fmap. cbn [fst] in En. subst n'. apply Hk.
  apply list_elem_of_In, filter_In in Hin as [Hin%list_elem_of_In _]. apply list_elem_of_omap in Hin as ([k' x'] & Hin & Hx). cbn [fst snd] in Hx.
  destruct (strip_prefix _ k') as [m|] eqn:E; [|done]. injection Hx as -> _. apply strip_key in E as ->. apply list_elem_of_fmap. by exists (blob_key c n, x').
Qed.

(** ** Reading the XML *)

Definition entities : list (str * ascii) :=
  [(lit "&lt;", "<"%char); (lit "&gt;", ">"%char); (lit "&amp;", "&"%char); (lit "&quot;", dq); (lit "&apos;", "'"%char)].

Fixpoint entity_at (es : list (str * ascii)) (s : str) : option (ascii * str) :=
  match es with
  | [] => None
  | (t, c) :: es' => match strip_prefix t s with Some r => Some (c, r) | None => entity_at es' s end
  end.

Fixpoint unescape (fuel : nat) (s : str) : str :=
  match fuel, s with
  | S f, c :: s' => match entity_at entities s with Some (d, r) => d :: unescape f r | None => c :: unescape f s' end
  | _, _ => []
  end.

Lemma entity_escaped c s : entity_at entities (escape_char c ++ s) = if str_eqb (escape_char c) [c] then None else Some (c, s).
Proof.
  unfold escape_char. destruct (ascii_eqb c "<") eqn:E1; [apply ascii_eqb_eq in E1 as ->; reflexivity|].
  destruct (ascii_eqb c ">") eqn:E2; [apply ascii_eqb_eq in E2 as ->; reflexivity|].
  destruct (ascii_eqb c "&") eqn:E3; [apply ascii_eqb_eq in E3 as ->; reflexivity|].
  destruct (ascii_eqb c dq) eqn:E4; [apply ascii_eqb_eq in E4 as ->; reflexivity|].
  destruct (ascii_eqb c "'") eqn:E5; [apply ascii_eqb_eq in E5 as ->; reflexivity|].
  rewrite (proj2 (str_eqb_eq [c] [c]) eq_refl). apply ascii_eqb_neq in E3. cbn.
  by destruct (ascii_eqb "&" c) eqn:Ec; [apply ascii_eqb_eq in Ec; congruence|].
Qed.

Lemma unescape_escape s : forall fuel, (length s <= fuel)%nat -> unescape fuel (xml_escape s) = s.
Proof.
  induction s as [|c s IH]; intros [|f] Hf; cbn [length] in Hf; [done..|lia|]. unfold xml_escape. cbn [map concat].
  assert (exists a t, escape_char c ++ concat (map escape_char s) = a :: t) as (a & t & E).
  { unfold escape_char. repeat case_match; cbn; eauto. }
  pose proof (entity_escaped c (concat (map escape_char s))) as He. rewrite E in *. cbn [unescape]. rewrite He.
  destruct (str_eqb (escape_char c) [c]) eqn:Eq; [|f_equal; apply IH; lia]. apply str_eqb_eq in Eq. rewrite Eq in E. injection E as <- <-.
  f_equal. apply IH. lia.
Qed.

(** The items of a listing: element by element up to the closing tag. *)
Fixpoint read_items (fuel : nat) (s : str) : option (list (str * str)) :=
  match fuel with
  | O => None
  | S f =>
      match strip_prefix "<Blob><Name>" s with
      | None => if str_eqb s xml_tail then Some [] else None
      | Some s =>
          '(name, s) ← split_once "<" s; s ← strip_prefix "/Name><Properties><Etag>" s;
          '(etag, s) ← split_once "<" s; s ← strip_prefix "/Etag></Properties></Blob>" s;
          items ← read_items f s;
          Some ((unescape (length name) name, unescape (length etag) etag) :: items)
      end
  end.

(** A client reading the body of a listing it asked for. *)
Definition read_list (container : str) (prefix : option str) (s : str) : option (list (str * str)) :=
  s ← strip_prefix (xml_head container prefix) s; read_items (length s) s.

Lemma strip_prefix_app p s : strip_prefix p (p ++ s) = Some s.
Proof. by apply strip_prefix_Some. Qed.

Lemma escaped_no_tag s : "<"%char ∉ xml_escape s.
Proof.
  unfold xml_escape. induction s as [|c s IH]; cbn [map concat]; [apply not_elem_of_nil|]. rewrite elem_of_app. intros [H|H]; [|done].
  revert H. apply contains_char_not_elem. apply negb_true_iff. revert c. apply ascii_forall. vm_compute. reflexivity.
Qed.

Lemma unescape_length s : unescape (length (xml_escape s)) (xml_escape s) = s.
Proof.
  apply unescape_escape. unfold xml_escape. induction s as [|c s IH]; [done|]. cbn [map concat length]. rewrite length_app.
  assert (1 <= length (escape_char c))%nat; [|lia]. unfold escape_char. repeat case_match; cbn; lia.
Qed.

Lemma read_one s rest : split_once "<" (xml_escape s ++ "<"%char :: rest) = Some (xml_escape s, rest).
Proof. apply split_once_Some. split; [done|apply escaped_no_tag]. Qed.

Lemma read_items_ok items : forall fuel, (length items < fuel)%nat -> read_items fuel (concat (map xml_blob items) ++ xml_tail) = Some items.
Proof.
  induction items as [|[n e] items IH]; intros [|f] Hf; cbn [length] in Hf; [lia|reflexivity|lia|].
  cbn [map concat read_items]. unfold xml_blob at 1. rewrite <- !app_assoc, strip_prefix_app. cbn [fst snd].
  change (lit "</Name><Properties><Etag>" ++ ?t) with ("<"%char :: lit "/Name><Properties><Etag>" ++ t).
  rewrite read_one. cbn [mbind option_bind]. rewrite strip_prefix_app. cbn [mbind option_bind].
  change (lit "</Etag></Properties></Blob>" ++ ?t) with ("<"%char :: lit "/Etag></Properties></Blob>" ++ t).
  rewrite read_one. cbn [mbind option_bind]. rewrite strip_prefix_app. cbn [mbind option_bind]. rewrite IH by lia.
  cbn [mbind option_bind]. by rewrite !unescape_length.
Qed.

Lemma items_length items : (length items < length (concat (map xml_blob items) ++ xml_tail))%nat.
Proof.
  rewrite length_app. induction items as [|ne items IH]; cbn [map concat length]; [vm_compute; lia|]. rewrite length_app.
  assert (1 <= length (xml_blob ne))%nat; [|lia]. unfold xml_blob. rewrite length_app. cbn. lia.
Qed.

(** The XML of a listing reads back, whatever characters the names contain,
    as the blobs of the container whose names start with the prefix asked for,
    with their current etags, in name order and each once. *)
Theorem listing_reads_back req st c :
  is_list req = true -> req_method req = GET -> map percent_decode (nonempty_segments req) = [c] ->
  let prefix := snd <$> find (fun kv => str_eqb kv.1 "prefix") (req_query req) in
  forall now, exists r items, respond now req st = Some (st, r) /\ status r = 200 /\ read_list c prefix (resp_body r) = Some items /\
    StronglySorted name_le items /\ NoDup (map fst items) /\
    forall n e, (n, e) ∈ items <-> (exists body, view c st !! n = Some (e, body)) /\ match prefix with Some p => starts_with p n = true | None => True end.
Proof.
  intros Hl Hm Hs prefix now. unfold respond, respond_list. rewrite Hm, Hl, Hs. eexists _, (names_etags st c prefix). split; [reflexivity|]. split; [done|].
  split; [|split; [apply names_etags_sorted|split; [apply names_etags_nodup|apply names_etags_elem]]].
  unfold read_list, list_xml. cbn [resp_body]. fold prefix. rewrite strip_prefix_app. cbn [mbind option_bind]. apply read_items_ok, items_length.
Qed.

(** ** Byte ranges *)

Lemma first_strip_none strip ws s : (forall w r, w ∈ ws -> strip w s <> Some r) -> first_strip strip ws s = None.
Proof.
  induction ws as [|w ws IH]; intros H; [done|]. cbn. destruct (strip w s) as [r|] eqn:E; [destruct (H w r); [left|done]|].
  apply IH. intros w' r Hw. apply H. by right.
Qed.

(** Decimal digits have no white space around them. *)
Lemma trim_digits s : Forall (fun c => is_ascii_digit c = true) s -> trim s = s.
Proof.
  intros H. assert (forallb (fun w => negb (str_eqb w []) && forallb (fun c => negb (is_ascii_digit c)) w) whitespace_chars = true) as Hws by (vm_compute; reflexivity).
  rewrite forallb_forall in Hws. rewrite Forall_forall in H.
  assert (forall w c, w ∈ whitespace_chars -> c ∈ w -> c ∈ s -> False) as Hno.
  { intros w c Hw%list_elem_of_In%Hws Hc Hs. apply andb_true_iff in Hw as [_ Hw]. rewrite forallb_forall in Hw. apply list_elem_of_In, Hw in Hc.
    rewrite (H c Hs) in Hc. done. }
  assert (forall w, w ∈ whitespace_chars -> exists c, c ∈ w) as Hne.
  { intros w Hw%list_elem_of_In%Hws. apply andb_true_iff in Hw as [Hw _]. destruct w as [|c w]; [done|]. exists c. by left. }
  assert (trim_start s = s) as Hst.
  { unfold trim_start. destruct (length s); cbn [trim_loop]; [done|]. rewrite first_strip_none; [done|].
    intros w r Hw Hr%strip_prefix_Some. destruct (Hne w Hw) as [c Hc]. apply (Hno w c Hw Hc). rewrite Hr. apply elem_of_app. by left. }
  unfold trim. rewrite Hst. unfold trim_end. destruct (length s); cbn [trim_loop]; [done|]. rewrite first_strip_none; [done|].
  intros w r Hw Hr%strip_suffix_Some. destruct (Hne w Hw) as [c Hc]. apply (Hno w c Hw Hc). rewrite Hr. apply elem_of_app. by right.
Qed.

Lemma show_digits z : 0 <= z -> Forall (fun c => is_ascii_digit c = true) (show_Z z) /\ show_Z z <> [].
Proof. intros H. unfold show_Z. destruct (Z.ltb_spec z 0); [lia|]. split; [by apply show_nonneg_digits|apply show_nonneg_nonempty]. Qed.

Lemma parse_usize_show z : is_u64 z -> parse_usize (show_Z z) = Some z.
Proof.
  intros Hz. unfold is_u64 in Hz. destruct (show_digits z) as [Hd Hn]; [lia|]. unfold parse_usize. destruct (show_Z z) as [|c s] eqn:E; [done|].
  apply Forall_cons in Hd as [Hc _]. assert (ascii_eqb c "+" = false) as -> by (apply ascii_eqb_neq; intros ->; discriminate Hc).
  unfold show_Z in E. destruct (Z.ltb_spec z 0); [lia|]. rewrite <- E, parse_show_nonneg by lia. cbn. destruct (Z.leb_spec z u64_max); [done|lia].
Qed.

(** The header of a range of offsets, the last one included. *)
Definition range_header (first last : Z) : str := "bytes=" ++ show_Z first ++ "-" ++ show_Z last.

(** The header a request gives the range in. *)
Definition range_value (req : HttpRequest) : option str :=
  mjoin (match req_header req (lit "x-ms-range") with Some v => Some v | None => req_header req (lit "Range") end).

Lemma parse_range_ok req first last n : is_u64 first -> is_u64 last -> 0 <= n -> range_value req = Some (range_header first last) ->
  parse_range_header req n = if Z.min last (last_index n) <? first then None else Some (first, Z.min last (last_index n)).
Proof.
  intros Hf Hl Hn Hr. unfold range_value in Hr. unfold parse_range_header. rewrite Hr. cbn [mbind option_bind]. unfold range_header. rewrite strip_prefix_app. cbn [mbind option_bind].
  pose proof Hf as [Hf0 _]. pose proof Hl as [Hl0 _]. destruct (show_digits first Hf0) as [Hd _], (show_digits last Hl0) as [Hd' Hne].
  assert (split_once "-" (show_Z first ++ "-" ++ show_Z last) = Some (show_Z first, show_Z last)) as ->.
  { apply split_once_Some. split; [done|]. rewrite Forall_forall in Hd. intros Hin%Hd. done. }
  cbn [mbind option_bind]. rewrite !trim_digits, parse_usize_show by done. cbn [mbind option_bind].
  assert (str_eqb (show_Z last) [] = false) as -> by (apply not_true_iff_false; by rewrite str_eqb_eq).
  by rewrite parse_usize_show.
Qed.

(** A ranged GET of an existing blob answers with the bytes of the range that
    exist, the whole body when the range starts after its end, and panics,
    which poisons the lock for every later request, when the blob is empty and
    the range starts at zero. *)
Theorem ranged_get now req st c b x first last :
  split_container_blob req = Some (c, b) -> req_method req = GET -> is_list req = false ->
  fs_blobs st !! blob_key c b = Some x -> range_value req = Some (range_header first last) -> is_u64 first -> is_u64 last -> first <= last ->
  let body := entry_body x in
  if len body =? 0 then (first = 0 -> respond now req st = None)
  else exists r, respond now req st = Some (st, r) /\ header_of "ETag" r = Some (entry_etag x) /\
    if first <? len body
    then status r = 206 /\ resp_body r = take (Z.to_nat (last + 1 - first)) (drop (Z.to_nat first) body)
    else status r = 200 /\ resp_body r = body.
Proof.
  intros Hs Hm Hl Hx Hr Hf Hla Hle body. unfold respond, get_response. rewrite Hm, Hl, Hs, Hx. fold body.
  rewrite (parse_range_ok req first last (len body) Hf Hla) by (unfold len; lia || done). assert (0 <= len body) by (unfold len; lia).
  unfold last_index, is_u64 in *. destruct (Z.eqb_spec (len body) 0) as [E|Hne].
  - intros ->. rewrite E. destruct (Z.ltb_spec (Z.min last (Z.max 0 (0 - 1))) 0); [lia|]. unfold slice_inclusive. rewrite E.
    replace (Z.min last (Z.max 0 (0 - 1))) with 0 by lia. done.
  - destruct (Z.ltb_spec (Z.min last (Z.max 0 (len body - 1))) first), (Z.ltb_spec first (len body)); try lia.
    + eexists. split; [reflexivity|]. done.
    + unfold slice_inclusive. rewrite (proj2 (Z.leb_le _ _)), (proj2 (Z.leb_le _ _)) by lia. cbn. eexists. split; [reflexivity|]. split; [done|]. split; [done|].
      cbn [resp_body]. destruct (Z.leb_spec last (len body - 1)); [by rewrite Z.min_l by lia|]. rewrite Z.min_r by lia.
      rewrite !take_ge; [done|rewrite length_drop; unfold len in *; lia..].
Qed.

(** ** Concrete requests *)

Lemma state_new_wf : fs_wf state_new.
Proof. split; [unfold state_new, u64_max; cbn; lia|]. intros k e He. cbn in He. by rewrite lookup_empty in He. Qed.

Definition demo_store : State := mkState {[ lit "data/a&b/x.parquet" := mkBlobEntry "hello" (etag_text 1) ]} 2.

Lemma demo_store_wf : fs_wf demo_store.
Proof.
  split; [unfold demo_store, u64_max; cbn; lia|]. intros k e He. cbn in He. apply lookup_singleton_Some in He as [_ <-]. exists 1. split; [cbn; lia|done].
Qed.

Definition no_header (h : str) : option (option str) := None.
Definition one_header (name value : str) (h : str) : option (option str) := if str_eqb h name then Some (Some value) else None.

Definition unreserved (c : ascii) : bool := is_ascii_alphanumeric c || contains_char c "-_.~".

(** The name is one encoded segment: [a%26b%2Fx.parquet]. *)
Definition demo_path : option (list str) := Some [percent_encode unreserved "data"; percent_encode unreserved "a&b/x.parquet"].

Lemma fake_keeps_contract_witness :
  let put := mkHttpRequest PUT demo_path [] (one_header "If-Match" (etag_text 1)) "world" in
  exists st' r e, respond "now" put demo_store = Some (st', r) /\ status r = 201 /\ view "data" st' !! lit "a&b/x.parquet" = Some (e, lit "world") /\
    e <> etag_text 1.
Proof.
  intros put. destruct (fake_keeps_contract "now" put demo_store "data" "a&b/x.parquet") as (st' & r & Hr & _ & Hc & _).
  - apply demo_store_wf.
  - vm_compute. reflexivity.
  - vm_compute. reflexivity.
  - vm_compute. reflexivity.
  - unfold contract in Hc. cbn [put req_method] in Hc. match type of Hc with (if ?x then _ else _) => assert (x = true) as E by (vm_compute; reflexivity); rewrite E in Hc end.
    destruct Hc as (Hs & e & _ & Hv & Hn). exists st', r, e. split; [exact Hr|]. split; [exact Hs|]. split.
    + rewrite Hv, lookup_insert_eq. reflexivity.
    + intros ->. apply (Hn (lit "a&b/x.parquet") (etag_text 1) (lit "hello")); [vm_compute; reflexivity|reflexivity].
Defined.

Lemma listing_reads_back_witness :
  let req := mkHttpRequest GET (Some [lit "data"]) [(lit "restype", lit "container"); (lit "comp", lit "list"); (lit "prefix", lit "a&")] no_header [] in
  exists r, respond "now" req demo_store = Some (demo_store, r) /\
    read_list "data" (Some (lit "a&")) (resp_body r) = Some [(lit "a&b/x.parquet", etag_text 1)].
Proof.
  intros req. destruct (listing_reads_back req demo_store "data" eq_refl eq_refl ltac:(vm_compute; reflexivity) "now") as (r & items & Hr & _ & Hl & _ & Hn & Hi).
  exists r. split; [exact Hr|]. injection Hr as <-. vm_compute. reflexivity.
Defined.

Lemma ranged_get_witness :
  let req := mkHttpRequest GET demo_path [] (one_header "x-ms-range" "bytes=1-9") [] in
  exists r, respond "now" req demo_store = Some (demo_store, r) /\ status r = 206 /\ resp_body r = lit "ello".
Proof.
  intros req. pose proof (ranged_get "now" req demo_store "data" "a&b/x.parquet" (mkBlobEntry "hello" (etag_text 1)) 1 9) as H.
  destruct H as (r & Hr & _ & Hs & Hb); try (vm_compute; reflexivity); try (vm_compute; split; discriminate); [vm_compute; discriminate|].
  exists r. split; [exact Hr|]. split; [exact Hs|]. rewrite Hb. vm_compute. reflexivity.
Defined.
