(* ===== verification/Reader.v ===== *)
(** * [src/azure/reader.rs], [src/parquet_io/reader.rs]: reading a blob by
    byte ranges.

    The parquet crate's loaders are programs that ask for ranges and continue
    with the answers ([Fetch]); [AzureBlobReader] answers them with ranged
    GETs, after one HEAD for the size.  On a blob that does not change they
    see exactly the bytes of the file.  The GETs carry no condition, so a blob
    replaced in between is read from two versions. *)

From S2P Require Import Prelude RustStr Redact Errors Options BlobService Store.
Local Open Scope Z_scope.

(** ** The crates *)

(** [ParquetError]: the two constructors the reader uses, and any other. *)
Inductive ParquetError := External (text : str) | General (text : str) | OtherPq (text : str).

(** An asynchronous loader: its requests for [start..end] and what it does
    with each answer. *)
Inductive Fetch {Y : BytesApi} (A : Type) :=
| Done (r : Result ParquetError A)
| More (start end_ : Z) (k : Result ParquetError Bytes -> Fetch A).
Arguments Done {Y A} r.
Arguments More {Y A} start end_ k.

(** Ranged downloads and the size of a blob: the response, then reading its
    body or header. *)
Class RangeApi {Y : BytesApi} (B : BlobApi) := {
  bytes_slice : Bytes -> Z -> Z -> Bytes;
  sdk_download_range : str -> Z -> Z -> Svc -> Svc * Result SdkError (Result SdkError Bytes);
  sdk_content_length : str -> Svc -> Svc * Result SdkError (Result SdkError (option Z));
}.

(** The documented behaviour: a range inside the blob is answered with its
    bytes; reading changes nothing. *)
Class RangeLaws {Y : BytesApi} (B : BlobApi) {L : BlobLaws B} (RA : RangeApi B) : Prop := {
  range_law b start end_ s : exists s' r, sdk_download_range b start end_ s = (s', r) /\ blobs s' = blobs s /\
    forall e body, blobs s !! b = Some (e, body) -> 0 <= start < end_ -> end_ <= bytes_len body ->
      r = Ok (Ok (bytes_slice body start end_));
  length_law b s : exists s' r, sdk_content_length b s = (s', r) /\ blobs s' = blobs s /\
    match blobs s !! b with
    | Some (_, body) => r = Ok (Ok (Some (bytes_len body)))
    | None => exists e, r = Err e
    end;
}.

(** [ParquetMetaDataReader], [ParquetRecordBatchStreamBuilder] and the types
    they take. *)
Class ReadApi {Y : BytesApi} := {
  ArrowReaderOptions : Type; MetadataOptions : Type; IndexPolicy : Type;
  metadata_options : ArrowReaderOptions -> MetadataOptions;
  column_index_policy : ArrowReaderOptions -> IndexPolicy;
  offset_index_policy : ArrowReaderOptions -> IndexPolicy;
  MetaReader : Type; PqMetadata : Type;
  meta_reader_new : MetaReader;
  with_metadata_options : option MetadataOptions -> MetaReader -> MetaReader;
  with_column_index_policy : IndexPolicy -> MetaReader -> MetaReader;
  with_offset_index_policy : IndexPolicy -> MetaReader -> MetaReader;
  load_and_finish : MetaReader -> Z -> Fetch PqMetadata;
  StreamBuilder : Type; BatchStream : Type; ArrowRowFilter : Type; SchemaDescr : Type; ProjectionMask : Type;
  parquet_schema : StreamBuilder -> SchemaDescr;
  mask_roots : SchemaDescr -> list nat -> ProjectionMask;
  with_projection : ProjectionMask -> StreamBuilder -> StreamBuilder;
  with_row_filter : ArrowRowFilter -> StreamBuilder -> StreamBuilder;
  stream_build : StreamBuilder -> Result ParquetError BatchStream;
}.

Section Reader.
Context {Y : BytesApi} {B : BlobApi} {RA : RangeApi B} {RD : ReadApi}.

(** ** [AzureBlobReader] *)

(** The client is that of one blob. *)
Record AzureBlobReader := mkReader { reader_blob : str; cached_size : option Z }.

(** [AzureBlobClient::open_blob]. *)
Definition open_blob (blob : str) : AzureBlobReader := mkReader blob None.

(** Code that may change the reader and the service and fail. *)
Definition RM (A : Type) : Type := AzureBlobReader * Svc -> (AzureBlobReader * Svc) * Result ParquetError A.

#[export] Instance rm_bind : MBind RM := fun _ _ f m st =>
  match m st with (st', Ok a) => f a st' | (st', Err e) => (st', Err e) end.

Definition to_parquet_err (e : SdkError) : ParquetError := External (sdk_text e).

Definition fetch_size : RM Z := fun '(rd, s) =>
  match cached_size rd with
  | Some n => ((rd, s), Ok n)
  | None =>
      let '(s', resp) := sdk_content_length (reader_blob rd) s in
      match resp with
      | Err e | Ok (Err e) => ((rd, s'), Err (to_parquet_err e))
      | Ok (Ok None) => ((rd, s'), Err (General "blob has no Content-Length header"))
      | Ok (Ok (Some len)) => ((mkReader (reader_blob rd) (Some len), s'), Ok len)
      end
  end.

Definition get_bytes (start end_ : Z) : RM Bytes := fun '(rd, s) =>
  let '(s', resp) := sdk_download_range (reader_blob rd) start end_ s in
  ((rd, s'), match resp with Err e | Ok (Err e) => Err (to_parquet_err e) | Ok (Ok body) => Ok body end).

(** The blanket [MetadataFetch] implementation: every request of the loader
    goes through [get_bytes]. *)
Fixpoint run_fetch {A} (p : Fetch A) : RM A := fun st =>
  match p with
  | Done r => (st, r)
  | More start end_ k => let '(st', r) := get_bytes start end_ st in run_fetch (k r) st'
  end.

Definition metadata_reader (options : option ArrowReaderOptions) : MetaReader :=
  let r := with_metadata_options (metadata_options <$> options) meta_reader_new in
  match options with
  | Some opts => with_offset_index_policy (offset_index_policy opts) (with_column_index_policy (column_index_policy opts) r)
  | None => r
  end.

Definition get_metadata (options : option ArrowReaderOptions) : RM PqMetadata :=
  size ← fetch_size; run_fetch (load_and_finish (metadata_reader options) size).

(** ** [open_stream] and its two variants; [new_builder] is
    [ParquetRecordBatchStreamBuilder::new] on the reader at hand *)

Record ParquetReadOptions := mkReadOptions { ro_projection : option (list nat); ro_row_filter : option ArrowRowFilter }.

Definition parquet_error (show : ParquetError -> str) (e : ParquetError) : FdwError := Parquet (show e).

Definition open_with {S} (show : ParquetError -> str) (new_builder : S -> S * Result ParquetError StreamBuilder)
    (opts : ParquetReadOptions) : SM S BatchStream := fun s =>
  let '(s', r) := new_builder s in
  (s', b ← map_err (parquet_error show) r;
       let b := match ro_projection opts with Some cols => with_projection (mask_roots (parquet_schema b) cols) b | None => b end in
       let b := match ro_row_filter opts with Some rf => with_row_filter rf b | None => b end in
       map_err (parquet_error show) (stream_build b)).

Definition open_stream (show : ParquetError -> str) (new_builder : AzureBlobReader -> Svc -> Svc * Result ParquetError StreamBuilder)
    (reader : AzureBlobReader) (opts : ParquetReadOptions) : SM Svc BatchStream :=
  open_with show (new_builder reader) opts.

Definition open_stream_from_bytes (show : ParquetError -> str) (new_builder : Bytes -> Result ParquetError StreamBuilder)
    (bytes : Bytes) (opts : ParquetReadOptions) : FdwResult BatchStream :=
  snd (open_with show (fun _ : unit => (tt, new_builder bytes)) opts tt).

(** [open] is [File::open]. *)
Definition open_local_stream {File} (show : ParquetError -> str) (open : str -> Result str File)
    (new_builder : File -> Result ParquetError StreamBuilder) (path : str) (opts : ParquetReadOptions) : FdwResult BatchStream :=
  f ← map_err Io (open path);
  snd (open_with show (fun _ : unit => (tt, new_builder f)) opts tt).
End Reader.

(** ** Reading through the reader is reading the file *)

Section Facts.
Context {Y : BytesApi} {B : BlobApi} {L : BlobLaws B} {RA : RangeApi B} {RL : RangeLaws B RA} {RD : ReadApi}.
Implicit Types s : Svc.

(** A loader on the bytes of a file. *)
Fixpoint eval_fetch {A} (body : Bytes) (p : Fetch A) : Result ParquetError A :=
  match p with
  | Done r => r
  | More start end_ k => eval_fetch body (k (Ok (bytes_slice body start end_)))
  end.

(** It asks for non-empty ranges inside a file of [n] bytes, as long as it is
    answered. *)
Fixpoint asks_within {A} (n : Z) (p : Fetch A) : Prop :=
  match p with
  | Done _ => True
  | More start end_ k => 0 <= start < end_ /\ end_ <= n /\ forall bytes, asks_within n (k (Ok bytes))
  end.

Lemma get_bytes_current rd s start end_ e body :
  blobs s !! reader_blob rd = Some (e, body) -> 0 <= start < end_ -> end_ <= bytes_len body ->
  exists s', get_bytes start end_ (rd, s) = ((rd, s'), Ok (bytes_slice body start end_)) /\ blobs s' = blobs s.
Proof.
  intros Hb H1 H2. unfold get_bytes. destruct (range_law (reader_blob rd) start end_ s) as (s' & r & -> & Hs & Hr).
  rewrite (Hr e body Hb H1 H2). by exists s'.
Qed.

Lemma run_fetch_exact {A} (p : Fetch A) rd s e body :
  blobs s !! reader_blob rd = Some (e, body) -> asks_within (bytes_len body) p ->
  exists s', run_fetch p (rd, s) = ((rd, s'), eval_fetch body p) /\ blobs s' = blobs s.
Proof.
  revert s. induction p as [r|start end_ k IH]; intros s Hb Hp; cbn [run_fetch eval_fetch asks_within] in *; [by exists s|].
  destruct Hp as (H1 & H2 & Hk). destruct (get_bytes_current rd s start end_ e body Hb H1 H2) as (s1 & -> & Hs1).
  destruct (IH (Ok (bytes_slice body start end_)) s1) as (s2 & H & Hs2); [by rewrite Hs1|by apply Hk|]. exists s2. split; [done|congruence].
Qed.

Lemma fetch_size_current b s e body : blobs s !! b = Some (e, body) ->
  exists s', fetch_size (open_blob b, s) = ((mkReader b (Some (bytes_len body)), s'), Ok (bytes_len body)) /\ blobs s' = blobs s.
Proof.
  intros Hb. unfold fetch_size. cbn [open_blob cached_size reader_blob]. destruct (length_law b s) as (s' & r & -> & Hs & Hr). rewrite Hb in Hr. subst r. by exists s'.
Qed.

(** C23: on a blob that does not change, the metadata loaded through the reader
    is what the parquet loader makes of the bytes of the file and of their
    number; every later load or page read through the same reader, which does
    not ask for the size again, is that program run on the file too; the
    container is unchanged. *)
Theorem ranged_reads_exact options b s e body :
  let load := load_and_finish (metadata_reader options) (bytes_len body) in
  blobs s !! b = Some (e, body) -> asks_within (bytes_len body) load ->
  exists rd s', get_metadata options (open_blob b, s) = ((rd, s'), eval_fetch body load) /\ blobs s' = blobs s /\
    fetch_size (rd, s') = ((rd, s'), Ok (bytes_len body)) /\
    forall A (p : Fetch A), asks_within (bytes_len body) p ->
      exists s'', run_fetch p (rd, s') = ((rd, s''), eval_fetch body p) /\ blobs s'' = blobs s.
Proof.
  intros load Hb Hl. destruct (fetch_size_current b s e body Hb) as (s1 & Hf & Hs1). unfold get_metadata, mbind, rm_bind. rewrite Hf.
  destruct (run_fetch_exact load (mkReader b (Some (bytes_len body))) s1 e body) as (s2 & H & Hs2); [by rewrite Hs1|done|].
  eexists _, s2. split; [exact H|]. split; [congruence|]. split; [done|]. intros A p Hp.
  destruct (run_fetch_exact p (mkReader b (Some (bytes_len body))) s2 e body) as (s3 & H3 & Hs3); [cbn [reader_blob]; by rewrite Hs2, Hs1|done|].
  exists s3. split; [done|congruence].
Qed.

(** A blob replaced between two reads: the reader keeps the old size and
    returns bytes of the new version; nothing fails. *)
Theorem reader_mixes_versions b (s1 s2 : Svc) e1 body1 e2 body2 start end_ :
  blobs s1 !! b = Some (e1, body1) -> blobs s2 !! b = Some (e2, body2) -> e1 <> e2 ->
  0 <= start < end_ -> end_ <= bytes_len body2 ->
  exists rd s1' s2', fetch_size (open_blob b, s1) = ((rd, s1'), Ok (bytes_len body1)) /\
    fetch_size (rd, s2) = ((rd, s2), Ok (bytes_len body1)) /\
    get_bytes start end_ (rd, s2) = ((rd, s2'), Ok (bytes_slice body2 start end_)).
Proof.
  intros H1 H2 _ Hr Hl. destruct (fetch_size_current b s1 e1 body1 H1) as (s1' & Hf & _).
  destruct (get_bytes_current (mkReader b (Some (bytes_len body1))) s2 start end_ e2 body2 H2 Hr Hl) as (s2' & Hg & _). by exists (mkReader b (Some (bytes_len body1))), s1', s2'.
Qed.
End Facts.

(** ** A concrete service and loader *)

Definition ref_ranges : RangeApi (Y := str_bytes) (ref_blob (Y := str_bytes)) := {|
  bytes_slice (body : @Bytes str_bytes) start end_ := take (Z.to_nat (end_ - start)) (drop (Z.to_nat start) (body : str));
  sdk_download_range b start end_ (s : @Svc str_bytes ref_blob) :=
    (s, match (s : gmap str (str * str)) !! b with
        | Some (_, body) => Ok (Ok (take (Z.to_nat (end_ - start)) (drop (Z.to_nat start) body)))
        | None => Err (ref_status NOT_FOUND) end);
  sdk_content_length b (s : @Svc str_bytes ref_blob) :=
    (s, match (s : gmap str (str * str)) !! b with
        | Some (_, body) => Ok (Ok (Some (Z.of_nat (length body))))
        | None => Err (ref_status NOT_FOUND) end);
|}.

#[export] Instance ref_ranges_laws : RangeLaws (Y := str_bytes) (ref_blob (Y := str_bytes)) ref_ranges.
Proof.
  constructor.
  - intros b start end_ s. eexists _, _. split; [reflexivity|]. split; [done|]. intros e body Hb _ _. cbn in Hb. cbn. by rewrite Hb.
  - intros b s. eexists _, _. split; [reflexivity|]. split; [done|]. cbn. destruct (_ !! b) as [[e body]|]; [done|by eexists].
Qed.

(** A loader that reads the last byte and then that many bytes before it. *)
Definition tail_loader (n : Z) : Fetch (Y := str_bytes) str :=
  More (Y := str_bytes) (n - 1) n (fun r => match r with
    | Ok [c] => if (0 <? byte c) && (byte c <=? n - 1)
                then More (Y := str_bytes) (n - 1 - byte c) (n - 1) (fun r => Done (Y := str_bytes) r) else Done (Y := str_bytes) (Err (General "bad footer"))
    | Ok _ => Done (Y := str_bytes) (Err (General "bad footer"))
    | Err e => Done (Y := str_bytes) (Err e) end).

Definition tail_read : ReadApi (Y := str_bytes) := {|
  ArrowReaderOptions := unit; MetadataOptions := unit; IndexPolicy := unit;
  metadata_options _ := tt; column_index_policy _ := tt; offset_index_policy _ := tt;
  MetaReader := unit; PqMetadata := str; meta_reader_new := tt;
  with_metadata_options _ r := r; with_column_index_policy _ r := r; with_offset_index_policy _ r := r;
  load_and_finish _ n := tail_loader n;
  StreamBuilder := unit; BatchStream := unit; ArrowRowFilter := unit; SchemaDescr := unit; ProjectionMask := unit;
  parquet_schema _ := tt; mask_roots _ _ := tt; with_projection _ b := b; with_row_filter _ b := b; stream_build _ := Ok tt |}.

Definition tail_container : gmap str (str * str) := {[ lit "a" := (lit "e1", lit "datameta" ++ [byte_of 4]) ]}.

Lemma ranged_reads_exact_witness :
  exists rd s', get_metadata (Y := str_bytes) (B := ref_blob) (RA := ref_ranges) (RD := tail_read) (Some tt) (open_blob "a", tail_container)
    = ((rd, s'), Ok (lit "meta")).
Proof.
  destruct (ranged_reads_exact (Y := str_bytes) (B := ref_blob) (RA := ref_ranges) (RD := tail_read) (Some tt) "a" tail_container
              (lit "e1") (lit "datameta" ++ [byte_of 4])) as (rd & s' & H & _).
  - reflexivity.
  - cbn [load_and_finish tail_read asks_within tail_loader]. split; [vm_compute; split; [discriminate|reflexivity]|]. split; [apply Z.le_refl|].
    intros [|c [|]]; [exact I| |exact I]. destruct (Z.ltb_spec 0 (byte c)), (Z.leb_spec (byte c) (bytes_len (BytesApi := str_bytes) (lit "datameta" ++ [byte_of 4]) - 1));
      cbn [andb asks_within]; try exact I. split; [lia|]. split; [lia|]. intros ?. exact I.
  - exists rd, s'. etransitivity; [exact H|]. vm_compute. reflexivity.
Defined.
