(* ===== verification/Handoff.v ===== *)
(** * [src/fdw/modify/scan_handoff.rs]: the scan-to-modify handoff.

    A backend-local map from a relation's oid to a stack of blob lists.  A
    [Vec] used as a stack is a list whose top is its last element. *)

From S2P Require Import Prelude RustStr Errors.
Local Open Scope Z_scope.

Abbreviation BlobList := (list (str * str)).
Abbreviation HandoffStack := (list BlobList).
Abbreviation Handoff := (gmap Z HandoffStack).

Definition publish (relid : Z) (bl : BlobList) (h : Handoff) : Handoff :=
  <[relid := default [] (h !! relid) ++ [bl]]> h.

(** [Vec::pop]: the shortened vector and the popped element. *)
Definition vec_pop {A} (v : list A) : list A * option A := (removelast v, last v).

Definition take_entry (relid : Z) (h : Handoff) : Handoff * option BlobList :=
  match h !! relid with
  | None => (h, None)
  | Some entry =>
      let '(entry', v) := vec_pop entry in
      (if bool_decide (entry' = []) then delete relid h else <[relid := entry']> h, v)
  end.

Definition stacked_count (relid : Z) (h : Handoff) : nat :=
  match h !! relid with Some e => length e | None => O end.

Definition ambiguous_msg (relid : Z) (n : nat) : str :=
  "ambiguous scan_handoff for relid " ++ show_Z relid ++ ": " ++ show_Z (Z.of_nat n)
  ++ " concurrent scans of the same foreign table in one statement (e.g. a self-referential UPDATE). v1 does not yet match the modify subtree to its driving scan; rewrite the query so the source rows come from a non-foreign source (CTE, materialised subquery) or use two distinct foreign tables over the same data".

Definition take_unique (relid : Z) (h : Handoff) : Handoff * FdwResult (option BlobList) :=
  match h !! relid with
  | None => (h, Ok None)
  | Some entry =>
      if (1 <? length entry)%nat then
        (delete relid h, Err (SchemaMismatch (ambiguous_msg relid (length entry))))
      else
        let '(entry', v) := vec_pop entry in
        (if bool_decide (entry' = []) then delete relid h else <[relid := entry']> h, Ok v)
  end.

Definition discard (relid : Z) (h : Handoff) : Handoff :=
  match h !! relid with
  | None => h
  | Some entry =>
      let '(entry', _) := vec_pop entry in
      if bool_decide (entry' = []) then delete relid h else <[relid := entry']> h
  end.

(** No stack kept in the map is empty. *)
Definition handoff_wf (h : Handoff) : Prop := forall r e, h !! r = Some e -> e <> [].

Lemma vec_pop_app {A} (l : list A) x : vec_pop (l ++ [x]) = (l, Some x).
Proof. unfold vec_pop. by rewrite removelast_last, last_snoc. Qed.

Lemma restore_wf h relid e :
  handoff_wf h -> handoff_wf (if bool_decide (e = []) then delete relid h else <[relid := e]> h).
Proof.
  intros H r v. case_bool_decide as He.
  - rewrite lookup_delete_Some. intros [_ Hr]. by eapply H.
  - rewrite lookup_insert_Some. intros [[_ <-]|[_ Hr]]; [done|by eapply H].
Qed.

Lemma publish_wf relid bl h : handoff_wf h -> handoff_wf (publish relid bl h).
Proof.
  intros H r v. unfold publish. rewrite lookup_insert_Some. intros [[_ <-]|[_ Hr]]; [|by eapply H].
  by destruct (default [] (h !! relid)).
Qed.

Lemma take_unique_wf relid h : handoff_wf h -> handoff_wf (take_unique relid h).1.
Proof.
  intros H. unfold take_unique. destruct (h !! relid) as [e|]; [|done].
  destruct (1 <? length e)%nat; simpl; [|by apply restore_wf].
  intros r v. rewrite lookup_delete_Some. intros [_ Hr]. by eapply H.
Qed.

(** The operations a backend performs, in any order. *)
Inductive HandoffOp := OpPublish (r : Z) (bl : BlobList) | OpTake (r : Z) | OpTakeUnique (r : Z) | OpDiscard (r : Z).

Definition handoff_step (h : Handoff) (op : HandoffOp) : Handoff :=
  match op with
  | OpPublish r bl => publish r bl h
  | OpTake r => (take_entry r h).1
  | OpTakeUnique r => (take_unique r h).1
  | OpDiscard r => discard r h
  end.

Lemma handoff_step_wf h op : handoff_wf h -> handoff_wf (handoff_step h op).
Proof.
  intros H. destruct op; simpl; [by apply publish_wf| |by apply take_unique_wf|].
  - unfold take_entry. destruct (h !! r); [|done]. by apply restore_wf.
  - unfold discard. destruct (h !! r); [|done]. by apply restore_wf.
Qed.

Lemma reachable_wf ops : handoff_wf (foldl handoff_step ∅ ops).
Proof.
  assert (forall h, handoff_wf h -> handoff_wf (foldl handoff_step h ops)) as H.
  { induction ops as [|op ops IH]; intros h Hh; [done|]. simpl. by apply IH, handoff_step_wf. }
  apply H. intros r e. by rewrite lookup_empty.
Qed.

(** In every state a backend can reach, the modify side gets a blob list
    only when exactly one scan of the relation published one; two or more are
    refused and dropped, none is reported as none, and other relations keep
    their lists. *)
Theorem take_unique_spec ops relid :
  let h := foldl handoff_step ∅ ops in
  let '(h', r) := take_unique relid h in
  match stacked_count relid h with
  | O => r = Ok None
  | S O => exists bl, h !! relid = Some [bl] /\ r = Ok (Some bl)
  | S (S n) => r = Err (SchemaMismatch (ambiguous_msg relid (S (S n))))
  end /\ h' !! relid = None /\ (forall r', r' <> relid -> h' !! r' = h !! r').
Proof.
  intros h. pose proof (reachable_wf ops) as Hwf. fold h in Hwf.
  unfold take_unique, stacked_count. destruct (h !! relid) as [e|] eqn:He; [|done].
  destruct e as [|b [|b2 e]]; [by destruct (Hwf _ _ He)| |]; simpl.
  - split; [eauto|]. split; [apply lookup_delete_eq|]. intros r' Hr. by apply lookup_delete_ne.
  - split; [done|]. split; [apply lookup_delete_eq|]. intros r' Hr. by apply lookup_delete_ne.
Qed.

(** A publish followed by a take returns the published list and restores
    the map: takes pair with publishes last-in first-out. *)
Theorem take_publish ops relid bl :
  let h := foldl handoff_step ∅ ops in take_entry relid (publish relid bl h) = (h, Some bl).
Proof.
  intros h. pose proof (reachable_wf ops) as Hwf. fold h in Hwf. clearbody h.
  unfold take_entry, publish. rewrite lookup_insert_eq, vec_pop_app. f_equal.
  destruct (h !! relid) as [e|] eqn:He; simpl.
  - rewrite bool_decide_eq_false_2 by by eapply Hwf.
    rewrite insert_insert_eq. by apply insert_id.
  - rewrite delete_insert_id by done. done.
Qed.
