(* ===== verification/Coordinator.v ===== *)
(** * [src/fdw/modify/coordinator.rs]: staging bookkeeping and the abort sweep.

    [World] is the mutable surroundings of a modify statement: the service,
    the backend's active-coordinator slot, the uuid source and the warnings
    raised.  [Uuid::new_v4] is outside the repository: a class parameter. *)

From S2P Require Import Prelude RustStr Redact Errors Options BlobService Store.
Local Open Scope Z_scope.

(** [StatementCoordinator] is the set of staging names in flight. *)
Record StatementCoordinator := mkCoordinator { in_flight : gset str }.

Definition coordinator_new : StatementCoordinator := mkCoordinator ∅.
Definition register_staging (name : str) (c : StatementCoordinator) : StatementCoordinator :=
  mkCoordinator ({[name]} ∪ in_flight c).
Definition mark_committed (name : str) (c : StatementCoordinator) : StatementCoordinator :=
  mkCoordinator (in_flight c ∖ {[name]}).
Definition pending_staging (c : StatementCoordinator) : list str := elements (in_flight c).
Definition coordinator_is_empty (c : StatementCoordinator) : bool := bool_decide (in_flight c = ∅).

Definition make_staging_name (uuid original : str) : str :=
  let stem := default original (strip_suffix ".parquet" original) in
  stem ++ ".tmp." ++ uuid ++ ".parquet".

(** The n-th uuid a backend draws, in its 32-digit form. *)
Class UuidApi := uuid_simple : nat -> str.

Record Active := mkActive { active_client : AzureBlobClient; active_coord : StatementCoordinator }.

Inductive Notice :=
| OrphansLeft (names : list str)
| SweepFailed (name : str) (e : FdwError)
| ReplacedCoordinator.

Section World.
Context {Y : BytesApi} {B : BlobApi}.

Record World := mkWorld {
  w_svc : Svc; w_active : option Active; w_uuids : nat; w_notices : list Notice }.

(** Run a client call in the world. *)
Definition on_svc {A} (m : SM Svc A) : SM World A := fun w =>
  let '(s', r) := m (w_svc w) in (mkWorld s' (w_active w) (w_uuids w) (w_notices w), r).

Definition notice (n : Notice) (w : World) : World :=
  mkWorld (w_svc w) (w_active w) (w_uuids w) (w_notices w ++ [n]).

Definition set_active (a : option Active) (w : World) : World :=
  mkWorld (w_svc w) a (w_uuids w) (w_notices w).

Definition open_statement (client : AzureBlobClient) (w : World) : World :=
  let w := match w_active w with Some _ => notice ReplacedCoordinator w | None => w end in
  set_active (Some (mkActive client coordinator_new)) w.

Definition close_statement_success (w : World) : World :=
  match w_active w with
  | None => w
  | Some a =>
      let w := set_active None w in
      if coordinator_is_empty (active_coord a) then w
      else notice (OrphansLeft (pending_staging (active_coord a))) w
  end.

(** [with_active(|c, _| ..)] for an update of the coordinator. *)
Definition with_active (f : StatementCoordinator -> StatementCoordinator) (w : World) : World :=
  match w_active w with
  | Some a => set_active (Some (mkActive (active_client a) (f (active_coord a)))) w
  | None => w
  end.

Inductive XactEvent :=
| XACT_EVENT_COMMIT | XACT_EVENT_PARALLEL_COMMIT | XACT_EVENT_ABORT | XACT_EVENT_PARALLEL_ABORT
| XACT_EVENT_PREPARE | XACT_EVENT_PRE_COMMIT | XACT_EVENT_PARALLEL_PRE_COMMIT | XACT_EVENT_PRE_PREPARE.

(** Delete one pending staging blob; a failure is only a warning. *)
Definition sweep_one (w : World) (name : str) : World :=
  match on_svc (delete_unconditional name) w with
  | (w', Ok _) => w'
  | (w', Err e) => notice (SweepFailed name e) w'
  end.

Definition xact_cb (event : XactEvent) (w : World) : World :=
  let is_abort := match event with XACT_EVENT_ABORT | XACT_EVENT_PARALLEL_ABORT => true | _ => false end in
  let is_commit := match event with XACT_EVENT_COMMIT | XACT_EVENT_PARALLEL_COMMIT => true | _ => false end in
  if negb (is_abort || is_commit) then w
  else match w_active w with
       | None => w
       | Some active =>
           let w := set_active None w in
           if negb is_abort || coordinator_is_empty (active_coord active) then w
           else foldl sweep_one w (pending_staging (active_coord active))
       end.
End World.

Arguments World {Y} B.

(** ** Facts *)

Lemma make_staging_name_staging uuid original : is_staging_name (make_staging_name uuid original) = true.
Proof. unfold is_staging_name, make_staging_name. apply contains_true. eauto. Qed.

(** Version-4 uuids carry 122 random bits: a backend that draws fewer than
    that many sees 32 digits and no repetition. *)
Definition UUIDS : Z := 2 ^ 122.

Class UuidLaws (U : UuidApi) := {
  uuid_length n : length (uuid_simple n) = 32%nat;
  uuid_inj n m : Z.of_nat n < UUIDS -> Z.of_nat m < UUIDS -> uuid_simple n = uuid_simple m -> n = m;
}.

Lemma make_staging_name_inj {U : UuidApi} {UL : UuidLaws U} i j n m :
  Z.of_nat i < UUIDS -> Z.of_nat j < UUIDS ->
  make_staging_name (uuid_simple i) n = make_staging_name (uuid_simple j) m -> i = j.
Proof.
  unfold make_staging_name. intros Hi Hj H.
  apply app_inj_2 in H as [_ H]; [|by rewrite !length_app, !uuid_length].
  apply app_inj_1 in H as [_ H]; [|done].
  apply app_inj_1 in H as [H _]; [by apply uuid_inj|by rewrite !uuid_length].
Qed.

(** A concrete source: the counter in hexadecimal. *)
Definition uuid_digit (d : Z) : ascii := ascii_of_N (Z.to_N (if d <? 10 then 48 + d else 87 + d)).

Fixpoint uuid_digits (k : nat) (n : Z) : str :=
  match k with O => [] | S k => uuid_digit (n mod 16) :: uuid_digits k (n / 16) end.

#[export] Instance ref_uuid : UuidApi := fun n => uuid_digits 32 (Z.of_nat n).

Lemma uuid_digit_inj d1 d2 : 0 <= d1 < 16 -> 0 <= d2 < 16 -> uuid_digit d1 = uuid_digit d2 -> d1 = d2.
Proof.
  intros H1 H2 H. unfold uuid_digit in H. apply (f_equal N_of_ascii) in H.
  destruct (Z.ltb_spec d1 10), (Z.ltb_spec d2 10); rewrite !N_ascii_embedding in H by lia; lia.
Qed.

Lemma uuid_digits_inj k n m :
  0 <= n < 16 ^ Z.of_nat k -> 0 <= m < 16 ^ Z.of_nat k -> uuid_digits k n = uuid_digits k m -> n = m.
Proof.
  revert n m. induction k as [|k IH]; intros n m Hn Hm H; [simpl in *; lia|].
  rewrite Nat2Z.inj_succ, Z.pow_succ_r in Hn, Hm by lia. cbn [uuid_digits] in H. injection H as Hd Hr.
  apply uuid_digit_inj in Hd; [|apply Z.mod_pos_bound; lia..].
  apply IH in Hr; [|split; [apply Z.div_pos; lia|apply Z.div_lt_upper_bound; lia]..].
  rewrite (Z.div_mod n 16), (Z.div_mod m 16) by lia. congruence.
Qed.

#[export] Instance ref_uuid_laws : UuidLaws ref_uuid.
Proof.
  split; [done|]. intros n m Hn Hm H.
  assert (UUIDS <= 16 ^ Z.of_nat 32) by (vm_compute; discriminate).
  apply uuid_digits_inj in H; lia.
Qed.

Section Facts.
Context {Y : BytesApi} {B : BlobApi} {L : BlobLaws B}.

Lemma on_svc_Ok {A} (m : SM Svc A) (w : World B) s' r :
  m (w_svc w) = (s', r) -> on_svc m w = (mkWorld s' (w_active w) (w_uuids w) (w_notices w), r).
Proof. unfold on_svc. by intros ->. Qed.

Lemma sweep_one_blobs (w : World B) name : 
  blobs (w_svc (sweep_one w name)) = delete name (blobs (w_svc w)) /\
  w_active (sweep_one w name) = w_active w /\ w_notices (sweep_one w name) = w_notices w.
Proof.
  destruct (delete_unconditional_ok name (w_svc w)) as (s' & Hd & Hs).
  unfold sweep_one. by rewrite (on_svc_Ok _ _ _ _ Hd).
Qed.

Lemma sweep_blobs (w : World B) names k :
  blobs (w_svc (foldl sweep_one w names)) !! k =
    (if bool_decide (k ∈ names) then None else blobs (w_svc w) !! k) /\
  w_active (foldl sweep_one w names) = w_active w /\
  w_notices (foldl sweep_one w names) = w_notices w.
Proof.
  revert w. induction names as [|n names IH]; intros w; cbn [foldl].
  - by rewrite bool_decide_eq_false_2 by apply not_elem_of_nil.
  - destruct (IH (sweep_one w n)) as (-> & -> & ->).
    destruct (sweep_one_blobs w n) as (-> & -> & ->). split; [|done].
    destruct (decide (k = n)) as [->|Hne].
    + rewrite lookup_delete_eq, (bool_decide_eq_true_2 (n ∈ n :: names)) by left.
      by case_bool_decide.
    + rewrite lookup_delete_ne by done. 
      rewrite (bool_decide_ext (k ∈ n :: names) (k ∈ names)); [done|].
      rewrite elem_of_cons. split; [by intros [?|?]|by right].
Qed.

Lemma xact_abort_spec (w : World B) a k :
  w_active w = Some a ->
  blobs (w_svc (xact_cb XACT_EVENT_ABORT w)) !! k =
    (if bool_decide (k ∈ in_flight (active_coord a)) then None else blobs (w_svc w) !! k).
Proof.
  intros Ha. unfold xact_cb. simpl. rewrite Ha. unfold coordinator_is_empty.
  case_bool_decide as He; simpl.
  - rewrite He. by rewrite bool_decide_eq_false_2 by set_solver.
  - destruct (sweep_blobs (set_active None w) (pending_staging (active_coord a)) k) as (-> & _ & _).
    unfold pending_staging.
    rewrite (bool_decide_ext _ (k ∈ in_flight (active_coord a))); [done|]. apply elem_of_elements.
Qed.

(** When the transaction aborts, the callback empties the slot and
    removes exactly the staging blobs still in flight: every other blob of
    the container keeps its version and content. *)
Theorem xact_abort_sweeps (w : World B) a k :
  w_active w = Some a ->
  let w' := xact_cb XACT_EVENT_ABORT w in
  w_active w' = None /\ w_notices w' = w_notices w /\
  blobs (w_svc w') !! k =
    (if bool_decide (k ∈ in_flight (active_coord a)) then None else blobs (w_svc w) !! k).
Proof.
  intros Ha w'. split; [|split; [|by apply xact_abort_spec]]; unfold w', xact_cb; simpl; rewrite Ha;
    unfold coordinator_is_empty; case_bool_decide; simpl; try done;
    destruct (sweep_blobs (set_active None w) (pending_staging (active_coord a)) k) as (_ & H1 & H2);
    solve [exact H1 | exact H2].
Qed.
End Facts.

Definition demo_client : AzureBlobClient := mkClient "https://acct1.blob.core.windows.net/data" "acct1" "data".

Lemma xact_abort_sweeps_witness :
  let w := mkWorld (Y := str_bytes) (B := ref_blob) demo_container
             (Some (mkActive demo_client (register_staging "data/a.tmp.0.parquet" coordinator_new))) 1 [] in
  blobs (w_svc (xact_cb XACT_EVENT_ABORT w)) !! lit "data/a.tmp.0.parquet" = None /\
  blobs (w_svc (xact_cb XACT_EVENT_ABORT w)) !! lit "x" = Some (lit "e4", lit "X").
Proof.
  intros w. split.
  - rewrite (proj2 (proj2 (xact_abort_sweeps w _ (lit "data/a.tmp.0.parquet") eq_refl))). vm_compute. reflexivity.
  - rewrite (proj2 (proj2 (xact_abort_sweeps w _ (lit "x") eq_refl))). vm_compute. reflexivity.
Defined.
