(* ===== verification/ParquetIO.v ===== *)
(** * [src/parquet_io/writer.rs]: the in-memory parquet writer, and the
    parquet crate as an interface.

    The crate's reader and [ArrowWriter] are outside the repository: class
    [ParquetApi].  [ParquetLaws] says that a finished file decodes to the
    rows written, column by column, in order, with the writer's codec. *)

From S2P Require Import Prelude RustStr Redact Errors Options Externals Kernel BlobService.
Local Open Scope Z_scope.

Class ParquetApi {Y : BytesApi} {A : ArrowApi} := {
  PqFile : Type;
  pq_open : Bytes -> Result str PqFile;
  (** [num_row_groups > 0 && num_columns > 0], then column 0 of group 0. *)
  pq_first_codec : PqFile -> option PqCompression;
  (** [builder.build()]: the stream's items in order. *)
  pq_build : PqFile -> Result str (list (Result str RecordBatch));
  get_array_memory_size : RecordBatch -> Z;
  PqWriter : Type;
  arrow_writer_try_new : Schema -> PqCompression -> Result str PqWriter;
  arrow_writer_write : PqWriter -> RecordBatch -> Result str PqWriter;
  arrow_writer_bytes_written : PqWriter -> Z;
  arrow_writer_into_inner : PqWriter -> Result str Bytes;
  gzip_default_level : Z;
  zstd_default_level : Z;
}.

Section Writer.
Context {Y : BytesApi} {A : ArrowApi} {Q : ParquetApi}.

Definition writer_new (schema : Schema) (c : Compression) : FdwResult PqWriter :=
  map_err Parquet (arrow_writer_try_new schema (to_pq gzip_default_level zstd_default_level c)).
Definition writer_write (w : PqWriter) (b : RecordBatch) : FdwResult PqWriter :=
  map_err Parquet (arrow_writer_write w b).
Definition writer_finish (w : PqWriter) : FdwResult Bytes := map_err Parquet (arrow_writer_into_inner w).

(** A body that decodes, without error, to [bs]. *)
Definition decodes (body : Bytes) (codec : option PqCompression) (bs : list RecordBatch) : Prop :=
  exists f, pq_open body = Ok f /\ pq_build f = Ok (map Ok bs) /\ pq_first_codec f = codec.

(** Two sequences of batches with the same rows. *)
Definition same_rows (ncols : nat) (bs1 bs2 : list RecordBatch) : Prop :=
  total_rows bs1 = total_rows bs2 /\ forall i, (i < ncols)%nat -> blob_column i bs1 = blob_column i bs2.
End Writer.

Class ParquetLaws {Y : BytesApi} {A : ArrowApi} (Q : ParquetApi) := {
  (** What a writer has accepted so far. *)
  writer_holds : PqWriter -> Schema -> PqCompression -> list RecordBatch -> Prop;
  try_new_holds s c : exists w, arrow_writer_try_new s c = Ok w /\ writer_holds w s c [];
  write_holds w s c bs b :
    writer_holds w s c bs -> conforms s (batch_columns b) (num_rows b) ->
    exists w', arrow_writer_write w b = Ok w' /\ writer_holds w' s c (bs ++ [b]);
  into_inner_holds w s c bs :
    writer_holds w s c bs -> (0 < total_rows bs)%nat ->
    exists body bs', arrow_writer_into_inner w = Ok body /\ decodes body (Some c) bs' /\
      Forall (fun b => conforms s (batch_columns b) (num_rows b)) bs' /\ same_rows (length s) bs bs';
  memory_nonneg b : 0 <= get_array_memory_size b;
}.

Lemma codec_roundtrip g z c : from_parquet (to_pq g z c) = c.
Proof. by destruct c. Qed.

(** ** A concrete instance: a file is its codec and its batches *)

Abbreviation RefFile := (PqCompression * list (list RefArray))%type.

Definition ref_bytes : BytesApi := {|
  Bytes := RefFile;
  bytes_len f := Z.of_nat (length (snd f));
  bytes_new := (UNCOMPRESSED, []) |}.

Abbreviation RefWriter := (Schema * PqCompression * list (list RefArray))%type.

Definition ref_write (w : RefWriter) (b : list RefArray) : Result str RefWriter :=
  let '(s, c, bs) := w in
  if ref_conforms s (map (ref_fit (ref_rows b)) b) then Ok (s, c, bs ++ [b]) else Err (lit "schema mismatch").

#[export] Instance ref_parquet : @ParquetApi ref_bytes ref_arrow :=
  @Build_ParquetApi ref_bytes ref_arrow
    (* PqFile *) RefFile
    (* pq_open *) (fun f => Ok f)
    (* pq_first_codec *) (fun f => match snd f with [] => None | _ => Some (fst f) end)
    (* pq_build *) (fun f => Ok (map Ok (snd f)))
    (* get_array_memory_size *) (fun b => Z.of_nat (ref_rows b))
    (* PqWriter *) RefWriter
    (* arrow_writer_try_new *) (fun s c => Ok (s, c, []))
    (* arrow_writer_write *) ref_write
    (* arrow_writer_bytes_written *) (fun w => Z.of_nat (length (snd w)))
    (* arrow_writer_into_inner *) (fun w => Ok (snd (fst w), snd w))
    6 1.

Lemma ref_conforms_complete s (b : list RefArray) :
  conforms (H := ref_arrow) s (batch_columns (ArrowApi := ref_arrow) b) (num_rows (ArrowApi := ref_arrow) b) ->
  ref_conforms s (map (ref_fit (ref_rows b)) b) = true.
Proof.
  intros [Hne HF]. cbn [batch_columns num_rows ref_arrow] in *. unfold ref_conforms.
  rewrite andb_true_iff, !bool_decide_eq_true. split; [done|].
  assert (ref_rows (map (ref_fit (ref_rows b)) b) = ref_rows b) as ->; [|exact HF].
  destruct b as [|c b]; [done|]. apply ref_fit_length.
Qed.

#[export] Program Instance ref_parquet_laws : @ParquetLaws ref_bytes ref_arrow ref_parquet := {|
  writer_holds w s c bs := w = (s, c, bs) /\
    Forall (fun b => conforms (H := ref_arrow) s (batch_columns (ArrowApi := ref_arrow) b)
                       (num_rows (ArrowApi := ref_arrow) b)) bs |}.
Next Obligation. intros s c. eexists. split; [done|]. by split. Qed.
Next Obligation.
  intros w s c bs b [-> HF] Hb. exists (s, c, bs ++ [b]). simpl.
  rewrite ref_conforms_complete by exact Hb. split; [done|]. split; [done|].
  apply Forall_app. split; [done|]. by constructor.
Qed.
Next Obligation.
  intros w s c bs [-> HF] Hr. exists (c, bs), bs. split; [done|]. split; [|split; [exact HF|by split]].
  exists (c, bs). split; [done|]. split; [done|]. simpl.
  destruct bs; [unfold total_rows in Hr; simpl in Hr; lia|done].
Qed.
Next Obligation. intros b. simpl. lia. Qed.
