(* ===== verification/Modify.v ===== *)
(** * [src/fdw/modify/update.rs]: UPDATE and DELETE.

    [build_plan] turns the scan's blob list into a table of 65536-row chunks;
    [record_delete] and [record_update] map a ctid back to a blob and row and
    accumulate edits; [commit_plan] rewrites every touched blob in two
    phases: stage all, then swap all under [If-Match: scan etag]. *)

From S2P Require Import Prelude RustStr Redact Errors RowId Options Externals Kernel Convert BlobService Store Handoff Coordinator ParquetIO.
Local Open Scope Z_scope.

Record BlobIdEntry := mkEntry { name : str; chunk_base_row : Z; etag : str }.

#[export] Instance BlobIdEntry_eq_dec : EqDecision BlobIdEntry.
Proof. solve_decision. Defined.

Definition MAX_EDITS_PER_STATEMENT : Z := 10000000.

Section Defs.
Context {Y : BytesApi} {B : BlobApi} {A : ArrowApi} {R : RoaringApi} {Q : ParquetApi} {P : PgApi} {U : UuidApi}.

Record ModifyPlan := mkPlan {
  blob_table : list BlobIdEntry;
  edits : gmap Z BlobEdits;
  plan_schema : Schema;
  pg_oids : list Z;
  update_attnums : list nat;
  plan_client : AzureBlobClient;
  plan_compression : Compression;
  is_delete : bool;
  ctid_attno : Z;
  edit_count : Z }.

(** ** Plan construction *)

(** [nrows.div_ceil(CHUNK_ROWS).max(1)]. *)
Definition chunk_count (nrows : Z) : Z := Z.max 1 ((nrows + CHUNK_ROWS - 1) / CHUNK_ROWS).

Definition blob_chunks (blob_name et : str) (nrows : Z) : list BlobIdEntry :=
  map (fun chunk => mkEntry blob_name (chunk * CHUNK_ROWS) et) (seqZ 0 (chunk_count nrows)).

(** [blob_row_count]: [num_rows] is the footer's signed count. *)
Definition blob_row_count (num_rows_in_footer : str -> FdwResult Z) (blob : str) : FdwResult Z :=
  n ← num_rows_in_footer blob; Ok (as_u64 (Z.max n 0)).

Definition add_blob (num_rows_in_footer : str -> FdwResult Z) (table : list BlobIdEntry) (b : str * str)
    : FdwResult (list BlobIdEntry) :=
  let '(blob_name, et) := b in
  nrows ← blob_row_count num_rows_in_footer blob_name;
  if u32_max <? nrows then
    Err (SchemaMismatch ("blob " ++ blob_name ++ " has " ++ show_Z nrows
           ++ " rows; UPDATE/DELETE in v1 supports up to " ++ show_Z u32_max ++ " rows per blob"))
  else Ok (table ++ blob_chunks blob_name et nrows).

Definition build_blob_table (num_rows_in_footer : str -> FdwResult Z) (bl : BlobList) : FdwResult (list BlobIdEntry) :=
  foldM (add_blob num_rows_in_footer) [] bl.

Definition collect_attr (acc : list PgAttribute) (att : PgAttribute) : FdwResult (list PgAttribute) :=
  if attisdropped att then
    Err (SchemaMismatch ("dropped column at attnum " ++ show_Z (attnum att)))
  else Ok (acc ++ [att]).

(** [update_cols_for_subplan] ([src/fdw/mod.rs]): [lists] is
    [updateColnosLists], [sub] the subplan index, attribute numbers 1-based. *)
Definition update_cols_for_subplan (is_update : bool) (sub : Z) (lists : option (list (option (list Z)))) : list nat :=
  if negb is_update then []
  else if sub <? 0 then []
  else match lists with
       | None => []
       | Some ls =>
           match mjoin (ls !! Z.to_nat sub) with
           | None => []
           | Some cols => omap (fun a => if 1 <=? a then Some (Z.to_nat (a - 1)) else None) cols
           end
       end.

(** The first attribute with the given name, ignoring ASCII case. *)
Fixpoint find_attno (i : nat) (names : list str) (nm : str) : option nat :=
  match names with
  | [] => None
  | n :: names' => if eq_ignore_ascii_case n nm then Some i else find_attno (S i) names' nm
  end.

Fixpoint reject_partition_update (update_cols partition_attnums : list nat) (attname_for : list str) : FdwResult unit :=
  match update_cols with
  | [] => Ok tt
  | col :: rest =>
      if bool_decide (col ∈ partition_attnums) then
        let pname := default ("attno=" ++ show_Z (Z.of_nat col)) (attname_for !! col) in
        Err (SchemaMismatch ("cannot UPDATE partition column '" ++ pname
               ++ "' — partition values are encoded in the blob path, not the parquet data. DELETE + INSERT to relocate."))
      else reject_partition_update rest partition_attnums attname_for
  end.

(** What [build_plan] reads of [mtstate]'s outer subplan. *)
Inductive Subplan := NoOuterPlanState | NoPlanNode | NilTargetlist | Targetlist (junk_ctid_attno : Z).

Definition InvalidAttrNumber : Z := 0.

Definition find_ctid_attno (sp : Subplan) : FdwResult Z :=
  match sp with
  | NoOuterPlanState => Err (SchemaMismatch "ModifyTableState has no outer PlanState (subplan)")
  | NoPlanNode => Err (SchemaMismatch "outer PlanState has no Plan node")
  | NilTargetlist => Ok InvalidAttrNumber
  | Targetlist a => Ok a
  end.

(** The surroundings of the client constructors. *)
Record ClientEnv := mkClientEnv {
  env_var : str -> option str;
  managed_identity : Result str unit;
  client_secret : str -> str -> str -> Result str unit;
  env_url_parse : str -> Result str unit;
  env_sdk_new : str -> bool -> Result str unit }.

Definition make_client (env : ClientEnv) (server : ServerOptions) (um : UserMappingOptions) (table : TableOptions)
    : FdwResult AzureBlobClient :=
  cred ← build_credential (env_var env) (managed_identity env) (client_secret env)
           (auth_method server) (account_name server) (sas_url um);
  client_new (env_url_parse env) (env_sdk_new env) (endpoint server) (account_name server) cred (container table).

(** [build_plan] as compiled for production (no handoff is an error). *)
Definition build_plan (env : ClientEnv) (relid : Z)
    (options : FdwResult (ServerOptions * UserMappingOptions * TableOptions))
    (num_rows_in_footer : str -> FdwResult Z) (tupdesc : list PgAttribute)
    (update_colnos : list nat) (subplan : Subplan) (is_delete : bool) : SM Handoff ModifyPlan :=
  '(server, um, table) ← lift options;
  _ ← lift (validate_combo server um);
  client ← lift (make_client env server um table);
  handed ← take_unique relid;
  bl ← lift (ok_or handed (SchemaMismatch ("no scan-time blob list published for relid " ++ show_Z relid
          ++ "; UPDATE/DELETE requires a preceding ForeignScan that publishes etags via scan_handoff")));
  tbl ← lift (build_blob_table num_rows_in_footer bl);
  attrs ← lift (foldM collect_attr [] tupdesc);
  schema ← lift (pg_attrs_to_arrow_schema attrs);
  let update_cols := if is_delete then [] else update_colnos in
  _ ← lift (if negb is_delete && negb (bool_decide (partition_columns table = [])) then
              let names := map (fun a => default [] (attname a)) tupdesc in
              let attnums := omap (find_attno 0 names) (partition_columns table) in
              reject_partition_update update_cols attnums names
            else Ok tt);
  attno ← lift (find_ctid_attno subplan);
  mret (mkPlan tbl ∅ schema (map atttypid attrs) update_cols client (compression table) is_delete attno 0).

(** ** Recording edits *)

Definition check_edit_budget (plan : ModifyPlan) : FdwResult unit :=
  if MAX_EDITS_PER_STATEMENT <=? edit_count plan then
    Err (SchemaMismatch ("UPDATE/DELETE accumulator reached MAX_EDITS_PER_STATEMENT=" ++ show_Z MAX_EDITS_PER_STATEMENT
           ++ "; split the statement (the kernel materialises one `RowOverride` per row before commit, so an uncapped multi-million-row UPDATE OOMs the backend before commit_plan runs)"))
  else Ok tt.

(** The backwards walk to the blob's first chunk. *)
Fixpoint walk_base (table : list BlobIdEntry) (nm : str) (base : nat) : FdwResult nat :=
  match base with
  | O => Ok O
  | S prev_idx =>
      prev ← ok_or (table !! prev_idx) (SchemaMismatch "blob_table prev index underflow");
      if str_eqb (name prev) nm then walk_base table nm prev_idx else Ok base
  end.

Definition resolve_to_source (plan : ModifyPlan) (rid : RowId) : FdwResult (Z * Z) :=
  entry ← ok_or (blob_table plan !! Z.to_nat (blob_id rid))
     (SchemaMismatch ("ctid blob_id " ++ show_Z (blob_id rid) ++ " out of range (blob_table len "
                      ++ show_Z (Z.of_nat (length (blob_table plan))) ++ ")"));
  base ← walk_base (blob_table plan) (name entry) (Z.to_nat (blob_id rid));
  Ok (as_u32 (Z.of_nat base), chunk_base_row entry + offset rid).

(** [plan.edits.entry(base_id).or_default()] updated, one more edit counted. *)
Definition with_edit (plan : ModifyPlan) (base_id : Z) (f : BlobEdits -> BlobEdits) : ModifyPlan :=
  let entry := default BlobEdits_default (edits plan !! base_id) in
  mkPlan (blob_table plan) (<[base_id := f entry]> (edits plan)) (plan_schema plan) (pg_oids plan)
    (update_attnums plan) (plan_client plan) (plan_compression plan) (is_delete plan) (ctid_attno plan)
    (saturating_add_u64 (edit_count plan) 1).

Definition record_delete (plan : ModifyPlan) (rid : RowId) : FdwResult ModifyPlan :=
  _ ← check_edit_budget plan;
  '(base_id, abs_row) ← resolve_to_source plan rid;
  let abs32 := as_u32 abs_row in
  Ok (with_edit plan base_id (fun e => mkBlobEdits (bm_insert abs32 (deletes e)) (updates e))).

Definition record_update (plan : ModifyPlan) (rid : RowId) (ovr : RowOverride) : FdwResult ModifyPlan :=
  _ ← check_edit_budget plan;
  '(base_id, abs_row) ← resolve_to_source plan rid;
  Ok (with_edit plan base_id (fun e => mkBlobEdits (deletes e) (<[abs_row := ovr]> (updates e)))).

(** ** The executor callbacks *)

(** A plan slot: its descriptor and [ExecGetJunkAttribute]'s answer (the
    null flag and the pointed-to tid, [None] for a null pointer). *)
Record PlanSlot := mkPlanSlot {
  ps_attrs : list PgAttribute; ps_junk : Z -> bool * option ItemPointerData }.

Fixpoint find_ctid_attr (i : Z) (attrs : list PgAttribute) : Z :=
  match attrs with
  | [] => InvalidAttrNumber
  | a :: attrs' =>
      if attisdropped a then find_ctid_attr (i + 1) attrs'
      else if bool_decide (attname a = Some (lit "ctid")) then i + 1
      else find_ctid_attr (i + 1) attrs'
  end.

Definition read_ctid_via_junk (slot : PlanSlot) (attno : Z) : FdwResult RowId :=
  attno ← (if attno =? InvalidAttrNumber then
             let found := find_ctid_attr 0 (ps_attrs slot) in
             if found =? InvalidAttrNumber
             then Err (SchemaMismatch "could not find resjunk ctid column on plan slot tupdesc")
             else Ok found
           else Ok attno);
  let '(is_null, ptr) := ps_junk slot attno in
  if is_null then Err (SchemaMismatch "resjunk ctid is NULL on UPDATE/DELETE plan slot")
  else
    ip ← ok_or ptr (SchemaMismatch "resjunk ctid datum unexpectedly null");
    Ok (from_ctid ip).

Definition exec_foreign_delete (plan : ModifyPlan) (plan_slot : PlanSlot) : FdwResult ModifyPlan :=
  rid ← read_ctid_via_junk plan_slot (ctid_attno plan);
  record_delete plan rid.

Definition datum_to_single_row_array (oid : Z) (datum : Datum) (is_null : bool) (schema : Schema) (col : nat)
    : FdwResult ArrayRef :=
  f ← ok_or (schema !! col) (RustPanic "index out of bounds");
  b ← builders_new [f];
  b' ← append_one b 0 oid datum is_null;
  rb ← builders_finish b';
  ok_or (batch_columns rb !! 0%nat) (RustPanic "index out of bounds").

(** The override of one SET column; [slot] is [tts_values]/[tts_isnull]. *)
Definition set_column (plan : ModifyPlan) (slot : list (Datum * bool)) (vals : list (option ArrayRef)) (col : nat)
    : FdwResult (list (option ArrayRef)) :=
  let ncols := length (plan_schema plan) in
  if (ncols <=? col)%nat then
    Err (SchemaMismatch ("update_attnums col " ++ show_Z (Z.of_nat col) ++ " >= tupdesc natts " ++ show_Z (Z.of_nat ncols)))
  else
    '(datum, is_null) ← ok_or (slot !! col) (RustPanic "slot shorter than the tuple descriptor");
    oid ← ok_or (pg_oids plan !! col) (RustPanic "index out of bounds");
    one ← datum_to_single_row_array oid datum is_null (plan_schema plan) col;
    Ok (<[col := Some one]> vals).

Definition exec_foreign_update (plan : ModifyPlan) (slot : list (Datum * bool)) (plan_slot : PlanSlot)
    : FdwResult ModifyPlan :=
  rid ← read_ctid_via_junk plan_slot (ctid_attno plan);
  vals ← foldM (set_column plan slot) (replicate (length (plan_schema plan)) None) (update_attnums plan);
  record_update plan rid (mkRowOverride vals).

(** ** The two-phase commit *)

Record Staged := mkStaged {
  original_name : str; scan_etag : str; staging_name : str;
  new_bytes_for_swap : Bytes; empty_delete : bool }.

(** The loop state of the streaming rewrite. *)
Record Rewrite := mkRewrite { rw_writer : PqWriter; rw_offset : Z; rw_decoded : Z; rw_total : Z }.

Definition rewrite_batch (blob : str) (schema : Schema) (e : BlobEdits) (st : Rewrite) (item : Result str RecordBatch)
    : FdwResult Rewrite :=
  batch ← map_err Parquet item;
  let decoded := saturating_add_u64 (rw_decoded st) (get_array_memory_size batch) in
  if MAX_BLOB_BYTES <? decoded then
    Err (Azure ("blob '" ++ blob ++ "' decodes to >" ++ show_Z MAX_BLOB_BYTES
           ++ " bytes of arrow memory (parquet compression unfolds in RAM during UPDATE/DELETE rewrite); refusing to materialise"))
  else
    out ← apply_edits_batch batch (rw_offset st) schema e;
    w ← (if (0 <? num_rows out)%nat then writer_write (rw_writer st) out else Ok (rw_writer st));
    Ok (mkRewrite w (rw_offset st + Z.of_nat (num_rows batch)) decoded (rw_total st + Z.of_nat (num_rows out))).

(** Every update key must name a row of the blob. *)
Definition check_update_keys (blob : str) (e : BlobEdits) (nrows : Z) : FdwResult unit :=
  match find (fun k => nrows <=? k) (map_to_list (updates e)).*1 with
  | Some k => Err (SchemaMismatch ("update row " ++ show_Z k ++ " >= blob '" ++ blob ++ "' row count " ++ show_Z nrows))
  | None => Ok tt
  end.

(** Decode, rewrite and re-encode one body: [None] when no row is left. *)
Definition rewrite_body (plan : ModifyPlan) (blob : str) (e : BlobEdits) (body : Bytes) : FdwResult (option Bytes) :=
  builder ← map_err Parquet (pq_open body);
  let source_codec := match pq_first_codec builder with
                      | Some c => from_parquet c | None => plan_compression plan end in
  items ← map_err Parquet (pq_build builder);
  writer ← writer_new (plan_schema plan) source_codec;
  st ← foldM (rewrite_batch blob (plan_schema plan) e) (mkRewrite writer 0 0 0) items;
  _ ← check_update_keys blob e (rw_offset st);
  if rw_total st =? 0 then Ok None
  else bytes ← writer_finish (rw_writer st); Ok (Some bytes).

(** A fresh staging name, registered with the coordinator before any write. *)
Definition new_staging_name (nm : str) : SM (World B) str := fun w =>
  let sname := make_staging_name (uuid_simple (w_uuids w)) nm in
  let w := mkWorld (w_svc w) (w_active w) (S (w_uuids w)) (w_notices w) in
  (with_active (register_staging sname) w, Ok sname).

Definition stage_result (nm et : str) (staged : list Staged) (res : option Bytes) : SM (World B) (list Staged) :=
  match res with
  | None => mret (staged ++ [mkStaged nm et [] bytes_new true])
  | Some bytes =>
      sname ← new_staging_name nm;
      _ ← on_svc (put_if_none_match sname bytes);
      mret (staged ++ [mkStaged nm et sname bytes false])
  end.

(** Phase 1 for one touched blob. *)
Definition stage_blob (plan : ModifyPlan) (staged : list Staged) (base_id : Z) : SM (World B) (list Staged) :=
  entry ← lift (ok_or (blob_table plan !! Z.to_nat base_id)
     (SchemaMismatch ("edits reference blob_id " ++ show_Z base_id ++ " outside blob_table (len "
                      ++ show_Z (Z.of_nat (length (blob_table plan))) ++ ")")));
  e ← lift (ok_or (edits plan !! base_id) (RustPanic "present"));
  body ← on_svc (get_body_if_match (name entry) (etag entry));
  res ← lift (rewrite_body plan (name entry) e body);
  stage_result (name entry) (etag entry) staged res.

(** Dropping the staging blob is best effort; the name is cleared anyway. *)
Definition drop_staging (sname : str) : SM (World B) unit := fun w =>
  let '(w, _) := on_svc (delete_unconditional sname) w in
  (with_active (mark_committed sname) w, Ok tt).

(** Phase 2 for one staged blob. *)
Definition swap_blob (s : Staged) : SM (World B) unit :=
  if empty_delete s then on_svc (delete_if_match (original_name s) (scan_etag s))
  else
    _ ← on_svc (put_if_match (original_name s) (new_bytes_for_swap s) (scan_etag s));
    drop_staging (staging_name s).

Definition dirty_keys (plan : ModifyPlan) : list Z := merge_sort Z.le (map_to_list (edits plan)).*1.

Definition stage_all (plan : ModifyPlan) : SM (World B) (list Staged) :=
  sm_fold (stage_blob plan) [] (dirty_keys plan).

Definition commit_plan (plan : ModifyPlan) : SM (World B) unit :=
  staged ← stage_all plan;
  sm_iter swap_blob staged.

End Defs.
