(* ===== verification/PlanFacts.v ===== *)
(** * Correctness of the UPDATE/DELETE accumulator ([update.rs]).

    The chunk table built from the scan's blob list resolves every ctid of
    that list to its blob and row; the callbacks record exactly the rows they
    are given, within the edit budget, with overrides that fit the schema. *)

From S2P Require Import Prelude RustStr Redact Errors RowId Options Externals Kernel Convert BlobService Store Handoff Coordinator ParquetIO Modify.
Local Open Scope Z_scope.

Section Table.
Context {Y : BytesApi} {A : ArrowApi} {R : RoaringApi}.
Variable num_rows_in_footer : str -> FdwResult Z.

(** The chunks of one listed blob. *)
Definition chunks_of (b : str * str) : list BlobIdEntry :=
  match blob_row_count num_rows_in_footer b.1 with
  | Ok n => blob_chunks b.1 b.2 n
  | Err _ => []
  end.

(** The blob_id at which the [j]-th blob of the list starts. *)
Definition base_id_of (bl : BlobList) (j : nat) : nat := length (concat (map chunks_of (take j bl))).

Lemma chunk_count_pos n : 1 <= chunk_count n.
Proof. unfold chunk_count. lia. Qed.

Lemma blob_chunks_length nm et n : Z.of_nat (length (blob_chunks nm et n)) = chunk_count n.
Proof.
  unfold blob_chunks. rewrite length_map, length_seqZ. pose proof (chunk_count_pos n). lia.
Qed.

Lemma blob_chunks_lookup nm et n i :
  0 <= i < chunk_count n -> blob_chunks nm et n !! Z.to_nat i = Some (mkEntry nm (i * CHUNK_ROWS) et).
Proof.
  intros Hi. unfold blob_chunks.
  apply (list_lookup_fmap_Some_2 (fun chunk => mkEntry nm (chunk * CHUNK_ROWS) et)).
  rewrite lookup_seqZ_lt by lia. f_equal. lia.
Qed.

Lemma blob_chunks_names nm et n : Forall (fun e => name e = nm) (blob_chunks nm et n).
Proof. unfold blob_chunks. apply Forall_map, Forall_true. done. Qed.

Lemma chunk_of_row n r : 0 <= r < n -> 0 <= r / CHUNK_ROWS < chunk_count n.
Proof. intros Hr. unfold chunk_count. int_lia. Qed.

Lemma build_blob_table_from acc bl tbl :
  foldM (add_blob num_rows_in_footer) acc bl = Ok tbl ->
  tbl = acc ++ concat (map chunks_of bl) /\
  Forall (fun b => exists n, blob_row_count num_rows_in_footer b.1 = Ok n /\ n <= u32_max) bl.
Proof.
  revert acc. induction bl as [|[nm et] bl IH]; intros acc H.
  - simpl in *. inv_ok. rewrite app_nil_r. by split; [|constructor].
  - cbn [foldM] in H. apply bind_Ok_inv in H as (acc' & Ha & H). unfold add_blob in Ha.
    apply bind_Ok_inv in Ha as (n & Hn & Ha). destruct (Z.ltb_spec u32_max n); [done|]. inv_ok.
    destruct (IH _ H) as [-> HF]. split.
    + cbn [map concat]. unfold chunks_of at 2. cbn [fst snd]. by rewrite Hn, (assoc_L (++)).
    + constructor; [|done]. exists n. done.
Qed.

Lemma concat_split {T} (ls : list (list T)) j l :
  ls !! j = Some l -> concat ls = concat (take j ls) ++ l ++ concat (drop (S j) ls).
Proof.
  intros H. rewrite <- (take_drop_middle ls j l H) at 1. by rewrite concat_app.
Qed.

(** The table around the [j]-th blob. *)
Lemma build_blob_table_split bl tbl j nm et n :
  build_blob_table num_rows_in_footer bl = Ok tbl -> bl !! j = Some (nm, et) ->
  blob_row_count num_rows_in_footer nm = Ok n ->
  exists post, tbl = concat (map chunks_of (take j bl)) ++ blob_chunks nm et n ++ post.
Proof.
  intros H Hj Hn. apply build_blob_table_from in H as [-> _]. cbn [app].
  exists (concat (drop (S j) (map chunks_of bl))).
  rewrite (concat_split (map chunks_of bl) j (blob_chunks nm et n)).
  - by rewrite <- (firstn_map chunks_of).
  - rewrite (list_lookup_fmap chunks_of), Hj. simpl. unfold chunks_of. cbn [fst snd]. by rewrite Hn.
Qed.

Lemma names_before bl j nm et :
  NoDup (map fst bl) -> bl !! j = Some (nm, et) ->
  Forall (fun e => name e <> nm) (concat (map chunks_of (take j bl))).
Proof.
  intros Hnd Hj. apply Forall_concat, Forall_map, Forall_forall. intros [nm' et'] Hin.
  apply list_elem_of_lookup in Hin as [i Hi]. apply lookup_take_Some in Hi as [Hi Hlt].
  assert (nm' <> nm) as Hne.
  { intros ->. assert (i = j); [|lia].
    eapply (NoDup_lookup (map fst bl)); [done| |].
    - rewrite (list_lookup_fmap fst), Hi. done.
    - rewrite (list_lookup_fmap fst), Hj. done. }
  unfold chunks_of. cbn [fst snd]. destruct (blob_row_count _ nm'); [|constructor].
  eapply Forall_impl; [apply blob_chunks_names|]. simpl. intros e ->. done.
Qed.

(** The backwards walk stops at the first chunk of a run of one name. *)
Lemma walk_base_run pre run post nm k :
  Forall (fun e => name e <> nm) pre -> Forall (fun e => name e = nm) run -> (k <= length run)%nat ->
  walk_base (pre ++ run ++ post) nm (length pre + k) = Ok (length pre).
Proof.
  intros Hpre Hrun. induction k as [|k IH]; intros Hk.
  - rewrite Nat.add_0_r. destruct pre as [|e pre] using rev_ind; [done|].
    clear IHpre. rewrite length_app, Nat.add_1_r. cbn [walk_base].
    rewrite <- (assoc_L (++)), lookup_app_r, Nat.sub_diag by lia. cbn.
    apply Forall_app in Hpre as [_ Hpre]. inversion Hpre as [|? ? He _]; subst.
    destruct (str_eqb (name e) nm) eqn:E; [by apply str_eqb_eq in E|]. done.
  - rewrite Nat.add_succ_r. cbn [walk_base].
    destruct (lookup_lt_is_Some_2 run k) as [e He]; [lia|].
    rewrite lookup_app_r, lookup_app_l by lia. replace (length pre + k - length pre)%nat with k by lia.
    rewrite He. cbn. rewrite Forall_lookup in Hrun. apply Hrun in He. rewrite He.
    rewrite (proj2 (str_eqb_eq _ _) eq_refl). apply IH. lia.
Qed.

(** Row [r] of the [j]-th blob resolves to that blob's base id and [r]. *)
Lemma resolve_row plan bl j nm et n r :
  build_blob_table num_rows_in_footer bl = Ok (blob_table plan) -> NoDup (map fst bl) ->
  bl !! j = Some (nm, et) -> blob_row_count num_rows_in_footer nm = Ok n -> 0 <= r < n ->
  Z.of_nat (length (blob_table plan)) <= u32_max ->
  let base := Z.of_nat (base_id_of bl j) in
  resolve_to_source plan (from_absolute base r) = Ok (base, r) /\
  blob_table plan !! Z.to_nat base = Some (mkEntry nm 0 et).
Proof.
  intros Hb Hnd Hj Hn Hr Hlen base.
  destruct (build_blob_table_split _ _ _ _ _ _ Hb Hj Hn) as [post Hpost].
  pose proof (chunk_of_row n r Hr) as Hch. pose proof (blob_chunks_length nm et n) as Hcl.
  assert (base + chunk_count n <= u32_max) as Hmax.
  { rewrite Hpost, !length_app in Hlen. unfold base, base_id_of. lia. }
  rewrite from_absolute_exact by (unfold base in *; int_lia).
  set (pre := concat (map chunks_of (take j bl))) in *.
  assert (base = Z.of_nat (length pre)) as Hbase by done.
  assert (forall c, 0 <= c < chunk_count n ->
    blob_table plan !! Z.to_nat (base + c) = Some (mkEntry nm (c * CHUNK_ROWS) et)) as Hlk.
  { intros c Hc. rewrite Hpost, lookup_app_r by lia.
    replace (Z.to_nat (base + c) - length pre)%nat with (Z.to_nat c) by lia.
    rewrite lookup_app_l by lia. by apply blob_chunks_lookup. }
  split.
  - unfold resolve_to_source. cbn [blob_id offset]. rewrite Hlk by done. cbn [ok_or mbind result_bind name].
    rewrite Hpost. replace (Z.to_nat (base + r / CHUNK_ROWS)) with (length pre + Z.to_nat (r / CHUNK_ROWS))%nat by lia.
    rewrite walk_base_run; [|by eapply names_before|apply blob_chunks_names|lia]. cbn [mbind result_bind chunk_base_row].
    rewrite <- Hbase, as_u32_id by (unfold is_u32; lia). do 2 f_equal. int_lia.
  - replace (Z.to_nat base) with (Z.to_nat (base + 0)) by (f_equal; lia).
    rewrite Hlk by (pose proof (chunk_count_pos n); lia). done.
Qed.

Lemma concat_lookup_inv {T} (ls : list (list T)) k x :
  concat ls !! k = Some x ->
  exists j l c, ls !! j = Some l /\ l !! c = Some x /\ k = (length (concat (take j ls)) + c)%nat.
Proof.
  revert k. induction ls as [|l ls IH]; intros k H; [done|]. cbn [concat] in H.
  apply lookup_app_Some in H as [H|[Hle H]].
  - by exists 0%nat, l, k.
  - destruct (IH _ H) as (j & l' & c & Hj & Hc & Hk). exists (S j), l', c.
    cbn [take concat lookup list_lookup]. rewrite length_app. split; [done|]. split; [done|lia].
Qed.

(** An entry of the table is a chunk of one of the listed blobs. *)
Lemma table_entry bl tbl k e :
  build_blob_table num_rows_in_footer bl = Ok tbl -> tbl !! k = Some e ->
  exists j nm et n c, bl !! j = Some (nm, et) /\ blob_row_count num_rows_in_footer nm = Ok n /\ n <= u32_max /\
    0 <= c < chunk_count n /\ k = (base_id_of bl j + Z.to_nat c)%nat /\ e = mkEntry nm (c * CHUNK_ROWS) et.
Proof.
  intros Hb He. apply build_blob_table_from in Hb as [-> HF]. cbn [app] in He.
  apply concat_lookup_inv in He as (j & l & c & Hj & Hc & ->).
  apply list_lookup_fmap_Some in Hj as ([nm et] & -> & Hj).
  rewrite Forall_lookup in HF. destruct (HF _ _ Hj) as (n & Hn & Hmax). cbn [fst] in Hn.
  unfold chunks_of in Hc. cbn [fst snd] in Hc. rewrite Hn in Hc.
  pose proof (blob_chunks_length nm et n) as Hlen. pose proof (lookup_lt_Some _ _ _ Hc) as Hlt.
  exists j, nm, et, n, (Z.of_nat c). rewrite Nat2Z.id.
  assert (0 <= Z.of_nat c < chunk_count n) as Hcc by lia.
  pose proof (blob_chunks_lookup nm et n (Z.of_nat c) Hcc) as Hl. rewrite Nat2Z.id in Hl.
  split; [done|]. split; [done|]. split; [done|]. split; [done|].
  unfold base_id_of. rewrite firstn_map. split; [done|congruence].
Qed.

(** Row [r] lies in a chunk of blob [b]: [b] is the base id of a listed blob,
    whose name and scan-time etag are at that entry, and [r] fits a [u32]. *)
Definition addressed (plan : ModifyPlan) (bl : BlobList) (b r : Z) : Prop :=
  exists j nm et n,
    bl !! j = Some (nm, et) /\ b = Z.of_nat (base_id_of bl j) /\
    blob_table plan !! Z.to_nat b = Some (mkEntry nm 0 et) /\
    blob_row_count num_rows_in_footer nm = Ok n /\ 0 <= r < chunk_count n * CHUNK_ROWS /\ is_u32 r.

(** Whatever row id the executor hands over, what it resolves to is addressed. *)
Lemma resolve_addressed plan bl rid b r :
  build_blob_table num_rows_in_footer bl = Ok (blob_table plan) -> NoDup (map fst bl) ->
  Z.of_nat (length (blob_table plan)) <= u32_max -> is_u16 (offset rid) ->
  resolve_to_source plan rid = Ok (b, r) -> addressed plan bl b r.
Proof.
  intros Hb Hnd Hlen Hoff H. unfold resolve_to_source in H.
  destruct (blob_table plan !! Z.to_nat (blob_id rid)) as [e|] eqn:He; [|done].
  cbn [ok_or mbind result_bind] in H. apply bind_Ok_inv in H as (base & Hw & H). inv_ok.
  destruct (table_entry _ _ _ _ Hb He) as (j & nm & et & n & c & Hj & Hn & Hmax & Hc & Hk & ->).
  destruct (build_blob_table_split _ _ _ _ _ _ Hb Hj Hn) as [post Hpost].
  cbn [name chunk_base_row] in *. rewrite Hk, Hpost in Hw.
  pose proof (blob_chunks_length nm et n) as Hcl. unfold base_id_of in Hw.
  rewrite walk_base_run in Hw; [|by eapply names_before|apply blob_chunks_names|lia]. inv_ok.
  assert (Z.of_nat (base_id_of bl j) <= u32_max) as Hbase.
  { apply lookup_lt_Some in He. lia. }
  exists j, nm, et, n. rewrite as_u32_id by (unfold is_u32, base_id_of in *; lia).
  split; [done|]. split; [done|]. rewrite Nat2Z.id. split; [|split; [done|]].
  - rewrite Hpost, lookup_app_r by done. rewrite Nat.sub_diag, lookup_app_l.
    + apply (blob_chunks_lookup nm et n 0). pose proof (chunk_count_pos n). lia.
    + pose proof (chunk_count_pos n). lia.
  - unfold chunk_count in *. int_lia.
Qed.
End Table.

Section Recording.
Context {Y : BytesApi} {A : ArrowApi} {R : RoaringApi} {RL : RoaringLaws R}.

(** A row callback: delete the row, or override columns of it. *)
Inductive Edit := EDelete (rid : RowId) | EUpdate (rid : RowId) (ovr : RowOverride).

Definition edit_rid (op : Edit) : RowId := match op with EDelete r => r | EUpdate r _ => r end.

Definition record_edit (plan : ModifyPlan) (op : Edit) : FdwResult ModifyPlan :=
  match op with EDelete rid => record_delete plan rid | EUpdate rid ovr => record_update plan rid ovr end.

Lemma record_edit_Ok plan op plan' :
  record_edit plan op = Ok plan' ->
  edit_count plan < MAX_EDITS_PER_STATEMENT /\
  exists base row, resolve_to_source plan (edit_rid op) = Ok (base, row) /\
    plan' = with_edit plan base (fun e =>
      match op with
      | EDelete _ => mkBlobEdits (bm_insert (as_u32 row) (deletes e)) (updates e)
      | EUpdate _ ovr => mkBlobEdits (deletes e) (<[row := ovr]> (updates e))
      end).
Proof.
  intros H. assert (check_edit_budget plan = Ok tt /\ exists base row,
    resolve_to_source plan (edit_rid op) = Ok (base, row) /\ plan' = with_edit plan base (fun e =>
      match op with
      | EDelete _ => mkBlobEdits (bm_insert (as_u32 row) (deletes e)) (updates e)
      | EUpdate _ ovr => mkBlobEdits (deletes e) (<[row := ovr]> (updates e))
      end)) as [Hb Hr].
  { destruct op; cbn in H; unfold record_delete, record_update in H;
      apply bind_Ok_inv in H as ([] & Hb & H); apply bind_Ok_inv in H as ([base row] & Hr & H); inv_ok;
      (split; [done|]); eauto. }
  split; [|done]. unfold check_edit_budget in Hb.
  destruct (Z.leb_spec MAX_EDITS_PER_STATEMENT (edit_count plan)); [done|lia].
Qed.

Lemma record_edit_count plan op plan' :
  0 <= edit_count plan -> record_edit plan op = Ok plan' ->
  edit_count plan' = edit_count plan + 1 /\ edit_count plan' <= MAX_EDITS_PER_STATEMENT.
Proof.
  intros H0 H. apply record_edit_Ok in H as (Hlt & base & row & _ & ->). cbn [with_edit edit_count].
  unfold MAX_EDITS_PER_STATEMENT in *. int_lia.
Qed.

Lemma record_edits_count plan ops plan' :
  0 <= edit_count plan -> foldM record_edit plan ops = Ok plan' ->
  edit_count plan' = edit_count plan + Z.of_nat (length ops) /\
  (ops <> [] -> edit_count plan' <= MAX_EDITS_PER_STATEMENT).
Proof.
  revert plan. induction ops as [|op ops IH]; intros plan H0 H; cbn [foldM] in H.
  - inv_ok. simpl. split; [lia|done].
  - apply bind_Ok_inv in H as (p1 & H1 & H). apply record_edit_count in H1 as [Hc Hm]; [|done].
    destruct (IH p1) as [Hc' Hm']; [lia|done|]. split; [simpl; lia|].
    intros _. destruct ops; [cbn in H; inv_ok; done|]. by apply Hm'.
Qed.

(** Recording never touches the table. *)
Lemma record_edit_table plan op plan' :
  record_edit plan op = Ok plan' -> blob_table plan' = blob_table plan /\ plan_schema plan' = plan_schema plan
    /\ forall rid, resolve_to_source plan' rid = resolve_to_source plan rid.
Proof. intros H. apply record_edit_Ok in H as (_ & base & row & _ & ->). done. Qed.

(** The row an operation addresses, from the plan it starts in. *)
Definition target (plan : ModifyPlan) (op : Edit) : option (Z * Z) :=
  match resolve_to_source plan (edit_rid op) with Ok p => Some p | Err _ => None end.

(** The deletes recorded for blob [b], and its last override of row [r]. *)
Definition deleted_by (plan : ModifyPlan) (ops : list Edit) (b r : Z) : bool :=
  existsb (fun op => match op with
                     | EDelete _ => match target plan op with
                                    | Some (b', r') => (b' =? b) && (as_u32 r' =? r)
                                    | None => false end
                     | EUpdate _ _ => false end) ops.

Definition updated_by (plan : ModifyPlan) (ops : list Edit) (b r : Z) (init : option RowOverride) : option RowOverride :=
  foldl (fun acc op => match op with
                       | EUpdate _ ovr => match target plan op with
                                          | Some (b', r') => if (b' =? b) && (r' =? r) then Some ovr else acc
                                          | None => acc end
                       | EDelete _ => acc end) init ops.

Definition edits_at (plan : ModifyPlan) (b : Z) : BlobEdits := default BlobEdits_default (edits plan !! b).

Lemma target_table plan plan' op :
  (forall rid, resolve_to_source plan' rid = resolve_to_source plan rid) -> target plan' op = target plan op.
Proof. intros H. unfold target. by rewrite H. Qed.

Lemma edits_at_with_edit plan base f b :
  edits_at (with_edit plan base f) b = if b =? base then f (edits_at plan b) else edits_at plan b.
Proof.
  unfold edits_at, with_edit. cbn [edits]. destruct (Z.eqb_spec b base) as [->|Hne].
  - by rewrite lookup_insert_eq.
  - by rewrite lookup_insert_ne.
Qed.

Lemma record_edits_content plan ops plan' b r :
  foldM record_edit plan ops = Ok plan' ->
  bm_contains (deletes (edits_at plan' b)) r =
    deleted_by plan ops b r || bm_contains (deletes (edits_at plan b)) r /\
  updates (edits_at plan' b) !! r = updated_by plan ops b r (updates (edits_at plan b) !! r).
Proof.
  revert plan. induction ops as [|op ops IH]; intros plan H; cbn [foldM] in H; [by inv_ok|].
  apply bind_Ok_inv in H as (p1 & H1 & H). destruct (IH p1 H) as [Hd Hu].
  apply record_edit_Ok in H1 as (_ & base & row & Ht & ->).
  assert (target plan op = Some (base, row)) as Htgt by (unfold target; by rewrite Ht).
  match type of Hd with context [deleted_by (with_edit plan base ?f)] =>
    change (deleted_by (with_edit plan base f)) with (deleted_by plan) in Hd;
    change (updated_by (with_edit plan base f)) with (updated_by plan) in Hu end.
  rewrite Hd, Hu, edits_at_with_edit. unfold deleted_by, updated_by. cbn [existsb foldl]. rewrite !Htgt.
  rewrite (Z.eqb_sym base b). destruct op as [rid|rid ovr]; destruct (Z.eqb_spec b base); cbn [andb orb].
  - cbn [deletes updates]. rewrite bm_contains_insert. split; [|done].
    rewrite orb_assoc, (orb_comm (existsb _ _)), <- !orb_assoc. f_equal.
    destruct (Z.eqb_spec (as_u32 row) r); case_bool_decide; done.
  - done.
  - cbn [deletes updates]. split; [done|]. f_equal.
    destruct (Z.eqb_spec row r) as [->|Hne]; [by rewrite lookup_insert_eq|by rewrite lookup_insert_ne].
  - done.
Qed.
End Recording.

Section Callbacks.
Context {Y : BytesApi} {A : ArrowApi} {AL : ArrowLaws A} {R : RoaringApi} {RL : RoaringLaws R} {P : PgApi}.

(** One append to a single fresh builder adds exactly one cell. *)
Lemma append_one_single sch x oid d is_null b' :
  append_one (mkBuilders sch [x]) 0 oid d is_null = Ok b' ->
  exists c, b' = mkBuilders sch [mkBuilder (b_kind x) (b_type x) (b_cells x ++ [c])].
Proof.
  assert (forall k tn c, append_typed k tn (mkBuilders sch [x]) 0 c = Ok b' ->
    exists c, b' = mkBuilders sch [mkBuilder (b_kind x) (b_type x) (b_cells x ++ [c])]) as Ht.
  { intros k tn c H. unfold append_typed in H. simpl in H. case_bool_decide; [|done]. inv_ok. eexists. done. }
  unfold append_one. destruct is_null; [intros H; cbn in H; inv_ok; eexists; done|].
  repeat (match goal with |- context [if ?b then _ else _] => destruct b end;
    [unfold append_bool, append_i16, append_i32, append_i64, append_f32, append_f64, append_str; eauto|]).
  done.
Qed.

Lemma make_builder_fresh t x : make_builder t = Ok x -> b_type x = t /\ b_cells x = [].
Proof.
  destruct t as [| | | | | | | | | | |u z|p s|]; cbn; try (intros [= <-]; done).
  - destruct u, z; intros [= <-]; done.
  - destruct (decimal128_params_ok p s); intros [= <-]; done.
Qed.

(** A single-row array fits its column. *)
Definition fits (f : Field) (a : ArrayRef) : Prop :=
  array_len a = 1%nat /\ array_type a = field_type f /\ (nullable f = false -> None ∉ array_cells a).

Lemma single_row_fits oid d is_null schema col f a :
  schema !! col = Some f -> datum_to_single_row_array oid d is_null schema col = Ok a -> fits f a.
Proof.
  intros Hf H. unfold datum_to_single_row_array in H. rewrite Hf in H. cbn [ok_or mbind result_bind] in H.
  apply bind_Ok_inv in H as (b & Hb & H). apply bind_Ok_inv in H as (b' & Hb' & H).
  apply bind_Ok_inv in H as (rb & Hrb & H). inv_ok.
  unfold builders_new in Hb. cbn [mapM_res] in Hb.
  destruct (make_builder (field_type f)) as [x|] eqn:Hx; [|done]. cbn in Hb. inv_ok.
  apply make_builder_fresh in Hx as [Ht Hc].
  apply append_one_single in Hb' as [c ->]. rewrite Hc in Hrb. cbn in Hrb. inv_ok.
  apply try_new_sound in Hrb as [[_ HF] Hcols]. rewrite Hcols in H. simpl in H. simplify_eq.
  inversion HF as [|? ? ? ? (Hty & Hlen & Hnn) _]; subst.
  split; [unfold array_len; by rewrite build_cells|]. by rewrite Hty.
Qed.

(** Every override present fits its column. *)
Definition override_fits (schema : Schema) (vals : list (option ArrayRef)) : Prop :=
  forall col a f, vals !! col = Some (Some a) -> schema !! col = Some f -> fits f a.

Lemma set_column_fits plan slot vals col vals' :
  override_fits (plan_schema plan) vals -> set_column plan slot vals col = Ok vals' ->
  override_fits (plan_schema plan) vals'.
Proof.
  intros Hv H. unfold set_column in H. destruct (_ <=? _)%nat; [done|].
  apply bind_Ok_inv in H as ([d n] & _ & H). apply bind_Ok_inv in H as (oid & _ & H).
  apply bind_Ok_inv in H as (one & Hone & H). inv_ok.
  intros c a f Hc Hf. apply list_lookup_insert_Some in Hc as [(<- & ? & _)|[_ Hc]]; [|by eapply Hv].
  simplify_eq. by eapply single_row_fits.
Qed.

(** The plan invariant: every recorded override fits the schema. *)
Definition plan_wf (plan : ModifyPlan) : Prop :=
  forall b e, edits plan !! b = Some e -> overrides_ok (plan_schema plan) e.

Lemma overrides_ok_default schema : overrides_ok schema BlobEdits_default.
Proof. intros abs col a f Ha. unfold override_at, BlobEdits_default in Ha. cbn in Ha. by rewrite lookup_empty in Ha. Qed.

Lemma plan_wf_with_edit plan base f :
  plan_wf plan -> (forall e, overrides_ok (plan_schema plan) e -> overrides_ok (plan_schema plan) (f e)) ->
  plan_wf (with_edit plan base f).
Proof.
  intros Hwf Hf b e He. cbn [with_edit edits plan_schema] in *.
  apply lookup_insert_Some in He as [[<- <-]|[_ He]]; [|by eapply Hwf].
  apply Hf. destruct (edits plan !! base) as [e0|] eqn:E; [by eapply Hwf|apply overrides_ok_default].
Qed.

Lemma record_update_wf plan rid ovr plan' :
  plan_wf plan -> override_fits (plan_schema plan) (values ovr) ->
  record_update plan rid ovr = Ok plan' -> plan_wf plan'.
Proof.
  intros Hwf Hfit H. apply (record_edit_Ok plan (EUpdate rid ovr)) in H as (_ & base & row & _ & ->).
  apply plan_wf_with_edit; [done|]. intros e He abs col a f Ha Hf. unfold override_at in Ha. cbn [updates] in Ha.
  destruct (decide (abs = row)) as [->|Hne].
  - rewrite lookup_insert_eq in Ha. cbn in Ha. destruct (values ovr !! col) as [[v|]|] eqn:Hv; simplify_eq/=.
    by eapply Hfit.
  - rewrite lookup_insert_ne in Ha by done. exact (He abs col a f Ha Hf).
Qed.

Lemma record_delete_wf plan rid plan' :
  plan_wf plan -> record_delete plan rid = Ok plan' -> plan_wf plan'.
Proof.
  intros Hwf H. apply (record_edit_Ok plan (EDelete rid)) in H as (_ & base & row & _ & ->).
  apply plan_wf_with_edit; [done|]. intros e He abs col a f Ha Hf. exact (He abs col a f Ha Hf).
Qed.

Lemma exec_foreign_update_wf plan slot ps plan' :
  plan_wf plan -> exec_foreign_update plan slot ps = Ok plan' -> plan_wf plan'.
Proof.
  intros Hwf H. unfold exec_foreign_update in H. apply bind_Ok_inv in H as (rid & _ & H).
  apply bind_Ok_inv in H as (vals & Hv & H).
  apply (foldM_inv (override_fits (plan_schema plan))) in Hv.
  - exact (record_update_wf plan rid (mkRowOverride vals) plan' Hwf Hv H).
  - intros col a f Hc. apply lookup_replicate in Hc as [? _]. done.
  - intros. by eapply set_column_fits.
Qed.

(** The executor's row callbacks, in any order. *)
Inductive Callback := CbUpdate (slot : list (Datum * bool)) (ps : PlanSlot) | CbDelete (ps : PlanSlot).

Definition run_callback (plan : ModifyPlan) (cb : Callback) : FdwResult ModifyPlan :=
  match cb with
  | CbUpdate slot ps => exec_foreign_update plan slot ps
  | CbDelete ps => exec_foreign_delete plan ps
  end.

Lemma run_callback_wf plan cb plan' : plan_wf plan -> run_callback plan cb = Ok plan' -> plan_wf plan'.
Proof.
  destruct cb; cbn; [apply exec_foreign_update_wf|].
  unfold exec_foreign_delete. intros Hwf H. apply bind_Ok_inv in H as (rid & _ & H). by eapply record_delete_wf.
Qed.

Lemma run_callbacks_wf plan cbs plan' :
  edits plan = ∅ -> foldM run_callback plan cbs = Ok plan' -> plan_wf plan'.
Proof.
  intros He H. apply (foldM_inv plan_wf) in H; [done| |intros; by eapply run_callback_wf].
  intros b e Hb. rewrite He in Hb. by rewrite lookup_empty in Hb.
Qed.

(** The fields of the tid in the junk attribute are 16-bit words, as in every
    [ItemPointerData]. *)
Definition tid_machine (ps : PlanSlot) : Prop :=
  forall attno isnull ip, ps_junk ps attno = (isnull, Some ip) -> item_pointer_wf ip.

Definition cb_slot (cb : Callback) : PlanSlot := match cb with CbUpdate _ ps => ps | CbDelete ps => ps end.

Lemma read_ctid_offset ps attno rid :
  tid_machine ps -> read_ctid_via_junk ps attno = Ok rid -> is_u16 (offset rid).
Proof.
  intros Hps H. unfold read_ctid_via_junk in H. apply bind_Ok_inv in H as (a & _ & H).
  destruct (ps_junk ps a) as [isnull oip] eqn:E. destruct isnull; [done|].
  destruct oip as [ip|]; [|done]. cbn in H. inv_ok. by destruct (Hps _ _ _ E) as (_ & _ & ?).
Qed.

(** A callback records one edit, at the row its tid names. *)
Lemma run_callback_edit plan cb plan' :
  tid_machine (cb_slot cb) -> run_callback plan cb = Ok plan' ->
  exists op, is_u16 (offset (edit_rid op)) /\ record_edit plan op = Ok plan'.
Proof.
  intros Hps H. destruct cb as [slot ps|ps]; cbn in H, Hps.
  - unfold exec_foreign_update in H. apply bind_Ok_inv in H as (rid & Hr & H).
    apply bind_Ok_inv in H as (vals & _ & H). exists (EUpdate rid (mkRowOverride vals)).
    split; [by eapply read_ctid_offset|done].
  - unfold exec_foreign_delete in H. apply bind_Ok_inv in H as (rid & Hr & H).
    exists (EDelete rid). split; [by eapply read_ctid_offset|done].
Qed.

Variable num_rows_in_footer : str -> FdwResult Z.

(** The rows an edit set names. *)
Definition edits_row (e : BlobEdits) (r : Z) : Prop := bm_contains (deletes e) r = true \/ is_Some (updates e !! r).

(** The other half of the invariant: every recorded row is addressed, and no
    blob has an edit set without a row. *)
Definition plan_addressed (bl : BlobList) (plan : ModifyPlan) : Prop :=
  forall b e, edits plan !! b = Some e ->
    (exists r, edits_row e r) /\ forall r, edits_row e r -> addressed num_rows_in_footer plan bl b r.

Lemma record_edit_addressed bl plan op plan' :
  build_blob_table num_rows_in_footer bl = Ok (blob_table plan) -> NoDup (map fst bl) ->
  Z.of_nat (length (blob_table plan)) <= u32_max -> is_u16 (offset (edit_rid op)) ->
  plan_addressed bl plan -> record_edit plan op = Ok plan' -> plan_addressed bl plan'.
Proof.
  intros Hb Hnd Hlen Hoff Hp H. apply record_edit_Ok in H as (_ & base & row & Hr & ->).
  pose proof (resolve_addressed _ plan bl _ _ _ Hb Hnd Hlen Hoff Hr) as Ha.
  assert (as_u32 row = row) as Hrow by (apply as_u32_id; by destruct Ha as (? & ? & ? & ? & _ & _ & _ & _ & _ & ?)).
  intros b e He. cbn [with_edit edits] in He.
  apply lookup_insert_Some in He as [[<- <-]|[_ He]]; [|exact (Hp b e He)].
  split.
  { exists row. destruct op; unfold edits_row; cbn [deletes updates]; [left|right].
    - rewrite Hrow, bm_contains_insert, bool_decide_eq_true_2 by done. done.
    - by rewrite lookup_insert_eq. }
  assert (forall r, edits_row (default BlobEdits_default (edits plan !! base)) r -> addressed num_rows_in_footer plan bl base r) as Hold.
  { intros r Hin. destruct (edits plan !! base) as [e0|] eqn:E; [by apply (Hp base e0 E)|].
    destruct Hin as [Hin|[? Hin]]; cbn in Hin; [by rewrite bm_contains_empty in Hin|by rewrite lookup_empty in Hin]. }
  intros r Hin. change (addressed num_rows_in_footer plan bl base r).
  destruct op; destruct Hin as [Hin|Hin]; cbn [deletes updates] in Hin;
    try (by apply Hold; left); try (by apply Hold; right).
  - rewrite Hrow, bm_contains_insert in Hin. apply orb_true_iff in Hin as [Hin|Hin]; [|by apply Hold; left].
    apply bool_decide_eq_true in Hin. by subst r.
  - destruct Hin as [ovr' Hin]. apply lookup_insert_Some in Hin as [[<- _]|[_ Hin]]; [done|].
    apply Hold. right. by exists ovr'.
Qed.

Lemma run_callbacks_addressed bl plan cbs plan' :
  build_blob_table num_rows_in_footer bl = Ok (blob_table plan) -> NoDup (map fst bl) ->
  Z.of_nat (length (blob_table plan)) <= u32_max -> Forall (tid_machine ∘ cb_slot) cbs ->
  plan_addressed bl plan -> foldM run_callback plan cbs = Ok plan' ->
  plan_addressed bl plan' /\ blob_table plan' = blob_table plan.
Proof.
  intros Hb Hnd Hlen Hcbs. revert plan Hb Hlen.
  induction Hcbs as [|cb cbs Hcb _ IH]; intros plan Hb Hlen Hp H; cbn [foldM] in H; [by inv_ok|].
  apply bind_Ok_inv in H as (p1 & H1 & H). destruct (run_callback_edit _ _ _ Hcb H1) as (op & Hoff & Hop).
  destruct (record_edit_table _ _ _ Hop) as (Ht & _). rewrite <- Ht in Hb, Hlen |- *.
  apply IH; [done..| |done]. rewrite Ht in Hb, Hlen. by eapply record_edit_addressed.
Qed.

(** C24: a plan built from a list of distinct blobs with at most 2^32 - 1
    chunks is well formed after any sequence of accepted row callbacks.
    Every blob with edits has at least one, every deleted or updated row lies
    in a chunk of a listed blob (the key is the base id of that blob, where
    the table holds its name and scan-time etag) and fits a [u32]; every
    override has one row of the column's type, not NULL for a NOT NULL column.
    The tids handed in are arbitrary 48-bit values. *)
Theorem callbacks_plan_wf bl plan cbs plan' :
  build_blob_table num_rows_in_footer bl = Ok (blob_table plan) -> NoDup (map fst bl) ->
  Z.of_nat (length (blob_table plan)) <= u32_max -> edits plan = ∅ ->
  Forall (tid_machine ∘ cb_slot) cbs -> foldM run_callback plan cbs = Ok plan' ->
  plan_addressed bl plan' /\ plan_wf plan' /\ blob_table plan' = blob_table plan.
Proof.
  intros Hb Hnd Hlen He Hcbs H.
  destruct (run_callbacks_addressed bl plan cbs plan') as [Hp Ht]; [done..| |done|].
  - intros b e Hl. rewrite He in Hl. by rewrite lookup_empty in Hl.
  - split; [done|]. split; [by eapply run_callbacks_wf|done].
Qed.
End Callbacks.

Section Claims.
Context {Y : BytesApi} {A : ArrowApi} {R : RoaringApi} {RL : RoaringLaws R} {P : PgApi}.

Lemma run_callback_count plan cb plan' :
  0 <= edit_count plan -> run_callback plan cb = Ok plan' ->
  edit_count plan' = edit_count plan + 1 /\ edit_count plan' <= MAX_EDITS_PER_STATEMENT.
Proof.
  intros H0 H. destruct cb; cbn in H.
  - unfold exec_foreign_update in H. apply bind_Ok_inv in H as (rid & _ & H).
    apply bind_Ok_inv in H as (vals & _ & H). by apply (record_edit_count plan (EUpdate rid (mkRowOverride vals))).
  - unfold exec_foreign_delete in H. apply bind_Ok_inv in H as (rid & _ & H).
    by apply (record_edit_count plan (EDelete rid)).
Qed.

Lemma callbacks_count plan cbs plan' :
  0 <= edit_count plan <= MAX_EDITS_PER_STATEMENT -> foldM run_callback plan cbs = Ok plan' ->
  edit_count plan' = edit_count plan + Z.of_nat (length cbs) /\ edit_count plan' <= MAX_EDITS_PER_STATEMENT.
Proof.
  revert plan. induction cbs as [|cb cbs IH]; intros plan H0 H; cbn [foldM] in H.
  - inv_ok. simpl. lia.
  - apply bind_Ok_inv in H as (p1 & H1 & H). apply run_callback_count in H1 as [Hc Hm]; [|lia].
    destruct (IH p1) as [Hc' Hm']; [lia|done|]. simpl. lia.
Qed.

(** A statement's callbacks never accumulate more than
    [MAX_EDITS_PER_STATEMENT] edits: the counter counts every accepted
    callback and the statement fails at the first one over the cap. *)
Theorem callbacks_edit_budget plan cbs plan' :
  edit_count plan = 0 -> foldM run_callback plan cbs = Ok plan' ->
  edit_count plan' = Z.of_nat (length cbs) /\ Z.of_nat (length cbs) <= MAX_EDITS_PER_STATEMENT.
Proof.
  intros H0 H. destruct (callbacks_count plan cbs plan') as [Hc Hm]; [|done|lia].
  unfold MAX_EDITS_PER_STATEMENT. lia.
Qed.

(** The ctid stamped for row [r] of the [j]-th blob of the list the scan
    published is resolved by the plan built from that list to the same blob
    (its base id, hence its name and scan-time etag) and to row [r]. *)
Theorem ctid_resolves nr plan bl j nm et n r :
  build_blob_table nr bl = Ok (blob_table plan) -> NoDup (map fst bl) ->
  bl !! j = Some (nm, et) -> blob_row_count nr nm = Ok n -> 0 <= r < n ->
  Z.of_nat (length (blob_table plan)) <= u32_max ->
  let base := Z.of_nat (base_id_of nr bl j) in
  resolve_to_source plan (from_ctid (to_ctid (from_absolute base r))) = Ok (base, r) /\
  blob_table plan !! Z.to_nat base = Some (mkEntry nm 0 et).
Proof.
  intros Hb Hnd Hj Hn Hr Hlen base.
  destruct (resolve_row nr plan bl j nm et n r) as [Hres Htab]; [done..|].
  rewrite ctid_roundtrip; [done|]. apply from_absolute_wf; [|lia].
  apply lookup_lt_Some in Htab. unfold base, is_u32 in *. lia.
Qed.

(** After any sequence of recorded deletes and updates, the edits of a
    blob are exactly the rows addressed: a row is marked deleted iff some
    delete resolved to it, and its override is the last update's. *)
Theorem recorded_edits_exact plan ops plan' b r :
  edits plan = ∅ -> foldM record_edit plan ops = Ok plan' ->
  bm_contains (deletes (edits_at plan' b)) r = deleted_by plan ops b r /\
  updates (edits_at plan' b) !! r = updated_by plan ops b r None.
Proof.
  intros He H. destruct (record_edits_content plan ops plan' b r H) as [Hd Hu].
  assert (edits_at plan b = BlobEdits_default) as Hdef by (unfold edits_at; by rewrite He, lookup_empty).
  rewrite Hdef in Hd, Hu. rewrite Hd, Hu. cbn [BlobEdits_default deletes updates].
  by rewrite bm_contains_empty, orb_false_r, lookup_empty.
Qed.
End Claims.

(** ** Concrete instances *)

Definition demo_rows (nm : str) : FdwResult Z :=
  if str_eqb nm "a.parquet" then Ok 70000 else Ok 5.

Definition demo_list : BlobList := [(lit "a.parquet", lit "e1"); (lit "b.parquet", lit "e2")].

Lemma demo_list_nodup : NoDup (map fst demo_list).
Proof.
  assert (bool_decide (NoDup (map fst demo_list)) = true) as H by (vm_compute; reflexivity).
  by apply bool_decide_eq_true in H.
Qed.

Definition demo_plan : ModifyPlan (A := ref_arrow) (R := ref_roaring) :=
  mkPlan (blob_chunks "a.parquet" "e1" 70000 ++ blob_chunks "b.parquet" "e2" 5) ∅ demo_schema
    [INT8OID; TEXTOID] [1%nat] demo_client Snappy false 2 0.

Definition demo_slot (base row : Z) : PlanSlot :=
  mkPlanSlot [] (fun _ => (false, Some (to_ctid (from_absolute base row)))).

Lemma ctid_resolves_witness :
  resolve_to_source demo_plan (from_ctid (to_ctid (from_absolute 0 66000))) = Ok (0, 66000) /\
  resolve_to_source demo_plan (from_ctid (to_ctid (from_absolute 2 3))) = Ok (2, 3).
Proof.
  split.
  - apply (ctid_resolves demo_rows demo_plan demo_list 0 (lit "a.parquet") (lit "e1") 70000 66000);
      try (vm_compute; reflexivity); try lia; [|vm_compute; discriminate].
    apply demo_list_nodup.
  - apply (ctid_resolves demo_rows demo_plan demo_list 1 (lit "b.parquet") (lit "e2") 5 3);
      try (vm_compute; reflexivity); try lia; [|vm_compute; discriminate].
    apply demo_list_nodup.
Defined.

Definition demo_callbacks : list Callback :=
  [CbUpdate [(DWord 1, false); (DText "x", false)] (demo_slot 0 66000); CbDelete (demo_slot 2 3)].

Lemma demo_tids : Forall (tid_machine ∘ cb_slot) demo_callbacks.
Proof.
  assert (forall base row, is_u32 base -> 0 <= row -> tid_machine (demo_slot base row)) as Hd.
  { intros base row Hb Hr attno isnull ip [= <- <-]. by apply to_ctid_wf, from_absolute_wf. }
  unfold demo_callbacks. apply Forall_cons_2; [|apply Forall_cons_2; [|constructor]];
    apply Hd; unfold is_u32, u32_max; lia.
Qed.

Lemma callbacks_plan_wf_witness :
  exists plan', foldM run_callback demo_plan demo_callbacks = Ok plan' /\
    plan_addressed demo_rows demo_list plan' /\ plan_wf plan'.
Proof.
  assert (is_ok (foldM run_callback demo_plan demo_callbacks) = true) as Hok by (vm_compute; reflexivity).
  destruct (foldM run_callback demo_plan demo_callbacks) as [p|] eqn:E; [|discriminate Hok]. clear Hok.
  exists p. split; [reflexivity|].
  destruct (callbacks_plan_wf demo_rows demo_list demo_plan demo_callbacks p) as (Ha & Hw & _);
    [vm_compute; reflexivity|apply demo_list_nodup|vm_compute; discriminate|reflexivity|apply demo_tids|exact E|].
  split; [exact Ha|exact Hw].
Defined.

Lemma callbacks_edit_budget_witness :
  exists plan', foldM run_callback demo_plan demo_callbacks = Ok plan' /\ edit_count plan' = 2.
Proof.
  assert (is_ok (foldM run_callback demo_plan demo_callbacks) = true) as Hok by (vm_compute; reflexivity).
  destruct (foldM run_callback demo_plan demo_callbacks) as [p|] eqn:E; [|discriminate Hok]. clear Hok.
  exists p. split; [reflexivity|]. exact (proj1 (callbacks_edit_budget demo_plan demo_callbacks p eq_refl E)).
Defined.

Lemma recorded_edits_exact_witness :
  exists plan', foldM record_edit demo_plan [EDelete (mkRowId 1 7); EDelete (mkRowId 2 3)] = Ok plan' /\
    bm_contains (deletes (edits_at plan' 0)) 65543 = true.
Proof.
  assert (is_ok (foldM record_edit demo_plan [EDelete (mkRowId 1 7); EDelete (mkRowId 2 3)]) = true) as Hok
    by (vm_compute; reflexivity).
  destruct (foldM record_edit demo_plan [EDelete (mkRowId 1 7); EDelete (mkRowId 2 3)]) as [p|] eqn:E;
    [|discriminate Hok]. clear Hok.
  exists p. split; [reflexivity|].
  rewrite (proj1 (recorded_edits_exact demo_plan [EDelete (mkRowId 1 7); EDelete (mkRowId 2 3)] p 0 65543 eq_refl E)).
  vm_compute. reflexivity.
Defined.
