(* ===== verification/CommitFacts.v ===== *)
(** * Correctness of the two-phase commit ([commit_plan] in [update.rs]).

    Section [Requests]: against any service whatever, which requests the
    commit sends and in which order.  Section [Rewriting]: one blob's body is
    re-encoded exactly as the kernel's specification says.  Section
    [Sequential]: against a service that keeps its laws, the whole commit,
    and what is left after a failure and the abort sweep. *)

From S2P Require Import Prelude RustStr Redact Errors RowId Options Externals Kernel Convert BlobService Store Handoff Coordinator ParquetIO Modify.
Local Open Scope Z_scope.

Lemma ok_or_Ok {E T} (o : option T) (e : E) a : o = Some a -> ok_or o e = Ok a.
Proof. by intros ->. Qed.

Section Requests.
Context {Y : BytesApi} {B : BlobApi} {A : ArrowApi} {R : RoaringApi} {Q : ParquetApi} {U : UuidApi}.
Abbreviation LW := (World (logged B)).

Definition w_log (w : LW) : list Request := snd (w_svc w).

(** [m] only adds requests satisfying [Pr] to the log, and its results
    satisfy [Post]. *)
Definition sends {T} (Pr : Request -> Prop) (Post : T -> Prop) (m : SM LW T) : Prop :=
  forall w w' r, m w = (w', r) ->
    (exists new, w_log w' = w_log w ++ new /\ Forall Pr new) /\ (forall a, r = Ok a -> Post a).

Lemma sends_ret {T} Pr (Post : T -> Prop) a : Post a -> sends Pr Post (mret a : SM LW T).
Proof.
  intros Ha w w' r [= <- <-]. split; [exists []; by rewrite app_nil_r|]. intros ? [= <-]. done.
Qed.

Lemma sends_lift {T} Pr (Post : T -> Prop) (x : FdwResult T) :
  (forall a, x = Ok a -> Post a) -> sends Pr Post (lift x : SM LW T).
Proof. intros Hx w w' r [= <- <-]. split; [exists []; by rewrite app_nil_r|done]. Qed.

Lemma sends_bind {S T} Pr (Post1 : S -> Prop) (Post : T -> Prop) (m : SM LW S) (f : S -> SM LW T) :
  sends Pr Post1 m -> (forall a, Post1 a -> sends Pr Post (f a)) -> sends Pr Post (m ≫= f).
Proof.
  intros Hm Hf w w' r H. destruct (sm_bind_cases m f w) as [(w1 & e & H1 & H2)|(w1 & a & H1 & H2)].
  - rewrite H2 in H. injection H as <- <-. destruct (Hm _ _ _ H1) as [Hl _]. split; [done|]. by intros ? [=].
  - rewrite H2 in H. destruct (Hm _ _ _ H1) as [(n1 & E1 & F1) Hp].
    destruct (Hf a (Hp a eq_refl) _ _ _ H) as [(n2 & E2 & F2) Hp2]. split; [|done].
    exists (n1 ++ n2). rewrite E2, E1, <- (assoc_L (++)). split; [done|]. by apply Forall_app.
Qed.

Lemma sends_weaken {T} (Pr Pr' : Request -> Prop) (Post Post' : T -> Prop) m :
  (forall r, Pr r -> Pr' r) -> (forall a, Post a -> Post' a) -> sends Pr Post m -> sends Pr' Post' m.
Proof.
  intros H1 H2 Hm w w' r H. destruct (Hm _ _ _ H) as [(n & E & F) Hp]. split; [|eauto].
  exists n. split; [done|]. by eapply Forall_impl.
Qed.

(** Client calls, by the request they send. *)
Lemma sends_get Pr nm et : sends Pr (fun _ => True) (on_svc (get_body_if_match nm et) : SM LW _).
Proof.
  intros w w' r H. split; [|done]. exists []. rewrite app_nil_r. split; [|constructor].
  unfold on_svc, get_body_if_match, mbind, sm_bind, mret, sm_ret, call, lift in H. cbn in H.
  repeat case_match; simplify_eq/=; done.
Qed.

Lemma sends_upload {T} (Pr : Request -> Prop) nm body c (f : SdkError -> FdwError) (k : option str -> FdwResult T) :
  Pr (ReqUpload nm body c) ->
  sends Pr (fun _ => True)
    (on_svc (_ ← lift (check_upload_size nm body); resp ← call (sdk_upload nm body c) f; lift (k resp)) : SM LW T).
Proof.
  intros HP w w' r H. split; [|done].
  unfold on_svc, mbind, sm_bind, call, lift in H. cbn in H.
  destruct (check_upload_size nm body); cbn in H; [|simplify_eq; exists []; by rewrite app_nil_r].
  destruct (sdk_upload nm body c (fst (w_svc w))) as [s' [d|er]]; cbn in H; simplify_eq;
    (exists [ReqUpload nm body c]; split; [done|]; repeat constructor; done).
Qed.

Lemma sends_delete_if_match (Pr : Request -> Prop) nm et :
  Pr (ReqDelete nm (mkCond (Some et) None)) ->
  sends Pr (fun _ => True) (on_svc (delete_if_match nm et) : SM LW _).
Proof.
  intros HP w w' r H. split; [|done]. unfold on_svc, delete_if_match, call in H. cbn in H.
  destruct (sdk_delete nm (mkCond (Some et) None) (fst (w_svc w))) as [s' d]; cbn in H. simplify_eq.
  exists [ReqDelete nm (mkCond (Some et) None)]. split; [done|]. by repeat constructor.
Qed.

Lemma with_active_log f (w : LW) : w_log (with_active f w) = w_log w.
Proof. unfold with_active. by destruct (w_active w). Qed.

Lemma sends_drop (Pr : Request -> Prop) nm :
  Pr (ReqDelete nm no_cond) -> sends Pr (fun _ => True) (drop_staging nm : SM LW unit).
Proof.
  intros HP w w' r H. split; [|done]. unfold drop_staging, on_svc, delete_unconditional in H. cbn in H.
  destruct (sdk_delete nm no_cond (fst (w_svc w))) as [s' d]; cbn in H.
  injection H as <- <-. exists [ReqDelete nm no_cond]. rewrite with_active_log.
  split; [done|]. by repeat constructor.
Qed.

(** The requests of phase 1 create staging blobs only. *)
Definition stage_request (r : Request) : Prop :=
  exists nm body, r = ReqUpload nm body (mkCond None (Some (lit "*"))) /\ is_staging_name nm = true.

(** The requests of phase 2 replace or delete a blob of the plan under the
    etag its scan saw, or remove a staging blob. *)
Definition swap_request (plan : ModifyPlan) (r : Request) : Prop :=
  (exists k entry body, blob_table plan !! Z.to_nat k = Some entry /\ is_Some (edits plan !! k) /\
     (r = ReqUpload (name entry) body (mkCond (Some (etag entry)) None) \/
      r = ReqDelete (name entry) (mkCond (Some (etag entry)) None))) \/
  (exists nm, r = ReqDelete nm no_cond /\ is_staging_name nm = true).

(** What phase 1 hands to phase 2 for one blob. *)
Definition staged_for (plan : ModifyPlan) (s : Staged) : Prop :=
  exists k entry, blob_table plan !! Z.to_nat k = Some entry /\ is_Some (edits plan !! k) /\
    original_name s = name entry /\ scan_etag s = etag entry /\
    (empty_delete s = false -> is_staging_name (staging_name s) = true).

Lemma sends_new_staging Pr nm :
  sends Pr (fun s => is_staging_name s = true) (new_staging_name nm : SM LW str).
Proof.
  intros w w' r H. unfold new_staging_name in H. injection H as <- <-. split.
  - exists []. rewrite with_active_log, app_nil_r. done.
  - intros a [= <-]. apply make_staging_name_staging.
Qed.

Lemma sends_stage_result plan k entry staged res :
  blob_table plan !! Z.to_nat k = Some entry -> is_Some (edits plan !! k) ->
  Forall (staged_for plan) staged ->
  sends stage_request (fun st => Forall (staged_for plan) st /\ length st = S (length staged))
    (stage_result (name entry) (etag entry) staged res : SM LW _).
Proof.
  intros Hk He Hst. destruct res as [bytes|]; cbn [stage_result].
  - eapply sends_bind; [apply sends_new_staging|]. intros sname Hs.
    eapply sends_bind; [apply sends_upload; by exists sname, bytes|]. intros et _. apply sends_ret.
    rewrite length_app. simpl. split; [|lia]. apply Forall_app. split; [done|]. constructor; [|constructor].
    by exists k, entry.
  - apply sends_ret. rewrite length_app. simpl. split; [|lia]. apply Forall_app. split; [done|].
    constructor; [|constructor]. by exists k, entry.
Qed.

Lemma sends_stage_blob plan staged k :
  Forall (staged_for plan) staged ->
  sends stage_request (fun st => Forall (staged_for plan) st /\ length st = S (length staged))
    (stage_blob plan staged k : SM LW _).
Proof.
  intros Hst. unfold stage_blob.
  eapply (sends_bind _ (fun entry => blob_table plan !! Z.to_nat k = Some entry)).
  { apply sends_lift. intros a Ha. by apply ok_or_Ok_inv in Ha. }
  intros entry Hk. eapply (sends_bind _ (fun e => edits plan !! k = Some e)).
  { apply sends_lift. intros a Ha. by apply ok_or_Ok_inv in Ha. }
  intros e He. eapply sends_bind; [apply sends_get|]. intros body _.
  eapply (sends_bind _ (fun _ => True)); [by apply sends_lift|]. intros res _.
  apply (sends_stage_result plan k); eauto.
Qed.

Lemma sends_stage_all plan keys staged :
  Forall (staged_for plan) staged ->
  sends stage_request (fun st => Forall (staged_for plan) st /\ length st = (length keys + length staged)%nat)
    (sm_fold (stage_blob plan) staged keys : SM LW _).
Proof.
  revert staged. induction keys as [|k keys IH]; intros staged Hst; cbn [sm_fold].
  - by apply sends_ret.
  - eapply sends_bind; [by apply sends_stage_blob|]. intros st [Hst' Hlen].
    eapply sends_weaken; [done| |by apply IH]. simpl. intros a [? ?]. split; [done|]. lia.
Qed.

Lemma sends_swap plan s : staged_for plan s -> sends (swap_request plan) (fun _ => True) (swap_blob s : SM LW unit).
Proof.
  intros (k & entry & Hk & He & Hn & Het & Hstg). unfold swap_blob. rewrite Hn, Het.
  destruct (empty_delete s) eqn:Ed.
  - apply sends_delete_if_match. left. exists k, entry, (new_bytes_for_swap s). auto.
  - eapply sends_bind; [apply sends_upload|].
    + left. exists k, entry, (new_bytes_for_swap s). auto.
    + intros _ _. apply sends_drop. right. exists (staging_name s). auto.
Qed.

Lemma sends_swaps plan st :
  Forall (staged_for plan) st -> sends (swap_request plan) (fun _ => True) (sm_iter swap_blob st : SM LW unit).
Proof.
  induction 1 as [|s st Hs _ IH]; cbn [sm_iter]; [by apply sends_ret|].
  eapply sends_bind; [by apply sends_swap|]. done.
Qed.

(** C22: whatever the service answers and whoever else writes to it, a commit
    first only creates staging blobs (create-only), and touches a data blob
    only after every touched blob was staged, and then only under
    [If-Match] with the etag its scan saw; the one unconditional request is
    the removal of a staging blob. *)
Theorem commit_plan_requests plan (w : LW) :
  let '(w', r) := commit_plan plan w in
  exists st sw, w_log w' = w_log w ++ st ++ sw /\
    Forall stage_request st /\ Forall (swap_request plan) sw /\
    (sw <> [] -> exists w1 staged, stage_all plan w = (w1, Ok staged) /\
       length staged = length (dirty_keys plan)).
Proof.
  destruct (commit_plan plan w) as [w' r] eqn:H. unfold commit_plan in H.
  pose proof (sends_stage_all plan (dirty_keys plan) [] (Forall_nil_2 _)) as Hstage. fold (stage_all plan) in Hstage.
  destruct (sm_bind_cases (stage_all plan) (fun staged => sm_iter swap_blob staged) w) as [(w1 & e & H1 & H2)|(w1 & staged & H1 & H2)].
  - rewrite H2 in H. injection H as <- <-. destruct (Hstage _ _ _ H1) as [(st & E & F) _].
    exists st, []. rewrite app_nil_r. by repeat split.
  - rewrite H2 in H. destruct (Hstage _ _ _ H1) as [(st & E & F) Hp].
    destruct (Hp staged eq_refl) as [Hst Hlen]. rewrite Nat.add_0_r in Hlen.
    destruct (sends_swaps plan staged Hst _ _ _ H) as [(sw & E2 & F2) _].
    exists st, sw. rewrite E2, E, <- (assoc_L (++)). repeat split; eauto.
Qed.
End Requests.

Section Rewriting.
Context {Y : BytesApi} {A : ArrowApi} {AL : ArrowLaws A} {R : RoaringApi} {RL : RoaringLaws R}
  {Q : ParquetApi} {QL : ParquetLaws Q}.

Definition total_memory (bs : list RecordBatch) : Z := foldr (fun b z => get_array_memory_size b + z) 0 bs.

Lemma total_memory_nonneg bs : 0 <= total_memory bs.
Proof. induction bs as [|b bs IH]; simpl; [lia|]. pose proof (memory_nonneg b). lia. Qed.

(** [outs] are batches of the schema that hold the rows of the batches [ins]
    after the edits, starting at row [off]. *)
Definition rows_rewritten (e : BlobEdits) (off : Z) (schema : Schema) (ins outs : list RecordBatch) : Prop :=
  Forall (fun b => conforms schema (batch_columns b) (num_rows b)) outs /\
  total_rows outs = length (List.filter id (keep_mask e off (total_rows ins))) /\
  forall i, (i < length schema)%nat -> blob_column i outs =
    mask_filter (keep_mask e off (total_rows ins)) (rewrite_cells e i off (blob_column i ins)).

(** A batch without rows adds nothing to any column. *)
Lemma empty_batch_column (b : RecordBatch) i : num_rows b = O -> col_cells i b = [].
Proof.
  intros H. destruct (batch_columns b !! i) as [c|] eqn:E; [|by apply col_cells_none].
  apply nil_length_inv. by rewrite (col_cells_length i b c E).
Qed.

(** The streaming loop: it consumes all batches and the writer holds the
    rewritten rows. *)
Lemma rewrite_loop_ok blob schema codec e ins w written off dec tot :
  0 <= off -> off + Z.of_nat (total_rows ins) <= u32_max ->
  0 <= dec -> dec + total_memory ins <= MAX_BLOB_BYTES ->
  Forall (fun b => conforms schema (batch_columns b) (num_rows b)) ins -> overrides_ok schema e ->
  writer_holds w schema codec written ->
  exists w' outs,
    foldM (rewrite_batch blob schema e) (mkRewrite w off dec tot) (map Ok ins) =
      Ok (mkRewrite w' (off + Z.of_nat (total_rows ins)) (dec + total_memory ins) (tot + Z.of_nat (total_rows outs))) /\
    writer_holds w' schema codec (written ++ outs) /\ rows_rewritten e off schema ins outs.
Proof.
  intros Hoff Hmax Hdec Hmem HF Hov. revert w written off dec tot Hoff Hmax Hdec Hmem.
  induction HF as [|b ins Hb _ IH]; intros w written off dec tot Hoff Hmax Hdec Hmem Hw.
  - exists w, []. simpl. rewrite app_nil_r, !Z.add_0_r. split; [done|]. split; [done|]. split; [constructor|]. split; [done|].
    intros i _. done.
  - rewrite total_rows_cons in *. cbn [total_memory foldr] in Hmem. fold (total_memory ins) in Hmem.
    pose proof (memory_nonneg b) as Hm. pose proof (total_memory_nonneg ins) as Hm2.
    destruct (apply_edits_batch_ok e off schema b) as (out & Hout & (_ & Hrows & Hcols) & Hconf); [lia|lia|done|done|].
    assert (exists w1 new, rewrite_batch blob schema e (mkRewrite w off dec tot) (Ok b) =
        Ok (mkRewrite w1 (off + Z.of_nat (num_rows b)) (dec + get_array_memory_size b) (tot + Z.of_nat (num_rows out))) /\
      writer_holds w1 schema codec (written ++ new) /\ total_rows new = num_rows out /\
      Forall (fun b => conforms schema (batch_columns b) (num_rows b)) new /\
      forall i, blob_column i new = col_cells i out) as (w1 & new & Hstep & Hw1 & Hnew & Hnconf & Hncol).
    { unfold rewrite_batch. cbn [map_err mbind result_bind rw_decoded rw_offset rw_writer rw_total].
      assert (saturating_add_u64 dec (get_array_memory_size b) = dec + get_array_memory_size b) as ->.
      { unfold MAX_BLOB_BYTES in *. int_lia. }
      destruct (Z.ltb_spec MAX_BLOB_BYTES (dec + get_array_memory_size b)); [lia|].
      rewrite Hout. cbn [mbind result_bind]. destruct (Nat.ltb_spec 0 (num_rows out)) as [Hpos|Hzero].
      - destruct (write_holds w schema codec written out Hw Hconf) as (w1 & Hwr & Hw1).
        unfold writer_write. rewrite Hwr. cbn [map_err mbind result_bind].
        exists w1, [out]. split; [done|]. split; [done|]. split; [unfold total_rows; simpl; lia|]. split; [by constructor|].
        intros i. unfold blob_column. simpl. by rewrite app_nil_r.
      - exists w, []. cbn [mbind result_bind]. rewrite app_nil_r. split; [done|]. split; [done|].
        split; [unfold total_rows; simpl; lia|]. split; [constructor|]. intros i. rewrite empty_batch_column by lia. done. }
    destruct (IH w1 (written ++ new) (off + Z.of_nat (num_rows b)) (dec + get_array_memory_size b)
                (tot + Z.of_nat (num_rows out))) as (w' & outs & Hloop & Hw' & Hoconf & Htot & Hcol); [lia..|done|].
    exists w', (new ++ outs). cbn [map foldM]. rewrite Hstep. cbn [mbind result_bind]. rewrite Hloop.
    split.
    { do 2 f_equal; [lia|cbn [total_memory foldr]; fold (total_memory ins); lia|].
      rewrite total_rows_app, Hnew. lia. }
    rewrite <- (assoc_L (++)) in Hw'. split; [done|]. unfold rows_rewritten. rewrite total_rows_cons. split; [by apply Forall_app|]. split.
    + rewrite total_rows_app, Hnew, Hrows, Htot, keep_mask_app, List.filter_app, length_app. done.
    + intros i Hi. rewrite blob_column_app, Hncol, Hcols, Hcol, blob_column_cons, keep_mask_app, rewrite_cells_app by done.
      rewrite (conforms_column schema b i (num_rows b)) by done.
      rewrite mask_filter_app; [done|]. rewrite keep_mask_length, rewrite_cells_length. by erewrite conforms_column.
Qed.

(** A body that can be rewritten: it decodes, fits the schema and the caps,
    and the edits name existing rows. *)
Definition rewritable (schema : Schema) (e : BlobEdits) (body : Bytes) (codec : option PqCompression)
    (ins : list RecordBatch) : Prop :=
  decodes body codec ins /\ Forall (fun b => conforms schema (batch_columns b) (num_rows b)) ins /\
  Z.of_nat (total_rows ins) <= u32_max /\ total_memory ins <= MAX_BLOB_BYTES /\ overrides_ok schema e /\
  (forall k, is_Some (updates e !! k) -> k < Z.of_nat (total_rows ins)).

(** The rows that survive. *)
Definition surviving (e : BlobEdits) (ins : list RecordBatch) : nat :=
  length (List.filter id (keep_mask e 0 (total_rows ins))).

Lemma check_update_keys_ok blob e n :
  (forall k, is_Some (updates e !! k) -> k < n) -> check_update_keys blob e n = Ok tt.
Proof.
  intros H. unfold check_update_keys. destruct (find _ _) as [k|] eqn:E; [|done]. exfalso.
  apply find_some in E as [Hin Hk]. apply list_elem_of_In, list_elem_of_fmap in Hin as ([k' o] & -> & Ho).
  apply elem_of_map_to_list in Ho. simpl in Hk. specialize (H k' (mk_is_Some _ _ Ho)). lia.
Qed.

(** The codec a rewrite uses: the source's, or the table's for a file
    without row groups. *)
Definition rewrite_codec (plan : ModifyPlan) (codec : option PqCompression) : PqCompression :=
  to_pq gzip_default_level zstd_default_level
    (match codec with Some c => from_parquet c | None => plan_compression plan end).

Lemma rewrite_body_ok plan blob e body codec ins :
  rewritable (plan_schema plan) e body codec ins ->
  (surviving e ins = O /\ rewrite_body plan blob e body = Ok None) \/
  ((0 < surviving e ins)%nat /\ exists bytes outs, rewrite_body plan blob e body = Ok (Some bytes) /\
     (exists w, arrow_writer_into_inner w = Ok bytes) /\
     decodes bytes (Some (rewrite_codec plan codec)) outs /\
     rows_rewritten e 0 (plan_schema plan) ins outs).
Proof.
  intros (Hdec & HF & Hmax & Hmem & Hov & Hkeys). destruct Hdec as (f & Hopen & Hbuild & Hcodec).
  unfold rewrite_body. rewrite Hopen. cbn [map_err mbind result_bind]. rewrite Hbuild, Hcodec. cbn [map_err mbind result_bind].
  destruct (try_new_holds (plan_schema plan) (rewrite_codec plan codec)) as (w & Hw & Hh).
  unfold writer_new. fold (rewrite_codec plan codec). rewrite Hw. cbn [map_err mbind result_bind].
  destruct (rewrite_loop_ok blob (plan_schema plan) (rewrite_codec plan codec) e ins w [] 0 0 0)
    as (w' & outs & Hloop & Hw' & _ & Hrows & Hcols); [lia..|done|done|done|].
  rewrite Hloop. cbn [mbind result_bind rw_offset rw_total rw_writer].
  rewrite check_update_keys_ok by (intros k Hk; specialize (Hkeys k Hk); lia). cbn [mbind result_bind].
  rewrite !Z.add_0_l. fold (surviving e ins) in Hrows.
  destruct (Z.eqb_spec (Z.of_nat (total_rows outs)) 0) as [Hz|Hnz].
  - left. split; [lia|done].
  - right. split; [lia|]. cbn [app] in Hw'.
    destruct (into_inner_holds w' _ _ outs Hw') as (bytes & outs' & Hfin & Hd & Hconf & Hsame); [lia|].
    exists bytes, outs'. unfold writer_finish. rewrite Hfin. cbn [map_err mbind result_bind].
    split; [done|]. split; [eauto|]. split; [done|]. destruct Hsame as [Ht Hc]. split; [done|]. split.
    + rewrite <- Ht. done.
    + intros i Hi. rewrite <- Hc by done. by apply Hcols.
Qed.

(** Rewriting one blob yields a file that decodes to the surviving rows of
    the source, in order, with the overrides applied, in the source's codec;
    nothing is written exactly when no row survives. *)
Theorem rewrite_body_spec plan blob e body codec ins :
  rewritable (plan_schema plan) e body codec ins ->
  match rewrite_body plan blob e body with
  | Ok None => surviving e ins = O
  | Ok (Some bytes) => (0 < surviving e ins)%nat /\ exists outs,
      decodes bytes (Some (rewrite_codec plan codec)) outs /\
      rows_rewritten e 0 (plan_schema plan) ins outs
  | Err _ => False
  end.
Proof.
  intros H. destruct (rewrite_body_ok plan blob e body codec ins H) as [[Hz ->]|(Hp & bytes & outs & -> & _ & Hd & Hr)].
  - done.
  - eauto.
Qed.
End Rewriting.

Section Sequential.
Context {Y : BytesApi} {B : BlobApi} {L : BlobLaws B} {A : ArrowApi} {R : RoaringApi} {Q : ParquetApi} {U : UuidApi}.

Abbreviation cont w := (blobs (w_svc w)).

(** ** A failed phase 1 followed by the abort sweep leaves no trace *)

Definition flight (w : World B) : gset str :=
  match w_active w with Some a => in_flight (active_coord a) | None => ∅ end.

(** Since the start of the commit, only names in flight were written, and
    none of them existed. *)
Definition only_staging (c0 : Container) (w : World B) : Prop :=
  is_Some (w_active w) /\ (forall k, k ∉ flight w -> cont w !! k = c0 !! k) /\
  (forall k, k ∈ flight w -> c0 !! k = None /\ is_staging_name k = true).

Lemma get_body_frame nm et s s' r :
  get_body_if_match nm et s = (s', r) -> blobs s' = blobs s.
Proof.
  intros H. unfold get_body_if_match, mbind, sm_bind, mret, sm_ret, call, lift in H.
  destruct (download_law nm (mkCond (Some et) None) s) as (s1 & r1 & Hd & Hs & _). rewrite Hd in H.
  repeat case_match; simplify_eq/=; done.
Qed.

Lemma put_if_none_match_frame nm body s s' r k :
  put_if_none_match nm body s = (s', r) -> k <> nm -> blobs s' !! k = blobs s !! k.
Proof.
  intros H Hk. unfold put_if_none_match, mbind, sm_bind, call, lift in H.
  destruct (check_upload_size nm body); [|by simplify_eq/=].
  set (c := mkCond None (Some (lit "*"))) in *.
  destruct (decide (blobs s !! nm = None)) as [Hn|Hn].
  - destruct (upload_law nm body c s) as (s1 & e & Hu & Hs & _).
    { split; [done|]. intros ? [= <-]. done. }
    rewrite Hu in H. simplify_eq/=. rewrite Hs. by rewrite lookup_insert_ne.
  - destruct (upload_fails nm body c s) as (s1 & er & Hu & Hs & _).
    { intros [_ Hc]. destruct (Hc (lit "*") eq_refl). done. }
    rewrite Hu in H. simplify_eq/=. by rewrite Hs.
Qed.

Lemma with_active_svc f (w : World B) : w_svc (with_active f w) = w_svc w.
Proof. unfold with_active. by destruct (w_active w). Qed.

Lemma flight_register s (w : World B) :
  is_Some (w_active w) -> flight (with_active (register_staging s) w) = {[s]} ∪ flight w.
Proof. intros [a Ha]. unfold flight, with_active. rewrite Ha. done. Qed.

Lemma on_svc_frame {T} (m : SM Svc T) (w w' : World B) r :
  on_svc m w = (w', r) -> m (w_svc w) = (w_svc w', r) /\ w_active w' = w_active w /\
    w_uuids w' = w_uuids w /\ w_notices w' = w_notices w.
Proof. unfold on_svc. destruct (m (w_svc w)) as [s r'] eqn:E. intros [= <- <-]. done. Qed.

(** Staging names are unused in the container. *)
Definition staging_unused (plan : ModifyPlan) (c0 : Container) : Prop :=
  forall i e, e ∈ blob_table plan -> c0 !! make_staging_name (uuid_simple i) (name e) = None.

(** From a state satisfying [Pre], [m] ends in one satisfying [Inv], and with
    its result in [Post] when it succeeds. *)
Definition triple {T} (Pre : World B -> Prop) (m : SM (World B) T) (Post : T -> World B -> Prop)
    (Inv : World B -> Prop) : Prop :=
  forall w w' r, Pre w -> m w = (w', r) -> Inv w' /\ (forall a, r = Ok a -> Post a w').

Lemma triple_bind {S T} Pre Post1 Post Inv (m : SM (World B) S) (f : S -> SM (World B) T) :
  triple Pre m Post1 Inv -> (forall a, triple (Post1 a) (f a) Post Inv) -> triple Pre (m ≫= f) Post Inv.
Proof.
  intros Hm Hf w w' r Hpre H. destruct (sm_bind_cases m f w) as [(w1 & e & H1 & H2)|(w1 & a & H1 & H2)];
    rewrite H2 in H; destruct (Hm _ _ _ Hpre H1) as [Hi Hp].
  - injection H as <- <-. split; [done|]. by intros ? [=].
  - eapply Hf; eauto.
Qed.

Lemma triple_bind_lift {S T} (Inv : World B -> Prop) Post (x : FdwResult S) (f : S -> SM (World B) T) :
  (forall a, x = Ok a -> triple Inv (f a) Post Inv) -> triple Inv (lift x ≫= f) Post Inv.
Proof.
  intros Hf w w' r Hi H. destruct x as [a|e]; [by eapply Hf|].
  injection H as <- <-. split; [done|]. by intros ? [=].
Qed.

Lemma triple_ret {T} (Inv : World B -> Prop) (a : T) : triple Inv (mret a) (fun _ w => Inv w) Inv.
Proof. intros w w' r Hi [= <- <-]. done. Qed.

Lemma triple_fold {S T} (Inv : World B -> Prop) (f : T -> S -> SM (World B) T) b l :
  (forall b x, x ∈ l -> triple Inv (f b x) (fun _ w => Inv w) Inv) ->
  triple Inv (sm_fold f b l) (fun _ w => Inv w) Inv.
Proof.
  revert b. induction l as [|x l IH]; intros b Hf; cbn [sm_fold]; [apply triple_ret|].
  eapply triple_bind; [apply Hf; left|]. intros b'. apply IH. intros. apply Hf. by right.
Qed.

Lemma only_staging_ext c0 (w w' : World B) :
  cont w' = cont w -> w_active w' = w_active w -> only_staging c0 w -> only_staging c0 w'.
Proof. intros Hc Ha. unfold only_staging, flight. by rewrite Ha, Hc. Qed.

(** Drawing and registering a staging name. *)
Lemma new_staging_name_ok plan c0 e :
  staging_unused plan c0 -> e ∈ blob_table plan ->
  triple (only_staging c0) (new_staging_name (name e)) (fun sn w => only_staging c0 w /\ sn ∈ flight w) (only_staging c0).
Proof.
  intros Hun He w w' r (Ha & Hout & Hin) H. injection H as <- <-.
  set (sn := make_staging_name _ _). set (w0 := mkWorld _ _ _ _).
  assert (flight (with_active (register_staging sn) w0) = {[sn]} ∪ flight w) as Hf.
  { change (flight w) with (flight w0). by apply flight_register. }
  assert (only_staging c0 (with_active (register_staging sn) w0)) as Ho.
  { split; [destruct Ha as [a Ha]; unfold with_active; cbn [w0 w_active]; by rewrite Ha|].
    rewrite Hf, with_active_svc. cbn [w0 w_svc]. split.
    - intros k Hk. apply Hout. set_solver.
    - intros k Hk. apply elem_of_union in Hk as [->%elem_of_singleton|Hk]; [|by apply Hin].
      split; [by apply Hun|apply make_staging_name_staging]. }
  split; [done|]. intros a [= <-]. split; [done|]. rewrite Hf. set_solver.
Qed.

Lemma stage_put_ok c0 sn bytes :
  triple (fun w => only_staging c0 w /\ sn ∈ flight w) (on_svc (put_if_none_match sn bytes))
    (fun _ w => only_staging c0 w) (only_staging c0).
Proof.
  intros w w' r [(Ha & Hout & Hin) Hsn] H. apply on_svc_frame in H as (H & Hact & _).
  enough (only_staging c0 w') by done. unfold only_staging, flight. rewrite Hact. split; [done|].
  split; [|done]. intros k Hk. rewrite (put_if_none_match_frame _ _ _ _ _ k H); [by apply Hout|].
  intros ->. by destruct Hk.
Qed.

Lemma stage_blob_only_staging plan c0 staged k :
  staging_unused plan c0 ->
  triple (only_staging c0) (stage_blob plan staged k) (fun _ w => only_staging c0 w) (only_staging c0).
Proof.
  intros Hun. unfold stage_blob. apply triple_bind_lift. intros e He.
  apply ok_or_Ok_inv, list_elem_of_lookup_2 in He. apply triple_bind_lift. intros ed _.
  eapply (triple_bind _ (fun _ => only_staging c0)).
  { intros w w' r Hi H. apply on_svc_frame in H as (H & Hact & _). apply get_body_frame in H.
    assert (only_staging c0 w') by by eapply only_staging_ext. done. }
  intros body. apply triple_bind_lift. intros [bytes|] _; cbn [stage_result]; [|apply triple_ret].
  eapply triple_bind; [by eapply new_staging_name_ok|]. intros sn. cbn beta.
  eapply triple_bind; [apply stage_put_ok|]. intros et. apply triple_ret.
Qed.

Lemma stage_all_only_staging plan (w : World B) a :
  w_active w = Some a -> in_flight (active_coord a) = ∅ -> staging_unused plan (cont w) ->
  only_staging (cont w) w /\
  triple (only_staging (cont w)) (stage_all plan) (fun _ => only_staging (cont w)) (only_staging (cont w)).
Proof.
  intros Ha Hempty Hun. split.
  - unfold only_staging, flight. rewrite Ha, Hempty. split; [done|]. split; [done|]. set_solver.
  - apply triple_fold. intros. by apply stage_blob_only_staging.
Qed.

Lemma abort_restores c0 (w : World B) : only_staging c0 w -> cont (xact_cb XACT_EVENT_ABORT w) = c0.
Proof.
  intros ([a Ha] & Hout & Hin). apply map_eq. intros k. unfold flight in *. rewrite Ha in *.
  rewrite (xact_abort_spec w a k Ha). case_bool_decide as Hk; [|by apply Hout].
  symmetry. by apply Hin.
Qed.

(** When phase 1 of a commit fails (for whatever reason: a changed blob,
    a decode error, a size cap), the abort sweep restores the container
    exactly; no data blob was ever touched. *)
Theorem failed_stage_leaves_no_trace plan (w w' : World B) a e :
  w_active w = Some a -> in_flight (active_coord a) = ∅ -> staging_unused plan (cont w) ->
  stage_all plan w = (w', Err e) ->
  commit_plan plan w = (w', Err e) /\ cont (xact_cb XACT_EVENT_ABORT w') = cont w.
Proof.
  intros Ha Hempty Hun H. split; [unfold commit_plan; by apply sm_bind_Err|].
  destruct (stage_all_only_staging plan w a Ha Hempty Hun) as [H0 Ht].
  apply abort_restores. by destruct (Ht _ _ _ H0 H).
Qed.

(** A touched blob that no longer has the scanned version fails phase 1. *)
Lemma stage_blob_changed plan c0 st k entry :
  blob_table plan !! Z.to_nat k = Some entry -> is_staging_name (name entry) = false ->
  (forall body, c0 !! name entry <> Some (etag entry, body)) ->
  triple (only_staging c0) (stage_blob plan st k) (fun _ _ => False) (fun _ => True).
Proof.
  intros Hk Hst Hch. unfold stage_blob. intros w w' r (_ & Hout & Hin) H. split; [done|]. intros a ->.
  apply sm_bind_inv in H as (w1 & entry' & [= <- He] & H). apply ok_or_Ok_inv in He. simplify_eq.
  apply sm_bind_inv in H as (w2 & ed & [= <- _] & H).
  apply sm_bind_inv in H as (w3 & body & Hg & _).
  apply on_svc_frame in Hg as (Hg & _).
  destruct (get_body_changed (name entry) (etag entry) (w_svc w)) as (s' & reason & Hbad & _); [|congruence].
  intros b. rewrite Hout; [apply Hch|]. intros Hf. apply Hin in Hf as [_ Hf]. congruence.
Qed.

Lemma stage_fold_changed plan c0 keys k entry st (w w' : World B) r :
  staging_unused plan c0 -> k ∈ keys ->
  blob_table plan !! Z.to_nat k = Some entry -> is_staging_name (name entry) = false ->
  (forall body, c0 !! name entry <> Some (etag entry, body)) ->
  only_staging c0 w -> sm_fold (stage_blob plan) st keys w = (w', r) -> exists e, r = Err e.
Proof.
  intros Hun Hin Hk Hst Hch. revert st w. induction keys as [|k' keys IH]; intros st w Hi H; [by apply elem_of_nil in Hin|].
  cbn [sm_fold] in H.
  destruct (sm_bind_cases (stage_blob plan st k') (fun st' => sm_fold (stage_blob plan) st' keys) w)
    as [(w1 & e & H1 & H2)|(w1 & st1 & H1 & H2)].
  - exists e. congruence.
  - rewrite H2 in H. apply elem_of_cons in Hin as [<-|Hin].
    + destruct (stage_blob_changed plan c0 st k entry Hk Hst Hch w w1 (Ok st1) Hi H1) as [_ Hp]. by destruct (Hp st1).
    + eapply (IH Hin st1 w1); [|exact H]. by destruct (stage_blob_only_staging plan c0 st k' Hun _ _ _ Hi H1).
Qed.

(** C11: no lost update.  If a blob the statement touched was replaced or
    removed since its scan, the commit fails, and after the abort the
    container is exactly what it was: the other writer's version stays. *)
Theorem no_lost_update plan (w : World B) a k entry :
  w_active w = Some a -> in_flight (active_coord a) = ∅ -> staging_unused plan (cont w) ->
  k ∈ dirty_keys plan -> blob_table plan !! Z.to_nat k = Some entry -> is_staging_name (name entry) = false ->
  (forall body, cont w !! name entry <> Some (etag entry, body)) ->
  exists w' e, commit_plan plan w = (w', Err e) /\ cont (xact_cb XACT_EVENT_ABORT w') = cont w.
Proof.
  intros Ha Hempty Hun Hin Hk Hst Hch.
  destruct (stage_all_only_staging plan w a Ha Hempty Hun) as [H0 Ht].
  destruct (stage_all plan w) as [w' r] eqn:H.
  destruct (stage_fold_changed plan (cont w) (dirty_keys plan) k entry [] w w' r) as [e ->]; [done..|].
  exists w', e. split; [unfold commit_plan; by apply sm_bind_Err|].
  apply abort_restores. by destruct (Ht _ _ _ H0 H).
Qed.
End Sequential.

(** ** A commit against the versions its scan saw *)

Section Commit.
Context {Y : BytesApi} {B : BlobApi} {L : BlobLaws B} {A : ArrowApi} {R : RoaringApi} {Q : ParquetApi}
  {U : UuidApi} {UL : UuidLaws U}.

Abbreviation cont w := (blobs (w_svc w)).

(** What phase 1 computes for one touched blob: the new body, if a row is left. *)
Record Job := mkJob { job_entry : BlobIdEntry; job_body : Bytes; job_res : option Bytes }.

(** The container still holds the version the scan saw, its body can be
    rewritten, and the result is within the upload cap. *)
Definition job_ok (plan : ModifyPlan) (c0 : Container) (k : Z) (j : Job) : Prop :=
  blob_table plan !! Z.to_nat k = Some (job_entry j) /\
  c0 !! name (job_entry j) = Some (etag (job_entry j), job_body j) /\
  bytes_len (job_body j) <= MAX_BLOB_BYTES /\
  (exists e, edits plan !! k = Some e /\ rewrite_body plan (name (job_entry j)) e (job_body j) = Ok (job_res j)) /\
  (forall bytes, job_res j = Some bytes -> bytes_len bytes <= MAX_BLOB_BYTES).

Definition staged_job (j : Job) (s : Staged) : Prop :=
  original_name s = name (job_entry j) /\ scan_etag s = etag (job_entry j) /\
  match job_res j with
  | None => empty_delete s = true
  | Some bytes => empty_delete s = false /\ new_bytes_for_swap s = bytes
  end.

(** The staging blobs of the work list. *)
Definition stagings (st : list Staged) : list str := map staging_name (List.filter (fun s => negb (empty_delete s)) st).

Lemma stagings_app st1 st2 : stagings (st1 ++ st2) = stagings st1 ++ stagings st2.
Proof. unfold stagings. by rewrite List.filter_app, map_app. Qed.

(** Drawn before the [n]-th uuid. *)
Definition drawn_before (n : nat) (sn : str) : Prop :=
  exists i orig, (i < n)%nat /\ sn = make_staging_name (uuid_simple i) orig.

(** The state between two iterations of phase 1. *)
Record phase1 (n0 : nat) (c0 : Container) (js : list Job) (st : list Staged) (w : World B) : Prop := {
  p1_active : is_Some (w_active w);
  p1_flight : flight w = list_to_set (stagings st);
  p1_cont : forall k, k ∉ stagings st -> cont w !! k = c0 !! k;
  p1_jobs : Forall2 staged_job js st;
  p1_fresh : Forall (fun sn => c0 !! sn = None /\ drawn_before (w_uuids w) sn) (stagings st);
  p1_uuids : (w_uuids w <= n0 + length st)%nat;
}.

Lemma drawn_before_fresh n orig : Z.of_nat n < UUIDS -> ~ drawn_before n (make_staging_name (uuid_simple n) orig).
Proof. intros Hn (i & o & Hi & He). apply make_staging_name_inj in He; lia. Qed.

Lemma get_body_world (w : World B) nm et body :
  cont w !! nm = Some (et, body) -> bytes_len body <= MAX_BLOB_BYTES ->
  exists w', on_svc (get_body_if_match nm et) w = (w', Ok body) /\ cont w' = cont w /\
    w_active w' = w_active w /\ w_uuids w' = w_uuids w.
Proof.
  intros Hc Hl. destruct (get_body_ok nm et body (w_svc w) Hc Hl) as (s' & Hg & Hs).
  rewrite (on_svc_Ok _ _ _ _ Hg). by eexists.
Qed.

Lemma stage_result_ok plan n0 c0 js st k j (w : World B) :
  Z.of_nat (n0 + length st) < UUIDS -> staging_unused plan c0 -> phase1 n0 c0 js st w -> job_ok plan c0 k j ->
  exists w' s, stage_result (name (job_entry j)) (etag (job_entry j)) st (job_res j) w = (w', Ok (st ++ [s])) /\
    phase1 n0 c0 (js ++ [j]) (st ++ [s]) w'.
Proof.
  intros Hcnt Hun [Hact Hfl Hcont Hjobs Hfresh Huu] (Hk & _ & _ & _ & Hsz).
  destruct (job_res j) as [bytes|] eqn:Hres; cbn [stage_result].
  - set (sn := make_staging_name (uuid_simple (w_uuids w)) (name (job_entry j))).
    set (w0 := mkWorld (w_svc w) (w_active w) (S (w_uuids w)) (w_notices w)).
    set (w1 := with_active (register_staging sn) w0).
    assert (sn ∉ stagings st) as Hsn.
    { intros Hin. rewrite Forall_forall in Hfresh. destruct (Hfresh _ Hin) as [_ Hd].
      eapply drawn_before_fresh; [|exact Hd]. lia. }
    assert (c0 !! sn = None) as Hnone by (eapply Hun, list_elem_of_lookup_2, Hk).
    destruct (put_if_none_match_ok sn bytes (w_svc w1)) as (s' & et & Hp & Hs).
    { unfold w1. rewrite with_active_svc. cbn [w0 w_svc]. by rewrite Hcont. }
    { by apply Hsz. }
    exists (mkWorld s' (w_active w1) (w_uuids w1) (w_notices w1)),
      (mkStaged (name (job_entry j)) (etag (job_entry j)) sn bytes false). split.
    { erewrite sm_bind_Ok by done. erewrite sm_bind_Ok by (by apply on_svc_Ok). done. }
    assert (flight w1 = {[sn]} ∪ flight w) as Hf by (change (flight w) with (flight w0); by apply flight_register).
    assert (w_uuids w1 = S (w_uuids w)) as Hu by (unfold w1, with_active; by destruct (w_active w0)).
    assert (stagings (st ++ [mkStaged (name (job_entry j)) (etag (job_entry j)) sn bytes false]) = stagings st ++ [sn])
      as Hstg by by rewrite stagings_app.
    constructor; rewrite ?Hstg; cbn [w_svc w_active w_uuids].
    + unfold w1, with_active. cbn [w0 w_active]. by destruct Hact as [a ->].
    + rewrite list_to_set_app_L, <- Hfl. etrans; [exact Hf|]. set_solver.
    + intros k' Hk'. rewrite Hs. unfold w1. rewrite with_active_svc. cbn [w0 w_svc].
      rewrite lookup_insert_ne by (intros ->; set_solver). apply Hcont. set_solver.
    + apply Forall2_app; [done|]. constructor; [|constructor]. split; [done|]. split; [done|]. by rewrite Hres.
    + rewrite Hu. apply Forall_app. split.
      * eapply Forall_impl; [exact Hfresh|]. intros x [? (i & o & ? & ?)]. split; [done|]. exists i, o. split; [lia|done].
      * constructor; [|constructor]. split; [done|]. eexists _, _. split; [|done]. lia.
    + rewrite Hu, length_app. simpl. lia.
  - eexists w, _. split; [done|]. constructor; rewrite ?stagings_app; cbn [stagings List.filter map empty_delete negb];
      rewrite ?app_nil_r; try done; [|rewrite length_app; simpl; lia].
    apply Forall2_app; [done|]. constructor; [|constructor]. split; [done|]. split; [done|]. by rewrite Hres.
Qed.

Lemma stage_blob_ok plan n0 c0 js st k j (w : World B) :
  Z.of_nat (n0 + length st) < UUIDS -> staging_unused plan c0 -> phase1 n0 c0 js st w -> job_ok plan c0 k j ->
  exists w' s, stage_blob plan st k w = (w', Ok (st ++ [s])) /\ phase1 n0 c0 (js ++ [j]) (st ++ [s]) w'.
Proof.
  intros Hcnt Hun Hp Hj. pose proof Hj as (Hk & Hc & Hl & (e & He & Hrw) & _). unfold stage_blob.
  erewrite sm_bind_Ok by (unfold lift; by rewrite (ok_or_Ok _ _ _ Hk)).
  erewrite sm_bind_Ok by (unfold lift; by rewrite (ok_or_Ok _ _ _ He)).
  assert (name (job_entry j) ∉ stagings st) as Hn.
  { intros Hin. pose proof (p1_fresh _ _ _ _ _ Hp) as HF. rewrite Forall_forall in HF.
    destruct (HF _ Hin) as [Hnone _]. congruence. }
  destruct (get_body_world w (name (job_entry j)) (etag (job_entry j)) (job_body j)) as (w1 & Hg & Hcw & Ha & Hu); [|done|].
  { by rewrite (p1_cont _ _ _ _ _ Hp). }
  erewrite sm_bind_Ok by exact Hg. erewrite sm_bind_Ok by (unfold lift; by rewrite Hrw).
  apply (stage_result_ok plan n0 c0 js st k); [done|done| |done].
  destruct Hp as [P1 P2 P3 P4 P5 P6]. constructor; unfold flight; rewrite ?Ha, ?Hcw, ?Hu; done.
Qed.

Lemma stage_all_ok plan n0 c0 keys js :
  staging_unused plan c0 -> Forall2 (job_ok plan c0) keys js ->
  forall js0 st (w : World B), Z.of_nat (n0 + length st + length keys) <= UUIDS -> phase1 n0 c0 js0 st w ->
  exists w' st', sm_fold (stage_blob plan) st keys w = (w', Ok st') /\ phase1 n0 c0 (js0 ++ js) st' w'.
Proof.
  intros Hun. induction 1 as [|k j keys js Hj _ IH]; intros js0 st w Hcnt Hp; cbn [sm_fold]; simpl in Hcnt.
  - exists w, st. by rewrite app_nil_r.
  - destruct (stage_blob_ok plan n0 c0 js0 st k j w) as (w1 & s & H1 & Hp1); [lia|done..|].
    erewrite sm_bind_Ok by exact H1. destruct (IH (js0 ++ [j]) (st ++ [s]) w1) as (w' & st' & H2 & Hp2);
      [rewrite length_app; simpl; lia|done|].
    exists w', st'. by rewrite <- (assoc_L (++)) in Hp2.
Qed.

(** *** Phase 2 *)

Definition swapped (s : Staged) (cur : option (str * Bytes)) : Prop :=
  if empty_delete s then cur = None
  else exists et, et <> scan_etag s /\ cur = Some (et, new_bytes_for_swap s).

(** The original still has the scanned version and the body is within the cap. *)
Definition swappable (s : Staged) (w : World B) : Prop :=
  (exists old, cont w !! original_name s = Some (scan_etag s, old)) /\
  (empty_delete s = false -> bytes_len (new_bytes_for_swap s) <= MAX_BLOB_BYTES).

Lemma flight_commit sn (w : World B) :
  is_Some (w_active w) -> flight (with_active (mark_committed sn) w) = flight w ∖ {[sn]}.
Proof. intros [a Ha]. unfold flight, with_active. rewrite Ha. done. Qed.

Lemma with_active_is_Some f (w : World B) : is_Some (w_active w) -> is_Some (w_active (with_active f w)).
Proof. intros [a Ha]. unfold with_active. rewrite Ha. done. Qed.

Lemma swap_blob_ok s (w : World B) :
  is_Some (w_active w) -> swappable s w -> original_name s ∉ stagings [s] ->
  exists w', swap_blob s w = (w', Ok tt) /\ is_Some (w_active w') /\
    flight w' = flight w ∖ list_to_set (stagings [s]) /\
    swapped s (cont w' !! original_name s) /\
    (forall k, k <> original_name s -> k ∉ stagings [s] -> cont w' !! k = cont w !! k) /\
    (forall k, k ∈ stagings [s] -> cont w' !! k = None).
Proof.
  intros Hact [[old Hold] Hsz] Hne. unfold swap_blob, swapped, stagings in *. cbn [List.filter] in *.
  destruct (empty_delete s) eqn:Ed; cbn [negb map] in *.
  - destruct (delete_if_match_ok _ _ _ _ Hold) as (s' & Hd & Hs). rewrite (on_svc_Ok _ _ _ _ Hd).
    eexists. split; [done|]. cbn [w_svc w_active]. rewrite Hs, lookup_delete_eq. split; [done|].
    split; [change (flight w = flight w ∖ ∅); set_solver|]. split; [done|]. split; [|set_solver].
    intros k Hk _. by rewrite lookup_delete_ne.
  - destruct (put_if_match_ok _ (new_bytes_for_swap s) _ _ _ Hold) as (s1 & et & Hp & Hs1 & Het); [by apply Hsz|].
    erewrite sm_bind_Ok by (by apply on_svc_Ok). unfold drop_staging.
    set (w1 := mkWorld s1 _ _ _).
    destruct (delete_unconditional_ok (staging_name s) (w_svc w1)) as (s2 & Hd & Hs2).
    rewrite (on_svc_Ok _ _ _ _ Hd). set (w2 := mkWorld s2 _ _ _).
    eexists. split; [done|]. rewrite with_active_svc. cbn [w2 w_svc]. rewrite Hs2. cbn [w1 w_svc]. rewrite Hs1.
    split; [by apply with_active_is_Some|].
    split; [rewrite flight_commit by done; change (flight w2) with (flight w); set_solver|].
    assert (staging_name s <> original_name s) as Hne2 by set_solver.
    split; [exists et; split; [done|]; by rewrite lookup_delete_ne, lookup_insert_eq|]. split.
    + intros k Hk1 Hk2. rewrite lookup_delete_ne by set_solver. by rewrite lookup_insert_ne.
    + intros k ->%list_elem_of_singleton. apply lookup_delete_eq.
Qed.

Lemma swap_all_ok st : forall (w : World B),
  is_Some (w_active w) -> NoDup (map original_name st) ->
  (forall s, s ∈ st -> swappable s w) ->
  (forall k, k ∈ stagings st -> k ∉ map original_name st) ->
  exists w', sm_iter swap_blob st w = (w', Ok tt) /\ is_Some (w_active w') /\
    flight w' = flight w ∖ list_to_set (stagings st) /\
    (forall s, s ∈ st -> swapped s (cont w' !! original_name s)) /\
    (forall k, k ∉ map original_name st -> k ∉ stagings st -> cont w' !! k = cont w !! k) /\
    (forall k, k ∈ stagings st -> cont w' !! k = None).
Proof.
  induction st as [|s st IH]; intros w Hact Hnd Hsw Hdis; cbn [sm_iter].
  - exists w. split; [done|]. split; [done|]. split; [cbn; set_solver|]. split; [set_solver|]. split; [done|set_solver].
  - change (s :: st) with ([s] ++ st) in *. rewrite stagings_app, map_app in *. cbn [map] in *.
    apply NoDup_cons in Hnd as [Hnot Hnd].
    destruct (swap_blob_ok s w) as (w1 & H1 & Ha1 & Hf1 & Hs1 & Hsame1 & Hnone1); [done|apply Hsw; set_solver| |].
    { intros Hin. eapply Hdis; [apply elem_of_app; left; exact Hin|]. set_solver. }
    erewrite sm_bind_Ok by exact H1.
    destruct (IH w1) as (w' & H2 & Ha2 & Hf2 & Hs2 & Hsame2 & Hnone2); [done|done| | |].
    { intros s' Hin. destruct (Hsw s') as [[old Hold] Hsz]; [set_solver|]. split; [|done].
      exists old. assert (original_name s' ∈ map original_name st) by (by apply list_elem_of_fmap_2).
      rewrite Hsame1; [done|set_solver|]. intros Hin2. eapply Hdis; [apply elem_of_app; left; exact Hin2|set_solver]. }
    { intros k Hk. specialize (Hdis k). clear - Hk Hdis. set_solver. }
    exists w'. split; [done|]. split; [done|].
    split; [rewrite Hf2, Hf1, list_to_set_app_L; clear; set_solver|]. split; [|split].
    + intros s' Hin. apply elem_of_app in Hin as [->%list_elem_of_singleton|Hin]; [|by apply Hs2].
      rewrite Hsame2; [done|done|]. intros Hin2. eapply (Hdis (original_name s)); set_solver.
    + intros k Hk1 Hk2. rewrite Hsame2 by set_solver. apply Hsame1; set_solver.
    + intros k Hk. destruct (decide (k ∈ stagings st)) as [Hin|Hin]; [by apply Hnone2|].
      specialize (Hdis k Hk). rewrite Hsame2 by set_solver. apply Hnone1. set_solver.
Qed.

Lemma staged_jobs_names js st : Forall2 staged_job js st -> map original_name st = map (fun j => name (job_entry j)) js.
Proof. induction 1 as [|j s js st (H & _) _ IH]; [done|]. cbn [map]. by rewrite H, IH. Qed.

Lemma commit_plan_ok plan (w : World B) a jobs :
  w_active w = Some a -> in_flight (active_coord a) = ∅ -> staging_unused plan (cont w) ->
  Z.of_nat (w_uuids w + length (dirty_keys plan)) <= UUIDS ->
  Forall2 (job_ok plan (cont w)) (dirty_keys plan) jobs -> NoDup (map (fun j => name (job_entry j)) jobs) ->
  exists w', commit_plan plan w = (w', Ok tt) /\ flight w' = ∅ /\
    (forall j, j ∈ jobs ->
       match job_res j with
       | None => cont w' !! name (job_entry j) = None
       | Some bytes => exists et, et <> etag (job_entry j) /\ cont w' !! name (job_entry j) = Some (et, bytes)
       end) /\
    (forall k, k ∉ map (fun j => name (job_entry j)) jobs -> cont w' !! k = cont w !! k).
Proof.
  intros Ha Hempty Hun Hcnt Hjobs Hnd.
  destruct (stage_all_ok plan (w_uuids w) (cont w) (dirty_keys plan) jobs Hun Hjobs [] [] w) as (w1 & st & Hst & Hp).
  { simpl. lia. }
  { constructor; [by eexists| |done|constructor|constructor|lia]. unfold flight. by rewrite Ha, Hempty. }
  destruct Hp as [P1 P2 P3 P4 P5 _]. cbn [app] in P4. rewrite Forall_forall in P5.
  assert (forall j, j ∈ jobs -> exists k, job_ok plan (cont w) k j) as Hok.
  { intros j Hj. apply list_elem_of_lookup in Hj as [i Hi].
    destruct (Forall2_lookup_r _ _ _ _ _ Hjobs Hi) as (k & _ & Hk). by exists k. }
  pose proof (staged_jobs_names _ _ P4) as Hnames.
  assert (forall s, s ∈ st -> exists j, j ∈ jobs /\ staged_job j s) as Hsj.
  { intros s Hs. apply list_elem_of_lookup in Hs as [i Hi].
    destruct (Forall2_lookup_r _ _ _ _ _ P4 Hi) as (j & Hj & Hk). exists j. split; [|done]. by eapply list_elem_of_lookup_2. }
  assert (forall k, k ∈ stagings st -> k ∉ map original_name st) as Hdis.
  { intros k Hk Hin. destruct (P5 k Hk) as [Hnone _]. apply list_elem_of_fmap in Hin as (s & -> & Hs).
    destruct (Hsj s Hs) as (j & Hj & (Hn & _)). destruct (Hok j Hj) as (k' & _ & Hc & _). congruence. }
  destruct (swap_all_ok st w1) as (w' & Hsw & _ & Hf & Hs & Hsame & Hgone); [done|by rewrite Hnames| |done|].
  { intros s Hs. destruct (Hsj s Hs) as (j & Hj & (Hn & He & Hr)). destruct (Hok j Hj) as (k' & _ & Hc & _ & _ & Hsz).
    split.
    - exists (job_body j). rewrite Hn, He. rewrite P3; [done|]. intros Hin. destruct (P5 _ Hin) as [Hnone _]. congruence.
    - intros Hed. destruct (job_res j) as [bytes|]; [|congruence]. destruct Hr as [_ ->]. by apply Hsz. }
  exists w'. split; [unfold commit_plan; by erewrite sm_bind_Ok|]. split; [rewrite Hf, P2; clear; set_solver|]. split.
  - intros j Hj. apply list_elem_of_lookup in Hj as [i Hi].
    destruct (Forall2_lookup_l _ _ _ _ _ P4 Hi) as (s & Hi' & (Hn & He & Hr)).
    specialize (Hs s (list_elem_of_lookup_2 _ _ _ Hi')). unfold swapped in Hs. rewrite Hn, He in Hs.
    destruct (job_res j) as [bytes|]; [destruct Hr as [Hr <-]|]; by rewrite Hr in Hs.
  - intros k Hk. rewrite <- Hnames in Hk. destruct (decide (k ∈ stagings st)) as [Hin|Hin].
    + rewrite Hgone by done. symmetry. by apply P5.
    + rewrite Hsame by done. by apply P3.
Qed.

(** A commit whose blobs still have the versions the scan saw succeeds.
    Every touched blob is deleted when no row of it is left, and otherwise
    replaced, under a new etag, by the rewritten body; every other blob,
    staging names included, is as before; nothing is left in flight. *)
Theorem commit_plan_spec plan (w : World B) a jobs :
  w_active w = Some a -> in_flight (active_coord a) = ∅ -> staging_unused plan (cont w) ->
  Z.of_nat (w_uuids w + length (dirty_keys plan)) <= UUIDS ->
  Forall2 (job_ok plan (cont w)) (dirty_keys plan) jobs -> NoDup (map (fun j => name (job_entry j)) jobs) ->
  exists w', commit_plan plan w = (w', Ok tt) /\ flight w' = ∅ /\
    (forall j, j ∈ jobs ->
       match job_res j with
       | None => cont w' !! name (job_entry j) = None
       | Some bytes => exists et, et <> etag (job_entry j) /\ cont w' !! name (job_entry j) = Some (et, bytes)
       end) /\
    (forall k, k ∉ map (fun j => name (job_entry j)) jobs -> cont w' !! k = cont w !! k).
Proof. apply commit_plan_ok. Qed.
End Commit.

