(* ===== verification/CommitDemo.v ===== *)
(** * The commit theorems on a concrete container. *)

From S2P Require Import Prelude RustStr Redact Errors RowId Options Externals Kernel Convert BlobService Store Handoff Coordinator ParquetIO Modify CommitFacts.
Local Open Scope Z_scope.

(** ** Concrete instances: two touched blobs and one that is not *)

Definition demo_files : gmap str (str * RefFile) :=
  {[ lit "a.parquet" := (lit "e1", (SNAPPY, demo_blob));
     lit "b.parquet" := (lit "e2", (SNAPPY, [demo_batch [5; 6] ["e"; "f"]%string]));
     lit "c.parquet" := (lit "e3", (SNAPPY, [demo_batch [7] ["g"]%string])) ]}.

(** Rows of [a] change, every row of [b] goes. *)
Definition demo_commit_plan : ModifyPlan (A := ref_arrow) (R := ref_roaring) :=
  mkPlan [mkEntry "a.parquet" 0 "e1"; mkEntry "b.parquet" 0 "e2"; mkEntry "c.parquet" 0 "e3"]
    {[0 := demo_edits; 1 := mkBlobEdits (R := ref_roaring) {[0; 1]} ∅]} demo_schema
    [INT8OID; TEXTOID] [1%nat] demo_client Snappy false 2 3.

Definition demo_world (c : gmap str (str * RefFile)) : World (Y := ref_bytes) (ref_blob (Y := ref_bytes)) :=
  mkWorld (B := ref_blob (Y := ref_bytes)) c (Some (mkActive demo_client coordinator_new)) 0 [].

(** A container without staging blobs has no name a rewrite could draw. *)
Lemma clean_staging_unused {Y : BytesApi} {A : ArrowApi} {R : RoaringApi} {U : UuidApi}
    (plan : ModifyPlan) (c0 : Container) :
  map_Forall (fun k _ => is_staging_name k = false) c0 -> staging_unused plan c0.
Proof.
  intros H i e _. destruct (c0 !! _) as [v|] eqn:E; [|done]. apply H in E. by rewrite make_staging_name_staging in E.
Qed.

Lemma demo_unused : staging_unused (Y := ref_bytes) demo_commit_plan demo_files.
Proof.
  apply clean_staging_unused.
  assert (bool_decide (map_Forall (fun k _ => is_staging_name k = false) demo_files) = true) as H by (vm_compute; reflexivity).
  by apply bool_decide_eq_true in H.
Qed.

Lemma rewrite_body_spec_witness :
  exists bytes outs, rewrite_body (Y := ref_bytes) demo_commit_plan "a.parquet" demo_edits (SNAPPY, demo_blob) = Ok (Some bytes) /\
    decodes (Y := ref_bytes) bytes (Some SNAPPY) outs /\
    blob_column 1 outs = [Some (VUtf8 "b"); None; Some (VUtf8 "d")].
Proof.
  pose proof (rewrite_body_spec (Y := ref_bytes) demo_commit_plan "a.parquet" demo_edits (SNAPPY, demo_blob) (Some SNAPPY) demo_blob) as H.
  destruct (rewrite_body _ _ _ _) as [[bytes|]|e] eqn:E; [| |destruct H].
  - destruct H as (_ & outs & Hd & _ & _ & Hc); [|exists bytes, outs; split; [reflexivity|]; split; [exact Hd|]].
    + split; [exists (SNAPPY, demo_blob); done|]. split; [apply Forall_forall; intros; by apply demo_conforms|].
      split; [vm_compute; discriminate|]. split; [vm_compute; discriminate|]. split; [apply demo_overrides_ok|].
      intros k [o Ho]. cbn [demo_edits updates] in Ho. apply lookup_singleton_Some in Ho as [<- _]. reflexivity.
    + rewrite Hc by (simpl; lia). vm_compute. reflexivity.
  - vm_compute in E. discriminate.
  - vm_compute in E. discriminate.
Defined.

Lemma no_lost_update_witness :
  let w := demo_world (<[lit "b.parquet" := (lit "e9", (SNAPPY, []))]> demo_files) in
  exists w' e, commit_plan demo_commit_plan w = (w', Err e) /\
    blobs (w_svc (xact_cb XACT_EVENT_ABORT w')) = blobs (w_svc w).
Proof.
  apply (no_lost_update (Y := ref_bytes) demo_commit_plan _ (mkActive demo_client coordinator_new) 1 (mkEntry "b.parquet" 0 "e2")); try reflexivity.
  - apply clean_staging_unused. apply map_Forall_insert_2; [reflexivity|].
    assert (bool_decide (map_Forall (fun k _ => is_staging_name k = false) demo_files) = true) as H by (vm_compute; reflexivity).
    by apply bool_decide_eq_true in H.
  - assert (dirty_keys demo_commit_plan = [0; 1]) as -> by (vm_compute; reflexivity). right. left.
  - intros body Hb. vm_compute in Hb. discriminate Hb.
Defined.

Lemma failed_stage_leaves_no_trace_witness :
  let w := demo_world (<[lit "b.parquet" := (lit "e9", (SNAPPY, []))]> demo_files) in
  exists w' e, stage_all demo_commit_plan w = (w', Err e) /\
    blobs (w_svc (xact_cb XACT_EVENT_ABORT w')) = blobs (w_svc w).
Proof.
  intros w. assert (is_ok (stage_all demo_commit_plan w).2 = false) as Hf by (vm_compute; reflexivity).
  destruct (stage_all demo_commit_plan w) as [w' [st|e]] eqn:E; [discriminate Hf|]. exists w', e. split; [reflexivity|].
  eapply (failed_stage_leaves_no_trace (Y := ref_bytes) demo_commit_plan w w' (mkActive demo_client coordinator_new) e);
    [reflexivity|reflexivity| |exact E].
  apply clean_staging_unused. apply map_Forall_insert_2; [reflexivity|].
  assert (bool_decide (map_Forall (fun k _ => is_staging_name k = false) demo_files) = true) as H by (vm_compute; reflexivity).
  by apply bool_decide_eq_true in H.
Defined.

Definition demo_new_a : RefFile :=
  (SNAPPY, [demo_batch [2] ["b"%string]; [(Int64, [Some (VI64 3); Some (VI64 4)]); (Utf8, [None; Some (VUtf8 "d")])]]).

Definition demo_jobs : list (Job (Y := ref_bytes)) :=
  [mkJob (Y := ref_bytes) (mkEntry "a.parquet" 0 "e1") (SNAPPY, demo_blob) (Some demo_new_a);
   mkJob (Y := ref_bytes) (mkEntry "b.parquet" 0 "e2") (SNAPPY, [demo_batch [5; 6] ["e"; "f"]%string]) None].

Lemma commit_plan_spec_witness :
  exists w', commit_plan demo_commit_plan (demo_world demo_files) = (w', Ok tt) /\
    blobs (w_svc w') !! lit "b.parquet" = None /\
    blobs (w_svc w') !! lit "c.parquet" = demo_files !! lit "c.parquet".
Proof.
  destruct (commit_plan_spec (Y := ref_bytes) demo_commit_plan (demo_world demo_files)
              (mkActive demo_client coordinator_new) demo_jobs) as (w' & H & _ & Hj & Hk).
  - reflexivity.
  - reflexivity.
  - apply demo_unused.
  - vm_compute. discriminate.
  - assert (dirty_keys demo_commit_plan = [0; 1]) as -> by (vm_compute; reflexivity).
    constructor; [|constructor; [|constructor]].
    + split; [reflexivity|]. split; [reflexivity|]. split; [vm_compute; discriminate|].
      split; [exists demo_edits; split; [reflexivity|vm_compute; reflexivity]|].
      intros bytes [= <-]. vm_compute. discriminate.
    + split; [reflexivity|]. split; [reflexivity|]. split; [vm_compute; discriminate|].
      split; [eexists; split; [reflexivity|vm_compute; reflexivity]|]. intros bytes [=].
  - assert (bool_decide (NoDup (map (fun j => name (job_entry j)) demo_jobs)) = true) as Hn by (vm_compute; reflexivity).
    by apply bool_decide_eq_true in Hn.
  - exists w'. split; [exact H|]. split; [refine (Hj (mkJob (Y := ref_bytes) (mkEntry "b.parquet" 0 "e2") _ None) _); right; left|].
    apply (Hk (lit "c.parquet")).
    assert (bool_decide (lit "c.parquet" ∉ map (fun j => name (job_entry j)) demo_jobs) = true) as Hn by (vm_compute; reflexivity).
    by apply bool_decide_eq_true in Hn.
Defined.
