(* ===== verification/TornCommit.v ===== *)
(** * Writers between the two phases of a commit.

    The README's limitation "per-blob atomic, not statement-atomic", as a
    theorem: [commit_interrupted] is [commit_plan] with other clients writing
    between phase 1 and phase 2, and what the container holds after the
    transaction ended is determined blob by blob. *)

From S2P Require Import Prelude RustStr Redact Errors RowId Options Externals Kernel Convert BlobService Store Handoff Coordinator ParquetIO Modify CommitFacts CommitDemo.
Local Open Scope Z_scope.

Section Torn.
Context {Y : BytesApi} {B : BlobApi} {L : BlobLaws B} {A : ArrowApi} {R : RoaringApi} {Q : ParquetApi}
  {U : UuidApi} {UL : UuidLaws U}.

Abbreviation cont w := (blobs (w_svc w)).

(** What other clients wrote: the new version of each blob they touched,
    [None] for a deletion. *)
Abbreviation Changes := (gmap str (option (str * Bytes))).

Definition after_changes (ch : Changes) (c : Container) (k : str) : option (str * Bytes) := default (c !! k) (ch !! k).

(** [others] is the effect of the other clients on the service. *)
Definition commit_interrupted (others : Svc -> Svc) (plan : ModifyPlan) : SM (World B) unit :=
  staged ← stage_all plan;
  _ ← modify_state (fun w => mkWorld (others (w_svc w)) (w_active w) (w_uuids w) (w_notices w));
  sm_iter swap_blob staged.

Definition makes (others : Svc -> Svc) (ch : Changes) : Prop :=
  forall s k, blobs (others s) !! k = after_changes ch (blobs s) k.

(** The blob still has the version the statement scanned. *)
Definition still_scanned (ch : Changes) (c : Container) (j : Job) : Prop :=
  exists body, after_changes ch c (name (job_entry j)) = Some (etag (job_entry j), body).

(** The statement's version of a blob. *)
Definition job_done (j : Job) (cur : option (str * Bytes)) : Prop :=
  match job_res j with
  | None => cur = None
  | Some bytes => exists et, et <> etag (job_entry j) /\ cur = Some (et, bytes)
  end.

Lemma sm_iter_app {T} (f : T -> SM (World B) unit) xs ys (w w1 : World B) :
  sm_iter f xs w = (w1, Ok tt) -> sm_iter f (xs ++ ys) w = sm_iter f ys w1.
Proof.
  revert w. induction xs as [|x xs IH]; intros w H; cbn [sm_iter app] in *; [by injection H as ->|].
  apply sm_bind_inv in H as (w2 & [] & Hx & H). erewrite sm_bind_Ok by exact Hx. by apply IH.
Qed.

(** A blob with another version: the swap is refused and nothing changes. *)
Lemma swap_blob_refused s (w : World B) :
  (forall body, cont w !! original_name s <> Some (scan_etag s, body)) ->
  (empty_delete s = false -> bytes_len (new_bytes_for_swap s) <= MAX_BLOB_BYTES) ->
  exists w' reason, swap_blob s w = (w', Err (ConcurrentUpdate (original_name s) reason)) /\
    cont w' = cont w /\ w_active w' = w_active w.
Proof.
  intros Hch Hsz. unfold swap_blob. destruct (empty_delete s).
  - unfold delete_if_match, on_svc, call.
    destruct (delete_fails (original_name s) (mkCond (Some (scan_etag s)) None) (w_svc w)) as (s' & er & -> & Hs & Hst).
    { intros [_ [Hc _]]. destruct (Hc _ eq_refl) as [body Hb]. by apply (Hch body). }
    unfold map_err, status_is. rewrite Hst. case_bool_decide; cbn; eexists _, _; done.
  - destruct (put_if_match_changed (original_name s) (new_bytes_for_swap s) (scan_etag s) (w_svc w)) as (s' & Hp & Hs);
      [done|by apply Hsz|].
    eexists _, _. split; [by eapply sm_bind_Err, on_svc_Ok|]. done.
Qed.

Lemma drawn_staging n sn : drawn_before n sn -> is_staging_name sn = true.
Proof. intros (i & o & _ & ->). apply make_staging_name_staging. Qed.

(** The abort sweep after some of the staged blobs were swapped. *)
Lemma sweep_rest (w : World B) k :
  is_Some (w_active w) ->
  cont (xact_cb XACT_EVENT_ABORT w) !! k = if bool_decide (k ∈ flight w) then None else cont w !! k.
Proof. intros [a Ha]. rewrite (xact_abort_spec w a k Ha). unfold flight. by rewrite Ha. Qed.

Lemma staged_jobs_app js1 js2 st :
  Forall2 staged_job (js1 ++ js2) st ->
  exists st1 st2, st = st1 ++ st2 /\ Forall2 staged_job js1 st1 /\ Forall2 staged_job js2 st2.
Proof. intros H. apply Forall2_app_inv_l in H as (st1 & st2 & H1 & H2 & ->). eauto. Qed.

(** The event the transaction ends with. *)
Definition ends_with (r : FdwResult unit) : XactEvent :=
  match r with Ok _ => XACT_EVENT_COMMIT | Err _ => XACT_EVENT_ABORT end.

(** Phase 2 on the swapped part and the refused rest. *)
Lemma swaps_torn (st1 st2 : list Staged) (w : World B) :
  is_Some (w_active w) -> NoDup (map original_name (st1 ++ st2)) ->
  flight w = list_to_set (stagings (st1 ++ st2)) ->
  (forall s, s ∈ st1 -> swappable s w) ->
  (forall k, k ∈ stagings (st1 ++ st2) -> k ∉ map original_name (st1 ++ st2)) ->
  match st2 with
  | [] => True
  | s :: _ => (forall body, cont w !! original_name s <> Some (scan_etag s, body)) /\
              (empty_delete s = false -> bytes_len (new_bytes_for_swap s) <= MAX_BLOB_BYTES)
  end ->
  exists w' r, sm_iter swap_blob (st1 ++ st2) w = (w', r) /\
    match st2 with [] => r = Ok tt | s :: _ => exists reason, r = Err (ConcurrentUpdate (original_name s) reason) end /\
    (forall s, s ∈ st1 -> swapped s (cont (xact_cb (ends_with r) w') !! original_name s)) /\
    (forall k, k ∈ stagings (st1 ++ st2) -> cont (xact_cb (ends_with r) w') !! k = None) /\
    (forall k, k ∉ map original_name st1 -> k ∉ stagings (st1 ++ st2) ->
       cont (xact_cb (ends_with r) w') !! k = cont w !! k).
Proof.
  intros Hact Hnd Hfl Hsw Hdis Hlate. rewrite stagings_app in *. rewrite map_app in Hnd.
  apply NoDup_app in Hnd as (Hnd1 & Hnn & _).
  destruct (swap_all_ok st1 w) as (w1 & H1 & Ha1 & Hf1 & Hs1 & Hsame1 & Hnone1); [done..| |].
  { intros k Hk Hin. apply (Hdis k); [apply elem_of_app; by left|]. rewrite map_app. apply elem_of_app. by left. }
  assert (forall k, k ∈ flight w1 <-> k ∈ stagings st1 ++ stagings st2 /\ k ∉ stagings st1) as Hfl1.
  { intros k. rewrite Hf1, Hfl, list_to_set_app_L, elem_of_difference, elem_of_union, !elem_of_list_to_set, elem_of_app. done. }
  assert (forall k, k ∈ map original_name st1 -> k ∉ stagings st1 ++ stagings st2) as Hdis1.
  { intros k Hk Hin. apply (Hdis k Hin). rewrite map_app. apply elem_of_app. by left. }
  assert (forall k, k ∈ map original_name st1 -> k ∉ map original_name st2) as Hnames by exact Hnn.
  destruct st2 as [|s st2].
  - exists w1, (Ok tt). rewrite app_nil_r. split; [done|]. split; [done|]. cbn [ends_with].
    assert (cont (xact_cb XACT_EVENT_COMMIT w1) = cont w1) as -> by (unfold xact_cb; cbn; by destruct (w_active w1)).
    split; [done|]. change (stagings []) with (@nil str) in *. rewrite app_nil_r in *. split; [done|].
    intros k Hk1 Hk2. by apply Hsame1.
  - destruct Hlate as [Hch Hsz].
    destruct (swap_blob_refused s w1) as (w2 & reason & H2 & Hc2 & Ha2); [|done|].
    { intros body. rewrite Hsame1; [apply Hch|..].
      - intros Hin. apply (Hnames _ Hin). left.
      - intros Hin. apply (Hdis (original_name s)); [apply elem_of_app; by left|]. rewrite map_app. apply elem_of_app. right. left. }
    exists w2, (Err (ConcurrentUpdate (original_name s) reason)). rewrite (sm_iter_app _ _ _ _ _ H1). cbn [sm_iter].
    split; [by apply sm_bind_Err|]. split; [by eexists|]. cbn [ends_with].
    assert (is_Some (w_active w2)) as Hact2 by by rewrite Ha2.
    assert (flight w2 = flight w1) as Hfl2 by by unfold flight; rewrite Ha2.
    assert (forall k, cont (xact_cb XACT_EVENT_ABORT w2) !! k = if bool_decide (k ∈ flight w1) then None else cont w1 !! k) as Hsweep
      by by intros k; rewrite (sweep_rest w2 k Hact2), Hfl2, Hc2. split; [|split].
    + intros s' Hs'. rewrite Hsweep, bool_decide_eq_false_2; [by apply Hs1|].
      rewrite Hfl1. intros [Hin _]. apply (Hdis1 (original_name s')); [by apply list_elem_of_fmap_2|done].
    + intros k Hk. rewrite Hsweep. case_bool_decide as Hk1; [done|]. apply Hnone1.
      destruct (decide (k ∈ stagings st1)); [done|]. destruct Hk1. by apply Hfl1.
    + intros k Hk1 Hk2. rewrite Hsweep, bool_decide_eq_false_2 by (rewrite Hfl1; tauto).
      apply Hsame1; [done|]. intros Hin. apply Hk2, elem_of_app. by left.
Qed.

(** C7: a commit is atomic per blob.  Other clients write between phase 1
    and phase 2; the blobs are swapped in the order of their base ids, up to
    the first whose version is no longer the scanned one.  If there is none
    the statement succeeds; otherwise it fails with [ConcurrentUpdate] on
    that blob.  After the end of the transaction (the abort sweep included)
    the blobs before it hold the statement's result, every other name of the
    container is exactly what the other clients made of it, and no staging
    blob is left. *)
Theorem commit_per_blob_atomic plan (w : World B) a others ch done late :
  w_active w = Some a -> in_flight (active_coord a) = ∅ -> staging_unused plan (cont w) ->
  Z.of_nat (w_uuids w + length (dirty_keys plan)) <= UUIDS ->
  Forall2 (job_ok plan (cont w)) (dirty_keys plan) (done ++ late) ->
  NoDup (map (fun j => name (job_entry j)) (done ++ late)) ->
  makes others ch -> (forall k, is_staging_name k = true -> ch !! k = None) ->
  Forall (still_scanned ch (cont w)) done ->
  match late with [] => True | j :: _ => ~ still_scanned ch (cont w) j end ->
  exists w' r, commit_interrupted others plan w = (w', r) /\
    match late with
    | [] => r = Ok tt
    | j :: _ => exists reason, r = Err (ConcurrentUpdate (name (job_entry j)) reason)
    end /\
    let c' := cont (xact_cb (ends_with r) w') in
    (forall j, j ∈ done -> job_done j (c' !! name (job_entry j))) /\
    (forall k, k ∉ map (fun j => name (job_entry j)) done -> c' !! k = after_changes ch (cont w) k).
Proof.
  intros Ha Hempty Hun Hcnt Hjobs Hnd Hmk Hch Hdone Hlate.
  destruct (stage_all_ok plan (w_uuids w) (cont w) (dirty_keys plan) (done ++ late) Hun Hjobs [] [] w) as (w1 & st & Hst & Hp).
  { simpl. lia. }
  { constructor; [by eexists| |done|constructor|constructor|lia]. unfold flight. by rewrite Ha, Hempty. }
  destruct Hp as [P1 P2 P3 P4 P5 _]. cbn [app] in P4. rewrite Forall_forall in P5.
  assert (forall j, j ∈ done ++ late -> exists k, job_ok plan (cont w) k j) as Hok.
  { intros j Hj. apply list_elem_of_lookup in Hj as [i Hi].
    destruct (Forall2_lookup_r _ _ _ _ _ Hjobs Hi) as (k & _ & Hk). by exists k. }
  set (w2 := mkWorld (others (w_svc w1)) (w_active w1) (w_uuids w1) (w_notices w1)).
  assert (forall k, k ∉ stagings st -> cont w2 !! k = after_changes ch (cont w) k) as Hc2.
  { intros k Hk. cbn [w2 w_svc]. rewrite Hmk. unfold after_changes. by rewrite P3. }
  apply Forall2_app_inv_l in P4 as (st1 & st2 & H1 & H2 & ->).
  assert (Forall2 staged_job (done ++ late) (st1 ++ st2)) as H12 by by apply Forall2_app.
  pose proof (staged_jobs_names _ _ H12) as Hnames. pose proof (staged_jobs_names _ _ H1) as Hnames1.
  assert (forall k, k ∈ stagings (st1 ++ st2) -> k ∉ map original_name (st1 ++ st2)) as Hdis.
  { intros k Hk. rewrite Hnames. intros (j & -> & Hj)%list_elem_of_fmap. destruct (P5 _ Hk) as [Hnone _].
    destruct (Hok j Hj) as (k' & _ & Hc & _). congruence. }
  assert (forall j, j ∈ done ++ late -> name (job_entry j) ∉ stagings (st1 ++ st2)) as Hjn.
  { intros j Hj Hin. apply (Hdis _ Hin). rewrite Hnames. by apply (list_elem_of_fmap_2 (fun j => name (job_entry j))). }
  assert (forall j s, j ∈ done ++ late -> staged_job j s -> empty_delete s = false -> bytes_len (new_bytes_for_swap s) <= MAX_BLOB_BYTES) as Hsz.
  { intros j s Hj (_ & _ & Hr) Hed. destruct (Hok j Hj) as (_ & _ & _ & _ & _ & Hsz).
    destruct (job_res j) as [bytes|]; [|congruence]. destruct Hr as [_ ->]. by apply Hsz. }
  destruct (swaps_torn st1 st2 w2) as (w' & r & Hsw & Hr & Hd & Hgone & Hsame); [done|by rewrite Hnames|done| |done| |].
  - intros s Hs. apply list_elem_of_lookup in Hs as [i Hi].
    destruct (Forall2_lookup_r _ _ _ _ _ H1 Hi) as (j & Hj & Hjs). apply list_elem_of_lookup_2 in Hj.
    assert (j ∈ done ++ late) as Hj' by (apply elem_of_app; by left). split; [|by eapply Hsz].
    rewrite Forall_forall in Hdone. destruct (Hdone j Hj) as [body Hb]. exists body.
    destruct Hjs as (-> & -> & _). rewrite Hc2; [done|]. by apply Hjn.
  - destruct H2 as [|j s late st2 Hjs _]; [done|]. assert (j ∈ done ++ j :: late) as Hj by (apply elem_of_app; right; left).
    split; [|by eapply Hsz]. intros body Hb. apply Hlate. exists body. destruct Hjs as (Hn & He & _).
    rewrite Hn, He in Hb. rewrite Hc2 in Hb; [done|]. by apply Hjn.
  - exists w', r. split.
    { unfold commit_interrupted. erewrite sm_bind_Ok by exact Hst. by erewrite sm_bind_Ok by done. }
    split; [destruct H2 as [|j s ? ? [Hn _] _]; [done|by rewrite <- Hn]|]. split.
    + intros j Hj. apply list_elem_of_lookup in Hj as [i Hi].
      destruct (Forall2_lookup_l _ _ _ _ _ H1 Hi) as (s & Hs & Hn & He & Hr'). apply list_elem_of_lookup_2 in Hs.
      specialize (Hd s Hs). unfold swapped in Hd. rewrite Hn, He in Hd. unfold job_done.
      destruct (job_res j) as [bytes|]; [destruct Hr' as [Hr' <-]|]; by rewrite Hr' in Hd.
    + intros k Hk. rewrite <- Hnames1 in Hk. destruct (decide (k ∈ stagings (st1 ++ st2))) as [Hin|Hin].
      * rewrite Hgone by done. destruct (P5 k Hin) as [Hnone Hdr]. unfold after_changes.
        by rewrite Hnone, Hch by by eapply drawn_staging.
      * rewrite Hsame by done. by apply Hc2.
Qed.

(** Without other writers this is the commit itself. *)
Lemma commit_uninterrupted plan (w : World B) : commit_interrupted (fun s => s) plan w = commit_plan plan w.
Proof.
  unfold commit_interrupted, commit_plan. destruct (stage_all plan w) as [w1 [st|e]] eqn:H.
  - erewrite (sm_bind_Ok _ _ w) by exact H. erewrite (sm_bind_Ok (stage_all plan)) by exact H.
    erewrite sm_bind_Ok by done. by destruct w1.
  - by rewrite !(sm_bind_Err _ _ _ _ _ H).
Qed.
End Torn.

(** Someone replaces [b] while the statement is between its phases: [a] holds
    the statement's rows, [b] the other writer's version. *)
Definition demo_late_version : str * RefFile := (lit "e9", (SNAPPY, [])).

Lemma commit_per_blob_atomic_witness :
  exists w' r, commit_interrupted (Y := ref_bytes) (B := ref_blob (Y := ref_bytes)) (insert (lit "b.parquet") demo_late_version)
      demo_commit_plan (demo_world demo_files) = (w', r) /\ is_ok r = false /\
    let c' := blobs (w_svc (xact_cb XACT_EVENT_ABORT w')) in
    (exists et, c' !! lit "a.parquet" = Some (et, demo_new_a)) /\ c' !! lit "b.parquet" = Some demo_late_version.
Proof.
  destruct (commit_per_blob_atomic (Y := ref_bytes) (B := ref_blob (Y := ref_bytes)) demo_commit_plan (demo_world demo_files)
    (mkActive demo_client coordinator_new) (insert (lit "b.parquet") demo_late_version)
    {[lit "b.parquet" := Some demo_late_version]} [nth 0 demo_jobs (mkJob (Y := ref_bytes) (mkEntry [] 0 []) (SNAPPY, []) None)]
    [nth 1 demo_jobs (mkJob (Y := ref_bytes) (mkEntry [] 0 []) (SNAPPY, []) None)]) as (w' & r & H & Hr & Hd & Hk).
  - reflexivity.
  - reflexivity.
  - apply demo_unused.
  - vm_compute. discriminate.
  - assert (dirty_keys demo_commit_plan = [0; 1]) as -> by (vm_compute; reflexivity).
    constructor; [|constructor; [|constructor]].
    + split; [reflexivity|]. split; [reflexivity|]. split; [vm_compute; discriminate|].
      split; [exists demo_edits; split; [reflexivity|vm_compute; reflexivity]|].
      intros bytes [= <-]. vm_compute. discriminate.
    + split; [reflexivity|]. split; [reflexivity|]. split; [vm_compute; discriminate|].
      split; [eexists; split; [reflexivity|vm_compute; reflexivity]|]. intros bytes [=].
  - assert (bool_decide (NoDup (map (fun j => name (job_entry j)) demo_jobs)) = true) as Hn by (vm_compute; reflexivity).
    by apply bool_decide_eq_true in Hn.
  - intros s k. unfold after_changes. change (blobs ?x) with x. destruct (decide (k = lit "b.parquet")) as [->|Hne].
    + etrans; [apply (lookup_insert_eq (M := gmap str))|]. by rewrite lookup_singleton_eq.
    + etrans; [apply (lookup_insert_ne (M := gmap str)); intros E; by apply Hne|].
      rewrite lookup_singleton_ne; [done|]. intros E. by apply Hne.
  - intros k Hst. rewrite lookup_singleton_ne; [reflexivity|]. intros <-. vm_compute in Hst. discriminate Hst.
  - constructor; [|constructor]. exists (SNAPPY, demo_blob). vm_compute. reflexivity.
  - intros [body Hb]. vm_compute in Hb. discriminate Hb.
  - cbn in Hr. destruct Hr as [reason ->]. exists w', (Err (ConcurrentUpdate (lit "b.parquet") reason)).
    split; [exact H|]. split; [reflexivity|]. split.
    + destruct (Hd (nth 0 demo_jobs (mkJob (Y := ref_bytes) (mkEntry [] 0 []) (SNAPPY, []) None))) as (et & _ & He); [left|].
      exists et. exact He.
    + refine (eq_trans (Hk (lit "b.parquet") _) _); [|reflexivity].
      intros Hin. apply list_elem_of_singleton in Hin. discriminate Hin.
Defined.
