(* ===== verification/ModifyStatement.v ===== *)
(** * DELETE and UPDATE as statements.

    The pieces of the modify path put together: callbacks that carry the
    ctids a scan stamped, the edit map they build, the rewrite of every
    touched blob and the two-phase commit.  The result is stated on the rows
    of the blobs: a row is gone or changed exactly when a callback addressed
    it. *)

From S2P Require Import Prelude RustStr Redact Errors RowId Options Externals Kernel Convert BlobService Store Handoff Coordinator ParquetIO Modify PlanFacts CommitFacts.
Local Open Scope Z_scope.

Section Statement.
Context {Y : BytesApi} {B : BlobApi} {L : BlobLaws B} {A : ArrowApi} {AL : ArrowLaws A} {R : RoaringApi} {RL : RoaringLaws R}.
Context {Q : ParquetApi} {QL : ParquetLaws Q} {P : PgApi} {U : UuidApi} {UL : UuidLaws U}.

Abbreviation cont w := (blobs (w_svc w)).

(** A stored blob as its body decodes. *)
Record Source := mkSource { src_body : Bytes; src_codec : option PqCompression; src_ins : list RecordBatch }.

Context (nr : str -> FdwResult Z) (plan : ModifyPlan) (bl : BlobList) (c0 : Container) (srcs : list Source).

(** The container holds the scanned version; it fits the schema and the caps
    and its footer counts its rows. *)
Definition source_ok (b : str * str) (s : Source) : Prop :=
  c0 !! b.1 = Some (b.2, src_body s) /\ bytes_len (src_body s) <= MAX_BLOB_BYTES /\
  decodes (src_body s) (src_codec s) (src_ins s) /\
  Forall (fun b => conforms (plan_schema plan) (batch_columns b) (num_rows b)) (src_ins s) /\
  total_memory (src_ins s) <= MAX_BLOB_BYTES /\
  blob_row_count nr b.1 = Ok (Z.of_nat (total_rows (src_ins s))).

Context (plan_fresh : edits plan = ∅) (table_built : build_blob_table nr bl = Ok (blob_table plan)).
Context (bl_nodup : NoDup (map fst bl)) (table_small : Z.of_nat (length (blob_table plan)) <= u32_max).
Context (srcs_ok : Forall2 source_ok bl srcs).

Abbreviation base j := (Z.of_nat (base_id_of nr bl j)).

(** Row [t.2] of the [t.1]-th blob exists. *)
Definition in_source (t : nat * nat) : Prop := exists s, srcs !! t.1 = Some s /\ (t.2 < total_rows (src_ins s))%nat.

(** The ctid the scan stamps on it. *)
Definition row_ctid (t : nat * nat) : ItemPointerData := to_ctid (from_absolute (base t.1) (Z.of_nat t.2)).

Definition at_row (op : Edit) (t : nat * nat) : Prop := in_source t /\ edit_rid op = from_ctid (row_ctid t).

Lemma source_rows j s : srcs !! j = Some s -> Z.of_nat (total_rows (src_ins s)) <= u32_max.
Proof.
  intros Hj. destruct (Forall2_lookup_r _ _ _ _ _ srcs_ok Hj) as ([nm et] & Hb & (_ & _ & _ & _ & _ & Hn)).
  apply build_blob_table_from in table_built as [_ HF]. rewrite Forall_lookup in HF. destruct (HF j _ Hb) as (n & Hn' & Hmax). cbn [fst] in *. congruence.
Qed.

Lemma row_target op t : at_row op t ->
  target plan op = Some (base t.1, Z.of_nat t.2) /\
  exists b, bl !! t.1 = Some b /\ blob_table plan !! Z.to_nat (base t.1) = Some (mkEntry b.1 0 b.2).
Proof.
  intros [(s & Hs & Hk) Hr]. destruct (Forall2_lookup_r _ _ _ _ _ srcs_ok Hs) as ([nm et] & Hb & (_ & _ & _ & _ & _ & Hn)). cbn [fst] in Hn.
  destruct (ctid_resolves nr plan bl t.1 nm et _ (Z.of_nat t.2) table_built bl_nodup Hb Hn) as [Hres Htab]; [lia|done|].
  split; [unfold target; rewrite Hr; unfold row_ctid; by rewrite Hres|]. by exists (nm, et).
Qed.

(** Blobs with addressed rows have distinct base ids. *)
Lemma base_inj op op' t t' : at_row op t -> at_row op' t' -> base t.1 = base t'.1 -> t.1 = t'.1.
Proof.
  intros H H' E. apply row_target in H as (_ & b & Hb & Htab). apply row_target in H' as (_ & b' & Hb' & Htab').
  rewrite E, Htab' in Htab. injection Htab as E1 _. eapply (NoDup_lookup (map fst bl)); [done| |];
    rewrite (list_lookup_fmap fst); [by rewrite Hb|by rewrite Hb'; cbn; f_equal].
Qed.

(** ** The edits of a blob *)

Lemma edits_dom p ops p' b : foldM record_edit p ops = Ok p' ->
  is_Some (edits p' !! b) <-> is_Some (edits p !! b) \/ exists op r, op ∈ ops /\ target p op = Some (b, r).
Proof.
  revert p. induction ops as [|op ops IH]; intros p H; cbn [foldM] in H.
  - injection H as <-. split; [auto|]. intros [?|(op & r & Hin & _)]; [done|by apply not_elem_of_nil in Hin].
  - apply bind_Ok_inv in H as (p1 & H1 & H). rewrite (IH p1 H). apply record_edit_Ok in H1 as (_ & b1 & r1 & Hr & ->).
    assert (target p op = Some (b1, r1)) as Ht by (unfold target; by rewrite Hr). cbn [with_edit edits].
    rewrite lookup_insert_is_Some'. change (target (with_edit _ _ _)) with (target p). split.
    + intros [[->|?]|(op' & r & Hin & Ht')]; [right; exists op, r1; split; [left|done]|by left|right; exists op', r; split; [by right|done]].
    + intros [?|(op' & r & [->|Hin]%elem_of_cons & Ht')]; [by left; right|left; left; congruence|right; eauto].
Qed.

Section Ops.
Context (ops : list Edit) (ts : list (nat * nat)) (plan' : ModifyPlan).
Context (ops_at : Forall2 at_row ops ts) (recorded : foldM record_edit plan ops = Ok plan') (wf : plan_wf plan').

Definition is_delete (op : Edit) : bool := match op with EDelete _ => true | EUpdate _ _ => false end.

Definition touched (j : nat) : Prop := exists k, (j, k) ∈ ts.

Lemma touched_op j : touched j <-> exists op t, op ∈ ops /\ at_row op t /\ t.1 = j /\ t ∈ ts.
Proof.
  split.
  - intros (k & Hin). apply list_elem_of_lookup in Hin as [i Hi]. destruct (Forall2_lookup_r _ _ _ _ _ ops_at Hi) as (op & Hop & Hat).
    exists op, (j, k). split; [by eapply list_elem_of_lookup_2|]. split; [done|]. split; [done|by eapply list_elem_of_lookup_2].
  - intros (op & [j' k] & _ & _ & <- & Hin). by exists k.
Qed.

Lemma op_at op : op ∈ ops -> exists t, at_row op t /\ t ∈ ts.
Proof.
  intros Hin. apply list_elem_of_lookup in Hin as [i Hi]. destruct (Forall2_lookup_l _ _ _ _ _ ops_at Hi) as (t & Ht & Hat).
  exists t. split; [done|by eapply list_elem_of_lookup_2].
Qed.

Lemma dirty_iff b : b ∈ dirty_keys plan' <-> exists j, touched j /\ b = base j.
Proof.
  unfold dirty_keys. rewrite merge_sort_Permutation. transitivity (is_Some (edits plan' !! b)).
  { rewrite list_elem_of_fmap. split; [intros ([k e] & -> & Hin); apply elem_of_map_to_list in Hin; cbn; eauto|].
    intros [e He]. exists (b, e). split; [done|]. by apply elem_of_map_to_list. }
  rewrite (edits_dom _ _ _ _ recorded), plan_fresh, lookup_empty. split.
  - intros [[? ?]|(op & r & Hin & Ht)]; [done|]. destruct (op_at op Hin) as ([j k] & Hat & Hts). exists j.
    destruct (row_target _ _ Hat) as [Ht' _]. split; [by exists k|]. cbn [fst] in Ht'. congruence.
  - intros (j & Hj & ->). right. apply touched_op in Hj as (op & t & Hin & Hat & <- & _). exists op, (Z.of_nat t.2). split; [done|].
    by apply row_target.
Qed.

(** The edit map of the [j]-th blob. *)
Definition blob_edits (j : nat) : BlobEdits := edits_at plan' (base j).

Lemma blob_edits_deleted j k s : touched j -> srcs !! j = Some s -> (k < total_rows (src_ins s))%nat ->
  bm_contains (deletes (blob_edits j)) (Z.of_nat k) = true <-> exists op, (op, (j, k)) ∈ zip ops ts /\ is_delete op = true.
Proof.
  intros Hj Hs Hk. unfold blob_edits. destruct (record_edits_content plan ops plan' (base j) (Z.of_nat k) recorded) as [-> _].
  unfold edits_at. rewrite plan_fresh, lookup_empty. cbn [default]. unfold BlobEdits_default. cbn [deletes].
  rewrite bm_contains_empty, orb_false_r. unfold deleted_by. rewrite existsb_exists. setoid_rewrite <- list_elem_of_In.
  apply touched_op in Hj as (op0 & t0 & _ & Hat0 & E0 & _). split.
  - intros (op & Hin & Hop). destruct op as [rid|]; [|done]. apply list_elem_of_lookup in Hin as [i Hi].
    destruct (Forall2_lookup_l _ _ _ _ _ ops_at Hi) as ([j' k'] & Ht & Hat). destruct (row_target _ _ Hat) as [Htg _]. rewrite Htg in Hop.
    apply andb_true_iff in Hop as [Hb%Z.eqb_eq Hr%Z.eqb_eq]. cbn [fst snd] in *.
    assert (j' = j) as -> by (rewrite <- E0; apply (base_inj _ _ (j', k') t0 Hat Hat0); cbn [fst]; by rewrite E0).
    destruct Hat as [(s' & Hs' & Hk') _]. cbn [fst snd] in *. assert (s' = s) as -> by congruence. pose proof (source_rows _ _ Hs).
    rewrite as_u32_id in Hr by (unfold is_u32; lia). exists (EDelete rid). split; [|done]. apply (list_elem_of_lookup_2 _ i).
    apply lookup_zip_with_Some. exists (EDelete rid), (j, k'). split; [|done]. do 2 f_equal. lia.
  - intros (op & Hin & Hop). apply list_elem_of_lookup in Hin as [i Hi]. apply lookup_zip_with_Some in Hi as (op' & t' & E & Ho & Ht). injection E as -> <-.
    pose proof (Forall2_lookup_lr _ _ _ _ _ _ ops_at Ho Ht) as Hat. exists op'. split; [by eapply list_elem_of_lookup_2|]. destruct op' as [rid|]; [|done].
    destruct (row_target _ _ Hat) as [-> _]. cbn [fst snd]. rewrite Z.eqb_refl. pose proof (source_rows _ _ Hs). rewrite as_u32_id by (unfold is_u32; lia). apply Z.eqb_refl.
Qed.

(** An override addresses a row of the blob. *)
Lemma blob_edits_updated j k : touched j -> is_Some (updates (blob_edits j) !! k) ->
  exists op k', (op, (j, k')) ∈ zip ops ts /\ is_delete op = false /\ k = Z.of_nat k' /\ in_source (j, k').
Proof.
  intros Hj. unfold blob_edits. destruct (record_edits_content plan ops plan' (base j) k recorded) as [_ ->].
  unfold edits_at. rewrite plan_fresh, lookup_empty. cbn [default]. unfold BlobEdits_default. cbn [updates]. rewrite lookup_empty.
  apply touched_op in Hj as (op0 & t0 & _ & Hat0 & E0 & _). unfold updated_by.
  assert (forall acc, is_Some (foldl (fun acc op => match op with
             | EUpdate _ ovr => match target plan op with Some (b', r') => if (b' =? base j) && (r' =? k) then Some ovr else acc | None => acc end
             | EDelete _ => acc end) acc ops) ->
    is_Some acc \/ exists op k', (op, (j, k')) ∈ zip ops ts /\ is_delete op = false /\ k = Z.of_nat k' /\ in_source (j, k')) as Hfold.
  { clear recorded. induction ops_at as [|op [j1 k1] ops1 ts1 Hat Hrest IH]; intros acc Hs; [by left|]. cbn [foldl] in Hs. apply (IH Hrest) in Hs as [Hs|(op' & k' & Hin & H1)].
    - destruct op as [rid|rid ovr]; [by left|]. destruct (row_target _ _ Hat) as [Htg _]. rewrite Htg in Hs.
      cbn [fst snd] in Hs. destruct (Z.eqb_spec (base j1) (base j)) as [Eb|]; [|by left]. destruct (Z.eqb_spec (Z.of_nat k1) k) as [Ek|]; [|by left].
      right. assert (j1 = j) as -> by (rewrite <- E0; apply (base_inj _ _ (j1, k1) t0 Hat Hat0); by rewrite E0).
      exists (EUpdate rid ovr), k1. split; [left|]. split; [done|]. split; [done|]. by destruct Hat as [Hin _].
    - right. exists op', k'. split; [by right|done]. }
  intros Hs. apply Hfold in Hs as [[? ?]|Hs]; [done|exact Hs].
Qed.

(** An edit of [t] hits row [k] of blob [j] exactly when [t] is that row. *)
Lemma target_hit op t j k : touched j -> at_row op t ->
  target plan op = Some (base t.1, Z.of_nat t.2) /\
  (base t.1 =? base j) && (Z.of_nat t.2 =? Z.of_nat k) = bool_decide (t = (j, k)).
Proof.
  intros Hj Hat. split; [by apply row_target|]. apply touched_op in Hj as (op0 & t0 & _ & Hat0 & <- & _). destruct t as [j1 k1]. cbn [fst snd].
  apply eq_true_iff_eq. rewrite andb_true_iff, !Z.eqb_eq, bool_decide_eq_true. split; [|intros [= -> ->]; done].
  intros [Eb Ek]. rewrite (base_inj _ _ (j1, k1) t0 Hat Hat0 Eb : j1 = t0.1). f_equal. lia.
Qed.

Abbreviation step j k := (fun acc op => match op with
  | EUpdate _ ovr => match target plan op with Some (b', r') => if (b' =? base j) && (r' =? Z.of_nat k) then Some ovr else acc | None => acc end
  | EDelete _ => acc end).

(** Edits of other rows leave a row's override alone. *)
Lemma fold_misses j k ops1 ts1 : touched j -> Forall2 at_row ops1 ts1 -> (j, k) ∉ ts1 ->
  forall acc, foldl (step j k) acc ops1 = acc.
Proof.
  intros Hj. induction 1 as [|op t ops1 ts1 Hat _ IH]; intros Hn acc; [done|]. apply not_elem_of_cons in Hn as [Hne Hn]. cbn [foldl]. rewrite IH by done.
  destruct op; [done|]. destruct (target_hit _ _ j k Hj Hat) as [-> ->]. by rewrite bool_decide_false.
Qed.

Lemma fold_hits j k ops1 ts1 i rid ovr : touched j -> Forall2 at_row ops1 ts1 -> NoDup ts1 ->
  ops1 !! i = Some (EUpdate rid ovr) -> ts1 !! i = Some (j, k) -> forall acc, foldl (step j k) acc ops1 = Some ovr.
Proof.
  intros Hj HF. revert i. induction HF as [|op t ops1 ts1 Hat HF IH]; intros [|i] Hnd Ho Ht acc; cbn [lookup list_lookup] in *; try done;
    apply NoDup_cons in Hnd as [Hn Hnd]; cbn [foldl]; [|by eapply IH].
  injection Ho as ->. injection Ht as ->. rewrite (fold_misses j k ops1 ts1) by done.
  destruct (target_hit _ _ j k Hj Hat) as [-> ->]. by rewrite bool_decide_true.
Qed.

Lemma blob_edits_fold j k : updates (blob_edits j) !! Z.of_nat k = foldl (step j k) None ops.
Proof.
  unfold blob_edits. destruct (record_edits_content plan ops plan' (base j) (Z.of_nat k) recorded) as [_ ->].
  unfold edits_at. rewrite plan_fresh, lookup_empty. cbn [default]. unfold BlobEdits_default. cbn [updates]. by rewrite lookup_empty.
Qed.

Lemma blob_edits_missed j k : touched j -> (j, k) ∉ ts -> updates (blob_edits j) !! Z.of_nat k = None.
Proof. intros Hj Hn. rewrite blob_edits_fold. by apply (fold_misses j k ops ts). Qed.

Lemma blob_edits_hit j k i rid ovr : NoDup ts ->
  ops !! i = Some (EUpdate rid ovr) -> ts !! i = Some (j, k) -> updates (blob_edits j) !! Z.of_nat k = Some ovr.
Proof. intros Hnd Ho Ht. rewrite blob_edits_fold. eapply (fold_hits j k ops ts); [|done..]. exists k. by eapply list_elem_of_lookup_2. Qed.

(** ** The commit *)

Lemma recorded_consts : blob_table plan' = blob_table plan /\ plan_schema plan' = plan_schema plan /\ plan_compression plan' = plan_compression plan.
Proof.
  clear -recorded. revert plan recorded. induction ops as [|op ops1 IH]; intros p H; cbn [foldM] in H; [by injection H as <-|].
  apply bind_Ok_inv in H as (p1 & H1 & H). destruct (IH p1 H) as (-> & -> & ->). apply record_edit_Ok in H1 as (_ & b & r & _ & ->). done.
Qed.

(** What the commit makes of a touched blob. *)
Definition blob_outcome (c : Container) (j : nat) (b : str * str) (s : Source) : Prop :=
  let e := blob_edits j in
  if (surviving e (src_ins s) =? 0)%nat then c !! b.1 = None
  else exists et bytes outs, c !! b.1 = Some (et, bytes) /\ et <> b.2 /\
    decodes bytes (Some (rewrite_codec plan (src_codec s))) outs /\ rows_rewritten e 0 (plan_schema plan) (src_ins s) outs.

(** No rewritten file is over the upload cap. *)
Definition uploads_fit : Prop := forall j b s bytes, bl !! j = Some b -> srcs !! j = Some s ->
  rewrite_body plan' b.1 (blob_edits j) (src_body s) = Ok (Some bytes) -> bytes_len bytes <= MAX_BLOB_BYTES.

Context (small : uploads_fit).

(** The job of phase 1 for the blob with base id [key]. *)
Definition job_for (key : Z) (jb : Job) : Prop :=
  job_ok plan' c0 key jb /\ exists j b s, touched j /\ key = base j /\ bl !! j = Some b /\ srcs !! j = Some s /\
    job_entry jb = mkEntry b.1 0 b.2 /\
    match job_res jb with
    | None => surviving (blob_edits j) (src_ins s) = O
    | Some bytes => surviving (blob_edits j) (src_ins s) <> O /\ exists outs,
        decodes bytes (Some (rewrite_codec plan (src_codec s))) outs /\ rows_rewritten (blob_edits j) 0 (plan_schema plan) (src_ins s) outs
    end.

Lemma touched_rewritable j s : touched j -> srcs !! j = Some s ->
  rewritable (plan_schema plan') (blob_edits j) (src_body s) (src_codec s) (src_ins s).
Proof.
  intros Hj Hs. destruct (Forall2_lookup_r _ _ _ _ _ srcs_ok Hs) as (b & Hb & (_ & _ & Hdec & HF & Hmem & _)).
  destruct recorded_consts as (_ & Hsch & _). unfold rewritable. rewrite Hsch.
  split; [done|]. split; [done|]. split; [by eapply source_rows|]. split; [done|]. split.
  - rewrite <- Hsch. unfold blob_edits, edits_at. destruct (edits plan' !! base j) as [e|] eqn:E; [by eapply wf|]. apply overrides_ok_default.
  - intros k Hk. destruct (blob_edits_updated j k Hj Hk) as (op & k' & _ & _ & -> & (s' & Hs' & Hlt)). cbn [fst snd] in *.
    assert (s' = s) as -> by congruence. lia.
Qed.

Lemma job_exists key : key ∈ dirty_keys plan' -> exists jb, job_for key jb.
Proof.
  intros Hkey. pose proof Hkey as Hd. apply dirty_iff in Hkey as (j & Hj & ->). pose proof Hj as Hop. apply touched_op in Hop as (op & t & Hin & Hat & <- & _).
  destruct (row_target _ _ Hat) as (_ & b & Hb & Htab). destruct Hat as [(s & Hs & _) _].
  destruct (Forall2_lookup_lr _ _ _ _ _ _ srcs_ok Hb Hs) as (Hc & Hsz & _).
  destruct recorded_consts as (Htb & Hsch & Hcomp).
  assert (exists e, edits plan' !! base t.1 = Some e /\ blob_edits t.1 = e) as (e & He & Ee).
  { unfold dirty_keys in Hd. rewrite merge_sort_Permutation in Hd. apply list_elem_of_fmap in Hd as ([k e] & Ek & Hd). apply elem_of_map_to_list in Hd. cbn in Ek. subst k.
    exists e. split; [done|]. unfold blob_edits, edits_at. by rewrite Hd. }
  assert (rewrite_codec plan' (src_codec s) = rewrite_codec plan (src_codec s)) as Hcod by (unfold rewrite_codec; by rewrite Hcomp).
  pose proof (rewrite_body_ok plan' b.1 (blob_edits t.1) (src_body s) (src_codec s) (src_ins s) (touched_rewritable t.1 s Hj Hs)) as Hr. rewrite Hcod, Hsch in Hr.
  destruct Hr as [[Hz Hr]|(Hp & bytes & outs & Hr & _ & Hdec & Hrows)].
  - exists (mkJob (mkEntry b.1 0 b.2) (src_body s) None). split.
    + split; [by rewrite Htb|]. cbn [job_entry job_body job_res name etag]. split; [done|]. split; [done|]. split; [|done]. exists e. split; [done|by rewrite <- Ee].
    + exists t.1, b, s. done.
  - exists (mkJob (mkEntry b.1 0 b.2) (src_body s) (Some bytes)). split.
    + split; [by rewrite Htb|]. cbn [job_entry job_body job_res name etag]. split; [done|]. split; [done|]. split.
      * exists e. split; [done|by rewrite <- Ee].
      * intros ? [= <-]. by apply (small t.1 b s).
    + exists t.1, b, s. repeat (split; [done|]). cbn [job_res]. split; [lia|]. by exists outs.
Qed.

Lemma jobs_exist keys : (forall k, k ∈ keys -> k ∈ dirty_keys plan') -> exists jobs, Forall2 job_for keys jobs.
Proof.
  induction keys as [|k keys IH]; intros H; [by exists []|]. destruct (job_exists k) as [jb Hjb]; [apply H; left|].
  destruct IH as [jobs Hjobs]; [intros; apply H; by right|]. exists (jb :: jobs). by constructor.
Qed.

(** A blob of the list, by name. *)
Lemma bl_name_inj i j b b' : bl !! i = Some b -> bl !! j = Some b' -> b.1 = b'.1 -> i = j.
Proof.
  intros Hi Hj E. eapply (NoDup_lookup (map fst bl)); [done| |]; rewrite (list_lookup_fmap fst); [by rewrite Hi|by rewrite Hj; cbn; f_equal].
Qed.

Lemma dirty_nodup : NoDup (dirty_keys plan').
Proof. unfold dirty_keys. rewrite merge_sort_Permutation. apply NoDup_fst_map_to_list. Qed.

Lemma jobs_names_nodup jobs : Forall2 job_for (dirty_keys plan') jobs -> NoDup (map (fun j => name (job_entry j)) jobs).
Proof.
  intros HF. apply NoDup_alt. intros i i' n Hi Hi'. change (map ?f jobs) with (f <$> jobs) in *. rewrite list_lookup_fmap in Hi, Hi'.
  destruct (jobs !! i) as [x|] eqn:Ex; [|done]. destruct (jobs !! i') as [x'|] eqn:Ex'; [|done]. injection Hi as Hi. injection Hi' as Hi'.
  destruct (Forall2_lookup_r _ _ _ _ _ HF Ex) as (k & Hk & _ & j & b & s & _ & -> & Hb & _ & Hent & _).
  destruct (Forall2_lookup_r _ _ _ _ _ HF Ex') as (k' & Hk' & _ & j' & b' & s' & _ & -> & Hb' & _ & Hent' & _).
  rewrite Hent in Hi. rewrite Hent' in Hi'. cbn [name] in *. assert (j = j') as <- by (eapply bl_name_inj; [done..|congruence]).
  eapply NoDup_lookup; [apply dirty_nodup|exact Hk|exact Hk'].
Qed.

Lemma dirty_count : (length (dirty_keys plan') <= length ts)%nat.
Proof.
  rewrite <- (length_map (fun t : nat * nat => base t.1) ts). apply submseteq_length, NoDup_submseteq; [apply dirty_nodup|].
  intros k Hk. apply dirty_iff in Hk as (j & (r & Hr) & ->). change (map ?f ts) with (f <$> ts). apply list_elem_of_fmap. by exists (j, r).
Qed.

Lemma statement_commits (w : World B) a :
  cont w = c0 -> w_active w = Some a -> in_flight (active_coord a) = ∅ -> staging_unused plan c0 -> Z.of_nat (w_uuids w + length ts) <= UUIDS ->
  exists w', commit_plan plan' w = (w', Ok tt) /\ flight w' = ∅ /\
    (forall j b s, bl !! j = Some b -> srcs !! j = Some s -> touched j -> blob_outcome (cont w') j b s) /\
    (forall n, (forall j b, touched j -> bl !! j = Some b -> n <> b.1) -> cont w' !! n = c0 !! n).
Proof.
  intros Hc Ha Hfl Hun Hu. destruct (jobs_exist (dirty_keys plan') (fun k H => H)) as [jobs Hjobs]. destruct recorded_consts as (Htb & _ & _).
  destruct (commit_plan_ok plan' w a jobs) as (w' & Hrun & Hfl' & Hout & Hframe); [done|done| | | |by apply jobs_names_nodup|].
  { unfold staging_unused. rewrite Htb, Hc. exact Hun. }
  { pose proof dirty_count. lia. }
  { rewrite Hc. eapply Forall2_impl; [exact Hjobs|]. by intros ? ? [? _]. }
  exists w'. split; [done|]. split; [done|]. split.
  - intros j b s Hb Hs Hj. assert (base j ∈ dirty_keys plan') as Hd by (apply dirty_iff; by exists j).
    apply list_elem_of_lookup in Hd as [i Hi]. destruct (Forall2_lookup_l _ _ _ _ _ Hjobs Hi) as (jb & Hjb & _ & j' & b' & s' & Hj' & Ebase & Hb' & Hs' & Hent & Hres).
    assert (j = j') as <-.
    { apply touched_op in Hj as (op & t & _ & Hat & <- & _). apply touched_op in Hj' as (op' & t' & _ & Hat' & <- & _). by apply (base_inj _ _ _ _ Hat Hat'). }
    assert (b' = b) as -> by congruence. assert (s' = s) as -> by congruence. specialize (Hout jb (list_elem_of_lookup_2 _ _ _ Hjb)). rewrite Hent in Hout. cbn [name etag] in Hout.
    unfold blob_outcome. destruct (job_res jb) as [bytes|].
    + destruct Hres as (Hne & outs & Hdec & Hrows). rewrite (proj2 (Nat.eqb_neq _ _) Hne). destruct Hout as (et & Het & Hl). by exists et, bytes, outs.
    + by rewrite Hres.
  - intros n Hn. rewrite <- Hc. apply Hframe. intros Hin. apply list_elem_of_fmap in Hin as (jb & -> & Hin). apply list_elem_of_lookup in Hin as [i Hi].
    destruct (Forall2_lookup_r _ _ _ _ _ Hjobs Hi) as (k & _ & _ & j & b & s & Hj & _ & Hb & _ & Hent & _). rewrite Hent in Hn. by apply (Hn j b).
Qed.
End Ops.
End Statement.
