(* ===== verification/ModifyClaims.v ===== *)
(** * DELETE and UPDATE do what SQL means by them.

    [delete_statement]: the rows whose ctids the callbacks carried are gone,
    all others remain, in order.  [update_statement]: exactly those rows have
    the new values in the SET columns.  Both against the container as it is
    after the commit. *)

From S2P Require Import Prelude RustStr Redact Errors RowId Options Externals Kernel Convert BlobService Store Handoff Coordinator ParquetIO Modify PlanFacts CommitFacts ModifyStatement.
Local Open Scope Z_scope.

Section Claims.
Context {Y : BytesApi} {B : BlobApi} {L : BlobLaws B} {A : ArrowApi} {AL : ArrowLaws A} {R : RoaringApi} {RL : RoaringLaws R}.
Context {Q : ParquetApi} {QL : ParquetLaws Q} {P : PgApi} {PL : PgLaws P} {U : UuidApi} {UL : UuidLaws U}.

Abbreviation cont w := (blobs (w_svc w)).

Context (nr : str -> FdwResult Z) (plan : ModifyPlan) (bl : BlobList) (srcs : list Source).

(** The plan slot of a callback carries the ctid of row [t]. *)
Definition slot_at_row (ps : PlanSlot) (t : nat * nat) : Prop :=
  in_source srcs t /\ read_ctid_via_junk ps (ctid_attno plan) = Ok (from_ctid (row_ctid nr bl t)).

(** What all statements assume: a fresh plan built from the handed-over blob
    list, and a container that still holds the scanned versions. *)
Definition statement_ok (w : World B) (n : nat) : Prop :=
  edits plan = ∅ /\ edit_count plan = 0 /\ Z.of_nat n <= MAX_EDITS_PER_STATEMENT /\
  build_blob_table nr bl = Ok (blob_table plan) /\ NoDup (map fst bl) /\ Z.of_nat (length (blob_table plan)) <= u32_max /\
  Forall2 (source_ok nr plan (cont w)) bl srcs /\
  (exists a, w_active w = Some a /\ in_flight (active_coord a) = ∅) /\ staging_unused plan (cont w) /\ Z.of_nat (w_uuids w + n) <= UUIDS.

Lemma budget_ok p : edit_count p < MAX_EDITS_PER_STATEMENT -> check_edit_budget p = Ok tt.
Proof. intros H. unfold check_edit_budget. destruct (Z.leb_spec MAX_EDITS_PER_STATEMENT (edit_count p)); [lia|done]. Qed.

(** Recording an edit whose row resolves. *)
Lemma record_edit_runs p op b r : 0 <= edit_count p < MAX_EDITS_PER_STATEMENT -> resolve_to_source p (edit_rid op) = Ok (b, r) ->
  exists p', record_edit p op = Ok p' /\ edit_count p' = edit_count p + 1.
Proof.
  intros Hc Hr. assert (exists p', record_edit p op = Ok p') as [p' Hp'].
  { destruct op as [rid|rid ovr]; cbn [record_edit edit_rid] in *; unfold record_delete, record_update; rewrite budget_ok by lia; cbn [mbind result_bind];
      rewrite Hr; cbn [mbind result_bind]; eauto. }
  exists p'. split; [done|]. by destruct (record_edit_count p op p' (proj1 Hc) Hp').
Qed.

(** The fields of a plan the callbacks read. *)
Definition same_plan (p : ModifyPlan) : Prop :=
  ctid_attno p = ctid_attno plan /\ plan_schema p = plan_schema plan /\ pg_oids p = pg_oids plan /\ update_attnums p = update_attnums plan /\
  forall rid, resolve_to_source p rid = resolve_to_source plan rid.

Lemma record_edit_same p op p' : same_plan p -> record_edit p op = Ok p' -> same_plan p'.
Proof. intros Hs H. destruct (record_edit_Ok _ _ _ H) as (Hb & b & r & Hr & E). rewrite E. exact Hs. Qed.

(** Callbacks that come down to recording edits of existing rows all run. *)
Lemma callbacks_run {S} (step : ModifyPlan -> S -> FdwResult ModifyPlan) (ss : list S) ops :
  Forall (fun op => exists br, resolve_to_source plan (edit_rid op) = Ok br) ops ->
  Forall2 (fun s op => forall p, same_plan p -> step p s = record_edit p op) ss ops ->
  forall p, same_plan p -> 0 <= edit_count p -> edit_count p + Z.of_nat (length ss) <= MAX_EDITS_PER_STATEMENT ->
  exists p', foldM step p ss = Ok p' /\ foldM record_edit p ops = Ok p'.
Proof.
  intros HF. induction 1 as [|s op ss ops Hst _ IH]; intros p Hp H0 Hc; [by exists p|]. apply Forall_cons in HF as [[[b r] Hr] HF].
  cbn [foldM length] in *. rewrite (Hst p Hp).
  destruct (record_edit_runs p op b r) as (p1 & H1 & Hc1); [lia|destruct Hp as (_ & _ & _ & _ & ->); done|]. rewrite H1. cbn [mbind result_bind].
  apply IH; [done|by eapply record_edit_same|lia|lia].
Qed.

Lemma row_resolves w n op t : statement_ok w n -> at_row nr bl srcs op t -> exists br, resolve_to_source plan (edit_rid op) = Ok br.
Proof.
  intros (_ & _ & _ & Htb & Hnd & Hsm & Hsrc & _) Hat. destruct (row_target nr plan bl (cont w) srcs Htb Hnd Hsm Hsrc op t Hat) as [Ht _].
  unfold target in Ht. destruct (resolve_to_source _ _) as [br|]; [by exists br|done].
Qed.

(** What both statements share: the callbacks record the edits and the commit
    applies them. *)
Lemma statement_runs {S} (w : World B) (step : ModifyPlan -> S -> FdwResult ModifyPlan) (ss : list S) ops ts :
  statement_ok w (length ts) -> Forall2 (at_row nr bl srcs) ops ts ->
  Forall2 (fun s op => forall p, same_plan p -> step p s = record_edit p op) ss ops ->
  (forall p, foldM step plan ss = Ok p -> plan_wf p /\ uploads_fit nr bl srcs p) ->
  exists plan' w', foldM step plan ss = Ok plan' /\ foldM record_edit plan ops = Ok plan' /\ commit_plan plan' w = (w', Ok tt) /\ flight w' = ∅ /\
    (forall j b s, bl !! j = Some b -> srcs !! j = Some s -> touched ts j -> blob_outcome nr plan bl plan' (cont w') j b s) /\
    (forall n, (forall j b, touched ts j -> bl !! j = Some b -> n <> b.1) -> cont w' !! n = cont w !! n).
Proof.
  intros Hok Hat Hst Hwf. pose proof Hok as (He & Hc0 & Hbud & Htb & Hnd & Hsm & Hsrc & (a & Ha & Hfl) & Hun & Hu).
  destruct (callbacks_run step ss ops) with (p := plan) as (plan' & Hrun & Hrec); [|done|done|lia| |].
  - eapply Forall2_Forall_l; [exact Hat|]. apply Forall_forall. intros t _ op. by apply (row_resolves w (length ts)).
  - rewrite Hc0, (Forall2_length _ _ _ Hst), (Forall2_length _ _ _ Hat). lia.
  - destruct (statement_commits nr plan bl (cont w) srcs He Htb Hnd Hsm Hsrc ops ts plan' Hat Hrec (proj1 (Hwf _ Hrun)) (proj2 (Hwf _ Hrun)) w a eq_refl Ha Hfl Hun Hu) as (w' & H).
    exists plan', w'. done.
Qed.

(** ** DELETE *)

(** The rows of the [j]-th blob that no callback addressed. *)
Definition kept_rows (ts : list (nat * nat)) (j n : nat) : list bool := map (fun k => negb (bool_decide ((j, k) ∈ ts))) (seq 0 n).

Lemma keep_mask_rows e ts j n : (forall k, (k < n)%nat -> bm_contains (deletes e) (Z.of_nat k) = bool_decide ((j, k) ∈ ts)) ->
  keep_mask e 0 n = kept_rows ts j n.
Proof.
  intros H. apply list_eq. intros k. unfold kept_rows. change (map ?f (seq 0 n)) with (f <$> seq 0 n). rewrite list_lookup_fmap.
  destruct (decide (k < n)%nat) as [Hk|Hk].
  - rewrite keep_mask_lookup, lookup_seq_lt by done. cbn. by rewrite Z.add_0_l, H.
  - rewrite !lookup_ge_None_2; [done| |by rewrite keep_mask_length; lia]. rewrite length_seq. lia.
Qed.

Lemma no_overrides e i off l : updates e = ∅ -> rewrite_cells e i off l = l.
Proof. intros H. apply rewrite_cells_id. intros k _. unfold override_at. by rewrite H, lookup_empty. Qed.

Lemma zip_deletes (ts : list (nat * nat)) op t :
  (op, t) ∈ zip (map (fun t => EDelete (from_ctid (row_ctid nr bl t))) ts) ts <-> op = EDelete (from_ctid (row_ctid nr bl t)) /\ t ∈ ts.
Proof.
  induction ts as [|t0 ts IH]; cbn [map zip zip_with].
  - split; [by intros ?%not_elem_of_nil|by intros [_ ?%not_elem_of_nil]].
  - rewrite !elem_of_cons, IH. split; [intros [[= -> ->]|[-> ?]]; auto|intros [-> [->|?]]; auto].
Qed.

Lemma delete_wf slots p plan' : edits p = ∅ -> foldM exec_foreign_delete p slots = Ok plan' -> plan_wf plan'.
Proof.
  intros He H. eapply (run_callbacks_wf p (map CbDelete slots)); [done|]. clear He. revert p H. induction slots as [|ps slots IH]; intros p H; [done|].
  cbn [foldM map run_callback] in *. destruct (exec_foreign_delete p ps); [by apply IH|done].
Qed.

(** A DELETE whose callbacks carry the ctids of the rows [ts] succeeds when no
    rewritten file is over the upload cap:
    every blob with an addressed row is replaced, under a new etag and in its
    own codec, by exactly its other rows in order, or removed when none is
    left; every other name of the container is untouched and nothing stays in
    flight. *)
Theorem delete_statement (w : World B) slots ts :
  statement_ok w (length ts) -> Forall2 slot_at_row slots ts ->
  (forall p, foldM exec_foreign_delete plan slots = Ok p -> uploads_fit nr bl srcs p) ->
  exists plan' w', foldM exec_foreign_delete plan slots = Ok plan' /\ commit_plan plan' w = (w', Ok tt) /\ flight w' = ∅ /\
    (forall j b s, bl !! j = Some b -> srcs !! j = Some s -> (exists k, (j, k) ∈ ts) ->
       let kept := kept_rows ts j (total_rows (src_ins s)) in
       if existsb id kept then exists et bytes outs, cont w' !! b.1 = Some (et, bytes) /\ et <> b.2 /\
         decodes bytes (Some (rewrite_codec plan (src_codec s))) outs /\ Forall (fun g => conforms (plan_schema plan) (batch_columns g) (num_rows g)) outs /\
         forall i, (i < length (plan_schema plan))%nat -> blob_column i outs = mask_filter kept (blob_column i (src_ins s))
       else cont w' !! b.1 = None) /\
    (forall n, (forall j b, (exists k, (j, k) ∈ ts) -> bl !! j = Some b -> n <> b.1) -> cont w' !! n = cont w !! n).
Proof.
  intros Hok Hslots Hfit. pose proof Hok as (He & _ & _ & Htb & Hnd & Hsm & Hsrc & _).
  set (ops := map (fun t => EDelete (from_ctid (row_ctid nr bl t))) ts).
  assert (Forall2 (at_row nr bl srcs) ops ts) as Hat.
  { unfold ops. clear -Hslots. induction Hslots as [|ps t slots ts [Hin _] _ IH]; constructor; [by split|done]. }
  destruct (statement_runs w exec_foreign_delete slots ops ts Hok Hat) as (plan' & w' & Hrun & Hrec & Hcm & Hfl & Hout & Hfr); [|intros p Hp; split; [by eapply delete_wf|by apply Hfit]|].
  { unfold ops. clear -Hslots. induction Hslots as [|ps t slots ts [_ Hps] _ IH]; constructor; [|done].
    intros p (Hp & _). unfold exec_foreign_delete. by rewrite Hp, Hps. }
  exists plan', w'. split; [done|]. split; [done|]. split; [done|]. split; [|exact Hfr].
  intros j b s Hb Hs Hj. specialize (Hout j b s Hb Hs Hj). unfold blob_outcome in Hout. cbn zeta in *. set (e := blob_edits nr bl plan' j) in *.
  assert (updates e = ∅) as Hup.
  { apply map_empty. intros k. destruct (updates e !! k) as [o|] eqn:E; [|done]. exfalso.
    destruct (blob_edits_updated nr plan bl (cont w) srcs He Htb Hnd Hsm Hsrc ops ts plan' Hat Hrec j k Hj) as (op & k' & Hin & Hd & _); [by exists o|].
    apply zip_deletes in Hin as [-> _]. done. }
  assert (keep_mask e 0 (total_rows (src_ins s)) = kept_rows ts j (total_rows (src_ins s))) as Hmask.
  { apply keep_mask_rows. intros k Hk. apply eq_true_iff_eq. rewrite bool_decide_eq_true.
    unfold e. rewrite (blob_edits_deleted nr plan bl (cont w) srcs He Htb Hnd Hsm Hsrc ops ts plan' Hat Hrec j k s Hj Hs Hk). split.
    - intros (op & Hin & _). by apply zip_deletes in Hin as [_ ?].
    - intros Hin. eexists. split; [by apply zip_deletes|done]. }
  unfold surviving, rows_rewritten in Hout. rewrite Hmask in Hout.
  destruct (existsb id (kept_rows ts j (total_rows (src_ins s)))) eqn:Eex.
  - assert (length (List.filter id (kept_rows ts j (total_rows (src_ins s)))) <> O) as Hne.
    { intros Hl. apply nil_length_inv in Hl. apply existsb_exists in Eex as (x & Hx & Hid). assert (x ∈ List.filter id (kept_rows ts j (total_rows (src_ins s)))) as Hin.
      { apply list_elem_of_In, filter_In. done. }
      rewrite Hl in Hin. by apply not_elem_of_nil in Hin. }
    rewrite (proj2 (Nat.eqb_neq _ _) Hne) in Hout. destruct Hout as (et & bytes & outs & Hl & Het & Hdec & Hconf & _ & Hcol).
    exists et, bytes, outs. split; [done|]. split; [done|]. split; [done|]. split; [done|]. intros i Hi. by rewrite Hcol, no_overrides.
  - destruct (List.filter id (kept_rows ts j (total_rows (src_ins s)))) as [|x l] eqn:Ef; [exact Hout|]. exfalso.
    assert (In x (List.filter id (kept_rows ts j (total_rows (src_ins s))))) as Hx by (rewrite Ef; by left). apply filter_In in Hx as [Hx Hid].
    rewrite <- not_true_iff_false in Eex. apply Eex, existsb_exists. by exists x.
Qed.
(** ** UPDATE *)

(** The executor's slot has a value for every SET column: NULL only where the
    column allows it, otherwise of a type the write path takes. *)
Definition slot_typed (slot : list (Datum * bool)) : Prop := Forall (fun col => exists f oid d (isnull : bool),
  plan_schema plan !! col = Some f /\ pg_oids plan !! col = Some oid /\ slot !! col = Some (d, isnull) /\
  pg_oid_to_arrow_type oid = Ok (field_type f) /\ if isnull then nullable f = true else canonical oid d) (update_attnums plan).

(** The cell [c] reads back as the slot's value of column [col]. *)
Definition reads_as (slot : list (Datum * bool)) (col : nat) (c : cell) : Prop := exists f oid d (isnull : bool),
  plan_schema plan !! col = Some f /\ pg_oids plan !! col = Some oid /\ slot !! col = Some (d, isnull) /\
  arrow_value_to_datum (field_type f) c oid = Ok (if isnull then None else Some d).

Lemma single_row_reads oid d (isnull : bool) schema col f :
  schema !! col = Some f -> pg_oid_to_arrow_type oid = Ok (field_type f) -> (if isnull then nullable f = true else canonical oid d) ->
  exists a c, datum_to_single_row_array oid d isnull schema col = Ok a /\ array_cells a = [c] /\
    arrow_value_to_datum (field_type f) c oid = Ok (if isnull then None else Some d).
Proof.
  intros Hf Ht Hv. destruct (make_builder_pg oid _ Ht) as [k Hk]. unfold datum_to_single_row_array. rewrite Hf. cbn [ok_or mbind result_bind].
  unfold builders_new. cbn [mapM_res]. rewrite Hk. cbn [mbind result_bind].
  set (b := mkBuilders [f] [mkBuilder k (field_type f) []]).
  assert (exists c, append_one b 0 oid d isnull = Ok (push_cell b 0 (mkBuilder k (field_type f) []) c) /\ (nullable f = false -> c <> None) /\
    arrow_value_to_datum (field_type f) c oid = Ok (if isnull then None else Some d)) as (c & Ha & Hn & Hr).
  { destruct isnull; [exists None; split; [done|]; split; [by rewrite Hv|done]|].
    destruct (append_one_cell b 0 (mkBuilder k (field_type f) []) oid d (field_type f) Hv Ht Hk eq_refl) as (v & Ha & Hr). by exists (Some v). }
  rewrite Ha. cbn [mbind result_bind]. destruct (one_row_finish f k c Hn) as (rb & Hrb & Hcols).
  change (push_cell b 0 (mkBuilder k (field_type f) []) c) with (mkBuilders [f] [mkBuilder k (field_type f) [c]]). rewrite Hrb. cbn [mbind result_bind].
  rewrite Hcols. cbn. exists (build_array (field_type f) [c]), c. by rewrite build_cells.
Qed.

(** The SET values of one callback. *)
Lemma set_columns_run slot cols vals : length vals = length (plan_schema plan) ->
  Forall (fun col => exists f oid d (isnull : bool),
    plan_schema plan !! col = Some f /\ pg_oids plan !! col = Some oid /\ slot !! col = Some (d, isnull) /\
    pg_oid_to_arrow_type oid = Ok (field_type f) /\ if isnull then nullable f = true else canonical oid d) cols ->
  exists vals', foldM (set_column plan slot) vals cols = Ok vals' /\
    forall col, (col ∈ cols -> exists a c, vals' !! col = Some (Some a) /\ array_cells a = [c] /\ reads_as slot col c) /\
                (col ∉ cols -> vals' !! col = vals !! col).
Proof.
  intros Hlen H. revert vals Hlen. induction H as [|col cols (f & oid & d & n & Hf & Hoid & Hs & Ht & Hv) _ IH]; intros vals Hlen.
  { exists vals. split; [done|]. intros col. split; [by intros ?%not_elem_of_nil|done]. }
  destruct (single_row_reads oid d n _ col f Hf Ht Hv) as (a & c & Ha & Hc & Hr). cbn [foldM]. pose proof (lookup_lt_Some _ _ _ Hf) as Hlt.
  assert (set_column plan slot vals col = Ok (<[col := Some a]> vals)) as ->.
  { unfold set_column. rewrite (proj2 (Nat.leb_gt _ _) Hlt), Hs, Hoid. cbn [ok_or mbind result_bind]. by rewrite Ha. }
  cbn [mbind result_bind]. destruct (IH (<[col := Some a]> vals)) as (vals' & Hrun & Hvals); [by rewrite length_insert|]. exists vals'. split; [done|].
  intros col'. destruct (Hvals col') as [Hin Hnin]. split.
  - intros Hc'. destruct (decide (col' ∈ cols)) as [?|Hn]; [by apply Hin|]. apply elem_of_cons in Hc' as [->|?]; [|done].
    exists a, c. rewrite Hnin, list_lookup_insert_eq by (done || lia). split; [done|]. split; [done|]. by exists f, oid, d, n.
  - intros [Hne Hn]%not_elem_of_cons. by rewrite Hnin, list_lookup_insert_ne by done.
Qed.

Definition set_values (slot : list (Datum * bool)) : list (option ArrayRef) :=
  match foldM (set_column plan slot) (replicate (length (plan_schema plan)) None) (update_attnums plan) with Ok v => v | Err _ => [] end.

Lemma set_values_spec slot : slot_typed slot ->
  foldM (set_column plan slot) (replicate (length (plan_schema plan)) None) (update_attnums plan) = Ok (set_values slot) /\
  forall col, (col ∈ update_attnums plan -> exists a c, set_values slot !! col = Some (Some a) /\ array_cells a = [c] /\ reads_as slot col c) /\
              (col ∉ update_attnums plan -> mjoin (set_values slot !! col) = None).
Proof.
  intros Ht. destruct (set_columns_run slot (update_attnums plan) (replicate (length (plan_schema plan)) None)) as (v & Hrun & Hv); [by rewrite length_replicate|done|].
  unfold set_values. rewrite Hrun. split; [done|]. intros col. destruct (Hv col) as [Hin Hnin]. split; [done|]. intros Hn. rewrite Hnin by done.
  destruct (replicate _ _ !! col) as [o|] eqn:E; [|done]. by apply lookup_replicate in E as [-> _].
Qed.

Lemma set_column_same p slot vals col : same_plan p -> set_column p slot vals col = set_column plan slot vals col.
Proof. intros (_ & Hs & Ho & _). unfold set_column. by rewrite Hs, Ho. Qed.

Definition update_op (slot : list (Datum * bool)) (t : nat * nat) : Edit :=
  EUpdate (from_ctid (row_ctid nr bl t)) (mkRowOverride (set_values slot)).

Lemma exec_update_records p slot ps t : same_plan p -> slot_typed slot -> slot_at_row ps t ->
  exec_foreign_update p slot ps = record_edit p (update_op slot t).
Proof.
  intros Hp Ht [_ Hps]. destruct (set_values_spec slot Ht) as [Hrun _]. unfold exec_foreign_update.
  rewrite (foldM_ext _ _ (update_attnums p) (fun v c => set_column_same p slot v c Hp)). destruct Hp as (-> & -> & _ & -> & _).
  rewrite Hps. cbn [mbind result_bind]. by rewrite Hrun.
Qed.

Lemma rewrite_cells_lookup e col l : forall abs k, rewrite_cells e col abs l !! k = spec_cell e col (abs + Z.of_nat k) <$> l !! k.
Proof.
  induction l as [|c l IH]; intros abs [|k]; cbn [rewrite_cells lookup list_lookup fmap option_fmap option_map]; try done.
  - by rewrite Z.add_0_r.
  - rewrite IH. do 2 f_equal. lia.
Qed.

Lemma column_length schema (ins : list RecordBatch) i : (i < length schema)%nat ->
  Forall (fun b => conforms schema (batch_columns b) (num_rows b)) ins -> length (blob_column i ins) = total_rows ins.
Proof.
  intros Hi. induction 1 as [|b ins [_ Hb] _ IH]; [done|]. rewrite blob_column_cons, length_app, IH. unfold total_rows. cbn [map sum_list]. f_equal.
  apply lookup_lt_is_Some_2 in Hi as [f Hf]. destruct (Forall2_lookup_l _ _ _ _ _ Hb Hf) as (c & Hc & _). by eapply col_cells_length.
Qed.

Lemma kept_nothing_addressed j n : kept_rows [] j n = replicate n true.
Proof.
  apply list_eq. intros k. unfold kept_rows. change (map ?f (seq 0 n)) with (f <$> seq 0 n). rewrite list_lookup_fmap. destruct (decide (k < n)%nat).
  - by rewrite lookup_seq_lt, lookup_replicate_2.
  - rewrite !lookup_ge_None_2; [done|by rewrite length_replicate; lia|by rewrite length_seq; lia].
Qed.

Lemma filter_all_true n : List.filter id (replicate n true) = replicate n true.
Proof. induction n as [|n IH]; [done|]. cbn. by rewrite IH. Qed.
(** The update callback on the two slots the executor passes. *)
Definition exec_update (p : ModifyPlan) (us : list (Datum * bool) * PlanSlot) : FdwResult ModifyPlan := exec_foreign_update p us.1 us.2.

Definition update_of (us : list (Datum * bool) * PlanSlot) (t : nat * nat) : Edit := update_op us.1 t.

(** The callback of row [t]. *)
Definition update_at_row (us : list (Datum * bool) * PlanSlot) (t : nat * nat) : Prop := slot_typed us.1 /\ slot_at_row us.2 t.

Lemma update_ops_at slots ts : Forall2 update_at_row slots ts ->
  Forall2 (at_row nr bl srcs) (zip_with update_of slots ts) ts.
Proof. induction 1 as [|us t slots ts [_ [Hin _]] _ IH]; cbn [zip_with]; constructor; [by split|done]. Qed.

Lemma update_ops_in slots ts op t : (op, t) ∈ zip (zip_with update_of slots ts) ts -> exists us, op = update_op us t.
Proof.
  revert ts. induction slots as [|us slots IH]; intros [|t0 ts]; cbn [zip zip_with]; try by intros ?%not_elem_of_nil.
  intros [[= -> ->]|Hin]%elem_of_cons; [by exists us.1|by eapply IH].
Qed.

Lemma update_wf slots p plan' : edits p = ∅ -> foldM exec_update p slots = Ok plan' -> plan_wf plan'.
Proof.
  intros He H. eapply (run_callbacks_wf p (map (fun us : list (Datum * bool) * PlanSlot => CbUpdate us.1 us.2) slots)); [done|].
  clear He. revert p H. induction slots as [|us slots IH]; intros p H; [done|].
  cbn [foldM map run_callback] in *. change (exec_update p us) with (exec_foreign_update p us.1 us.2) in H. destruct (exec_foreign_update p us.1 us.2); [by apply IH|done].
Qed.

(** An UPDATE whose callbacks carry the ctids of the distinct rows [ts] and
    typed values for the SET columns succeeds when no rewritten file is over
    the upload cap: every blob with an addressed
    row is replaced, under a new etag and in its own codec, by as many rows in
    the same order, where the SET columns of exactly the addressed rows read
    back as the values their callback delivered and every other cell is the
    old one; every other name of the container is untouched and nothing stays
    in flight. *)
Theorem update_statement (w : World B) slots ts :
  statement_ok w (length ts) -> NoDup ts -> Forall2 update_at_row slots ts ->
  (forall p, foldM exec_update plan slots = Ok p -> uploads_fit nr bl srcs p) ->
  exists plan' w', foldM exec_update plan slots = Ok plan' /\
    commit_plan plan' w = (w', Ok tt) /\ flight w' = ∅ /\
    (forall j b s, bl !! j = Some b -> srcs !! j = Some s -> (exists k, (j, k) ∈ ts) ->
       exists et bytes outs, cont w' !! b.1 = Some (et, bytes) /\ et <> b.2 /\
         decodes bytes (Some (rewrite_codec plan (src_codec s))) outs /\ Forall (fun g => conforms (plan_schema plan) (batch_columns g) (num_rows g)) outs /\ total_rows outs = total_rows (src_ins s) /\
         forall i k, (i < length (plan_schema plan))%nat -> (k < total_rows (src_ins s))%nat ->
           (forall us, (us, (j, k)) ∈ zip slots ts -> i ∈ update_attnums plan ->
              exists c, blob_column i outs !! k = Some c /\ reads_as us.1 i c) /\
           ((j, k) ∉ ts \/ i ∉ update_attnums plan -> blob_column i outs !! k = blob_column i (src_ins s) !! k)) /\
    (forall n, (forall j b, (exists k, (j, k) ∈ ts) -> bl !! j = Some b -> n <> b.1) -> cont w' !! n = cont w !! n).
Proof.
  intros Hok Hnd Hslots Hfit. pose proof Hok as (He & _ & _ & Htb & Hnb & Hsm & Hsrc & _).
  set (ops := zip_with update_of slots ts). pose proof (update_ops_at slots ts Hslots) as Hat. fold ops in Hat.
  destruct (statement_runs w exec_update slots ops ts Hok Hat) as (plan' & w' & Hrun & Hrec & Hcm & Hfl & Hout & Hfr); [|intros p Hp; split; [by eapply update_wf|by apply Hfit]|].
  { unfold ops. clear -Hslots PL AL. induction Hslots as [|us t slots ts [Hty Hrow] _ IH]; cbn [zip_with]; constructor; [|done].
    intros p Hp. by apply exec_update_records. }
  exists plan', w'. split; [done|]. split; [done|]. split; [done|]. split; [|exact Hfr].
  intros j b s Hb Hs Hj. specialize (Hout j b s Hb Hs Hj). unfold blob_outcome in Hout. cbn zeta in Hout. set (e := blob_edits nr bl plan' j) in *.
  assert (keep_mask e 0 (total_rows (src_ins s)) = replicate (total_rows (src_ins s)) true) as Hmask.
  { rewrite <- (kept_nothing_addressed j). apply keep_mask_rows. intros k Hk. rewrite bool_decide_false by apply not_elem_of_nil. apply not_true_iff_false.
    unfold e. rewrite (blob_edits_deleted nr plan bl (cont w) srcs He Htb Hnb Hsm Hsrc ops ts plan' Hat Hrec j k s Hj Hs Hk).
    intros (op & Hin & Hd). by apply update_ops_in in Hin as [us ->]. }
  assert (0 < total_rows (src_ins s))%nat as Hpos.
  { destruct Hj as [k Hin]. apply list_elem_of_lookup in Hin as [i Hi]. destruct (Forall2_lookup_r _ _ _ _ _ Hat Hi) as (op & _ & (s' & Hs' & Hk) & _).
    cbn [fst snd] in *. assert (s' = s) as -> by congruence. lia. }
  unfold surviving, rows_rewritten in Hout. rewrite Hmask, filter_all_true, length_replicate, (proj2 (Nat.eqb_neq _ _)) in Hout by lia.
  destruct Hout as (et & bytes & outs & Hl & Het & Hdec & Hconf & Htot & Hcol). exists et, bytes, outs.
  split; [done|]. split; [done|]. split; [done|]. split; [done|]. split; [done|]. intros i k Hi Hk.
  destruct (Forall2_lookup_lr _ _ _ _ _ _ Hsrc Hb Hs) as (_ & _ & _ & HF & _). pose proof (column_length _ _ i Hi HF) as Hlen.
  rewrite Hcol, <- Hlen, <- (rewrite_cells_length e i 0), mask_filter_true, rewrite_cells_lookup, Z.add_0_l by done.
  destruct (lookup_lt_is_Some_2 (blob_column i (src_ins s)) k) as [c Hc]; [lia|]. rewrite Hc. cbn [fmap option_fmap option_map].
  assert (forall us, (us, (j, k)) ∈ zip slots ts -> slot_typed us.1 /\ updates e !! Z.of_nat k = Some (mkRowOverride (set_values us.1))) as Hhit.
  { intros us Hin. apply list_elem_of_lookup in Hin as [x Hx]. apply lookup_zip_with_Some in Hx as (us' & t & E & Hx & Ht). injection E as <- <-.
    split; [by apply (Forall2_lookup_lr _ _ _ _ _ _ Hslots Hx Ht)|].
    eapply (blob_edits_hit nr plan bl (cont w) srcs He Htb Hnb Hsm Hsrc ops ts plan' Hat Hrec j k x); [done| |exact Ht].
    unfold ops. apply lookup_zip_with_Some. by exists us, (j, k). }
  split.
  - intros us Hin Hset. destruct (Hhit us Hin) as [Hty Hup]. destruct (set_values_spec _ Hty) as [_ Hv]. destruct (proj1 (Hv i) Hset) as (one & c' & Hone & Hcells & Hr).
    exists c'. split; [|done]. unfold spec_cell, override_at. rewrite Hup. cbn. rewrite Hone. cbn. by rewrite Hcells.
  - intros Hor. f_equal. unfold spec_cell, override_at. destruct (decide ((j, k) ∈ ts)) as [Hin|Hn].
    + destruct Hor as [?|Hset]; [done|]. apply list_elem_of_lookup in Hin as [x Hx]. destruct (Forall2_lookup_r _ _ _ _ _ Hslots Hx) as (us & Hus & _).
      assert ((us, (j, k)) ∈ zip slots ts) as Hz by (apply (list_elem_of_lookup_2 _ x), lookup_zip_with_Some; by exists us, (j, k)).
      destruct (Hhit us Hz) as [Hty Hup]. rewrite Hup. cbn. by rewrite (proj2 (proj2 (set_values_spec _ Hty) i) Hset).
    + unfold e; by rewrite (blob_edits_missed nr plan bl (cont w) srcs He Htb Hnb Hsm Hsrc ops ts plan' Hat Hrec j k).
Qed.
End Claims.
