(* ===== verification/ModifyDemo.v ===== *)
(** * The statement theorems on a concrete container. *)

From S2P Require Import Prelude RustStr Redact Errors RowId Options Externals Kernel Convert BlobService Store Handoff Coordinator ParquetIO Modify PlanFacts CommitFacts CommitDemo ModifyStatement ModifyClaims.
Local Open Scope Z_scope.

Definition stmt_batch_b : list RefArray := demo_batch [5; 6] ["e"; "f"]%string.
Definition stmt_batch_c : list RefArray := demo_batch [7] ["g"]%string.

(** The scanned versions of the three blobs of [demo_files]. *)
Definition stmt_list : BlobList :=
  [(lit "a.parquet", lit "e1"); (lit "b.parquet", lit "e2"); (lit "c.parquet", lit "e3")].

Definition stmt_sources : list (Source (Y := ref_bytes)) :=
  [mkSource (Y := ref_bytes) (SNAPPY, demo_blob) (Some SNAPPY) demo_blob;
   mkSource (Y := ref_bytes) (SNAPPY, [stmt_batch_b]) (Some SNAPPY) [stmt_batch_b];
   mkSource (Y := ref_bytes) (SNAPPY, [stmt_batch_c]) (Some SNAPPY) [stmt_batch_c]].

Definition stmt_rows (nm : str) : FdwResult Z :=
  if str_eqb nm "a.parquet" then Ok 4 else if str_eqb nm "b.parquet" then Ok 2 else Ok 1.

Definition stmt_plan (is_delete : bool) : ModifyPlan (A := ref_arrow) (R := ref_roaring) :=
  mkPlan [mkEntry "a.parquet" 0 "e1"; mkEntry "b.parquet" 0 "e2"; mkEntry "c.parquet" 0 "e3"] ∅ demo_schema
    [INT8OID; TEXTOID] (if is_delete then [] else [1%nat]) demo_client Snappy is_delete 2 0.

Lemma stmt_codec is_delete : rewrite_codec (Y := ref_bytes) (stmt_plan is_delete) (Some SNAPPY) = SNAPPY.
Proof. reflexivity. Qed.

Lemma stmt_conforms b : b ∈ demo_blob ++ [stmt_batch_b; stmt_batch_c] ->
  conforms (H := ref_arrow) demo_schema (batch_columns (ArrowApi := ref_arrow) b) (num_rows (ArrowApi := ref_arrow) b).
Proof.
  intros Hb. repeat (apply elem_of_cons in Hb as [->|Hb]); [| | | |by apply not_elem_of_nil in Hb].
  all: apply ref_conforms_ok; reflexivity.
Qed.

Lemma stmt_nodup : NoDup (map fst stmt_list).
Proof.
  assert (bool_decide (NoDup (map fst stmt_list)) = true) as H by (vm_compute; reflexivity).
  by apply bool_decide_eq_true in H.
Qed.

Lemma stmt_ok is_delete n : (n <= 3)%nat ->
  statement_ok stmt_rows (stmt_plan is_delete) stmt_list stmt_sources (demo_world demo_files) n.
Proof.
  intros Hn. split; [done|]. split; [done|]. split; [unfold MAX_EDITS_PER_STATEMENT; lia|].
  split; [vm_compute; reflexivity|]. split; [apply stmt_nodup|]. split; [vm_compute; discriminate|]. split.
  - repeat apply Forall2_cons_2; [| | |apply Forall2_nil_2].
    all: split; [vm_compute; reflexivity|]; split; [vm_compute; discriminate|].
    all: split; [eexists; split; [reflexivity|]; split; reflexivity|].
    all: split; [apply Forall_forall; intros; apply stmt_conforms; cbn; set_solver|].
    all: split; [vm_compute; discriminate|vm_compute; reflexivity].
  - split; [by exists (mkActive demo_client coordinator_new)|]. split.
    + exact demo_unused.
    + change (w_uuids _) with 0%nat. unfold UUIDS. cbn. lia.
Qed.

Definition stmt_small (p : ModifyPlan (A := ref_arrow) (R := ref_roaring)) (x : (str * str) * (nat * Source (Y := ref_bytes))) : bool :=
  match rewrite_body (Y := ref_bytes) p x.1.1 (blob_edits stmt_rows stmt_list p x.2.1) (src_body x.2.2) with
  | Ok (Some bytes) => bytes_len bytes <=? MAX_BLOB_BYTES
  | _ => true
  end.

(** Every rewritten file of the plan the callbacks build is small. *)
Lemma stmt_fit (r : FdwResult ModifyPlan) :
  match r with Ok p => forallb (stmt_small p) (zip stmt_list (zip (seq 0 3) stmt_sources)) | Err _ => true end = true ->
  forall p, r = Ok p -> uploads_fit stmt_rows stmt_list stmt_sources p.
Proof.
  intros H p ->. intros j b s bytes Hb Hs Hr. rewrite forallb_forall in H. specialize (H (b, (j, s))). unfold stmt_small in H. cbn [fst snd] in H.
  rewrite Hr in H. apply Z.leb_le, H. apply list_elem_of_In, (list_elem_of_lookup_2 _ j).
  destruct j as [|[|[|j]]]; cbn in Hb, Hs; [injection Hb as <-; injection Hs as <-; reflexivity..|done].
Qed.

Lemma stmt_slot_at_row is_delete j k : (j, k) ∈ [(0, 2); (0, 0); (1, 0); (1, 1)]%nat ->
  slot_at_row stmt_rows (stmt_plan is_delete) stmt_list stmt_sources (demo_slot (Z.of_nat j) (Z.of_nat k)) (j, k).
Proof.
  intros H. rewrite !elem_of_cons, elem_of_nil in H.
  destruct H as [[= -> ->]|[[= -> ->]|[[= -> ->]|[[= -> ->]|[]]]]]; (split; [eexists; split; [reflexivity|vm_compute; lia]|vm_compute; reflexivity]).
Qed.

(** Row 0 of [a] and both rows of [b]: [a] keeps three rows, [b] goes, [c] stays. *)
Lemma delete_statement_witness :
  exists plan' w', foldM exec_foreign_delete (stmt_plan true) [demo_slot 0 0; demo_slot 1 0; demo_slot 1 1] = Ok plan' /\
    commit_plan plan' (demo_world demo_files) = (w', Ok tt) /\
    (exists et bytes outs, blobs (w_svc w') !! lit "a.parquet" = Some (et, bytes) /\ et <> lit "e1" /\
       decodes (Y := ref_bytes) bytes (Some SNAPPY) outs /\ blob_column 0 outs = [Some (VI64 2); Some (VI64 3); Some (VI64 4)]) /\
    blobs (w_svc w') !! lit "b.parquet" = None /\
    blobs (w_svc w') !! lit "c.parquet" = demo_files !! lit "c.parquet".
Proof.
  destruct (delete_statement stmt_rows (stmt_plan true) stmt_list stmt_sources (demo_world demo_files)
              [demo_slot 0 0; demo_slot 1 0; demo_slot 1 1] [(0, 0); (1, 0); (1, 1)]%nat) as (plan' & w' & Hrun & Hcm & _ & Hout & Hfr).
  - apply stmt_ok. simpl. lia.
  - apply Forall2_cons_2; [apply (stmt_slot_at_row true 0 0); set_solver|].
    apply Forall2_cons_2; [apply (stmt_slot_at_row true 1 0); set_solver|].
    apply Forall2_cons_2; [apply (stmt_slot_at_row true 1 1); set_solver|apply Forall2_nil_2].
  - apply stmt_fit. vm_compute. reflexivity.
  - exists plan', w'. split; [exact Hrun|]. split; [exact Hcm|]. split; [|split].
    + destruct (Hout 0%nat _ _ eq_refl eq_refl) as (et & bytes & outs & Hl & Het & Hdec & _ & Hcol); [exists 0%nat; left|]. cbn [fst snd src_codec] in *. rewrite stmt_codec in Hdec.
      exists et, bytes, outs. split; [exact Hl|]. split; [exact Het|]. split; [exact Hdec|]. rewrite Hcol by (simpl; lia). vm_compute. reflexivity.
    + refine (Hout 1%nat _ _ eq_refl eq_refl _). exists 0%nat. right; left.
    + apply (Hfr (lit "c.parquet")). intros j b (k & Hk) Hb. rewrite !elem_of_cons, elem_of_nil in Hk.
      destruct Hk as [[= -> ->]|[[= -> ->]|[[= -> ->]|[]]]]; injection Hb as <-; vm_compute; discriminate.
Defined.

(** The name of row 2 of [a] becomes [z], that of row 1 of [b] NULL. *)
Lemma update_statement_witness :
  exists plan' w', foldM exec_update (stmt_plan false)
      [([(DWord 3, false); (DText "z", false)], demo_slot 0 2); ([(DWord 6, false); (DWord 0, true)], demo_slot 1 1)] = Ok plan' /\
    commit_plan plan' (demo_world demo_files) = (w', Ok tt) /\
    exists et bytes outs c, blobs (w_svc w') !! lit "a.parquet" = Some (et, bytes) /\ decodes (Y := ref_bytes) bytes (Some SNAPPY) outs /\
      blob_column 1 outs !! 2%nat = Some c /\ arrow_value_to_datum Utf8 c TEXTOID = Ok (Some (DText "z")) /\
      blob_column 1 outs !! 3%nat = Some (Some (VUtf8 "d")) /\ blob_column 0 outs !! 2%nat = Some (Some (VI64 3)).
Proof.
  destruct (update_statement stmt_rows (stmt_plan false) stmt_list stmt_sources (demo_world demo_files)
              [([(DWord 3, false); (DText "z", false)], demo_slot 0 2); ([(DWord 6, false); (DWord 0, true)], demo_slot 1 1)]
              [(0, 2); (1, 1)]%nat) as (plan' & w' & Hrun & Hcm & _ & Hout & Hfr).
  - apply stmt_ok. simpl. lia.
  - apply NoDup_cons_2; [set_solver|]. apply NoDup_singleton.
  - apply Forall2_cons_2; [split; [|apply (stmt_slot_at_row false 0 2); set_solver]|].
    + apply Forall_singleton. exists (mkField "name" Utf8 true), TEXTOID, (DText "z"), false. repeat (split; [reflexivity|]).
      do 6 right. split; [by left|]. by eexists.
    + apply Forall2_cons_2; [split; [|apply (stmt_slot_at_row false 1 1); set_solver]|apply Forall2_nil_2].
      apply Forall_singleton. exists (mkField "name" Utf8 true), TEXTOID, (DWord 0), true. repeat (split; [reflexivity|]). reflexivity.
  - apply stmt_fit. vm_compute. reflexivity.
  - exists plan', w'. split; [exact Hrun|]. split; [exact Hcm|].
    destruct (Hout 0%nat _ _ eq_refl eq_refl) as (et & bytes & outs & Hl & _ & Hdec & _ & _ & Hcell); [exists 2%nat; left|]. cbn [fst snd src_codec] in *. rewrite stmt_codec in Hdec.
    destruct (proj1 (Hcell 1%nat 2%nat ltac:(simpl; lia) ltac:(vm_compute; lia)) _ ltac:(left) ltac:(left)) as (c & Hc & f & oid & d & n & Hf & Ho & Hd & Hr).
    injection Hf as <-. injection Ho as <-. injection Hd as <- <-.
    exists et, bytes, outs, c. split; [exact Hl|]. split; [exact Hdec|]. split; [exact Hc|]. split; [exact Hr|]. split.
    + rewrite (proj2 (Hcell 1%nat 3%nat ltac:(simpl; lia) ltac:(vm_compute; lia))); [reflexivity|]. left. rewrite !elem_of_cons, elem_of_nil. intros [[=]|[[=]|[]]].
    + rewrite (proj2 (Hcell 0%nat 2%nat ltac:(simpl; lia) ltac:(vm_compute; lia))); [reflexivity|]. right. change (0%nat ∉ [1%nat]). rewrite elem_of_cons, elem_of_nil. intros [[=]|[]].
Defined.
