(* ===== verification/Pushdown.v ===== *)
(** * [src/fdw/pushdown.rs]: pushed quals, the row filter and row-group pruning.

    A pushed expression is evaluated twice: per row, by arrow's compute
    kernels on the batch of the filter's columns ([eval]), and per row group,
    against the column statistics of the file footer ([evaluate_against_rg]).
    Both are compared with SQL's three-valued meaning of the expression
    ([sql_eval]).  The compute kernels and the footer are outside the
    repository: a class with laws and a record of getters. *)

From S2P Require Import Prelude RustStr Errors Externals Convert.
Local Open Scope Z_scope.

Inductive PushedOp := OpEq | OpNe | OpLt | OpLe | OpGt | OpGe | OpIsNull | OpIsNotNull.

#[export] Instance PushedOp_eq_dec : EqDecision PushedOp.
Proof. solve_decision. Defined.

Definition inverse (op : PushedOp) : option PushedOp :=
  Some match op with
       | OpEq => OpNe | OpNe => OpEq | OpLt => OpGe | OpGe => OpLt
       | OpLe => OpGt | OpGt => OpLe | OpIsNull => OpIsNotNull | OpIsNotNull => OpIsNull
       end.

(** Floats are their IEEE bit patterns. *)
Inductive ScalarValueRepr :=
| SNull | SBool (b : bool) | SI16 (z : Z) | SI32 (z : Z) | SI64 (z : Z) | SF32 (bits : Z) | SF64 (bits : Z)
| SUtf8 (s : str) | SDate32 (days : Z) | STimestampMicros (us : Z) | SDecimal128 (unscaled p s : Z).

Record PushedQual := mkQual { col : nat; op : PushedOp; value : ScalarValueRepr }.

Inductive PushedExpr :=
| PLeaf (q : PushedQual) | PAnd (xs : list PushedExpr) | POr (xs : list PushedExpr) | PNot (x : PushedExpr).

(** Induction with the hypothesis for every child of a list. *)
Section Ind.
Context (P : PushedExpr -> Prop) (Hleaf : forall q, P (PLeaf q)) (Hand : forall xs, Forall P xs -> P (PAnd xs))
  (Hor : forall xs, Forall P xs -> P (POr xs)) (Hnot : forall x, P x -> P (PNot x)).

Fixpoint PushedExpr_ind' (e : PushedExpr) : P e :=
  let fix all (xs : list PushedExpr) : Forall P xs :=
    match xs with [] => Forall_nil_2 _ | x :: xs => Forall_cons_2 _ _ _ (PushedExpr_ind' x) (all xs) end in
  match e with
  | PLeaf q => Hleaf q | PAnd xs => Hand xs (all xs) | POr xs => Hor xs (all xs) | PNot x => Hnot x (PushedExpr_ind' x)
  end.
End Ind.

(** The operator/type whitelist. *)
Definition is_pushable (op : str) (ty : DataType) : bool :=
  let op_ok := existsb (fun o => str_eqb op (lit o)) ["="; "<>"; "<"; "<="; ">"; ">="; "IS NULL"; "IS NOT NULL"]%string in
  let ty_ok := match ty with
    | Boolean | Int16 | Int32 | Int64 | Float32 | Float64 | Utf8 | LargeUtf8 | Date32 => true
    | Timestamp _ tz => match tz with None => true | Some _ => false end
    | Decimal128 _ scale => (scale <=? 18) && (0 <=? scale)
    | _ => false
    end in
  op_ok && ty_ok.

(** ** The row filter *)

(** [boolean::and], [boolean::or], [boolean::not], [is_null] and the
    comparison kernels.  A [BooleanArray] is its list of cells. *)
Abbreviation BooleanArray := (list (option bool)).

Class ComputeApi {A : ArrowApi} := {
  kernel_and : BooleanArray -> BooleanArray -> Result str BooleanArray;
  kernel_or : BooleanArray -> BooleanArray -> Result str BooleanArray;
  kernel_not : BooleanArray -> Result str BooleanArray;
  kernel_is_null : ArrayRef -> Result str BooleanArray;
  kernel_is_not_null : ArrayRef -> Result str BooleanArray;
  (** [cmp::eq(lhs, rhs)] and so on, [rhs] a one-element array broadcast as a
      scalar. *)
  kernel_cmp : PushedOp -> ArrayRef -> ArrayRef -> Result str BooleanArray;
}.

Section Filter.
Context {A : ArrowApi} {C : ComputeApi}.

Definition scalar_to_array (v : ScalarValueRepr) (ty : DataType) : Result str ArrayRef :=
  match v with
  | SBool b => Ok (build_array Boolean [Some (VBool b)])
  | SI16 x => Ok (build_array Int16 [Some (VI16 x)])
  | SI32 x => Ok (build_array Int32 [Some (VI32 x)])
  | SI64 x => Ok (build_array Int64 [Some (VI64 x)])
  | SF32 x => Ok (build_array Float32 [Some (VF32 x)])
  | SF64 x => Ok (build_array Float64 [Some (VF64 x)])
  | SUtf8 s => Ok (build_array (match ty with LargeUtf8 => LargeUtf8 | _ => Utf8 end) [Some (VUtf8 s)])
  | SDate32 d => Ok (build_array Date32 [Some (VDate32 d)])
  | STimestampMicros t => Ok (build_array (Timestamp Microsecond None) [Some (VTimestamp t)])
  | SDecimal128 val p s =>
      if decimal128_params_ok p s then Ok (build_array (Decimal128 p s) [Some (VDecimal128 val)])
      else Err (lit "invalid decimal precision and scale")
  | SNull => Err (lit "Null scalar in cmp")
  end.

(** A [panic!] of the code below is an [Err] of its message as well. *)
Definition eval_leaf (q : PushedQual) (batch : RecordBatch) (local_idx : nat -> option nat) : Result str BooleanArray :=
  idx ← ok_or (local_idx (col q)) ("column " ++ show_Z (Z.of_nat (col q)) ++ " missing in predicate batch");
  c ← ok_or (batch_columns batch !! idx) (lit "index out of bounds");
  match op q with
  | OpIsNull => kernel_is_null c
  | OpIsNotNull => kernel_is_not_null c
  | o =>
      scalar_arr ← scalar_to_array (value q) (array_type c);
      kernel_cmp o c scalar_arr
  end.

Fixpoint eval (e : PushedExpr) (batch : RecordBatch) (local_idx : nat -> option nat) : Result str BooleanArray :=
  let combine (f : BooleanArray -> BooleanArray -> Result str BooleanArray) :=
    fix go (xs : list PushedExpr) (acc : option BooleanArray) : Result str (option BooleanArray) :=
      match xs with
      | [] => Ok acc
      | x :: xs' =>
          b ← eval x batch local_idx;
          acc' ← match acc with None => Ok b | Some a => f a b end;
          go xs' (Some acc')
      end in
  match e with
  | PLeaf q => eval_leaf q batch local_idx
  | PAnd xs => acc ← combine kernel_and xs None; Ok (default (replicate (num_rows batch) (Some true)) acc)
  | POr xs => acc ← combine kernel_or xs None; Ok (default (replicate (num_rows batch) (Some false)) acc)
  | PNot x => b ← eval x batch local_idx; kernel_not b
  end.

Fixpoint collect_walk (e : PushedExpr) (out : list nat) : list nat :=
  match e with
  | PLeaf q => if bool_decide (col q ∈ out) then out else out ++ [col q]
  | PAnd xs | POr xs => foldl (fun out c => collect_walk c out) out xs
  | PNot x => collect_walk x out
  end.

Definition collect_cols (e : PushedExpr) : list nat := collect_walk e [].

(** [cols_owned.iter().position(|c| *c == global)]. *)
Fixpoint position (l : list nat) (x : nat) : option nat :=
  match l with
  | [] => None
  | y :: l' => if bool_decide (y = x) then Some O else S <$> position l' x
  end.

(** A predicate of the filter: the root columns its [ProjectionMask] selects
    and the closure run on the batch of those columns. *)
Record Predicate := mkPredicate { mask : list nat; run : RecordBatch -> Result str BooleanArray }.

Definition predicate_of (e : PushedExpr) : Predicate :=
  let cols := collect_cols e in mkPredicate cols (fun batch => eval e batch (position cols)).

Definition build_row_filter (exprs : list PushedExpr) : option (list Predicate) :=
  match exprs with [] => None | _ => Some (map predicate_of exprs) end.
End Filter.

(** ** Row-group pruning *)

(** The getters of a footer the code reads: typed min and max, null count,
    number of values. *)
Inductive Statistics :=
| PqBoolean (mn mx : option bool) | PqInt32 (mn mx : option Z) | PqInt64 (mn mx : option Z)
| PqFloat (mn mx : option Z) | PqDouble (mn mx : option Z) | PqByteArray (mn mx : option str) | PqOther.

Record ColumnChunk := mkChunk { statistics : option Statistics; null_count_opt : option Z; num_values : Z }.
Abbreviation RowGroup := (list ColumnChunk).

Inductive RgVerdict := CannotMatch | CanMatch | Indeterminate.

(** [PartialOrd] as a partial comparison, and its operators. *)
Section Cmp.
Context {T : Type} (pcmp : T -> T -> option comparison).

Definition p_lt a b : bool := match pcmp a b with Some Lt => true | _ => false end.
Definition p_gt a b : bool := match pcmp a b with Some Gt => true | _ => false end.
Definition p_le a b : bool := match pcmp a b with Some (Lt | Datatypes.Eq) => true | _ => false end.
Definition p_ge a b : bool := match pcmp a b with Some (Gt | Datatypes.Eq) => true | _ => false end.
Definition p_eq a b : bool := match pcmp a b with Some Datatypes.Eq => true | _ => false end.

(** [None] is the [unreachable!()] of the null tests. *)
Definition cmp_verdict (op : PushedOp) (lit : T) (mn mx : option T) : option RgVerdict :=
  match mn, mx with
  | Some mn, Some mx =>
      let cannot (b : bool) := Some (if b then CannotMatch else CanMatch) in
      match op with
      | OpEq => cannot (p_lt lit mn || p_gt lit mx)
      | OpNe => cannot (p_eq mn mx && p_eq lit mn)
      | OpLt => cannot (p_ge mn lit)
      | OpLe => cannot (p_gt mn lit)
      | OpGt => cannot (p_le mx lit)
      | OpGe => cannot (p_lt mx lit)
      | OpIsNull | OpIsNotNull => None
      end
  | _, _ => Some Indeterminate
  end.
End Cmp.

(** IEEE order of a float given by its bits: [None] for a NaN. *)
Definition float_key (mant_exp sign_bit bits : Z) : option Z :=
  let mag := Z.land bits (sign_bit - 1) in
  if mant_exp <? mag then None else Some (if Z.testbit bits (Z.log2 sign_bit) then - mag else mag).
Definition f32_key : Z -> option Z := float_key 0x7F800000 (2 ^ 31).
Definition f64_key : Z -> option Z := float_key 0x7FF0000000000000 (2 ^ 63).

Definition key_partial_cmp (key : Z -> option Z) (a b : Z) : option comparison :=
  x ← key a; y ← key b; Some (x ?= y).
Definition int_cmp (a b : Z) : option comparison := Some (a ?= b).

Definition cmp_verdict_bytes (op : PushedOp) (lit : str) (mn mx : option str) : option RgVerdict :=
  cmp_verdict (fun a b => Some (str_compare a b)) op lit mn mx.

Definition bool_verdict (op : PushedOp) (v : bool) (mn mx : option bool) : option RgVerdict :=
  match mn, mx with
  | Some mn, Some mx =>
      match op with
      | OpEq => if eqb v mn && eqb v mx then Some CanMatch
                else if negb (eqb v mn) && negb (eqb v mx) then Some CannotMatch else Some CanMatch
      | OpNe => Some (if eqb v mn && eqb v mx then CannotMatch else CanMatch)
      | _ => Some Indeterminate
      end
  | _, _ => Some Indeterminate
  end.

(** Typed minimum and maximum against the literal; other pairs are
    indeterminate. *)
Definition stats_verdict (o : PushedOp) (l : ScalarValueRepr) (stats : Statistics) : option RgVerdict :=
  match l, stats with
  | SI32 v, PqInt32 mn mx => cmp_verdict int_cmp o v mn mx
  | SI64 v, PqInt64 mn mx => cmp_verdict int_cmp o v mn mx
  | SI16 v, PqInt32 mn mx => cmp_verdict int_cmp o v mn mx
  | SF32 v, PqFloat mn mx => cmp_verdict (key_partial_cmp f32_key) o v mn mx
  | SF64 v, PqDouble mn mx => cmp_verdict (key_partial_cmp f64_key) o v mn mx
  | SDate32 v, PqInt32 mn mx => cmp_verdict int_cmp o v mn mx
  | STimestampMicros v, PqInt64 mn mx => cmp_verdict int_cmp o v mn mx
  | SUtf8 v, PqByteArray mn mx => cmp_verdict_bytes o v mn mx
  | SBool v, PqBoolean mn mx => bool_verdict o v mn mx
  | _, _ => Some Indeterminate
  end.

Definition evaluate_leaf_against_rg (q : PushedQual) (rg : RowGroup) (schema : Schema) : option RgVerdict :=
  if (length schema <=? col q)%nat then Some Indeterminate
  else match rg !! col q with
  | None => Some Indeterminate
  | Some c =>
      match statistics c with
      | None => Some Indeterminate
      | Some stats =>
          match op q with
          | OpIsNull => Some match null_count_opt c with
                             | Some n => if n =? 0 then CannotMatch else CanMatch
                             | None => Indeterminate end
          | OpIsNotNull => Some match null_count_opt c with
                                | Some n => if as_u64 (num_values c) <=? n then CannotMatch else CanMatch
                                | None => Indeterminate end
          | o => stats_verdict o (value q) stats
          end
      end
  end.

Fixpoint evaluate_against_rg (e : PushedExpr) (rg : RowGroup) (schema : Schema) : option RgVerdict :=
  match e with
  | PLeaf q => evaluate_leaf_against_rg q rg schema
  | PAnd xs =>
      (fix go xs all_can := match xs with
         | [] => Some (if all_can : bool then CanMatch else Indeterminate)
         | x :: xs' => v ← evaluate_against_rg x rg schema;
             match v with
             | CannotMatch => Some CannotMatch
             | Indeterminate => go xs' false
             | CanMatch => go xs' all_can
             end
         end) xs true
  | POr xs =>
      (fix go xs all_cannot any_can := match xs with
         | [] => Some (if any_can : bool then CanMatch
                       else if all_cannot : bool then CannotMatch else Indeterminate)
         | x :: xs' => v ← evaluate_against_rg x rg schema;
             match v with
             | CanMatch => go xs' all_cannot true
             | CannotMatch => go xs' all_cannot any_can
             | Indeterminate => go xs' false any_can
             end
         end) xs true false
  | PNot _ => Some Indeterminate
  end.

(** One row group against the top-level expressions: whether it survives and
    whether some verdict was determinable. *)
Fixpoint prune_one (exprs : list PushedExpr) (rg : RowGroup) (schema : Schema) (any : bool) : option (bool * bool) :=
  match exprs with
  | [] => Some (true, any)
  | e :: exprs' =>
      v ← evaluate_against_rg e rg schema;
      match v with
      | CannotMatch => Some (false, true)
      | CanMatch => prune_one exprs' rg schema true
      | Indeterminate => prune_one exprs' rg schema any
      end
  end.

Fixpoint prune_from (rg_idx : nat) (groups : list RowGroup) (exprs : list PushedExpr) (schema : Schema)
    (any : bool) (keep : list nat) : option (bool * list nat) :=
  match groups with
  | [] => Some (any, keep)
  | rg :: groups' =>
      '(survives, any) ← prune_one exprs rg schema any;
      prune_from (S rg_idx) groups' exprs schema any (if survives : bool then keep ++ [rg_idx] else keep)
  end.

(** The outer option is a panic, the inner one the function's result. *)
Definition prune_row_groups (groups : list RowGroup) (exprs : list PushedExpr) (schema : Schema)
    : option (option (list nat)) :=
  match exprs with
  | [] => Some None
  | _ => '(any, keep) ← prune_from 0 groups exprs schema false [];
         Some (if any : bool then Some keep else None)
  end.

(** ** LIKE prefixes and column translation *)

(** The bytes are given reversed: the last byte first. *)
Fixpoint next_lex_upper_rev (rev : list ascii) : option str :=
  match rev with
  | [] => None
  | last :: rest =>
      if byte last <? 255
      then let bytes := List.rev (byte_of (byte last + 1) :: rest) in
           if utf8_valid bytes then Some bytes else None
      else next_lex_upper_rev rest
  end.

Definition next_lex_upper (prefix : str) : option str := next_lex_upper_rev (List.rev prefix).

Fixpoint translate_qual_to_parquet_idx (expr : PushedExpr) (m : list (option nat)) : option PushedExpr :=
  let all := fix all (xs : list PushedExpr) : option (list PushedExpr) :=
    match xs with
    | [] => Some []
    | x :: xs' => y ← translate_qual_to_parquet_idx x m; ys ← all xs'; Some (y :: ys)
    end in
  match expr with
  | PLeaf q => p ← mjoin (m !! col q); Some (PLeaf (mkQual p (op q) (value q)))
  | PAnd xs => PAnd <$> all xs
  | POr xs => POr <$> all xs
  | PNot x => PNot <$> translate_qual_to_parquet_idx x m
  end.
