(* ===== verification/PushdownFacts.v ===== *)
(** * Soundness of the pushed expressions ([pushdown.rs]).

    [sql_eval] is the three-valued meaning of an expression on one row.
    Section [Pruning]: a row group whose statistics give [CannotMatch] holds
    no matching row.  Section [RowFilter]: what the compute kernels keep. *)

From S2P Require Import Prelude RustStr Errors Externals Convert Pushdown.
Local Open Scope Z_scope.

(** ** The meaning of an expression on a row *)

Abbreviation Row := (nat -> cell).

Definition op_holds (o : PushedOp) (c : comparison) : bool :=
  match o, c with
  | OpEq, Datatypes.Eq | OpNe, (Lt | Gt) | OpLt, Lt | OpLe, (Lt | Datatypes.Eq) | OpGt, Gt | OpGe, (Gt | Datatypes.Eq) => true
  | _, _ => false
  end.

Definition null_test (o : PushedOp) : bool := match o with OpIsNull | OpIsNotNull => true | _ => false end.

Definition bool_cmp (a b : bool) : comparison := Z.b2z a ?= Z.b2z b.

(** Postgres orders NaN above every other float, and [-0] equals [0]. *)
Definition sql_float_key (key : Z -> option Z) (bits : Z) : Z := default (2 ^ 64) (key bits).
Definition sql_float_cmp (key : Z -> option Z) (a b : Z) : comparison := sql_float_key key a ?= sql_float_key key b.

(** A column value against a literal; [None] for types no operator of the
    table relates.  Text is compared as under the C collation. *)
Definition sql_cmp (v : Value) (l : ScalarValueRepr) : option comparison :=
  match v, l with
  | VBool a, SBool b => Some (bool_cmp a b)
  | (VI16 a | VI32 a | VI64 a), (SI16 b | SI32 b | SI64 b) => Some (a ?= b)
  | VF32 a, SF32 b => Some (sql_float_cmp f32_key a b)
  | VF64 a, SF64 b => Some (sql_float_cmp f64_key a b)
  | VUtf8 a, SUtf8 b => Some (str_compare a b)
  | VDate32 a, SDate32 b => Some (a ?= b)
  | VTimestamp a, STimestampMicros b => Some (a ?= b)
  | _, _ => None
  end.

Definition sql_leaf (q : PushedQual) (c : cell) : option bool :=
  match op q with
  | OpIsNull => Some (bool_decide (c = None))
  | OpIsNotNull => Some (negb (bool_decide (c = None)))
  | o => v ← c; cmp ← sql_cmp v (value q); Some (op_holds o cmp)
  end.

Definition kleene_and (a b : option bool) : option bool :=
  match a, b with
  | Some false, _ | _, Some false => Some false
  | Some true, Some true => Some true
  | _, _ => None
  end.
Definition kleene_or (a b : option bool) : option bool :=
  match a, b with
  | Some true, _ | _, Some true => Some true
  | Some false, Some false => Some false
  | _, _ => None
  end.

Fixpoint sql_eval (e : PushedExpr) (row : Row) : option bool :=
  match e with
  | PLeaf q => sql_leaf q (row (col q))
  | PAnd xs => foldr kleene_and (Some true) (map (fun x => sql_eval x row) xs)
  | POr xs => foldr kleene_or (Some false) (map (fun x => sql_eval x row) xs)
  | PNot x => negb <$> sql_eval x row
  end.

(** The comparisons of an expression. *)
Fixpoint leaves (e : PushedExpr) : list PushedQual :=
  match e with
  | PLeaf q => [q]
  | PAnd xs | POr xs => concat (map leaves xs)
  | PNot x => leaves x
  end.

Lemma elem_leaves x xs q : x ∈ xs -> q ∈ leaves x -> q ∈ concat (map leaves xs).
Proof.
  intros Hx Hq. apply list_elem_of_In, in_concat. exists (leaves x).
  split; apply list_elem_of_In; [|done]. by apply (list_elem_of_fmap_2 leaves).
Qed.

Lemma kleene_and_true l : foldr kleene_and (Some true) l = Some true <-> Forall (fun x => x = Some true) l.
Proof.
  induction l as [|x l IH]; simpl; [by split|]. rewrite Forall_cons, <- IH.
  destruct x as [[]|], (foldr kleene_and (Some true) l) as [[]|]; cbn; intuition congruence.
Qed.

Lemma kleene_or_true l : foldr kleene_or (Some false) l = Some true <-> Exists (fun x => x = Some true) l.
Proof.
  induction l as [|x l IH]; simpl.
  - split; [done|]. by intros ?%Exists_nil.
  - rewrite Exists_cons, <- IH.
    destruct x as [[]|], (foldr kleene_or (Some false) l) as [[]|]; cbn; intuition congruence.
Qed.

Section Pruning.

(** [v] lies between the known bounds. *)
Definition within {T} (cmp : T -> T -> comparison) (mn mx : option T) (v : T) : Prop :=
  (forall m, mn = Some m -> cmp m v <> Gt) /\ (forall m, mx = Some m -> cmp v m <> Gt).

(** The statistics are of the value's physical type and bound it. *)
Definition value_in_stats (s : Statistics) (v : Value) : Prop :=
  match s, v with
  | PqBoolean mn mx, VBool b => within bool_cmp mn mx b
  | PqInt32 mn mx, (VI16 z | VI32 z | VDate32 z) => within Z.compare mn mx z
  | PqInt64 mn mx, (VI64 z | VTimestamp z) => within Z.compare mn mx z
  | PqFloat mn mx, VF32 b => within (sql_float_cmp f32_key) mn mx b
  | PqDouble mn mx, VF64 b => within (sql_float_cmp f64_key) mn mx b
  | PqByteArray mn mx, (VUtf8 s | VBinary s) => within str_compare mn mx s
  (** Decimals are stored as integers or byte arrays; no literal the code
      pushes is compared with them. *)
  | (PqInt32 _ _ | PqInt64 _ _ | PqByteArray _ _), VDecimal128 _ => True
  | PqOther, _ => True
  | _, _ => False
  end.

Definition is_null_cell (c : cell) : bool := match c with None => true | Some _ => false end.

(** What the footer says of one column of a row group.  For floats this asks
    more than the format does, whose statistics leave NaN out
    ([pruning_loses_nan]). *)
Record chunk_describes (c : ColumnChunk) (cells : list cell) : Prop := {
  cd_rows : num_values c = Z.of_nat (length cells) /\ num_values c <= u32_max;
  cd_nulls : forall n, null_count_opt c = Some n -> n = Z.of_nat (length (List.filter is_null_cell cells));
  cd_values : forall s v, statistics c = Some s -> Some v ∈ cells -> value_in_stats s v;
}.

Definition group_describes (rg : RowGroup) (rows : list Row) : Prop :=
  forall i c, rg !! i = Some c -> chunk_describes c (map (fun r => r i) rows).

(** The partial order of Rust agrees with the total one where it answers. *)
Definition agrees {T} (pcmp : T -> T -> option comparison) (cmp : T -> T -> comparison) : Prop :=
  forall a b c, pcmp a b = Some c -> cmp a b = c.

Lemma agrees_int : agrees int_cmp Z.compare.
Proof. by intros a b c [= <-]. Qed.
Lemma agrees_str : agrees (fun a b => Some (str_compare a b)) str_compare.
Proof. by intros a b c [= <-]. Qed.
Lemma agrees_float key : agrees (key_partial_cmp key) (sql_float_cmp key).
Proof.
  intros a b c H. unfold key_partial_cmp in H. unfold sql_float_cmp, sql_float_key.
  destruct (key a), (key b); simpl in *; congruence.
Qed.

Lemma cmp_verdict_sound {T} pcmp (cmp : T -> T -> comparison) `{!TotalCmp cmp} o l mn mx v :
  agrees pcmp cmp -> cmp_verdict pcmp o l mn mx = Some CannotMatch -> within cmp mn mx v ->
  op_holds o (cmp v l) = false.
Proof.
  intros Hag H [Hmn Hmx]. destruct mn as [mn|], mx as [mx|]; try done. cbn [cmp_verdict] in H.
  specialize (Hmn mn eq_refl). specialize (Hmx mx eq_refl).
  pose proof (cmp_antisym v l) as Hvl. pose proof (cmp_antisym l mn) as Hlm. pose proof (cmp_antisym l mx) as Hlx.
  destruct o; try done; unfold p_lt, p_gt, p_ge, p_le, p_eq in H.
  - destruct (pcmp l mn) as [[]|] eqn:E1; simpl in H;
      first [destruct (pcmp l mx) as [[]|] eqn:E2; try discriminate H; apply Hag in E2;
             rewrite (cmp_le_lt_trans v mx l Hmx); [done|by rewrite Hlx, E2]
            |apply Hag in E1; rewrite (cmp_lt_le_trans l mn v E1 Hmn) in Hvl; by destruct (cmp v l)].
  - destruct (pcmp mn mx) as [[]|] eqn:E1; try discriminate H; destruct (pcmp l mn) as [[]|] eqn:E2; try discriminate H.
    apply Hag in E1, E2.
    assert (cmp l v <> Gt) as H1 by (apply (cmp_le_trans l mn v); congruence).
    assert (cmp v l <> Gt) as H2.
    { apply (cmp_le_trans v mx l); [done|]. apply (cmp_le_trans mx mn l); [rewrite (cmp_antisym mn mx), E1|rewrite Hlm, E2]; done. }
    by destruct (cmp v l), (cmp l v).
  - destruct (pcmp mn l) as [[]|] eqn:E1; try discriminate H; apply Hag in E1.
    all: assert (cmp l v <> Gt) as H1 by (apply (cmp_le_trans l mn v); [rewrite (cmp_antisym mn l), E1|]; done).
    all: by destruct (cmp v l), (cmp l v).
  - destruct (pcmp mn l) as [[]|] eqn:E1; try discriminate H; apply Hag in E1.
    rewrite (cmp_lt_le_trans l mn v) in Hvl; [by destruct (cmp v l)|by rewrite (cmp_antisym mn l), E1|done].
  - destruct (pcmp mx l) as [[]|] eqn:E1; try discriminate H; apply Hag in E1.
    all: assert (cmp v l <> Gt) as H1 by (apply (cmp_le_trans v mx l); congruence).
    all: by destruct (cmp v l).
  - destruct (pcmp mx l) as [[]|] eqn:E1; try discriminate H; apply Hag in E1.
    by rewrite (cmp_le_lt_trans v mx l Hmx E1).
Qed.

Lemma bool_verdict_sound o l mn mx v :
  bool_verdict o l mn mx = Some CannotMatch -> within bool_cmp mn mx v -> op_holds o (bool_cmp v l) = false.
Proof.
  intros H [Hmn Hmx]. destruct mn as [mn|], mx as [mx|]; try done.
  specialize (Hmn mn eq_refl). specialize (Hmx mx eq_refl).
  destruct o, l, mn, mx, v; cbn in *; congruence.
Qed.

Lemma count_nulls_zero (cells : list cell) c :
  length (List.filter is_null_cell cells) = O -> c ∈ cells -> c <> None.
Proof.
  intros H Hin ->. apply nil_length_inv in H.
  assert (@None Value ∈ List.filter is_null_cell cells) as Hf
    by (by apply list_elem_of_In, filter_In; split; [apply list_elem_of_In|]).
  rewrite H in Hf. by apply not_elem_of_nil in Hf.
Qed.

Lemma count_nulls_all (cells : list cell) c :
  (length cells <= length (List.filter is_null_cell cells))%nat -> c ∈ cells -> c = None.
Proof.
  induction cells as [|x cells IH]; [by intros _ ?%not_elem_of_nil|]. cbn [List.filter length].
  pose proof (List.filter_length_le is_null_cell cells) as Hle.
  destruct x as [x|]; cbn [is_null_cell length]; intros H Hin; [lia|].
  apply elem_of_cons in Hin as [->|Hin]; [done|]. apply IH; [lia|done].
Qed.

Lemma stats_verdict_sound o l stats v cmp :
  stats_verdict o l stats = Some CannotMatch -> value_in_stats stats v -> sql_cmp v l = Some cmp ->
  op_holds o cmp = false.
Proof.
  intros H Hv Hc.
  destruct l, stats; try discriminate H; destruct v; try discriminate Hc; try done; injection Hc as <-.
  all: try (refine (@cmp_verdict_sound Z int_cmp Z.compare (key_total id) _ _ _ _ _ agrees_int H Hv); fail).
  all: try (refine (@cmp_verdict_sound Z _ (sql_float_cmp _) (key_total _) _ _ _ _ _ (agrees_float _) H Hv); fail).
  all: try (refine (@cmp_verdict_sound str _ str_compare str_total _ _ _ _ _ agrees_str H Hv); fail).
  by eapply bool_verdict_sound.
Qed.

Lemma leaf_sound q rg schema rows r :
  group_describes rg rows -> evaluate_leaf_against_rg q rg schema = Some CannotMatch -> r ∈ rows ->
  sql_leaf q (r (col q)) <> Some true.
Proof.
  intros Hd H Hr Ht. unfold evaluate_leaf_against_rg in H.
  destruct (length schema <=? col q)%nat; [done|]. destruct (rg !! col q) as [c|] eqn:Hc; [|done].
  destruct (Hd _ _ Hc) as [[Hn Hu] Hnulls Hvals].
  assert (r (col q) ∈ map (fun r => r (col q)) rows) as Hin by (by apply (list_elem_of_fmap_2 (fun r => r (col q)))).
  destruct (statistics c) as [stats|]; [|done].
  destruct (decide (op q = OpIsNull)) as [Ho|Ho1].
  { unfold sql_leaf in Ht. rewrite Ho in H, Ht. injection Ht as Ht. apply bool_decide_eq_true in Ht.
    destruct (null_count_opt c) as [n|]; [|done]. injection H as H.
    destruct (Z.eqb_spec n 0); [|done]. specialize (Hnulls n eq_refl).
    apply (count_nulls_zero (map (fun r => r (col q)) rows) (r (col q))); [lia|done|done]. }
  destruct (decide (op q = OpIsNotNull)) as [Ho|Ho2].
  { unfold sql_leaf in Ht. rewrite Ho in H, Ht. injection Ht as Ht. apply negb_true_iff, bool_decide_eq_false in Ht.
    destruct (null_count_opt c) as [n|]; [|done]. injection H as H. specialize (Hnulls n eq_refl).
    destruct (Z.leb_spec (as_u64 (num_values c)) n); [|done]. apply Ht.
    rewrite as_u64_id in H0 by int_lia.
    apply (count_nulls_all (map (fun r => r (col q)) rows)); [lia|done]. }
  assert (exists v cmp, r (col q) = Some v /\ sql_cmp v (value q) = Some cmp /\ op_holds (op q) cmp = true)
    as (v & cmp & Hv & Hcmp & Hh).
  { unfold sql_leaf in Ht. destruct (r (col q)) as [v|]; [|by destruct (op q)].
    cbn [mbind option_bind] in Ht. exists v. destruct (sql_cmp v (value q)) as [cmp|]; [|by destruct (op q)].
    exists cmp. split; [done|]. split; [done|]. cbn [mbind option_bind] in Ht. destruct (op q); congruence. }
  rewrite Hv in Hin. specialize (Hvals _ _ eq_refl Hin).
  rewrite (stats_verdict_sound (op q) (value q) stats v cmp) in Hh; [done| |done|done].
  destruct (op q); done.
Qed.

(** The loops over the children of AND and OR. *)
Definition and_loop (f : PushedExpr -> option RgVerdict) :=
  fix go (xs : list PushedExpr) (all_can : bool) : option RgVerdict := match xs with
    | [] => Some (if all_can then CanMatch else Indeterminate)
    | x :: xs' => v ← f x;
        match v with CannotMatch => Some CannotMatch | Indeterminate => go xs' false | CanMatch => go xs' all_can end
    end.
Definition or_loop (f : PushedExpr -> option RgVerdict) :=
  fix go (xs : list PushedExpr) (all_cannot any_can : bool) : option RgVerdict := match xs with
    | [] => Some (if any_can then CanMatch else if all_cannot then CannotMatch else Indeterminate)
    | x :: xs' => v ← f x;
        match v with CanMatch => go xs' all_cannot true | CannotMatch => go xs' all_cannot any_can
                   | Indeterminate => go xs' false any_can end
    end.

Lemma and_loop_cannot f xs b : and_loop f xs b = Some CannotMatch -> exists x, x ∈ xs /\ f x = Some CannotMatch.
Proof.
  revert b. induction xs as [|x xs IH]; intros b H; [by destruct b|]. cbn in H.
  destruct (f x) as [[]|] eqn:E; cbn in H; try done; [exists x; split; [left|done]|..];
    destruct (IH _ H) as (y & Hy & Hc); exists y; (split; [by right|done]).
Qed.

Lemma or_loop_any f xs b1 : or_loop f xs b1 true <> Some CannotMatch.
Proof.
  revert b1. induction xs as [|x xs IH]; intros b1; [done|]. cbn. destruct (f x) as [[]|]; cbn; auto.
Qed.

Lemma or_loop_cannot f xs b : or_loop f xs b false = Some CannotMatch -> b = true /\ forall x, x ∈ xs -> f x = Some CannotMatch.
Proof.
  revert b. induction xs as [|x xs IH]; intros b H.
  { split; [by destruct b|]. by intros ? ?%not_elem_of_nil. }
  cbn in H. destruct (f x) as [[]|] eqn:E; cbn in H; try done.
  - destruct (IH _ H) as [Hb Hall]. split; [done|]. intros y [->|Hy]%elem_of_cons; auto.
  - by apply or_loop_any in H.
  - by destruct (IH _ H) as [? _].
Qed.

Lemma rg_sound e rg schema rows r :
  group_describes rg rows -> evaluate_against_rg e rg schema = Some CannotMatch -> r ∈ rows ->
  sql_eval e r <> Some true.
Proof.
  intros Hd H Hr. induction e as [q|xs IH|xs IH|x IH] using PushedExpr_ind'.
  - by eapply leaf_sound.
  - cbn [sql_eval]. rewrite kleene_and_true, Forall_map. intros Hall.
    change (and_loop (fun x => evaluate_against_rg x rg schema) xs true = Some CannotMatch) in H.
    apply and_loop_cannot in H as (x & Hx & Hc). rewrite Forall_forall in IH, Hall. by apply (IH x Hx Hc), Hall.
  - cbn [sql_eval]. rewrite kleene_or_true, Exists_map, Exists_exists. intros (x & Hx & Ht).
    change (or_loop (fun x => evaluate_against_rg x rg schema) xs true false = Some CannotMatch) in H.
    apply or_loop_cannot in H as [_ Hc]. rewrite Forall_forall in IH. by apply (IH x Hx (Hc x Hx)).
  - done.
Qed.

(** No verdict panics. *)
Lemma and_loop_total f xs b : Forall (fun x => is_Some (f x)) xs -> is_Some (and_loop f xs b).
Proof.
  intros H. revert b. induction H as [|x xs [v Hv] _ IH]; intros b; [by eexists|]. cbn. rewrite Hv.
  destruct v; cbn; try apply IH. by eexists.
Qed.

Lemma or_loop_total f xs b1 b2 : Forall (fun x => is_Some (f x)) xs -> is_Some (or_loop f xs b1 b2).
Proof.
  intros H. revert b1 b2. induction H as [|x xs [v Hv] _ IH]; intros b1 b2; [by eexists|]. cbn. rewrite Hv.
  destruct v; cbn; apply IH.
Qed.

Lemma cmp_verdict_total {T} pcmp o (l : T) mn mx :
  o <> OpIsNull -> o <> OpIsNotNull -> is_Some (cmp_verdict pcmp o l mn mx).
Proof. intros H1 H2. destruct mn, mx; cbn; try by eexists. destruct o; try done; by eexists. Qed.

Lemma leaf_total q rg schema : is_Some (evaluate_leaf_against_rg q rg schema).
Proof.
  unfold evaluate_leaf_against_rg. destruct (_ <=? _)%nat; [by eexists|]. destruct (rg !! col q) as [c|]; [|by eexists].
  destruct (statistics c) as [s|]; [|by eexists].
  assert (forall o l mn mx, is_Some (bool_verdict o l mn mx)) as Hb.
  { intros o l [mn|] [mx|]; cbn; try by eexists. destruct o; try by eexists. by repeat case_match; eexists. }
  destruct (op q) eqn:Ho; try by eexists.
  all: destruct (value q), s; cbn; try (by eexists); try apply Hb; by apply cmp_verdict_total.
Qed.

Lemma rg_total e rg schema : is_Some (evaluate_against_rg e rg schema).
Proof.
  induction e as [q|xs IH|xs IH|x IH] using PushedExpr_ind'; [apply leaf_total|..|by eexists].
  - by apply (and_loop_total (fun x => evaluate_against_rg x rg schema)).
  - by apply (or_loop_total (fun x => evaluate_against_rg x rg schema)).
Qed.

(** Whether a group survives: no expression rules it out. *)
Lemma prune_one_spec exprs rg schema any :
  exists any', prune_one exprs rg schema any =
    Some (forallb (fun e => match evaluate_against_rg e rg schema with Some CannotMatch => false | _ => true end) exprs, any').
Proof.
  revert any. induction exprs as [|e exprs IH]; intros any; cbn [prune_one forallb]; [by eexists|].
  destruct (rg_total e rg schema) as [v Hv]. rewrite Hv. destruct v; cbn; [by eexists|apply IH|apply IH].
Qed.

Lemma prune_from_spec groups exprs schema : forall idx any keep,
  exists any', prune_from idx groups exprs schema any keep =
    Some (any', keep ++ map fst (List.filter (fun '(_, rg) =>
       forallb (fun e => match evaluate_against_rg e rg schema with Some CannotMatch => false | _ => true end) exprs)
       (zip (seq idx (length groups)) groups))).
Proof.
  induction groups as [|rg groups IH]; intros idx any keep; cbn [prune_from length seq zip zip_with List.filter].
  - exists any. by rewrite app_nil_r.
  - destruct (prune_one_spec exprs rg schema any) as [any' ->]. cbn [mbind option_bind].
    destruct (forallb _ exprs); destruct (IH (S idx) any' (keep ++ [idx])) as [a1 H1], (IH (S idx) any' keep) as [a2 H2].
    + exists a1. rewrite H1, <- (assoc_L (++)). done.
    + exists a2. by rewrite H2.
Qed.

(** Membership in the kept groups. *)
Lemma kept_elem (f : RowGroup -> bool) groups idx i :
  i ∈ map fst (List.filter (fun '(_, rg) => f rg) (zip (seq idx (length groups)) groups)) <->
  exists j rg, groups !! j = Some rg /\ i = (idx + j)%nat /\ f rg = true.
Proof.
  revert idx. induction groups as [|g groups IH]; intros idx; cbn [length seq zip zip_with List.filter map].
  - split; [by intros ?%not_elem_of_nil|]. by intros (j & rg & H & _).
  - assert (i ∈ map fst (List.filter (fun '(_, rg) => f rg) (zip (seq (S idx) (length groups)) groups)) <->
            exists j rg, groups !! j = Some rg /\ i = (idx + S j)%nat /\ f rg = true) as IH'.
    { rewrite IH. split; intros (j & rg & H & -> & Hf); exists j, rg; (split; [done|]; split; [lia|done]). }
    unfold zip in IH'. split.
    + intros Hin. destruct (f g) eqn:Hg; cbn [map fst] in Hin.
      * apply elem_of_cons in Hin as [->|Hin]; [exists O, g; split; [done|]; split; [lia|done]|].
        apply IH' in Hin as (j & rg & H & -> & Hf). by exists (S j), rg.
      * apply IH' in Hin as (j & rg & H & -> & Hf). by exists (S j), rg.
    + intros (j & rg & H & -> & Hf). destruct j as [|j]; cbn in H.
      * injection H as ->. rewrite Hf. cbn [map fst]. rewrite Nat.add_0_r. left.
      * assert (idx + S j ∈ map fst (List.filter (fun '(_, rg) => f rg) (zip_with pair (seq (S idx) (length groups)) groups)))%nat
          as Hin by (apply IH'; eauto). destruct (f g); [by right|done].
Qed.

Lemma prune_spec groups exprs schema : exprs <> [] ->
  exists any, prune_row_groups groups exprs schema = Some (if any : bool then Some (map fst (List.filter (fun '(_, rg) =>
      forallb (fun e => match evaluate_against_rg e rg schema with Some CannotMatch => false | _ => true end) exprs)
      (zip (seq 0 (length groups)) groups))) else None).
Proof.
  intros Hne. unfold prune_row_groups. destruct exprs as [|e0 exprs']; [done|].
  destruct (prune_from_spec groups (e0 :: exprs') schema 0 false []) as [any Hany]. exists any. by rewrite Hany.
Qed.

Lemma kept_sublist (f : nat * RowGroup -> bool) groups idx :
  sublist (map fst (List.filter f (zip (seq idx (length groups)) groups))) (seq idx (length groups)).
Proof.
  revert idx. induction groups as [|g groups IH]; intros idx; cbn [length seq zip zip_with List.filter map]; [done|].
  destruct (f (idx, g)); constructor; apply IH.
Qed.

Lemma prune_ok groups exprs schema :
  exists res, prune_row_groups groups exprs schema = Some res /\
    forall keep, res = Some keep -> sublist keep (seq 0 (length groups)) /\
      forall i rg rows r, groups !! i = Some rg -> group_describes rg rows -> r ∈ rows ->
        (forall e, e ∈ exprs -> sql_eval e r = Some true) -> i ∈ keep.
Proof.
  destruct (decide (exprs = [])) as [->|Hne]; [by exists None|].
  destruct (prune_spec groups exprs schema Hne) as [any Hany]. rewrite Hany.
  eexists. split; [done|]. intros keep Hk. destruct any; [|done]. injection Hk as <-. split; [apply kept_sublist|].
  intros i rg rows r Hi Hd Hr Hall. apply kept_elem. exists i, rg. split; [done|]. split; [done|].
  apply forallb_forall. intros e He. apply list_elem_of_In in He.
  destruct (evaluate_against_rg e rg schema) as [[]|] eqn:Hv; try done.
  destruct (rg_sound e rg schema rows r Hd Hv Hr). by apply Hall.
Qed.

(** C29: pruning never panics, and a row group it leaves out holds no row that
    satisfies every pushed expression, whatever statistics are present, as long
    as they bound the values in SQL's order. *)
Theorem prune_row_groups_sound groups exprs schema :
  exists res, prune_row_groups groups exprs schema = Some res /\
    forall keep, res = Some keep -> forall i rg rows r,
      groups !! i = Some rg -> group_describes rg rows -> r ∈ rows ->
      (forall e, e ∈ exprs -> sql_eval e r = Some true) -> i ∈ keep.
Proof.
  destruct (prune_ok groups exprs schema) as (res & Hres & Hk). exists res. split; [done|].
  intros keep Hkeep. by apply Hk.
Qed.
End Pruning.

(** The statistics of a float column as Parquet writers leave them, NaN not
    counted: the group holds 1.0 and NaN, its minimum and maximum are 1.0.
    Pruning leaves it out for [x > 2.0], although Postgres, which orders NaN
    above every other value, finds the clause true on the NaN. *)
Definition one_and_nan : list cell := [Some (VF64 0x3FF0000000000000); Some (VF64 0x7FF8000000000000)].
Definition nan_chunk : ColumnChunk := mkChunk (Some (PqDouble (Some 0x3FF0000000000000) (Some 0x3FF0000000000000))) (Some 0) 2.

Lemma pruning_loses_nan :
  let e := PLeaf (mkQual 0 OpGt (SF64 0x4000000000000000)) in
  sql_eval e (fun _ => Some (VF64 0x7FF8000000000000)) = Some true /\
  prune_row_groups [[nan_chunk]] [e] [mkField "x" Float64 true] = Some (Some []) /\ ~ chunk_describes nan_chunk one_and_nan.
Proof.
  split; [vm_compute; reflexivity|]. split; [vm_compute; reflexivity|]. intros [_ _ Hv].
  destruct (Hv (PqDouble (Some 0x3FF0000000000000) (Some 0x3FF0000000000000)) (VF64 0x7FF8000000000000)) as [_ Hm]; [reflexivity|right; left|].
  by apply (Hm 0x3FF0000000000000).
Qed.

(** ** The upper bound of a LIKE prefix *)

Section LexUpper.

Lemma str_compare_app p a b : str_compare (p ++ a) (p ++ b) = str_compare a b.
Proof. induction p as [|c p IH]; [done|]. cbn. by rewrite Z.compare_refl. Qed.

Lemma str_compare_nil_le a : str_compare [] a <> Gt.
Proof. by destruct a. Qed.

Lemma prefix_le p s : starts_with p s = true -> str_compare p s <> Gt.
Proof. intros (t & ->)%starts_with_true. rewrite <- (app_nil_r p) at 1. rewrite str_compare_app. apply str_compare_nil_le. Qed.

(** Between [q ++ c] and the bound [q ++ (c+1)] lie the extensions of [q ++ c]. *)
Lemma between_bound q c c' s :
  byte c' = byte c + 1 -> str_compare (q ++ [c]) s <> Gt -> str_compare s (q ++ [c']) = Lt ->
  starts_with (q ++ [c]) s = true.
Proof.
  intros Hc. revert s. induction q as [|x q IH]; intros s H1 H2; destruct s as [|y s]; cbn in *; try done.
  - destruct (Z.compare_spec (byte c) (byte y)) as [He|Hl|Hg]; [|exfalso|done].
    + apply starts_with_true. exists s. apply byte_inj in He as ->. done.
    + destruct (Z.compare_spec (byte y) (byte c')); [destruct s; done|lia|done].
  - destruct (Z.compare_spec (byte x) (byte y)) as [He|Hl|Hg]; [| |done].
    + rewrite <- He, Z.compare_refl in H2. apply byte_inj in He as <-.
      apply starts_with_true. destruct (proj1 (starts_with_true _ _) (IH s H1 H2)) as [t ->]. by exists t.
    + destruct (Z.compare_spec (byte y) (byte x)); [lia|lia|done].
Qed.

Lemma next_lex_upper_rev_spec rev u : next_lex_upper_rev rev = Some u ->
  exists q c c' t, List.rev rev = q ++ [c] ++ t /\ u = q ++ [c'] /\ byte c' = byte c + 1 /\ Forall (fun x => byte x = 255) t.
Proof.
  induction rev as [|last rest IH]; cbn [next_lex_upper_rev]; [done|].
  destruct (Z.ltb_spec (byte last) 255) as [Hlt|Hge].
  - destruct (utf8_valid _); [|done]. intros [= <-]. exists (List.rev rest), last, (byte_of (byte last + 1)), [].
    split; [done|]. split; [done|]. split; [|constructor].
    apply byte_byte_of. pose proof (byte_range last). lia.
  - intros H. destruct (IH H) as (q & c & c' & t & Hr & Hu & Hb & Ht). exists q, c, c', (t ++ [last]).
    cbn [List.rev]. rewrite Hr, <- !(assoc_L (++)). split; [done|]. split; [done|]. split; [done|].
    apply Forall_app. split; [done|]. constructor; [|done]. pose proof (byte_range last). lia.
Qed.

(** Nothing but extensions of [t] lies above a run of 255s. *)
Lemma above_max t s : Forall (fun x => byte x = 255) t -> str_compare t s <> Gt -> starts_with t s = true.
Proof.
  intros Ht. revert s. induction Ht as [|x t Hx Ht IH]; intros s H; [by destruct s|].
  destruct s as [|y s]; [done|]. cbn in H. pose proof (byte_range y).
  destruct (Z.compare_spec (byte x) (byte y)) as [He|Hl|Hg]; [|lia|done].
  apply byte_inj in He as <-. apply starts_with_true.
  destruct (proj1 (starts_with_true _ _) (IH s H)) as [r ->]. by exists r.
Qed.

Lemma lex_upper_range prefix u s :
  next_lex_upper prefix = Some u ->
  starts_with prefix s = true <-> str_compare prefix s <> Gt /\ str_compare s u = Lt.
Proof.
  intros H. apply next_lex_upper_rev_spec in H as (q & c & c' & t & Hp & -> & Hb & Ht).
  rewrite rev_involutive in Hp. subst prefix. split.
  - intros Hs. split; [by apply prefix_le|]. apply starts_with_true in Hs as [r ->].
    rewrite <- !(assoc_L (++)), str_compare_app. cbn. destruct (Z.compare_spec (byte c) (byte c')); [lia|done|lia].
  - intros [H1 H2].
    assert (starts_with (q ++ [c]) s = true) as Hs.
    { apply (between_bound q c c'); [done| |done]. apply (cmp_le_trans (q ++ [c]) (q ++ [c] ++ t) s); [|done].
      rewrite (assoc_L (++)). rewrite <- (app_nil_r (q ++ [c])) at 1. rewrite str_compare_app. apply str_compare_nil_le. }
    apply starts_with_true in Hs as [r ->]. rewrite (assoc_L (++)), str_compare_app in H1.
    apply (above_max _ _ Ht), starts_with_true in H1 as [r' ->]. apply starts_with_true. exists r'.
    by rewrite <- !(assoc_L (++)).
Qed.
(** The range a [LIKE 'prefix%'] is pushed as, [prefix <= s < upper] in
    byte order, holds exactly the strings with that prefix. *)
Theorem next_lex_upper_exact prefix u s :
  next_lex_upper prefix = Some u ->
  starts_with prefix s = true <-> str_compare prefix s <> Gt /\ str_compare s u = Lt.
Proof. apply lex_upper_range. Qed.
End LexUpper.

Lemma next_lex_upper_exact_witness :
  starts_with "ab" (lit "abz") = true <-> str_compare "ab" "abz" <> Gt /\ str_compare "abz" "ac" = Lt.
Proof. apply (next_lex_upper_exact "ab" "ac" "abz"). vm_compute. reflexivity. Defined.
