(* ===== verification/RowFilter.v ===== *)
(** * What the pushed row filter keeps ([build_row_filter] in [pushdown.rs]).

    The predicate of an expression runs arrow's kernels on the batch of the
    expression's columns.  [arrow_eval] is its value on one row: the kernels
    [and]/[or] give NULL as soon as one side is NULL, and the projected batch
    has the columns in file order.  The theorems say when the rows kept are
    exactly those SQL keeps, and exhibit the two ways they are not. *)

From S2P Require Import Prelude RustStr Errors Externals Convert Pushdown PushdownFacts.
Local Open Scope Z_scope.

(** ** The documented behaviour of the kernels *)

Definition null_and (a b : option bool) : option bool := x ← a; y ← b; Some (x && y).
Definition null_or (a b : option bool) : option bool := x ← a; y ← b; Some (x || y).

(** The kernels' order on two values of one type. *)
Definition arrow_cmp (a b : Value) : comparison :=
  match a, b with
  | VBool x, VBool y => bool_cmp x y
  | VI16 x, VI16 y | VI32 x, VI32 y | VI64 x, VI64 y | VDate32 x, VDate32 y | VTimestamp x, VTimestamp y
  | VDecimal128 x, VDecimal128 y => x ?= y
  | VF32 x, VF32 y => total_key (2 ^ 31) x ?= total_key (2 ^ 31) y
  | VF64 x, VF64 y => total_key (2 ^ 63) x ?= total_key (2 ^ 63) y
  | VUtf8 x, VUtf8 y | VBinary x, VBinary y => str_compare x y
  | _, _ => Datatypes.Eq
  end.

Class ComputeLaws {A : ArrowApi} (C : ComputeApi) : Prop := {
  and_ok a b : length a = length b -> kernel_and a b = Ok (zip_with null_and a b);
  or_ok a b : length a = length b -> kernel_or a b = Ok (zip_with null_or a b);
  not_ok a : kernel_not a = Ok (map (fmap negb) a);
  is_null_ok c : kernel_is_null c = Ok (map (fun x => Some (is_null_cell x)) (array_cells c));
  is_not_null_ok c : kernel_is_not_null c = Ok (map (fun x => Some (negb (is_null_cell x))) (array_cells c));
  cmp_ok o c s v : null_test o = false -> array_type c = array_type s -> array_cells s = [Some v] ->
    kernel_cmp o c s = Ok (map (fun x => y ← x; Some (op_holds o (arrow_cmp y v))) (array_cells c));
}.

(** ** The value of the predicate on one row *)

(** The literal's array for a column of type [ty]. *)
Definition lit_array (l : ScalarValueRepr) (ty : DataType) : option (DataType * Value) :=
  match l with
  | SBool b => Some (Boolean, VBool b) | SI16 x => Some (Int16, VI16 x) | SI32 x => Some (Int32, VI32 x)
  | SI64 x => Some (Int64, VI64 x) | SF32 x => Some (Float32, VF32 x) | SF64 x => Some (Float64, VF64 x)
  | SUtf8 s => Some (match ty with LargeUtf8 => LargeUtf8 | _ => Utf8 end, VUtf8 s)
  | SDate32 d => Some (Date32, VDate32 d) | STimestampMicros t => Some (Timestamp Microsecond None, VTimestamp t)
  | SDecimal128 v p s => if decimal128_params_ok p s then Some (Decimal128 p s, VDecimal128 v) else None
  | SNull => None
  end.

Definition arrow_leaf (q : PushedQual) (c : cell) : option bool :=
  match op q with
  | OpIsNull => Some (is_null_cell c)
  | OpIsNotNull => Some (negb (is_null_cell c))
  | o => v ← c; '(_, l) ← lit_array (value q) Utf8; Some (op_holds o (arrow_cmp v l))
  end.

Fixpoint arrow_eval (e : PushedExpr) (row : Row) : option bool :=
  match e with
  | PLeaf q => arrow_leaf q (row (col q))
  | PAnd xs => foldr null_and (Some true) (map (fun x => arrow_eval x row) xs)
  | POr xs => foldr null_or (Some false) (map (fun x => arrow_eval x row) xs)
  | PNot x => negb <$> arrow_eval x row
  end.

Section RowFilter.
Context {A : ArrowApi} {AL : ArrowLaws A} {C : ComputeApi} {CL : ComputeLaws C}.

Lemma scalar_to_array_ok l ty t v :
  lit_array l ty = Some (t, v) ->
  exists s, scalar_to_array l ty = Ok s /\ array_type s = t /\ array_cells s = [Some v].
Proof.
  intros H. destruct l; cbn in *; try (injection H as <- <-; eexists; by rewrite build_type, build_cells); try done.
  destruct (decimal128_params_ok _ _); [|done]. injection H as <- <-. eexists. by rewrite build_type, build_cells.
Qed.

(** Row [r] of a batch. *)
Definition row_of (b : RecordBatch) (r : nat) : Row := fun i => c ← batch_columns b !! i; mjoin (array_cells c !! r).

(** Comparison leaves have a literal of their column's type. *)
Definition typed_leaf (q : PushedQual) (c : ArrayRef) : Prop :=
  null_test (op q) = true \/ exists v, lit_array (value q) (array_type c) = Some (array_type c, v).

Lemma lit_array_value l ty t v : lit_array l ty = Some (t, v) -> exists t', lit_array l Utf8 = Some (t', v).
Proof. destruct l; cbn; intros H; try (injection H as <- <-; eauto); try done. destruct (decimal128_params_ok _ _); [|done]. injection H as <- <-. eauto. Qed.

Lemma cells_by_row {T} (c : ArrayRef) n (f : cell -> T) :
  array_len c = n -> map f (array_cells c) = map (fun r => f (mjoin (array_cells c !! r))) (seq 0 n).
Proof.
  intros Hn. apply list_eq. intros i. rewrite !list_lookup_fmap. unfold array_len in Hn.
  destruct (array_cells c !! i) as [x|] eqn:E.
  - rewrite lookup_seq_lt by (rewrite <- Hn; by eapply lookup_lt_Some). cbn. by rewrite E.
  - rewrite lookup_seq_ge; [done|]. rewrite <- Hn. by apply lookup_ge_None.
Qed.

Lemma eval_leaf_ok q batch local_idx idx c n :
  num_rows batch = n -> local_idx (col q) = Some idx -> batch_columns batch !! idx = Some c -> typed_leaf q c ->
  eval_leaf q batch local_idx = Ok (map (fun r => arrow_leaf q (mjoin (array_cells c !! r))) (seq 0 n)).
Proof.
  intros Hn Hidx Hc Ht. unfold eval_leaf. rewrite Hidx. cbn [ok_or mbind result_bind]. rewrite Hc. cbn [ok_or mbind result_bind].
  pose proof (columns_len batch) as Hl. rewrite Forall_forall in Hl.
  specialize (Hl c (list_elem_of_lookup_2 _ _ _ Hc)). rewrite Hn in Hl.
  rewrite <- (cells_by_row c n (arrow_leaf q) Hl). unfold arrow_leaf.
  destruct (null_test (op q)) eqn:Hnt.
  - destruct (op q); try done; [by rewrite is_null_ok|by rewrite is_not_null_ok].
  - destruct Ht as [Ht|[v Hv]]; [congruence|].
    destruct (scalar_to_array_ok _ _ _ _ Hv) as (s & Hs & Hty & Hcells). rewrite Hs. cbn [mbind result_bind].
    destruct (lit_array_value _ _ _ _ Hv) as [t' ->].
    destruct (op q); try done; by rewrite (cmp_ok _ c s v).
Qed.

Lemma null_and_true a : null_and a (Some true) = a.
Proof. by destruct a as [[]|]. Qed.
Lemma null_or_false a : null_or a (Some false) = a.
Proof. by destruct a as [[]|]. Qed.
Lemma null_and_assoc a b c : null_and (null_and a b) c = null_and a (null_and b c).
Proof. by destruct a as [[]|], b as [[]|], c as [[]|]. Qed.
Lemma null_or_assoc a b c : null_or (null_or a b) c = null_or a (null_or b c).
Proof. by destruct a as [[]|], b as [[]|], c as [[]|]. Qed.

(** The accumulating loop of AND and OR, as a loop over already evaluated
    children. *)
Definition combine_loop (f : BooleanArray -> BooleanArray -> Result str BooleanArray) (ev : PushedExpr -> Result str BooleanArray) :=
  fix go (xs : list PushedExpr) (acc : option BooleanArray) : Result str (option BooleanArray) :=
    match xs with
    | [] => Ok acc
    | x :: xs' => b ← ev x; acc' ← match acc with None => Ok b | Some a => f a b end; go xs' (Some acc')
    end.

Lemma combine_acc f ev g (val : PushedExpr -> nat -> option bool) u n xs a :
  (forall a b, length a = length b -> f a b = Ok (zip_with g a b)) ->
  (forall a, g a u = a) -> (forall a b c, g (g a b) c = g a (g b c)) ->
  Forall (fun x => ev x = Ok (map (val x) (seq 0 n))) xs ->
  combine_loop f ev xs (Some (map a (seq 0 n))) =
    Ok (Some (map (fun r => g (a r) (foldr g u (map (fun x => val x r) xs))) (seq 0 n))).
Proof.
  intros Hf Hu Ha H. revert a. induction H as [|x xs Hx _ IH]; intros a; cbn.
  - do 2 f_equal. apply map_ext. intros r. by rewrite Hu.
  - rewrite Hx. cbn. rewrite Hf by by rewrite !length_map. cbn.
    assert (zip_with g (map a (seq 0 n)) (map (val x) (seq 0 n)) = map (fun r => g (a r) (val x r)) (seq 0 n)) as ->.
    { generalize (seq 0 n). intros l. induction l; cbn; congruence. }
    rewrite IH. do 2 f_equal. apply map_ext. intros r. by rewrite Ha.
Qed.

Lemma combine_ok f ev g (val : PushedExpr -> nat -> option bool) u n xs :
  (forall a b, length a = length b -> f a b = Ok (zip_with g a b)) ->
  (forall a, g a u = a) -> (forall a b c, g (g a b) c = g a (g b c)) ->
  Forall (fun x => ev x = Ok (map (val x) (seq 0 n))) xs ->
  exists acc, combine_loop f ev xs None = Ok acc /\
    default (replicate n u) acc = map (fun r => foldr g u (map (fun x => val x r) xs)) (seq 0 n).
Proof.
  intros Hf Hu Ha H. destruct H as [|x xs Hx H]; cbn.
  - exists None. split; [done|]. cbn. generalize 0%nat. induction n as [|n IH]; intros s; [done|]. cbn. by rewrite <- IH.
  - rewrite Hx. cbn. eexists. split; [by apply combine_acc|]. done.
Qed.

(** The batch holds, for every leaf, a column of the right type. *)
Definition has_columns (e : PushedExpr) (batch : RecordBatch) (local_idx : nat -> option nat) (row : nat -> Row) : Prop :=
  forall q, q ∈ leaves e -> exists idx c, local_idx (col q) = Some idx /\ batch_columns batch !! idx = Some c /\
    typed_leaf q c /\ forall r, row r (col q) = mjoin (array_cells c !! r).

Lemma eval_ok e batch local_idx row :
  has_columns e batch local_idx row ->
  eval e batch local_idx = Ok (map (fun r => arrow_eval e (row r)) (seq 0 (num_rows batch))).
Proof.
  induction e as [q|xs IH|xs IH|x IH] using PushedExpr_ind'; intros Hc.
  - destruct (Hc q) as (idx & c & H1 & H2 & H3 & H4); [left|]. cbn [eval].
    rewrite (eval_leaf_ok q batch local_idx idx c (num_rows batch)) by done.
    f_equal. apply map_ext. intros r. cbn. by rewrite H4.
  - assert (Forall (fun x => eval x batch local_idx = Ok (map (fun r => arrow_eval x (row r)) (seq 0 (num_rows batch)))) xs) as HF.
    { rewrite Forall_forall in IH |- *. intros x Hx. apply IH; [done|]. intros q Hq. apply Hc. by eapply elem_leaves. }
    destruct (combine_ok kernel_and (fun x => eval x batch local_idx) null_and (fun x r => arrow_eval x (row r)) (Some true)
                (num_rows batch) xs and_ok null_and_true null_and_assoc HF) as (acc & Hacc & Hdef).
    change (eval (PAnd xs) batch local_idx) with
      (acc ← combine_loop kernel_and (fun x => eval x batch local_idx) xs None; Ok (default (replicate (num_rows batch) (Some true)) acc)).
    rewrite Hacc. cbn [mbind result_bind]. by rewrite Hdef.
  - assert (Forall (fun x => eval x batch local_idx = Ok (map (fun r => arrow_eval x (row r)) (seq 0 (num_rows batch)))) xs) as HF.
    { rewrite Forall_forall in IH |- *. intros x Hx. apply IH; [done|]. intros q Hq. apply Hc. by eapply elem_leaves. }
    destruct (combine_ok kernel_or (fun x => eval x batch local_idx) null_or (fun x r => arrow_eval x (row r)) (Some false)
                (num_rows batch) xs or_ok null_or_false null_or_assoc HF) as (acc & Hacc & Hdef).
    change (eval (POr xs) batch local_idx) with
      (acc ← combine_loop kernel_or (fun x => eval x batch local_idx) xs None; Ok (default (replicate (num_rows batch) (Some false)) acc)).
    rewrite Hacc. cbn [mbind result_bind]. by rewrite Hdef.
  - cbn [eval]. rewrite IH by done. cbn [mbind result_bind]. rewrite not_ok, map_map. done.
Qed.

(** ** The projected batch *)

(** The batch a predicate gets: the masked root columns, in file order. *)
Definition projected (cols : list nat) (fb pb : RecordBatch) : Prop :=
  num_rows pb = num_rows fb /\
  batch_columns pb = omap (fun i => batch_columns fb !! i)
    (List.filter (fun i => bool_decide (i ∈ cols)) (seq 0 (length (batch_columns fb)))).

Lemma filter_sorted cols s n :
  StronglySorted lt cols -> Forall (fun i => s <= i < s + n)%nat cols ->
  List.filter (fun i => bool_decide (i ∈ cols)) (seq s n) = cols.
Proof.
  revert cols s. induction n as [|n IH]; intros cols s Hs HF; cbn.
  - destruct cols; [done|]. apply Forall_cons in HF as [? _]. lia.
  - destruct (decide (s ∈ cols)) as [Hin|Hin].
    + rewrite bool_decide_eq_true_2 by done. destruct cols as [|i cols]; [by apply not_elem_of_nil in Hin|].
      apply StronglySorted_inv in Hs as [Hs Hlt]. apply Forall_cons in HF as [Hi HF].
      assert (i = s) as ->.
      { apply elem_of_cons in Hin as [->|Hin]; [done|]. rewrite Forall_forall in Hlt. specialize (Hlt s Hin). lia. }
      f_equal. etrans; [|apply (IH cols (S s)); [done|]].
      * apply filter_ext_in. intros j Hj. apply in_seq in Hj. apply bool_decide_ext. rewrite elem_of_cons. naive_solver lia.
      * rewrite Forall_forall in HF, Hlt |- *. intros j Hj. specialize (HF j Hj). specialize (Hlt j Hj). lia.
    + rewrite bool_decide_eq_false_2 by done. apply IH; [done|]. rewrite Forall_forall in HF |- *.
      intros j Hj. specialize (HF j Hj). assert (j <> s) by congruence. lia.
Qed.

Lemma position_lookup cols c : c ∈ cols -> exists i, position cols c = Some i /\ cols !! i = Some c.
Proof.
  induction cols as [|y cols IH]; [by intros ?%not_elem_of_nil|]. intros Hin. cbn.
  case_bool_decide as H; [subst; by exists O|]. apply elem_of_cons in Hin as [->|Hin]; [done|].
  destruct (IH Hin) as (i & -> & Hi). by exists (S i).
Qed.

Lemma omap_all_lookup {T} (l : list T) idxs :
  Forall (fun i => (i < length l)%nat) idxs -> forall k i, idxs !! k = Some i -> omap (fun i => l !! i) idxs !! k = l !! i.
Proof.
  induction 1 as [|j idxs Hj _ IH]; intros k i H; [done|]. cbn. destruct (lookup_lt_is_Some_2 l j Hj) as [x Hx]. rewrite Hx.
  destruct k as [|k]; cbn in *; [congruence|auto].
Qed.

Lemma collect_walk_mono e out i : i ∈ out -> i ∈ collect_walk e out.
Proof.
  revert out. induction e as [q|xs IH|xs IH|x IH] using PushedExpr_ind'; intros out Hi; cbn [collect_walk].
  - case_bool_decide; [done|]. by apply elem_of_app; left.
  - revert out Hi. induction IH as [|x xs Hx _ IHl]; intros out Hi; cbn; auto.
  - revert out Hi. induction IH as [|x xs Hx _ IHl]; intros out Hi; cbn; auto.
  - by apply IH.
Qed.

Lemma fold_walk_mono xs out i : i ∈ out -> i ∈ foldl (fun out c => collect_walk c out) out xs.
Proof. revert out. induction xs as [|x xs IH]; intros out Hi; cbn; [done|]. by apply IH, collect_walk_mono. Qed.

Lemma collect_walk_leaf e out q : q ∈ leaves e -> col q ∈ collect_walk e out.
Proof.
  revert out. induction e as [q'|xs IH|xs IH|x IH] using PushedExpr_ind'; intros out Hq; cbn [collect_walk leaves] in *.
  - apply list_elem_of_singleton in Hq as ->. case_bool_decide; [done|]. apply elem_of_app. right. left.
  - revert out. induction IH as [|x xs Hx _ IHl]; intros out; cbn in *; [by apply not_elem_of_nil in Hq|].
    apply elem_of_app in Hq as [Hq|Hq]; [by apply fold_walk_mono, Hx|by apply IHl].
  - revert out. induction IH as [|x xs Hx _ IHl]; intros out; cbn in *; [by apply not_elem_of_nil in Hq|].
    apply elem_of_app in Hq as [Hq|Hq]; [by apply fold_walk_mono, Hx|by apply IHl].
  - by apply IH.
Qed.

(** With its columns in file order, the predicate sees each leaf's column. *)
Lemma predicate_ok e fb pb :
  projected (collect_cols e) fb pb -> StronglySorted lt (collect_cols e) ->
  Forall (fun i => (i < length (batch_columns fb))%nat) (collect_cols e) ->
  (forall q, q ∈ leaves e -> exists c, batch_columns fb !! col q = Some c /\ typed_leaf q c) ->
  run (predicate_of e) pb = Ok (map (fun r => arrow_eval e (row_of fb r)) (seq 0 (num_rows fb))).
Proof.
  intros [Hn Hcols] Hs HF Hq. cbn [run predicate_of]. rewrite <- Hn. apply eval_ok. intros q Hin.
  destruct (Hq q Hin) as (c & Hc & Ht).
  destruct (position_lookup (collect_cols e) (col q)) as (i & Hi & Hl); [by apply collect_walk_leaf|].
  exists i, c. split; [done|]. split.
  - rewrite Hcols, filter_sorted; [|done|rewrite Forall_forall in HF |- *; intros j Hj; specialize (HF j Hj); lia].
    by rewrite (omap_all_lookup _ _ HF i (col q)).
  - split; [done|]. intros r. unfold row_of. by rewrite Hc.
Qed.
End RowFilter.

(** ** Arrow's answer against SQL's *)

(** Not a NaN and not [-0]. *)
Definition regular (key : Z -> option Z) (sign_bit bits : Z) : Prop :=
  is_Some (key bits) /\ (Z.testbit bits (Z.log2 sign_bit) = true -> Z.land bits (sign_bit - 1) <> 0).

(** A value of the literal's type; floats regular. *)
Definition plain_value (v : Value) (l : ScalarValueRepr) : Prop :=
  match v, l with
  | VBool _, SBool _ | VI16 _, SI16 _ | VI32 _, SI32 _ | VI64 _, SI64 _ | VUtf8 _, SUtf8 _ | VDate32 _, SDate32 _
  | VTimestamp _, STimestampMicros _ => True
  | VF32 a, SF32 b => regular f32_key (2 ^ 31) a /\ regular f32_key (2 ^ 31) b
  | VF64 a, SF64 b => regular f64_key (2 ^ 63) a /\ regular f64_key (2 ^ 63) b
  | _, _ => False
  end.

Lemma regular_cmp me sign a b :
  0 < sign -> regular (float_key me sign) sign a -> regular (float_key me sign) sign b -> 
  (total_key sign a ?= total_key sign b) = sql_float_cmp (float_key me sign) a b.
Proof.
  intros Hs [[ka Ha] Za] [[kb Hb] Zb]. unfold sql_float_cmp, sql_float_key. rewrite Ha, Hb. cbn [default from_option id].
  unfold float_key in Ha, Hb. unfold total_key. 
  assert (forall x, 0 <= Z.land x (sign - 1)) as Hpos by (intros; apply Z.land_nonneg; lia).
  pose proof (Hpos a). pose proof (Hpos b).
  destruct (me <? Z.land a (sign - 1)); [done|]. destruct (me <? Z.land b (sign - 1)); [done|].
  injection Ha as <-. injection Hb as <-.
  destruct (Z.testbit a _), (Z.testbit b _);
    try specialize (Za eq_refl); try specialize (Zb eq_refl);
    match goal with |- (?x ?= ?y) = (?u ?= ?v) => destruct (Z.compare_spec x y), (Z.compare_spec u v) end; try done; lia.
Qed.

Lemma plain_leaf q c : (forall v, c = Some v -> null_test (op q) = true \/ plain_value v (value q)) -> arrow_leaf q c = sql_leaf q c.
Proof.
  intros H. unfold arrow_leaf, sql_leaf. destruct (null_test (op q)) eqn:Hn.
  - destruct (op q); try done; by destruct c.
  - destruct c as [v|]; [|by destruct (op q)]. destruct (H v eq_refl) as [?|Hp]; [done|].
    assert (exists t l, lit_array (value q) Utf8 = Some (t, l) /\ sql_cmp v (value q) = Some (arrow_cmp v l)) as (t & l & H1 & H2).
    { destruct v, (value q); try done; eexists _, _; (split; [reflexivity|]); cbn; try done;
        f_equal; symmetry; apply regular_cmp; try apply Hp; done. }
    cbn [mbind option_bind]. rewrite H1, H2. destruct (op q); done.
Qed.

(** Conjunctions whose disjunctions range over one column: the shape of
    comparisons, null tests, [IN] lists and LIKE ranges joined by AND. *)
Fixpoint exact (e : PushedExpr) : bool :=
  match e with
  | PLeaf _ => true
  | PAnd xs => forallb exact xs
  | POr [] => true
  | POr (PLeaf q :: xs) =>
      negb (null_test (op q)) &&
      forallb (fun x => match x with PLeaf q' => negb (null_test (op q')) && (col q' =? col q)%nat | _ => false end) xs
  | _ => false
  end.

Lemma null_and_all l : foldr null_and (Some true) l = Some true <-> Forall (fun x => x = Some true) l.
Proof.
  induction l as [|x l IH]; simpl; [by split|]. rewrite Forall_cons, <- IH.
  destruct x as [[]|], (foldr null_and (Some true) l) as [[]|]; cbn; intuition congruence.
Qed.

Lemma or_no_null l : Forall is_Some l -> foldr null_or (Some false) l = foldr kleene_or (Some false) l /\ is_Some (foldr kleene_or (Some false) l).
Proof.
  induction 1 as [|x l [b ->] _ [IH [c Hc]]]; [by split; eexists|]. cbn. rewrite IH, Hc. destruct b, c; cbn; by split; eexists.
Qed.

Lemma and_no_null l : Forall is_Some l -> foldr null_and (Some true) l = foldr kleene_and (Some true) l /\ is_Some (foldr kleene_and (Some true) l).
Proof.
  induction 1 as [|x l [b ->] _ [IH [c Hc]]]; [by split; eexists|]. cbn. rewrite IH, Hc. destruct b, c; cbn; by split; eexists.
Qed.

Lemma or_all_null l : l <> [] -> Forall (fun x => x = None) l ->
  foldr null_or (Some false) l = None /\ foldr kleene_or (Some false) l = None.
Proof.
  intros Hne H. destruct H as [|x l -> H]; [done|]. cbn. split; [done|].
  clear Hne. induction H as [|x l -> _ IH]; [done|]. cbn. by destruct (foldr kleene_or (Some false) l) as [[]|].
Qed.

Lemma one_column_or q xs row :
  null_test (op q) = false ->
  forallb (fun x => match x with PLeaf q' => negb (null_test (op q')) && (col q' =? col q)%nat | _ => false end) xs = true ->
  (forall q', q' ∈ leaves (POr (PLeaf q :: xs)) -> arrow_leaf q' (row (col q')) = sql_leaf q' (row (col q')) /\
     (forall v, row (col q') = Some v -> is_Some (sql_leaf q' (row (col q'))))) ->
  arrow_eval (POr (PLeaf q :: xs)) row = sql_eval (POr (PLeaf q :: xs)) row.
Proof.
  intros Hq Hall Hl.
  assert (forall x, x ∈ PLeaf q :: xs -> exists q', x = PLeaf q' /\ null_test (op q') = false /\ col q' = col q) as Hshape.
  { intros x [->|Hx]%elem_of_cons; [by exists q|]. rewrite forallb_forall in Hall.
    specialize (Hall x (proj1 (list_elem_of_In _ _) Hx)). destruct x as [q'| | |]; try done.
    apply andb_true_iff in Hall as [H1 H2]. exists q'. apply negb_true_iff in H1. apply Nat.eqb_eq in H2. done. }
  assert (forall q', PLeaf q' ∈ PLeaf q :: xs -> q' ∈ leaves (POr (PLeaf q :: xs))) as Hin.
  { intros q' Hx. by apply (elem_leaves (PLeaf q')), list_elem_of_singleton. }
  assert (map (fun x => arrow_eval x row) (PLeaf q :: xs) = map (fun x => sql_eval x row) (PLeaf q :: xs)) as Heq.
  { apply map_ext_in. intros x Hx. apply list_elem_of_In in Hx. destruct (Hshape x Hx) as (q' & -> & _ & _).
    cbn. by apply Hl, Hin. }
  cbn [arrow_eval sql_eval]. rewrite Heq.
  destruct (row (col q)) as [v|] eqn:Hrow.
  - apply or_no_null. apply Forall_map, Forall_forall. intros x Hx. destruct (Hshape x Hx) as (q' & -> & Hn & Hc).
    cbn. rewrite <- Hc in Hrow. by apply (proj2 (Hl q' (Hin q' Hx)) v).
  - assert (Forall (fun x => x = None) (map (fun x => sql_eval x row) (PLeaf q :: xs))) as Hnone.
    { apply Forall_map, Forall_forall. intros x Hx. destruct (Hshape x Hx) as (q' & -> & Hn & Hc).
      cbn. rewrite Hc, Hrow. unfold sql_leaf. by destruct (op q'). }
    assert (map (fun x => sql_eval x row) (PLeaf q :: xs) <> []) as Hne by done.
    destruct (or_all_null _ Hne Hnone) as [H1 H2].
    by rewrite H1, H2.
Qed.

(** The leaves behave as in SQL on [row]. *)
Definition plain_row (e : PushedExpr) (row : Row) : Prop :=
  forall q v, q ∈ leaves e -> row (col q) = Some v -> null_test (op q) = true \/ plain_value v (value q).

Lemma plain_sql q v : null_test (op q) = true \/ plain_value v (value q) -> is_Some (sql_leaf q (Some v)).
Proof.
  unfold sql_leaf. destruct (null_test (op q)) eqn:Hn; [by destruct (op q)|].
  intros [?|H]; [done|]. assert (exists c, sql_cmp v (value q) = Some c) as [c Hc] by (destruct v, (value q); try done; by eexists).
  cbn [mbind option_bind]. rewrite Hc. destruct (op q); try done; by eexists.
Qed.

Lemma exact_eval e row : exact e = true -> plain_row e row -> 
  arrow_eval e row = Some true <-> sql_eval e row = Some true.
Proof.
  induction e as [q|xs IH|xs IH|x IH] using PushedExpr_ind'; intros He Hp; cbn [exact] in He; [| | |done].
  - cbn. rewrite plain_leaf; [done|]. intros v Hv. apply (Hp q v); [left|done].
  - cbn [arrow_eval sql_eval]. rewrite null_and_all, kleene_and_true, !Forall_map. rewrite forallb_forall in He.
    rewrite !Forall_forall in *. split; intros H x Hx; (apply IH; [done|by apply He, list_elem_of_In| |by apply H]);
      intros q v Hq; apply Hp; by eapply elem_leaves.
  - destruct xs as [|[q| | |] xs]; try done. apply andb_true_iff in He as [Hq Hall]. apply negb_true_iff in Hq.
    rewrite one_column_or; [done|done|done|]. intros q' Hin. split.
    + apply plain_leaf. intros v Hv. by apply (Hp q' v).
    + intros v Hv. rewrite Hv. apply plain_sql. by apply (Hp q' v).
Qed.

Lemma no_null_eval e row :
  (forall q, q ∈ leaves e -> is_Some (row (col q))) -> plain_row e row ->
  arrow_eval e row = sql_eval e row /\ is_Some (sql_eval e row).
Proof.
  induction e as [q|xs IH|xs IH|x IH] using PushedExpr_ind'; intros Hn Hp.
  - cbn. split; [apply plain_leaf; intros v Hv; apply (Hp q v); [left|done]|].
    destruct (Hn q) as [v Hv]; [left|]. rewrite Hv. apply plain_sql, (Hp q v); [left|done].
  - assert (Forall (fun x => arrow_eval x row = sql_eval x row /\ is_Some (sql_eval x row)) xs) as HF.
    { rewrite Forall_forall in IH |- *. intros x Hx. apply IH; [done|..]; intros q; [|intros v]; intros Hq;
        [apply Hn|apply Hp]; by eapply elem_leaves. }
    cbn [arrow_eval sql_eval]. rewrite (map_ext_in _ (fun x => sql_eval x row)) by
      (intros x Hx; apply list_elem_of_In in Hx; by apply (proj1 (Forall_forall _ _) HF)).
    apply and_no_null, Forall_map. eapply Forall_impl; [exact HF|]. by intros x [_ ?].
  - assert (Forall (fun x => arrow_eval x row = sql_eval x row /\ is_Some (sql_eval x row)) xs) as HF.
    { rewrite Forall_forall in IH |- *. intros x Hx. apply IH; [done|..]; intros q; [|intros v]; intros Hq;
        [apply Hn|apply Hp]; by eapply elem_leaves. }
    cbn [arrow_eval sql_eval]. rewrite (map_ext_in _ (fun x => sql_eval x row)) by
      (intros x Hx; apply list_elem_of_In in Hx; by apply (proj1 (Forall_forall _ _) HF)).
    apply or_no_null, Forall_map. eapply Forall_impl; [exact HF|]. by intros x [_ ?].
  - destruct IH as [H1 [b Hb]]; [done|done|]. cbn. rewrite H1, Hb. split; [done|by eexists].
Qed.

Section Claims.
Context {A : ArrowApi} {AL : ArrowLaws A} {C : ComputeApi} {CL : ComputeLaws C}.

(** The file batch has, for every leaf, a column of the literal's type. *)
Definition leaves_fit (e : PushedExpr) (fb : RecordBatch) : Prop :=
  forall q, q ∈ leaves e -> exists c, batch_columns fb !! col q = Some c /\ typed_leaf q c /\
    forall v, Some v ∈ array_cells c -> null_test (op q) = true \/ plain_value v (value q).

Definition no_nulls (e : PushedExpr) (fb : RecordBatch) : Prop :=
  forall q c, q ∈ leaves e -> batch_columns fb !! col q = Some c -> None ∉ array_cells c.

Lemma leaves_fit_run e fb pb :
  projected (collect_cols e) fb pb -> StronglySorted lt (collect_cols e) ->
  Forall (fun i => (i < length (batch_columns fb))%nat) (collect_cols e) -> leaves_fit e fb ->
  run (predicate_of e) pb = Ok (map (fun r => arrow_eval e (row_of fb r)) (seq 0 (num_rows fb))).
Proof. intros Hp Hs HF Hl. apply predicate_ok; [done..|]. intros q Hq. destruct (Hl q Hq) as (c & ? & ? & _). eauto. Qed.

Lemma row_cell fb r i c : batch_columns fb !! i = Some c -> row_of fb r i = mjoin (array_cells c !! r).
Proof. intros H. unfold row_of. by rewrite H. Qed.

Lemma leaves_fit_plain e fb r : leaves_fit e fb -> plain_row e (row_of fb r).
Proof.
  intros Hl q v Hq Hv. destruct (Hl q Hq) as (c & Hc & _ & Hp). rewrite (row_cell _ _ _ _ Hc) in Hv.
  apply Hp. destruct (array_cells c !! r) eqn:E; [|done]. cbn in Hv. subst. by eapply list_elem_of_lookup_2.
Qed.

Lemma mask_at {T} (f : nat -> T) n r : (r < n)%nat -> map f (seq 0 n) !! r = Some (f r).
Proof. intros H. rewrite list_lookup_fmap, lookup_seq_lt by done. done. Qed.


(** The kernel compares floats in IEEE's total order: a row holding [-0] is
    dropped by [x = 0.0], which SQL finds true, also on a column without
    NULLs. *)
Lemma row_filter_negative_zero i fb pb c r :
  let e := PLeaf (mkQual i OpEq (SF64 0)) in
  projected (collect_cols e) fb pb -> batch_columns fb !! i = Some c -> array_type c = Float64 ->
  array_cells c !! r = Some (Some (VF64 (2 ^ 63))) -> (r < num_rows fb)%nat ->
  sql_eval e (row_of fb r) = Some true /\ exists m, run (predicate_of e) pb = Ok m /\ m !! r = Some (Some false).
Proof.
  intros e Hp Hc Ht Hr Hlt. assert (row_of fb r i = Some (VF64 (2 ^ 63))) as Hrow by (by rewrite (row_cell _ _ _ _ Hc), Hr).
  split; [cbn [sql_eval e]; unfold sql_leaf; cbn [op value col]; by rewrite Hrow|].
  eexists. split.
  - apply predicate_ok; [done|repeat constructor|repeat constructor; by eapply lookup_lt_Some|].
    intros q ->%list_elem_of_singleton. exists c. split; [done|]. right. exists (VF64 0). by rewrite Ht.
  - rewrite mask_at by done. cbn [arrow_eval e]. unfold arrow_leaf. cbn [op value col]. by rewrite Hrow.
Qed.

(** A disjunction over two columns loses rows: where the first column is
    NULL and the second comparison holds, SQL keeps the row and the filter
    drops it, because the kernel's [or] is not Kleene's. *)
Theorem row_filter_or_drops_null q1 q2 fb pb r :
  let e := POr [PLeaf q1; PLeaf q2] in
  (col q1 < col q2 < length (batch_columns fb))%nat -> projected (collect_cols e) fb pb -> leaves_fit e fb ->
  null_test (op q1) = false -> (r < num_rows fb)%nat ->
  row_of fb r (col q1) = None -> sql_leaf q2 (row_of fb r (col q2)) = Some true ->
  sql_eval e (row_of fb r) = Some true /\
  exists m, run (predicate_of e) pb = Ok m /\ m !! r = Some None.
Proof.
  intros e Hcol Hp Hl Hn Hr H1 H2.
  assert (collect_cols e = [col q1; col q2]) as Hcc.
  { unfold collect_cols. cbn. rewrite (bool_decide_eq_false_2 (col q2 ∈ [col q1])); [done|].
    rewrite list_elem_of_singleton. lia. }
  split.
  - cbn. rewrite H1, H2. unfold sql_leaf. by destruct (op q1).
  - eexists. split.
    { apply leaves_fit_run; [done| | |done]; rewrite Hcc.
      - repeat constructor. lia.
      - repeat constructor; lia. }
    rewrite mask_at by done. cbn. rewrite H1. unfold arrow_leaf. by destruct (op q1).
Qed.

(** An expression that names its columns out of file order is evaluated
    on the wrong ones: the two columns of a conjunction trade places. *)
Theorem row_filter_swaps_columns q1 q2 c1 c2 fb pb :
  let e := PAnd [PLeaf q1; PLeaf q2] in
  (col q2 < col q1)%nat -> projected (collect_cols e) fb pb ->
  batch_columns fb !! col q1 = Some c1 -> batch_columns fb !! col q2 = Some c2 ->
  typed_leaf q1 c2 -> typed_leaf q2 c1 ->
  run (predicate_of e) pb = Ok (map (fun r =>
    null_and (arrow_leaf q1 (row_of fb r (col q2))) (arrow_leaf q2 (row_of fb r (col q1)))) (seq 0 (num_rows fb))).
Proof.
  intros e Hlt [Hn Hcols] H1 H2 Ht1 Ht2.
  pose proof (lookup_lt_Some _ _ _ H1) as Hlen1. pose proof (lookup_lt_Some _ _ _ H2) as Hlen2.
  assert (collect_cols e = [col q1; col q2]) as Hcc.
  { unfold collect_cols. cbn. rewrite (bool_decide_eq_false_2 (col q2 ∈ [col q1])); [done|].
    rewrite list_elem_of_singleton. lia. }
  rewrite Hcc in Hcols.
  assert (batch_columns pb = [c2; c1]) as Hpb.
  { rewrite Hcols. rewrite (filter_ext _ (fun i => bool_decide (i ∈ [col q2; col q1]))).
    - rewrite filter_sorted; [cbn; by rewrite H1, H2|repeat constructor; lia|repeat constructor; lia].
    - intros i. apply bool_decide_ext. set_solver. }
  cbn [run predicate_of]. rewrite Hcc, <- Hn.
  rewrite (eval_ok e pb _ (fun r i => if decide (i = col q1) then row_of fb r (col q2) else row_of fb r (col q1))).
  - f_equal. apply map_ext. intros r. unfold e. cbn [arrow_eval map foldr]. rewrite decide_True by done. rewrite decide_False by lia. by rewrite null_and_true.
  - intros q Hq. cbn in Hq. apply elem_of_cons in Hq as [->|Hq%list_elem_of_singleton]; [|subst q].
    + exists O, c2. cbn. rewrite bool_decide_eq_true_2 by done. rewrite Hpb. do 3 (split; [done|]).
      intros r. rewrite decide_True by done. by apply row_cell.
    + exists 1%nat, c1. cbn. rewrite (bool_decide_eq_false_2 (col q1 = col q2)) by lia.
      rewrite bool_decide_eq_true_2 by done. rewrite Hpb. do 3 (split; [done|]).
      intros r. rewrite decide_False by lia. by apply row_cell.
Qed.
End Claims.

(** ** Concrete kernels and batches *)

#[export] Instance ref_compute : @ComputeApi ref_arrow := {|
  kernel_and a b := Ok (zip_with null_and a b);
  kernel_or a b := Ok (zip_with null_or a b);
  kernel_not a := Ok (map (fmap negb) a);
  kernel_is_null c := Ok (map (fun x => Some (is_null_cell x)) (array_cells c));
  kernel_is_not_null c := Ok (map (fun x => Some (negb (is_null_cell x))) (array_cells c));
  kernel_cmp o c s :=
    match array_cells s with
    | [Some v] => if decide (array_type c = array_type s)
                  then Ok (map (fun x => y ← x; Some (op_holds o (arrow_cmp y v))) (array_cells c))
                  else Err (lit "Invalid comparison operation")
    | _ => Err (lit "Invalid comparison operation")
    end |}.

#[export] Instance ref_compute_laws : ComputeLaws ref_compute.
Proof.
  split; try done. intros o c s v _ Ht Hs. unfold kernel_cmp, ref_compute. rewrite Hs. by rewrite decide_True.
Qed.

(** Two int4 columns; the first is NULL in the second row. *)
Definition demo_a : RefArray := (Int32, [Some (VI32 1); None]).
Definition demo_b : RefArray := (Int32, [Some (VI32 7); Some (VI32 2)]).
Definition demo_pair : list RefArray := [demo_a; demo_b].

Definition eq_leaf (c : nat) (z : Z) : PushedQual := mkQual c OpEq (SI32 z).

Lemma demo_pair_fits e :
  (forall q, q ∈ leaves e -> exists z, (col q < 2)%nat /\ value q = SI32 z) -> leaves_fit (A := ref_arrow) e demo_pair.
Proof.
  intros H q Hq. destruct (H q Hq) as (z & Hc & Hv).
  assert (exists cells, demo_pair !! col q = Some (Int32, cells) /\ forall v, Some v ∈ cells -> exists y, v = VI32 y)
    as (cells & Hcol & Hcells).
  { destruct (col q) as [|[|?]]; [eexists; (split; [reflexivity|])..|lia]; intros v Hin; set_unfold in Hin; naive_solver. }
  exists (Int32, cells). split; [exact Hcol|]. split; [right; rewrite Hv; by eexists|].
  intros v Hin. destruct (Hcells v Hin) as [y ->]. right. by rewrite Hv.
Qed.


Definition demo_or : PushedExpr := POr [PLeaf (eq_leaf 0 1); PLeaf (eq_leaf 1 2)].
Definition demo_in : PushedExpr := PAnd [PLeaf (mkQual 0 OpIsNotNull SNull); POr [PLeaf (eq_leaf 1 7); PLeaf (eq_leaf 1 2)]].


Lemma row_filter_or_drops_null_witness :
  sql_eval demo_or (row_of (A := ref_arrow) demo_pair 1) = Some true /\
  exists m, run (A := ref_arrow) (predicate_of demo_or) demo_pair = Ok m /\ m !! 1%nat = Some None.
Proof.
  apply (row_filter_or_drops_null (A := ref_arrow) (eq_leaf 0 1) (eq_leaf 1 2) demo_pair demo_pair 1).
  - cbn. lia.
  - split; reflexivity.
  - apply demo_pair_fits. intros q Hq. cbn in Hq.
    repeat (apply elem_of_cons in Hq as [->|Hq]); [..|by apply not_elem_of_nil in Hq]; cbn; eexists; (split; [lia|reflexivity]).
  - reflexivity.
  - vm_compute. lia.
  - reflexivity.
  - reflexivity.
Defined.

(** [b = 7 AND a = 1] over columns [a, b] keeps nothing, though row 0 matches. *)
Lemma row_filter_swaps_columns_witness :
  let e := PAnd [PLeaf (eq_leaf 1 7); PLeaf (eq_leaf 0 1)] in
  sql_eval e (row_of (A := ref_arrow) demo_pair 0) = Some true /\
  run (A := ref_arrow) (predicate_of e) demo_pair = Ok [Some false; None].
Proof.
  split; [reflexivity|].
  rewrite (row_filter_swaps_columns (A := ref_arrow) (eq_leaf 1 7) (eq_leaf 0 1) demo_b demo_a demo_pair demo_pair).
  - vm_compute. reflexivity.
  - cbn. lia.
  - split; reflexivity.
  - reflexivity.
  - reflexivity.
  - right. eexists. reflexivity.
  - right. eexists. reflexivity.
Defined.
