(* ===== verification/PushdownWalk.v ===== *)
(** * [src/fdw/pushdown_walk.rs], [src/fdw/pg_op_oids.rs]: from Postgres
    expressions to pushed expressions.

    [Node] is a Postgres expression tree as the walker sees it; a null
    pointer is [NullPtr], a null list [None].  [pg_eval] is the tree's
    meaning; collations, LIKE and the nodes the walker does not know belong
    to Postgres and are a class with laws.  An operator works under its own
    [inputcollid]; the walker looks at the column's instead, and at none for
    IN, so its output may be wrong under a COLLATE clause or a
    nondeterministic collation.  The theorems compare [pg_eval] of the source
    with [sql_eval] of what is pushed. *)

From S2P Require Import Prelude RustStr Errors Externals Convert Pushdown PushdownFacts.
Local Open Scope Z_scope.

Inductive BoolExprType := AND_EXPR | OR_EXPR | NOT_EXPR.
Inductive NullTestType := IS_NULL | IS_NOT_NULL | OtherNullTest.
Inductive BoolTestType := IS_TRUE | IS_NOT_TRUE | IS_FALSE | IS_NOT_FALSE | IS_UNKNOWN | IS_NOT_UNKNOWN.

(** A constant's datum; an array constant is its element type and its
    deconstructed elements with their null flags. *)
Inductive ConstValue := CDatum (d : Datum) | CArray (elemtype : Z) (elems : list (Datum * bool)).

Inductive Node :=
| NullPtr
| Var (varattno vartype varcollid : Z)
| Const (consttype : Z) (constisnull : bool) (constvalue : ConstValue)
| OpExpr (opno inputcollid : Z) (args : option (list Node))
| BoolExpr (boolop : BoolExprType) (args : option (list Node))
| NullTest (arg : Node) (nulltesttype : NullTestType)
| BooleanTest (arg : Node) (booltesttype : BoolTestType)
| ScalarArrayOpExpr (opno inputcollid : Z) (useOr : bool) (args : option (list Node))
| RelabelType (arg : Node) (resultcollid : Z)
| OtherNode (tag : Z).

(** Induction with the hypothesis for every argument of a [BoolExpr]. *)
Section Ind.
Context (P : Node -> Prop)
  (Hbool : forall o args, match args with Some l => Forall P l | None => True end -> P (BoolExpr o args))
  (Hrel : forall a coll, P a -> P (RelabelType a coll))
  (Hother : forall n, match n with BoolExpr _ _ | RelabelType _ _ => False | _ => True end -> P n).

Fixpoint Node_ind' (n : Node) : P n :=
  let fix all (l : list Node) : Forall P l :=
    match l with [] => Forall_nil_2 _ | x :: l => Forall_cons_2 _ _ _ (Node_ind' x) (all l) end in
  match n with
  | BoolExpr o args =>
      Hbool o args (match args as a return match a with Some l => Forall P l | None => True end with
                    | Some l => all l | None => I end)
  | RelabelType a coll => Hrel a coll (Node_ind' a)
  | n => Hother n I
  end.
End Ind.

(** ** The operator table *)

Definition PUSHABLE_OPS : list (Z * PushedOp * DataType * DataType) :=
  let rows (ty : DataType) (eq ne lt le gt ge : Z) :=
    [(eq, OpEq, ty, ty); (ne, OpNe, ty, ty); (lt, OpLt, ty, ty); (le, OpLe, ty, ty); (gt, OpGt, ty, ty); (ge, OpGe, ty, ty)] in
  rows Int16 94 519 95 522 520 524 ++ rows Int32 96 518 97 523 521 525 ++ rows Int64 410 411 412 414 413 415
  ++ rows Float32 620 621 622 624 623 625 ++ rows Float64 670 671 672 673 674 675
  ++ rows Utf8 98 531 664 665 666 667 ++ rows Date32 1093 1094 1095 1096 1097 1098.

Definition lookup_op (opno : Z) : option (PushedOp * DataType * DataType) :=
  (fun '(_, op, l, r) => (op, l, r)) <$> find (fun '(o, _, _, _) => o =? opno) PUSHABLE_OPS.

Definition TEXT_LIKE_OPNO : Z := 1209.
Definition DEFAULT_COLLATION_OID : Z := 100.
Definition C_COLLATION_OID : Z := 950.
Definition InvalidOid : Z := 0.

(** ** The walker *)

Definition pg_to_unix_days (pg_days : Z) : option Z :=
  let d := pg_days + UNIX_TO_PG_EPOCH_DAYS in
  if (-2147483648 <=? d) && (d <=? 2147483647) then Some d else None.

Fixpoint peel_relabel (node : Node) : Node :=
  match node with RelabelType arg _ => peel_relabel arg | _ => node end.

(** Detoast and copy; [None] when the bytes are not UTF-8. *)
Definition text_datum_to_string (d : Datum) : option str :=
  match d with DText s => if utf8_valid s then Some s else None | _ => None end.

Definition try_var (node : Node) : option nat :=
  match peel_relabel node with
  | Var varattno _ _ => if varattno <? 1 then None else Some (Z.to_nat (varattno - 1))
  | _ => None
  end.

Definition var_collation_ok (node : Node) : bool :=
  match peel_relabel node with
  | Var _ _ coll => (coll =? DEFAULT_COLLATION_OID) || (coll =? C_COLLATION_OID) || (coll =? InvalidOid)
  | _ => false
  end.

Definition const_text_arg (arg : Node) : option str :=
  match peel_relabel arg with
  | Const ty isnull (CDatum d) =>
      if isnull then None
      else if (ty =? TEXTOID) || (ty =? VARCHAROID) then text_datum_to_string d else None
  | _ => None
  end.

(** The scalar of type [ty] a datum holds ([try_const] and the elements of
    [try_array_const]). *)
Definition scalar_of (ty : Z) (d : Datum) : option ScalarValueRepr :=
  if ty =? INT2OID then Some (SI16 (as_i16 (word d)))
  else if ty =? INT4OID then Some (SI32 (as_i32 (word d)))
  else if ty =? INT8OID then Some (SI64 (as_i64 (word d)))
  else if ty =? FLOAT4OID then Some (SF32 (as_u32 (word d)))
  else if ty =? FLOAT8OID then Some (SF64 (as_u64 (word d)))
  else if (ty =? TEXTOID) || (ty =? VARCHAROID) then SUtf8 <$> text_datum_to_string d
  else if ty =? DATEOID then SDate32 <$> pg_to_unix_days (as_i32 (word d))
  else None.

Definition try_const (node : Node) : option ScalarValueRepr :=
  match peel_relabel node with
  | Const ty isnull (CDatum d) => if isnull then None else scalar_of ty d
  | _ => None
  end.

(** Every element must be a supported non-null scalar. *)
Fixpoint array_scalars (elem_ty : Z) (elems : list (Datum * bool)) : option (list ScalarValueRepr) :=
  match elems with
  | [] => Some []
  | (d, is_null) :: rest =>
      if is_null : bool then None
      else v ← scalar_of elem_ty d; vs ← array_scalars elem_ty rest; Some (v :: vs)
  end.

Definition try_array_const (c : Node) : option (list ScalarValueRepr) :=
  match c with
  | Const _ isnull (CArray elem_ty elems) => if isnull then None else array_scalars elem_ty elems
  | _ => None
  end.

Definition like_prefix_literal (pat : str) : option str :=
  match List.rev pat with
  | c :: rest =>
      if ascii_eqb c "%"%char then
        let prefix := List.rev rest in
        if contains_char "%"%char prefix || contains_char "_"%char prefix || contains_char "\"%char prefix then None
        else match prefix with [] => None | _ => Some prefix end
      else None
  | [] => None
  end.

Definition flip (o : PushedOp) : PushedOp :=
  match o with OpLt => OpGt | OpGt => OpLt | OpLe => OpGe | OpGe => OpLe | o => o end.

Definition walk_like (lhs rhs : Node) : option PushedExpr :=
  col ← try_var lhs;
  if negb (var_collation_ok lhs) then None
  else
    pattern ← const_text_arg rhs;
    prefix ← like_prefix_literal pattern;
    upper ← next_lex_upper prefix;
    Some (PAnd [PLeaf (mkQual col OpGe (SUtf8 prefix)); PLeaf (mkQual col OpLt (SUtf8 upper))]).

Definition walk_op_expr (opno : Z) (args : option (list Node)) : option PushedExpr :=
  if opno =? TEXT_LIKE_OPNO then
    match args with Some [lhs; rhs] => walk_like lhs rhs | _ => None end
  else
    '(pop, _, _) ← lookup_op opno;
    match args with
    | Some [lhs; rhs] =>
        match try_var lhs, try_const rhs with
        | Some col, Some val => if var_collation_ok lhs then Some (PLeaf (mkQual col pop val)) else None
        | _, _ =>
            match try_const lhs, try_var rhs with
            | Some val, Some col => if var_collation_ok rhs then Some (PLeaf (mkQual col (flip pop) val)) else None
            | _, _ => None
            end
        end
    | _ => None
    end.

Definition walk_null_test (arg : Node) (kind : NullTestType) : option PushedExpr :=
  col ← try_var arg;
  match kind with
  | IS_NULL => Some (PLeaf (mkQual col OpIsNull SNull))
  | IS_NOT_NULL => Some (PLeaf (mkQual col OpIsNotNull SNull))
  | OtherNullTest => None
  end.

Definition walk_boolean_test (arg : Node) (kind : BoolTestType) : option PushedExpr :=
  col ← try_var arg;
  match kind with
  | IS_TRUE => Some (PLeaf (mkQual col OpEq (SBool true)))
  | IS_FALSE => Some (PLeaf (mkQual col OpEq (SBool false)))
  | _ => None
  end.

Definition walk_scalar_array_op (opno : Z) (use_or : bool) (args : option (list Node)) : option PushedExpr :=
  '(op, _, _) ← lookup_op opno;
  let is_in := use_or && bool_decide (op = OpEq) in
  let is_not_in := negb use_or && bool_decide (op = OpNe) in
  if negb (is_in || is_not_in) then None
  else match args with
  | Some [var_node; arr_node] =>
      col ← try_var var_node;
      scalars ← try_array_const arr_node;
      match map (fun v => PLeaf (mkQual col op v)) scalars with
      | [] => None
      | [leaf] => Some leaf
      | leaves => Some (if is_in then POr leaves else PAnd leaves)
      end
  | _ => None
  end.

Fixpoint invert_pushed (e : PushedExpr) : option PushedExpr :=
  let all := fix all (xs : list PushedExpr) : option (list PushedExpr) :=
    match xs with
    | [] => Some []
    | x :: xs' => y ← invert_pushed x; ys ← all xs'; Some (y :: ys)
    end in
  match e with
  | PLeaf q => o ← inverse (op q); Some (PLeaf (mkQual (col q) o (value q)))
  | PAnd xs => POr <$> all xs
  | POr xs => PAnd <$> all xs
  | PNot inner => Some inner
  end.

(** The [match bool_op] of [walk_bool_expr], given the translated children of
    its [n] arguments. *)
Definition combine_bool (bool_op : BoolExprType) (children : list PushedExpr) (n : nat) : option PushedExpr :=
  match bool_op, children with
  | AND_EXPR, [] => None
  | AND_EXPR, [c] => Some c
  | AND_EXPR, _ => Some (PAnd children)
  | OR_EXPR, _ =>
      if (length children =? n)%nat then
        match children with [c] => Some c | _ => Some (POr children) end
      else None
  | NOT_EXPR, [inner] => invert_pushed inner
  | NOT_EXPR, _ => None
  end.

(** [RelabelType] wrappers are peeled by recursion, as [peel_relabel] does. *)
Fixpoint walk_node (node : Node) : option PushedExpr :=
  match node with
  | Var varattno vartype _ =>
      if negb (vartype =? BOOLOID) then None
      else if varattno <? 1 then None
      else Some (PLeaf (mkQual (Z.to_nat (varattno - 1)) OpEq (SBool true)))
  | OpExpr opno _ args => walk_op_expr opno args
  | BoolExpr boolop args =>
      match args with
      | None => None
      | Some l =>
          let children := (fix go (l : list Node) : list PushedExpr :=
            match l with
            | [] => []
            | x :: l' => match walk_node x with Some c => c :: go l' | None => go l' end
            end) l in
          combine_bool boolop children (length l)
      end
  | NullTest arg kind => walk_null_test arg kind
  | BooleanTest arg kind => walk_boolean_test arg kind
  | ScalarArrayOpExpr opno _ use_or args => walk_scalar_array_op opno use_or args
  | RelabelType arg _ => walk_node arg
  | NullPtr | Const _ _ _ | OtherNode _ => None
  end.

Definition walk_quals (qual_list : option (list Node)) : list PushedExpr :=
  match qual_list with None => [] | Some l => omap walk_node l end.

(** ** What a Postgres expression means *)

Class PgSem := {
  (** The order of a collation, whether texts that compare equal under it are
      the same bytes ([collisdeterministic]), and [~~]. *)
  collate : Z -> str -> str -> comparison;
  deterministic : Z -> bool;
  like_match : Z -> str -> str -> bool;
  (** Any node the walker does not look into. *)
  opaque_truth : Node -> (nat -> cell) -> option bool;
}.

Class PgSemLaws (S : PgSem) : Prop := {
  collate_C a b : collate C_COLLATION_OID a b = str_compare a b;
  (** Text types without a collation do not exist; the order is bytewise for
      the types that have none. *)
  collate_invalid a b : collate InvalidOid a b = str_compare a b;
  (** A nondeterministic collation is one made by CREATE COLLATION. *)
  builtin_deterministic coll : coll = DEFAULT_COLLATION_OID \/ coll = C_COLLATION_OID \/ coll = InvalidOid -> deterministic coll = true;
  collate_eq coll a b : deterministic coll = true -> collate coll a b = Datatypes.Eq <-> a = b;
  like_prefix coll p s : deterministic coll = true -> contains_char "%"%char p = false -> contains_char "_"%char p = false ->
    contains_char "\"%char p = false -> like_match coll (p ++ "%") s = starts_with p s;
}.

Section Meaning.
Context {S : PgSem}.

(** The literal of a constant, in the units of the parquet column. *)
Definition pg_literal (ty : Z) (d : Datum) : option ScalarValueRepr :=
  if ty =? INT2OID then Some (SI16 (as_i16 (word d)))
  else if ty =? INT4OID then Some (SI32 (as_i32 (word d)))
  else if ty =? INT8OID then Some (SI64 (as_i64 (word d)))
  else if ty =? FLOAT4OID then Some (SF32 (as_u32 (word d)))
  else if ty =? FLOAT8OID then Some (SF64 (as_u64 (word d)))
  else if (ty =? TEXTOID) || (ty =? VARCHAROID) then Some (SUtf8 (text_datum_to_str d))
  else if ty =? DATEOID then Some (SDate32 (as_i32 (word d) + UNIX_TO_PG_EPOCH_DAYS))
  else None.

Definition pg_cmp (coll : Z) (v : Value) (l : ScalarValueRepr) : option comparison :=
  match v, l with
  | VUtf8 a, SUtf8 b => Some (collate coll a b)
  | _, _ => sql_cmp v l
  end.

(** [v op literal] of a strict operator. *)
Definition pg_compare (o : PushedOp) (coll : Z) (c : cell) (l : ScalarValueRepr) (flipped : bool) : option bool :=
  v ← c; cmp ← pg_cmp coll v l; Some (op_holds o (if flipped then CompOpp cmp else cmp)).

Definition pg_op_expr (n : Node) (opno coll : Z) (args : option (list Node)) (row : Row) : option bool :=
  match args with
  | Some [lhs; rhs] =>
      match peel_relabel lhs, peel_relabel rhs with
      | Var a _ _, Const ty isnull (CDatum d) =>
          if (a <? 1) || isnull then opaque_truth n row
          else match pg_literal ty d with
          | None => opaque_truth n row
          | Some l =>
              if opno =? TEXT_LIKE_OPNO then
                match row (Z.to_nat (a - 1)), l with
                | Some (VUtf8 s), SUtf8 p => Some (like_match coll p s)
                | _, _ => None
                end
              else match lookup_op opno with
              | Some (o, _, _) => pg_compare o coll (row (Z.to_nat (a - 1))) l false
              | None => opaque_truth n row
              end
          end
      | Const ty isnull (CDatum d), Var a _ _ =>
          if (a <? 1) || isnull then opaque_truth n row
          else match pg_literal ty d, lookup_op opno with
          | Some l, Some (o, _, _) => pg_compare o coll (row (Z.to_nat (a - 1))) l true
          | _, _ => opaque_truth n row
          end
      | _, _ => opaque_truth n row
      end
  | _ => opaque_truth n row
  end.

(** [= ANY] is a disjunction, [<> ALL] a conjunction; elements that are NULL
    or of another type are left to Postgres. *)
Definition pg_array_op (n : Node) (opno coll : Z) (use_or : bool) (args : option (list Node)) (row : Row) : option bool :=
  match args with
  | Some [var_node; Const _ false (CArray ty elems)] =>
      match peel_relabel var_node, lookup_op opno with
      | Var a _ _, Some (o, _, _) =>
          if (a <? 1) || existsb snd elems || negb (forallb (fun e => match pg_literal ty e.1 with Some _ => true | None => false end) elems)
          then opaque_truth n row
          else
            let truths := map (fun e : Datum * bool =>
              l ← pg_literal ty e.1; pg_compare o coll (row (Z.to_nat (a - 1))) l false) elems in
            if use_or then foldr kleene_or (Some false) truths else foldr kleene_and (Some true) truths
      | _, _ => opaque_truth n row
      end
  | _ => opaque_truth n row
  end.

Definition bool_cell (c : cell) : option bool := match c with Some (VBool b) => Some b | _ => None end.

Fixpoint pg_eval (row : Row) (n : Node) : option bool :=
  match n with
  | Var a _ _ => bool_cell (row (Z.to_nat (a - 1)))
  | OpExpr opno coll args => pg_op_expr n opno coll args row
  | BoolExpr o (Some l) =>
      match o with
      | AND_EXPR => foldr kleene_and (Some true) (map (pg_eval row) l)
      | OR_EXPR => foldr kleene_or (Some false) (map (pg_eval row) l)
      | NOT_EXPR => match l with [x] => negb <$> pg_eval row x | _ => opaque_truth n row end
      end
  | NullTest arg kind =>
      match try_var arg, kind with
      | Some c, IS_NULL => Some (is_null_cell (row c))
      | Some c, IS_NOT_NULL => Some (negb (is_null_cell (row c)))
      | _, _ => opaque_truth n row
      end
  | BooleanTest arg kind =>
      match try_var arg with
      | Some c =>
          let b := bool_cell (row c) in
          Some match kind with
               | IS_TRUE => bool_decide (b = Some true) | IS_NOT_TRUE => negb (bool_decide (b = Some true))
               | IS_FALSE => bool_decide (b = Some false) | IS_NOT_FALSE => negb (bool_decide (b = Some false))
               | IS_UNKNOWN => bool_decide (b = None) | IS_NOT_UNKNOWN => negb (bool_decide (b = None))
               end
      | None => opaque_truth n row
      end
  | ScalarArrayOpExpr opno coll use_or args => pg_array_op n opno coll use_or args row
  | RelabelType arg _ => pg_eval row arg
  | _ => opaque_truth n row
  end.
End Meaning.

(** ** Soundness *)

Lemma inverse_holds o o' c : inverse o = Some o' -> null_test o = false -> op_holds o' c = negb (op_holds o c).
Proof. intros [= <-] H. by destruct o, c. Qed.

Lemma negb_and l : negb <$> foldr kleene_and (Some true) l = foldr kleene_or (Some false) (map (fmap negb) l).
Proof.
  induction l as [|x l IH]; [done|]. cbn. rewrite <- IH.
  by destruct x as [[]|], (foldr kleene_and (Some true) l) as [[]|].
Qed.

Lemma negb_or l : negb <$> foldr kleene_or (Some false) l = foldr kleene_and (Some true) (map (fmap negb) l).
Proof.
  induction l as [|x l IH]; [done|]. cbn. rewrite <- IH.
  by destruct x as [[]|], (foldr kleene_or (Some false) l) as [[]|].
Qed.

Lemma leaf_inverse q o c : inverse (op q) = Some o -> sql_leaf (mkQual (col q) o (value q)) c = negb <$> sql_leaf q c.
Proof.
  intros H. unfold sql_leaf. cbn [op value]. destruct (null_test (op q)) eqn:Hn.
  - injection H as <-. destruct (op q); try done; cbn; by case_bool_decide.
  - assert (null_test o = false) as Hn' by (injection H as <-; by destruct (op q)).
    destruct c as [v|]; cbn [mbind option_bind]; [|by destruct (op q), o].
    destruct (sql_cmp v (value q)) as [cmp|]; cbn [mbind option_bind]; [|by destruct (op q), o].
    pose proof (inverse_holds _ _ cmp H Hn) as Hh. destruct (op q), o; try done; cbn [fmap option_fmap option_map]; by rewrite Hh.
Qed.

(** Inverting a list of children, as a loop of its own. *)
Definition invert_all : list PushedExpr -> option (list PushedExpr) :=
  fix all xs := match xs with [] => Some [] | x :: xs' => y ← invert_pushed x; ys ← all xs'; Some (y :: ys) end.

Lemma invert_all_map row xs ys :
  Forall (fun x => forall y, invert_pushed x = Some y -> sql_eval y row = negb <$> sql_eval x row) xs ->
  invert_all xs = Some ys -> map (fun y => sql_eval y row) ys = map (fmap negb) (map (fun x => sql_eval x row) xs).
Proof.
  intros H. revert ys. induction H as [|x xs Hx _ IH]; intros ys Hi; cbn in Hi; [by injection Hi as <-|].
  destruct (invert_pushed x) as [y|] eqn:E; [|done]. cbn [mbind option_bind] in Hi.
  destruct (invert_all xs) as [ys'|] eqn:Es; [|done]. injection Hi as <-. cbn. by rewrite (Hx y eq_refl), (IH ys' eq_refl).
Qed.

Lemma double_negb o : negb <$> (negb <$> o) = (o : option bool).
Proof. destruct o as [[]|]; done. Qed.

Lemma invert_negates e e' row : invert_pushed e = Some e' -> sql_eval e' row = negb <$> sql_eval e row.
Proof.
  revert e'. induction e as [q|xs IH|xs IH|x _] using PushedExpr_ind'; intros e' H.
  - cbn in H. injection H as <-. cbn. by apply leaf_inverse.
  - change (POr <$> invert_all xs = Some e') in H. apply fmap_Some in H as (ys & H & ->). cbn [sql_eval].
    rewrite (invert_all_map row xs ys); [|done|done]. by rewrite negb_and.
  - change (PAnd <$> invert_all xs = Some e') in H. apply fmap_Some in H as (ys & H & ->). cbn [sql_eval].
    rewrite (invert_all_map row xs ys); [|done|done]. by rewrite negb_or.
  - injection H as <-. cbn [sql_eval]. by rewrite double_negb.
Qed.

(** Operators that work under the collation of their column: no COLLATE
    clause changes it, and for IN and NOT IN it is deterministic. *)
Fixpoint own_collation {S : PgSem} (n : Node) : bool :=
  match n with
  | OpExpr _ coll (Some [l; r]) =>
      match peel_relabel l, peel_relabel r with
      | Var _ _ c, _ | _, Var _ _ c => coll =? c
      | _, _ => true
      end
  | ScalarArrayOpExpr _ coll _ _ => deterministic coll
  | BoolExpr _ (Some l) => forallb own_collation l
  | RelabelType a _ => own_collation a
  | _ => true
  end.

Section Soundness.
Context {S : PgSem} {SL : PgSemLaws S}.
Context (bytewise : forall a b, collate DEFAULT_COLLATION_OID a b = str_compare a b).

Lemma scalar_of_literal ty d v : scalar_of ty d = Some v -> pg_literal ty d = Some v.
Proof.
  unfold scalar_of, pg_literal. repeat case_match; try done.
  - unfold text_datum_to_string. destruct d; try done. by destruct (utf8_valid _).
  - unfold pg_to_unix_days. by destruct (_ && _).
Qed.

Lemma try_var_Some n c : try_var n = Some c -> exists a ty coll, peel_relabel n = Var a ty coll /\ (a <? 1) = false /\ c = Z.to_nat (a - 1).
Proof. unfold try_var. destruct (peel_relabel n); try done. destruct (_ <? 1) eqn:E; [done|]. intros [= <-]. eauto 6. Qed.

Lemma try_const_Some n v : try_const n = Some v -> exists ty d, peel_relabel n = Const ty false (CDatum d) /\ scalar_of ty d = Some v.
Proof. unfold try_const. destruct (peel_relabel n) as [| |ty [] [d|]| | | | | | |]; try done. eauto. Qed.

Lemma collation_ok_bytewise n a ty coll : peel_relabel n = Var a ty coll -> var_collation_ok n = true ->
  forall s t, collate coll s t = str_compare s t.
Proof.
  unfold var_collation_ok. intros -> H s t. apply orb_true_iff in H as [[H|H]%orb_true_iff|H]; apply Z.eqb_eq in H as ->;
    [apply bytewise|apply collate_C|apply collate_invalid].
Qed.

Lemma collation_ok_deterministic n a ty coll : peel_relabel n = Var a ty coll -> var_collation_ok n = true -> deterministic coll = true.
Proof.
  unfold var_collation_ok. intros -> H. apply builtin_deterministic. apply orb_true_iff in H as [[H|H]%orb_true_iff|H]; apply Z.eqb_eq in H; auto.
Qed.

Lemma pg_cmp_bytewise coll v l : (forall s t, collate coll s t = str_compare s t) -> pg_cmp coll v l = sql_cmp v l.
Proof. intros H. destruct v, l; try done. cbn. by rewrite H. Qed.

Lemma lookup_op_cmp opno o l r : lookup_op opno = Some (o, l, r) -> null_test o = false.
Proof.
  intros H. unfold lookup_op in H. apply fmap_Some in H as ([[[opno' o'] l'] r'] & H & Heq). injection Heq as -> -> ->.
  apply find_some in H as [H _].
  assert (Forall (fun '(_, o, _, _) => null_test o = false) PUSHABLE_OPS) as HF by (repeat constructor).
  rewrite Forall_forall in HF. by apply (HF _ (proj2 (list_elem_of_In _ _) H)).
Qed.

Lemma leaf_compare o coll c l b : null_test o = false ->
  (forall v, c = Some v -> sql_cmp v l = pg_cmp coll v l) ->
  sql_leaf (mkQual b (o) l) c = pg_compare o coll c l false.
Proof.
  intros Hn H. unfold sql_leaf, pg_compare. cbn [op value]. destruct c as [v|]; [|by destruct o].
  cbn [mbind option_bind]. rewrite (H v eq_refl). by destruct o.
Qed.

Lemma flip_compare o coll c l : null_test o = false -> pg_compare (flip o) coll c l false = pg_compare o coll c l true.
Proof.
  intros Hn. unfold pg_compare. destruct c as [v|]; [|done]. cbn [mbind option_bind].
  destruct (pg_cmp coll v l) as [cmp|]; [|done]. cbn [mbind option_bind]. by destruct o, cmp.
Qed.

Lemma flip_null_test o : null_test (flip o) = null_test o.
Proof. by destruct o. Qed.

Lemma like_prefix_Some pat prefix : like_prefix_literal pat = Some prefix ->
  pat = prefix ++ "%" /\ contains_char "%"%char prefix = false /\ contains_char "_"%char prefix = false /\ contains_char "\"%char prefix = false.
Proof.
  unfold like_prefix_literal. destruct (List.rev pat) as [|c rest] eqn:E; [done|].
  destruct (ascii_eqb c "%"%char) eqn:Hc; [|done]. apply ascii_eqb_eq in Hc as ->.
  destruct (_ || _) eqn:Ho; [done|]. apply orb_false_iff in Ho as [[H1 H2]%orb_false_iff H3].
  intros H. assert (prefix = List.rev rest) as -> by (destruct (List.rev rest); [done|congruence]).
  split; [|done]. rewrite <- (rev_involutive pat), E. done.
Qed.

Lemma like_leaf coll_col prefix u s :
  next_lex_upper prefix = Some u ->
  kleene_and (sql_leaf (mkQual coll_col OpGe (SUtf8 prefix)) (Some (VUtf8 s)))
    (kleene_and (sql_leaf (mkQual coll_col OpLt (SUtf8 u)) (Some (VUtf8 s))) (Some true)) = Some (starts_with prefix s).
Proof.
  intros Hu. pose proof (lex_upper_range prefix u s Hu) as H. unfold sql_leaf. cbn [op value mbind option_bind sql_cmp].
  rewrite str_compare_antisym in H.
  destruct (starts_with prefix s) eqn:E.
  - destruct (proj1 H eq_refl) as [H1 H2]. rewrite H2. by destruct (str_compare s prefix).
  - destruct (str_compare s prefix) eqn:E1, (str_compare s u) eqn:E2; try done;
      by (assert (false = true) by (apply H; split; [done|reflexivity])).
Qed.

Lemma walk_like_exact lhs rhs n icoll row e : own_collation (OpExpr TEXT_LIKE_OPNO icoll (Some [lhs; rhs])) = true ->
  walk_like lhs rhs = Some e -> sql_eval e row = pg_op_expr n TEXT_LIKE_OPNO icoll (Some [lhs; rhs]) row.
Proof.
  intros Hown. unfold walk_like. destruct (try_var lhs) as [c|] eqn:Hv; [|done]. cbn [mbind option_bind].
  destruct (var_collation_ok lhs) eqn:Hvc; [|done]. cbn [negb].
  destruct (const_text_arg rhs) as [pat|] eqn:Hc; [|done]. cbn [mbind option_bind].
  destruct (like_prefix_literal pat) as [prefix|] eqn:Hp; [|done]. cbn [mbind option_bind].
  destruct (next_lex_upper prefix) as [u|] eqn:Hu; [|done]. cbn [mbind option_bind]. intros [= <-].
  apply try_var_Some in Hv as (a & ty & coll & Hl & Ha & ->). cbn [own_collation] in Hown. rewrite Hl in Hown. apply Z.eqb_eq in Hown as ->.
  pose proof (collation_ok_deterministic _ _ _ _ Hl Hvc) as Hdet. unfold const_text_arg in Hc. destruct (peel_relabel rhs) as [| |cty [] [d|]| | | | | | |] eqn:Hr; try done.
  destruct ((cty =? TEXTOID) || (cty =? VARCHAROID)) eqn:Hty; [|done].
  assert (pg_literal cty d = Some (SUtf8 pat)) as Hlit.
  { apply scalar_of_literal. unfold scalar_of. apply orb_true_iff in Hty as [Hty|Hty]; apply Z.eqb_eq in Hty as ->; cbn;
      by rewrite Hc. }
  apply like_prefix_Some in Hp as (-> & H1 & H2 & H3).
  unfold pg_op_expr. rewrite Hl, Hr, Ha. cbn [orb]. rewrite Hlit. cbn [sql_eval map foldr col].
  change (TEXT_LIKE_OPNO =? TEXT_LIKE_OPNO) with true. cbv iota.
  destruct (row (Z.to_nat (a - 1))) as [v|]; [|done].
  destruct v; try done. rewrite like_leaf by done. by rewrite like_prefix.
Qed.

Lemma walk_op_exact opno icoll args n row e : own_collation (OpExpr opno icoll args) = true ->
  walk_op_expr opno args = Some e -> sql_eval e row = pg_op_expr n opno icoll args row.
Proof.
  intros Hown. unfold walk_op_expr. destruct (Z.eqb_spec opno TEXT_LIKE_OPNO) as [->|Hne].
  { destruct args as [[|l [|r [|]]]|]; try done. by apply walk_like_exact. }
  destruct (lookup_op opno) as [[[o t1] t2]|] eqn:Hop; [|done]. cbn [mbind option_bind].
  pose proof (lookup_op_cmp _ _ _ _ Hop) as Hnt.
  destruct args as [[|l [|r [|]]]|]; try done.
  assert (forall v a coll (o' : PushedOp), null_test o' = false -> (forall s t, collate coll s t = str_compare s t) ->
    sql_eval (PLeaf (mkQual (Z.to_nat (a - 1)) o' v)) row = pg_compare o' coll (row (Z.to_nat (a - 1))) v false) as Hleaf.
  { intros v a coll o' Ho' Hb. cbn [sql_eval col]. apply leaf_compare; [done|].
    intros w _. symmetry. by apply pg_cmp_bytewise. }
  assert (forall x b, try_var x = Some b -> try_const x = None) as Hvc.
  { intros x b Hx. apply try_var_Some in Hx as (? & ? & ? & Hx & _). unfold try_const. by rewrite Hx. }
  intros H. unfold pg_op_expr. apply Z.eqb_neq in Hne. rewrite Hne, Hop.
  destruct (try_var l) as [c|] eqn:Hl, (try_const r) as [v|] eqn:Hr.
  - destruct (var_collation_ok l) eqn:Hcoll; [|done]. injection H as <-.
    apply try_var_Some in Hl as (a & ty & coll & Hl & Ha & ->). apply try_const_Some in Hr as (cty & d & Hr & Hs).
    cbn [own_collation] in Hown. rewrite Hl in Hown. apply Z.eqb_eq in Hown as ->.
    rewrite Hl, Hr, Ha, (scalar_of_literal _ _ _ Hs). cbn [orb].
    by apply (Hleaf v a coll o Hnt (collation_ok_bytewise _ _ _ _ Hl Hcoll)).
  - by rewrite (Hvc _ _ Hl) in H.
  - destruct (try_const l) as [v'|] eqn:Hl', (try_var r) as [c|] eqn:Hr'; try done. by rewrite (Hvc _ _ Hr') in Hr.
  - destruct (try_const l) as [v'|] eqn:Hl', (try_var r) as [c|] eqn:Hr'; try done.
    destruct (var_collation_ok r) eqn:Hcoll; [|done]. injection H as <-.
    apply try_var_Some in Hr' as (a & ty & coll & Hr' & Ha & ->). apply try_const_Some in Hl' as (cty & d & Hl' & Hs).
    cbn [own_collation] in Hown. rewrite Hl', Hr' in Hown. apply Z.eqb_eq in Hown as ->.
    rewrite Hl', Hr', Ha, (scalar_of_literal _ _ _ Hs). cbn [orb]. rewrite <- flip_compare by done.
    apply (Hleaf v' a coll (flip o)); [by rewrite flip_null_test|by eapply collation_ok_bytewise].
Qed.

Lemma array_scalars_ok ty elems vs : array_scalars ty elems = Some vs ->
  existsb snd elems = false /\ Forall2 (fun e v => pg_literal ty e.1 = Some v) elems vs.
Proof.
  revert vs. induction elems as [|[d b] elems IH]; intros vs H; cbn in H; [injection H as <-; by split|].
  destruct b; [done|]. destruct (scalar_of ty d) as [v|] eqn:Hv; [|done]. cbn [mbind option_bind] in H.
  destruct (array_scalars ty elems) as [vs'|]; [|done]. cbn in H. injection H as <-.
  destruct (IH _ eq_refl) as [H1 H2]. split; [done|]. constructor; [by apply scalar_of_literal|done].
Qed.

(** Equality does not depend on a deterministic collation. *)
Lemma eq_compare o coll c l b : deterministic coll = true -> o = OpEq \/ o = OpNe -> sql_leaf (mkQual b o l) c = pg_compare o coll c l false.
Proof.
  intros Hdet Ho. unfold sql_leaf, pg_compare. cbn [op value]. destruct c as [v|]; [|by destruct Ho as [-> | ->]].
  cbn [mbind option_bind].
  assert (op_holds o <$> sql_cmp v l = op_holds o <$> pg_cmp coll v l) as H.
  { destruct v, l; try done. cbn. f_equal.
    assert (str_compare s s0 = Datatypes.Eq <-> collate coll s s0 = Datatypes.Eq) as H by by rewrite (collate_eq coll s s0 Hdet), str_compare_eq.
    destruct (str_compare s s0), (collate coll s s0), Ho as [-> | ->]; try done; by destruct H as [H1 H2];
      first [specialize (H1 eq_refl)|specialize (H2 eq_refl)]. }
  destruct (sql_cmp v l), (pg_cmp coll v l); cbn in *; try done; destruct Ho as [-> | ->]; done.
Qed.

Lemma one_kleene_or x : foldr kleene_or (Some false) [x] = x.
Proof. by destruct x as [[]|]. Qed.
Lemma one_kleene_and x : foldr kleene_and (Some true) [x] = x.
Proof. by destruct x as [[]|]. Qed.

Lemma walk_array_exact opno icoll use_or args n row e : deterministic icoll = true ->
  walk_scalar_array_op opno use_or args = Some e -> sql_eval e row = pg_array_op n opno icoll use_or args row.
Proof.
  intros Hdet. unfold walk_scalar_array_op. destruct (lookup_op opno) as [[[o t1] t2]|] eqn:Hop; [|done]. cbn [mbind option_bind].
  destruct (negb _) eqn:Hkind; [done|].
  assert ((use_or = true /\ o = OpEq) \/ (use_or = false /\ o = OpNe)) as Hk.
  { destruct use_or; cbn in Hkind; rewrite ?orb_false_r in Hkind; apply negb_false_iff, bool_decide_eq_true in Hkind; auto. }
  assert (o = OpEq \/ o = OpNe) as Ho by naive_solver.
  destruct args as [[|var [|arr [|]]]|]; try done.
  destruct (try_var var) as [c|] eqn:Hv; [|done]. cbn [mbind option_bind].
  destruct (try_array_const arr) as [vs|] eqn:Ha; [|done]. cbn [mbind option_bind]. intros He.
  destruct arr as [| |cty isnull [|ty elems]| | | | | | |]; try done. cbn in Ha. destruct isnull; [done|].
  apply try_var_Some in Hv as (a & vty & coll & Hpeel & Hge & ->).
  apply array_scalars_ok in Ha as [Hnull Hlits]. unfold pg_array_op. rewrite Hpeel, Hop, Hge, Hnull. cbn [orb].
  assert (forallb (fun e => match pg_literal ty e.1 with Some _ => true | None => false end) elems = true) as ->.
  { apply forallb_forall. intros x Hx. apply list_elem_of_In, list_elem_of_lookup in Hx as [i Hi].
    destruct (Forall2_lookup_l _ _ _ _ _ Hlits Hi) as (v & _ & ->). done. }
  cbn [negb]. set (c := Z.to_nat (a - 1)) in *.
  assert (map (fun e : Datum * bool => l ← pg_literal ty e.1; pg_compare o icoll (row c) l false) elems =
          map (fun x => sql_eval x row) (map (fun v => PLeaf (mkQual c o v)) vs)) as ->.
  { rewrite map_map. clear He Hnull. induction Hlits as [|x v elems vs Hx _ IH]; [done|]. cbn [map]. rewrite Hx, IH. f_equal.
    cbn [mbind option_bind sql_eval col]. symmetry. by apply eq_compare. }
  set (leaves := map (fun v => PLeaf (mkQual c o v)) vs) in *.
  destruct leaves as [|x [|y leaves]]; [done| |]; injection He as <-;
    destruct Hk as [[-> ->]|[-> ->]]; cbn [map]; rewrite ?one_kleene_or, ?one_kleene_and; done.
Qed.

(** ** Whole trees *)

(** Nodes whose translation is an equivalence: no conjunct was dropped and no
    [IS TRUE]. *)
Fixpoint exact_node (n : Node) : bool :=
  match n with
  | BooleanTest _ _ => false
  | BoolExpr NOT_EXPR (Some [x]) => exact_node x
  | BoolExpr NOT_EXPR _ => false
  | BoolExpr _ (Some l) => forallb (fun x => exact_node x && match walk_node x with Some _ => true | None => false end) l
  | RelabelType a _ => exact_node a
  | _ => true
  end.

(** Nodes whose translation is implied by them: a NOT stands over an exact
    node only. *)
Fixpoint sound_node (n : Node) : bool :=
  match n with
  | BoolExpr NOT_EXPR (Some [x]) => exact_node x
  | BoolExpr NOT_EXPR _ => false
  | BoolExpr _ (Some l) => forallb sound_node l
  | RelabelType a _ => sound_node a
  | _ => true
  end.

Lemma walk_bool o l : walk_node (BoolExpr o (Some l)) = combine_bool o (omap walk_node l) (length l).
Proof.
  reflexivity.
Qed.

Lemma bool_var_leaf c (x : cell) : sql_leaf (mkQual c OpEq (SBool true)) x = bool_cell x.
Proof. destruct x as [v|]; [|done]. by destruct v as [[]| | | | | | | | | |]. Qed.

Lemma bool_false_leaf c (x : cell) : sql_leaf (mkQual c OpEq (SBool false)) x = negb <$> bool_cell x.
Proof. destruct x as [v|]; [|done]. by destruct v as [[]| | | | | | | | | |]. Qed.

Lemma omap_all (l : list Node) : forallb (fun x => exact_node x && match walk_node x with Some _ => true | None => false end) l = true ->
  length (omap walk_node l) = length l /\ Forall2 (fun x e => exact_node x = true /\ walk_node x = Some e) l (omap walk_node l).
Proof.
  induction l as [|x l IH]; [done|]. cbn. rewrite !andb_true_iff. intros [[Hx Hw] Hl].
  destruct (walk_node x) as [e|] eqn:E; [|done]. destruct (IH Hl) as [H1 H2]. cbn. split; [by rewrite H1|]. by constructor.
Qed.

Lemma omap_length_le (l : list Node) : (length (omap walk_node l) <= length l)%nat.
Proof. induction l as [|x l IH]; [done|]. cbn. destruct (walk_node x); cbn; lia. Qed.

Lemma exact_children (l : list Node) (ys : list PushedExpr) row :
  Forall (fun x => forall e, own_collation x = true -> exact_node x = true -> walk_node x = Some e -> sql_eval e row = pg_eval row x) l ->
  forallb own_collation l = true -> Forall2 (fun x e => exact_node x = true /\ walk_node x = Some e) l ys ->
  map (fun x => sql_eval x row) ys = map (pg_eval row) l.
Proof.
  intros IH Hown HF. induction HF as [|x y l ys [H1 H2] _ IHl]; [done|]. apply Forall_cons in IH as [Hx IH].
  apply andb_true_iff in Hown as [Ho Hown]. cbn [map]. f_equal; [by apply Hx|by apply IHl].
Qed.

Lemma node_exact n e row : own_collation n = true -> exact_node n = true -> walk_node n = Some e -> sql_eval e row = pg_eval row n.
Proof.
  revert e. induction n as [o args IH|a coll IH|n Hn] using Node_ind'; intros e Hown Hex Hw.
  - destruct args as [l|]; [|done]. rewrite walk_bool in Hw. cbn [pg_eval]. destruct o.
    + destruct (omap_all l Hex) as [Hlen HF]. rewrite <- (exact_children l _ row IH Hown HF). cbn [combine_bool] in Hw. destruct (omap walk_node l) as [|x [|y xs]]; [done| |]; injection Hw as <-;
        [cbn [map]; by rewrite one_kleene_and|done].
    + destruct (omap_all l Hex) as [Hlen HF]. rewrite <- (exact_children l _ row IH Hown HF). cbn [combine_bool] in Hw. rewrite Hlen, Nat.eqb_refl in Hw.
      destruct (omap walk_node l) as [|x [|y xs]]; injection Hw as <-; [done|cbn [map]; by rewrite one_kleene_or|done].
    + destruct l as [|x [|]]; try done. apply Forall_cons in IH as [IH _]. cbn in Hw, Hown. rewrite andb_true_r in Hown.
      destruct (walk_node x) as [e'|] eqn:E; [|done]. rewrite (invert_negates _ _ row Hw). by rewrite (IH e').
  - by apply IH.
  - destruct n as [|a ty coll|ty b v|opno icoll args|o args|arg kind|arg kind|opno icoll use_or args|a coll|tag]; try done.
    + cbn in Hw. destruct (ty =? BOOLOID); [|done]. cbn [negb] in Hw. destruct (a <? 1); [done|]. injection Hw as <-.
      cbn [sql_eval col pg_eval]. apply bool_var_leaf.
    + by apply walk_op_exact.
    + cbn in Hw |- *. unfold walk_null_test in Hw. destruct (try_var arg) as [c|]; [|done]. cbn [mbind option_bind] in Hw.
      destruct kind; try done; injection Hw as <-; cbn [sql_eval col]; unfold sql_leaf; cbn [op]; by destruct (row c).
    + by apply walk_array_exact.
Qed.

Lemma node_sound n e row : own_collation n = true -> sound_node n = true -> walk_node n = Some e -> pg_eval row n = Some true -> sql_eval e row = Some true.
Proof.
  revert e. induction n as [o args IH|a coll IH|n Hn] using Node_ind'; intros e Hown Hs Hw Ht.
  - destruct args as [l|]; [|done]. rewrite walk_bool in Hw. destruct o.
    + cbn [pg_eval] in Ht. rewrite kleene_and_true, Forall_map in Ht. cbn [sound_node] in Hs. cbn [own_collation] in Hown. rewrite forallb_forall in Hs, Hown.
      assert (Forall (fun x => sql_eval x row = Some true) (omap walk_node l)) as HF.
      { apply Forall_forall. intros x Hx. apply list_elem_of_omap in Hx as (y & Hy & Hwy). rewrite Forall_forall in IH, Ht.
        apply (IH y Hy); [by apply Hown, list_elem_of_In|by apply Hs, list_elem_of_In|done|by apply Ht]. }
      destruct (omap walk_node l) as [|x [|y xs]] eqn:E; [done| |]; injection Hw as <-.
      * by apply Forall_cons in HF as [? _].
      * cbn [sql_eval]. rewrite kleene_and_true, Forall_map. done.
    + cbn [pg_eval] in Ht. rewrite kleene_or_true, Exists_map, Exists_exists in Ht. destruct Ht as (x & Hx & Ht).
      cbn [sound_node] in Hs. cbn [own_collation] in Hown. rewrite forallb_forall in Hs, Hown. cbn [combine_bool] in Hw.
      destruct (Nat.eqb_spec (length (omap walk_node l)) (length l)) as [Hlen|]; [|done].
      assert (exists y, y ∈ omap walk_node l /\ walk_node x = Some y) as (y & Hy & Hwx).
      { assert (is_Some (walk_node x)) as [y Hy].
        { clear -Hlen Hx. induction l as [|z l IH]; [by apply not_elem_of_nil in Hx|].
          change (omap walk_node (z :: l)) with (match walk_node z with Some y => y :: omap walk_node l | None => omap walk_node l end) in Hlen.
          assert (length (omap walk_node l) <= length l)%nat by apply omap_length_le.
          destruct (walk_node z) eqn:E; cbn [length] in Hlen; [|lia].
          apply elem_of_cons in Hx as [->|Hx]; [by rewrite E|]. apply IH; (done || lia). }
        exists y. split; [|done]. apply list_elem_of_omap. eauto. }
      rewrite Forall_forall in IH. assert (sql_eval y row = Some true) as Hyt
        by (apply (IH x Hx); [by apply Hown, list_elem_of_In|by apply Hs, list_elem_of_In|done|done]).
      destruct (omap walk_node l) as [|z [|z' zs]]; [by apply not_elem_of_nil in Hy| |]; injection Hw as <-.
      * by apply list_elem_of_singleton in Hy as ->.
      * cbn [sql_eval]. rewrite kleene_or_true, Exists_map, Exists_exists. eauto.
    + destruct l as [|x [|]]; try done. cbn in Hs. cbn in Hw. destruct (walk_node x) as [e'|] eqn:E; [|done].
      cbn in Hown. rewrite andb_true_r in Hown. rewrite (invert_negates _ _ row Hw), (node_exact x e' row Hown Hs E). done.
  - by apply IH.
  - destruct n as [|a ty coll|ty b v|opno icoll args|o args|arg kind|arg kind|opno icoll use_or args|a coll|tag]; try done;
      try match type of Hw with walk_node ?m = _ => rewrite (node_exact m e row Hown (eq_refl true) Hw); exact Ht end.
    cbn in Hw, Ht. unfold walk_boolean_test in Hw. destruct (try_var arg) as [c|]; [|done]. cbn [mbind option_bind] in Hw.
    injection Ht as Ht. destruct kind; try done; injection Hw as <-; cbn [sql_eval col];
      rewrite ?bool_var_leaf, ?bool_false_leaf; apply bool_decide_eq_true in Ht; by rewrite Ht.
Qed.
End Soundness.

Section Claims.
Context {S : PgSem} {SL : PgSemLaws S}.

(** C30: what is pushed is implied by the WHERE clause: a row on which every
    qual is true satisfies every pushed expression.  Assumed: the default
    collation of the database orders bytewise; every operator works under the
    collation of its column (no COLLATE clause), and IN and NOT IN under a
    deterministic one; a NOT stands only over expressions that translate
    without loss.  Each assumption is needed, see
    [default_collation_loses_rows], [collate_clause_loses_rows],
    [in_list_loses_rows] and [walk_not_and_loses_rows]. *)
Theorem walk_quals_sound quals row :
  (forall a b, collate DEFAULT_COLLATION_OID a b = str_compare a b) -> Forall (fun n => own_collation n = true) quals ->
  Forall (fun n => sound_node n = true) quals -> Forall (fun n => pg_eval row n = Some true) quals ->
  Forall (fun e => sql_eval e row = Some true) (walk_quals (Some quals)).
Proof.
  intros Hb Ho Hs Ht. apply Forall_forall. intros e He. apply list_elem_of_omap in He as (n & Hn & Hw).
  rewrite Forall_forall in Ho, Hs, Ht. by apply (node_sound Hb n e row (Ho n Hn) (Hs n Hn) Hw), Ht.
Qed.

(** Negating a pushed expression by De Morgan and operator inversion is
    exact in three-valued logic. *)
Theorem invert_pushed_negates e e' row : invert_pushed e = Some e' -> sql_eval e' row = negb <$> sql_eval e row.
Proof. apply invert_negates. Qed.

(** Under a NOT, dropping a conjunct loses rows: when [x] translates,
    [y] does not, [x] holds and [y] does not, [NOT (x AND y)] is true and the
    expression pushed for it is false. *)
Theorem walk_not_and_loses_rows x y e row :
  (forall a b, collate DEFAULT_COLLATION_OID a b = str_compare a b) ->
  own_collation x = true -> exact_node x = true -> walk_node x = Some e -> walk_node y = None ->
  pg_eval row x = Some true -> pg_eval row y = Some false ->
  let n := BoolExpr NOT_EXPR (Some [BoolExpr AND_EXPR (Some [x; y])]) in
  pg_eval row n = Some true /\ forall e', walk_node n = Some e' -> sql_eval e' row = Some false.
Proof.
  intros Hb Hox Hx Hwx Hwy Htx Hty n. split; [cbn; by rewrite Htx, Hty|]. intros e' Hw.
  unfold n in Hw. rewrite walk_bool in Hw. cbn [omap list_omap] in Hw. rewrite walk_bool in Hw. cbn in Hw. rewrite Hwx, Hwy in Hw.
  cbn in Hw. rewrite (invert_negates _ _ row Hw), (node_exact Hb x e row Hox Hx Hwx), Htx. done.
Qed.
End Claims.

(** A default collation that is not bytewise (the usual case of a database
    with a natural-language locale) makes a pushed range comparison false on a
    row where the original is true. *)
Lemma default_collation_loses_rows {S : PgSem} s t :
  utf8_valid t = true -> collate DEFAULT_COLLATION_OID s t = Lt -> str_compare s t = Gt ->
  let n := OpExpr 664 DEFAULT_COLLATION_OID (Some [Var 1 TEXTOID DEFAULT_COLLATION_OID; Const TEXTOID false (CDatum (DText t))]) in
  let row : Row := fun _ => Some (VUtf8 s) in
  pg_eval row n = Some true /\ exists e, walk_node n = Some e /\ sql_eval e row = Some false.
Proof.
  intros Hu Hc Hs n row. split.
  - cbn. by rewrite Hc.
  - eexists. split; [cbn; unfold try_const; cbn; by rewrite Hu|]. cbn. by rewrite Hs.
Qed.

(** [name COLLATE "c" < 't']: the planner makes the COLLATE a [RelabelType],
    the walker peels it and finds the column's own collation, which is in
    order even when the database's default is bytewise; the operator works
    under ["c"]. *)
Lemma collate_clause_loses_rows {S : PgSem} coll s t :
  utf8_valid t = true -> collate coll s t = Lt -> str_compare s t = Gt ->
  let n := OpExpr 664 coll (Some [RelabelType (Var 1 TEXTOID DEFAULT_COLLATION_OID) coll; Const TEXTOID false (CDatum (DText t))]) in
  let row : Row := fun _ => Some (VUtf8 s) in
  pg_eval row n = Some true /\ exists e, walk_node n = Some e /\ sql_eval e row = Some false.
Proof.
  intros Hu Hc Hs n row. split.
  - cbn. by rewrite Hc.
  - eexists. split; [cbn; unfold try_const; cbn; by rewrite Hu|]. cbn. by rewrite Hs.
Qed.

(** IN is pushed whatever the collation of the column: under a
    nondeterministic one (say, one that ignores case) a row that Postgres
    finds in the list is not found by the filter. *)
Lemma in_list_loses_rows {S : PgSem} coll s t :
  utf8_valid t = true -> collate coll s t = Datatypes.Eq -> s <> t ->
  let n := ScalarArrayOpExpr 98 coll true (Some [Var 1 TEXTOID coll; Const 1009 false (CArray TEXTOID [(DText t, false)])]) in
  let row : Row := fun _ => Some (VUtf8 s) in
  pg_eval row n = Some true /\ exists e, walk_node n = Some e /\ sql_eval e row = Some false.
Proof.
  intros Hu Hc Hs n row. split.
  - cbn. by rewrite Hc.
  - eexists. split; [cbn; by rewrite Hu|]. cbn. destruct (str_compare s t) eqn:E; [|done|done]. by apply str_compare_eq in E.
Qed.

(** ** A database with the C collation *)

#[export] Instance ref_sem : PgSem := {|
  collate _ a b := str_compare a b;
  deterministic _ := true;
  like_match _ p s := match strip_suffix "%" p with Some q => starts_with q s | None => str_eqb p s end;
  opaque_truth _ _ := None |}.

#[export] Instance ref_sem_laws : PgSemLaws ref_sem.
Proof.
  split; try done; [intros; apply str_compare_eq|]. intros coll p s _ _ _ _. unfold like_match, ref_sem.
  by rewrite (proj2 (strip_suffix_Some "%" (p ++ "%") p) eq_refl).
Qed.

Definition int4_op (opno attno z : Z) : Node := OpExpr opno 0 (Some [Var attno INT4OID 0; Const INT4OID false (CDatum (DWord z))]).

(** [a > 5 AND f(b)] AND NOT (a = 9). *)
Definition demo_quals : list Node :=
  [int4_op 521 1 5; BoolExpr NOT_EXPR (Some [int4_op 96 1 9]);
   BooleanTest (Var 2 BOOLOID 0) IS_TRUE].

Definition demo_row : Row := fun i => match i with O => Some (VI32 7) | _ => Some (VBool true) end.

Lemma walk_quals_sound_witness :
  length (walk_quals (Some demo_quals)) = 3%nat /\
  Forall (fun e => sql_eval e demo_row = Some true) (walk_quals (Some demo_quals)).
Proof.
  split; [reflexivity|]. apply walk_quals_sound; [done| | |]; repeat constructor.
Defined.

Lemma invert_pushed_negates_witness :
  sql_eval (POr [PLeaf (mkQual 0 OpNe (SI32 7)); PLeaf (mkQual 1 OpIsNotNull SNull)]) demo_row = Some true.
Proof.
  assert (forall e', invert_pushed (PAnd [PLeaf (mkQual 0 OpEq (SI32 7)); PLeaf (mkQual 1 OpIsNull SNull)]) = Some e' ->
    sql_eval e' demo_row = Some true) as H; [|by apply H].
  intros e' He. rewrite (invert_pushed_negates _ e' demo_row He). reflexivity.
Defined.

(** [NOT (a = 7 AND <function call>)] with the call false. *)
Lemma walk_not_and_loses_rows_witness :
  let n := BoolExpr NOT_EXPR (Some [BoolExpr AND_EXPR (Some [int4_op 96 1 7; BooleanTest (Var 2 BOOLOID 0) IS_UNKNOWN])]) in
  pg_eval demo_row n = Some true /\ exists e', walk_node n = Some e' /\ sql_eval e' demo_row = Some false.
Proof.
  destruct (walk_not_and_loses_rows (int4_op 96 1 7) (BooleanTest (Var 2 BOOLOID 0) IS_UNKNOWN) (PLeaf (mkQual 0 OpEq (SI32 7))) demo_row)
    as [H1 H2]; try reflexivity.
  split; [exact H1|]. eexists. split; [reflexivity|]. apply H2. reflexivity.
Defined.
