(* ===== verification/Partition.v ===== *)
(** * [src/fdw/partition.rs]: Hive partitions.

    A partitioned table keeps its partition columns in the blob path
    ([.../key=value/...]).  [partition_values_from_path] reads them back,
    [split_quals_by_target] separates the pushed expressions that mention
    partition columns, and [evaluate_partition_quals_against_blob] decides
    from the path alone whether a blob is scanned at all.  The theorems give
    the exact set of paths that parse and the values found, show that a blob
    is skipped exactly when SQL rejects all its rows (on canonical values),
    and exhibit a value on which it is not so. *)

From S2P Require Import Prelude RustStr Redact Errors Options Externals Convert Pushdown PushdownFacts.
Local Open Scope Z_scope.

(** ** Parsing a blob path *)

Abbreviation Declared := (list (str * PgPartitionType)).

Definition declared_name (declared : Declared) (key : str) : option str :=
  fst <$> find (fun '(n, _) => eq_ignore_ascii_case n key) declared.

(** One turn of the loop over the segments. *)
Definition path_segment (blob_name : str) (declared : Declared) (found : gmap str str) (segment : str)
  : FdwResult (gmap str str) :=
  match split_once "=" segment with
  | None => Ok found
  | Some (key, value) =>
      match declared_name declared key with
      | None => Ok found
      | Some decl_name =>
          if str_eqb value [] then
            Err (SchemaMismatch ("blob '" ++ blob_name ++ "' has empty value for partition key '" ++ decl_name ++ "'"))
          else if contains_char "%" value then
            Err (SchemaMismatch ("blob '" ++ blob_name ++ "' partition '" ++ decl_name
                 ++ "' value contains percent — URL-encoded partition values are not supported in v1"))
          else match found !! decl_name with
          | Some _ => Err (SchemaMismatch ("blob '" ++ blob_name ++ "' has duplicate partition segment '" ++ decl_name ++ "='"))
          | None => Ok (<[decl_name := value]> found)
          end
      end
  end.

Definition require_key (blob_name : str) (found : gmap str str) (u : unit) (d : str * PgPartitionType) : FdwResult unit :=
  match found !! d.1 with
  | Some _ => Ok u
  | None => Err (SchemaMismatch ("blob '" ++ blob_name ++ "' missing partition key '" ++ d.1 ++ "'"))
  end.

Definition partition_values_from_path (blob_name : str) (declared : Declared) : FdwResult (gmap str str) :=
  found ← foldM (path_segment blob_name declared) ∅ (split_on "/" blob_name);
  _ ← foldM (require_key blob_name found) tt declared;
  Ok found.

(** The values of the partition columns, which key the groups of an INSERT. *)
Record PartitionTupleKey := mkKey { values : list str }.

#[export] Instance PartitionTupleKey_eq_dec : EqDecision PartitionTupleKey.
Proof. solve_decision. Defined.
#[export] Instance PartitionTupleKey_countable : Countable PartitionTupleKey.
Proof. refine (inj_countable' values mkKey _). by intros []. Defined.

(** ** Splitting the pushed expressions *)

Inductive Target := TPartition | TStorage | TMixed.

Fixpoint classify_target (e : PushedExpr) (partition_attnums : list nat) : Target :=
  let scan := fix scan (xs : list PushedExpr) (seen_p seen_s : bool) : Target :=
    match xs with
    | [] => match seen_p, seen_s with
            | true, true => TMixed
            | true, false => TPartition
            | false, _ => TStorage
            end
    | x :: xs' => match classify_target x partition_attnums with
                  | TPartition => scan xs' true seen_s
                  | TStorage => scan xs' seen_p true
                  | TMixed => TMixed
                  end
    end in
  match e with
  | PLeaf q => if bool_decide (col q ∈ partition_attnums) then TPartition else TStorage
  | PAnd xs | POr xs => scan xs false false
  | PNot x => classify_target x partition_attnums
  end.

Fixpoint split_quals_by_target (exprs : list PushedExpr) (partition_attnums : list nat)
  : list PushedExpr * list PushedExpr :=
  match exprs with
  | [] => ([], [])
  | e :: exprs' =>
      let '(partition, storage) := split_quals_by_target exprs' partition_attnums in
      match classify_target e partition_attnums with
      | TPartition => (e :: partition, storage)
      | TStorage => (partition, e :: storage)
      | TMixed => (partition, storage)
      end
  end.

(** ** Evaluating them against a path *)

Section Eval.
Context {P : PgApi}.

(** The text of a literal; the outer [None] is chrono's panic on a date out
    of its range, the inner one a literal type the code does not support. *)
Definition literal_text (v : ScalarValueRepr) : option (option str) :=
  match v with
  | SI32 z | SI16 z | SI64 z => Some (Some (show_Z z))
  | SUtf8 s => Some (Some s)
  | SDate32 d => Some <$> chrono_format_days (d - UNIX_TO_PG_EPOCH_DAYS)
  | _ => Some None
  end.

Definition compare_texts (o : PushedOp) (raw lit : str) : bool :=
  match o with
  | OpEq => str_eqb raw lit
  | OpNe => negb (str_eqb raw lit)
  | OpLt | OpLe | OpGt | OpGe =>
      match parse_i64 raw, parse_i64 lit with
      | Some r, Some l => match o with
                          | OpLt => r <? l | OpLe => r <=? l | OpGt => l <? r | _ => l <=? r
                          end
      | _, _ => match o with
                | OpLt => str_ltb raw lit | OpLe => str_leb raw lit | OpGt => str_ltb lit raw | _ => str_leb lit raw
                end
      end
  | OpIsNull => false
  | OpIsNotNull => true
  end.

(** [None] is a panic: [declared[pos]] out of bounds, or chrono's. *)
Definition eval_partition_leaf (q : PushedQual) (partition_attnums : list nat) (parsed : gmap str str)
    (declared : Declared) : option bool :=
  match position partition_attnums (col q) with
  | None => Some true
  | Some pos =>
      '(name, _) ← declared !! pos;
      match parsed !! name with
      | None => Some true
      | Some raw =>
          lit ← literal_text (value q);
          match lit with
          | None => Some true
          | Some lit => Some (compare_texts (op q) raw lit)
          end
      end
  end.

(** [all] and [any] stop at the first answer. *)
Fixpoint eval_one_partition_expr (e : PushedExpr) (partition_attnums : list nat) (parsed : gmap str str)
    (declared : Declared) : option bool :=
  match e with
  | PLeaf q => eval_partition_leaf q partition_attnums parsed declared
  | PAnd xs => (fix all (xs : list PushedExpr) : option bool :=
      match xs with
      | [] => Some true
      | x :: xs' => b ← eval_one_partition_expr x partition_attnums parsed declared; if b : bool then all xs' else Some false
      end) xs
  | POr xs => (fix any (xs : list PushedExpr) : option bool :=
      match xs with
      | [] => Some false
      | x :: xs' => b ← eval_one_partition_expr x partition_attnums parsed declared; if b : bool then Some true else any xs'
      end) xs
  | PNot x => negb <$> eval_one_partition_expr x partition_attnums parsed declared
  end.

Fixpoint evaluate_partition_quals_against_blob (exprs : list PushedExpr) (partition_attnums : list nat)
    (parsed : gmap str str) (declared : Declared) : option bool :=
  match exprs with
  | [] => Some true
  | e :: exprs' =>
      b ← eval_one_partition_expr e partition_attnums parsed declared;
      if b : bool then evaluate_partition_quals_against_blob exprs' partition_attnums parsed declared else Some false
  end.
End Eval.

(** ** Which paths parse, and to what *)

Section Paths.
Context (declared : Declared).

(** The binding a segment [key=value] makes: the declared name equal to the
    key up to case, and the value. *)
Definition segment_binding (segment : str) : option (str * str) :=
  '(key, value) ← split_once "=" segment; name ← declared_name declared key; Some (name, value).

Definition path_bindings (blob_name : str) : list (str * str) := omap segment_binding (split_on "/" blob_name).

Definition value_ok (b : str * str) : Prop := b.2 <> [] /\ "%"%char ∉ b.2.

Lemma path_segment_Ok blob found seg m :
  path_segment blob declared found seg = Ok m <->
  match segment_binding seg with
  | None => m = found
  | Some b => value_ok b /\ found !! b.1 = None /\ m = <[b.1 := b.2]> found
  end.
Proof.
  unfold path_segment, segment_binding, value_ok.
  destruct (split_once _ seg) as [[k v]|]; cbn [mbind option_bind]; [|split; congruence].
  destruct (declared_name declared k) as [n|]; cbn [mbind option_bind fst snd]; [|split; congruence].
  destruct (str_eqb v []) eqn:Ev; [apply str_eqb_eq in Ev; split; [done | by intros [[] _]]|].
  destruct (contains_char "%" v) eqn:Ep; autorewrite with rstr in Ep; [split; [done | tauto]|].
  destruct (found !! n) eqn:Ef; [split; [done | by intros (_ & ? & _)]|].
  split; [intros [= <-] | intros (_ & _ & ->); done].
  repeat split; try done. intros ->. done.
Qed.

Lemma path_loop_Ok blob segs : forall found m,
  foldM (path_segment blob declared) found segs = Ok m <->
  let bs := omap segment_binding segs in
  NoDup bs.*1 /\ Forall value_ok bs /\ Forall (fun n => found !! n = None) bs.*1 /\ m = list_to_map bs ∪ found.
Proof.
  induction segs as [|s segs IH]; intros found m; cbn [foldM].
  - cbn. rewrite (left_id_L ∅ (∪)). split; [intros [= <-] | intros (_ & _ & _ & ->); done].
    repeat split; constructor.
  - cbn zeta. cbn [omap list_omap]. transitivity (exists f, path_segment blob declared found s = Ok f /\ foldM (path_segment blob declared) f segs = Ok m).
    { split; [apply bind_Ok_inv | intros (f & -> & H); apply H]. }
    setoid_rewrite path_segment_Ok. setoid_rewrite IH. clear IH.
    destruct (segment_binding s) as [[n v]|]; cbn [fst snd]; [|split; [intros (f & -> & H); exact H | eauto]].
    cbn [list_to_map fmap list_fmap foldr]. rewrite NoDup_cons, !Forall_cons.
    setoid_rewrite Forall_forall. cbn [fst snd].
    split.
    + intros (f & (Hv & Hn & ->) & Hnd & Hok & Hfr & ->). split; [split; [|done] | split; [by split | split; [split; [done|]|]]].
      * intros Hin. specialize (Hfr _ Hin). by rewrite lookup_insert_eq in Hfr.
      * intros x Hx. specialize (Hfr _ Hx). by apply lookup_insert_None in Hfr as [? _].
      * apply map_eq. intros k. rewrite !lookup_union. destruct (decide (k = n)) as [->|Hk].
        -- rewrite !lookup_insert_eq. rewrite not_elem_of_list_to_map_1; [by rewrite Hn|].
           intros Hin. specialize (Hfr _ Hin). by rewrite lookup_insert_eq in Hfr.
        -- by rewrite !lookup_insert_ne by done.
    + intros ((Hni & Hnd) & (Hv & Hok) & (Hn & Hfr) & ->).
      exists (<[n := v]> found). split; [done|]. split; [done|]. split; [done|]. split.
      * intros x Hx. rewrite lookup_insert_ne; [by apply Hfr|]. by intros <-.
      * apply map_eq. intros k. rewrite !lookup_union. destruct (decide (k = n)) as [->|Hk].
        -- rewrite !lookup_insert_eq, not_elem_of_list_to_map_1 by done. by rewrite Hn.
        -- by rewrite !lookup_insert_ne by done.
Qed.

Lemma require_loop_Ok blob found u :
  foldM (require_key blob found) u declared = Ok tt <-> Forall (fun n => is_Some (found !! n)) declared.*1.
Proof.
  revert u. induction declared as [|d ds IH]; intros []; cbn [foldM fmap list_fmap]; [by split|].
  rewrite Forall_cons. transitivity (require_key blob found tt d = Ok tt /\ foldM (require_key blob found) tt ds = Ok tt).
  - destruct (require_key blob found tt d) as [[]|]; cbn [mbind result_bind]; [tauto|]. split; [done|]. by intros [].
  - rewrite IH. apply and_iff_compat_r. unfold require_key. destruct (found !! d.1); split; try done; by intros [].
Qed.

(** C32: a path parses exactly when its [key=value] segments with a declared
    key, taken up to case, name every declared column once, with non-empty
    values free of '%'; the result maps each column to the value of its
    segment. *)
Theorem partition_values_from_path_spec blob_name m :
  partition_values_from_path blob_name declared = Ok m <->
  let bs := path_bindings blob_name in
  NoDup bs.*1 /\ Forall value_ok bs /\ (forall n, n ∈ declared.*1 -> n ∈ bs.*1) /\ m = list_to_map bs.
Proof.
  unfold partition_values_from_path. cbn zeta. split.
  - intros H. inv_ok. apply path_loop_Ok in Hv as (Hnd & Hok & _ & ->). rewrite (right_id_L ∅ (∪)) in *.
    destruct v0. apply require_loop_Ok in Hv0. rewrite Forall_forall in Hv0. repeat split; try done.
    intros n [v Hn]%Hv0. apply elem_of_list_to_map_2 in Hn. by apply (list_elem_of_fmap_2 fst) in Hn.
  - intros (Hnd & Hok & Hall & ->).
    rewrite (proj2 (path_loop_Ok blob_name (split_on "/" blob_name) ∅ (list_to_map (path_bindings blob_name)))).
    + cbn [mbind result_bind]. rewrite (proj2 (require_loop_Ok blob_name (list_to_map (path_bindings blob_name)) tt)); [done|].
      apply Forall_forall. intros n Hn%Hall.
      destruct (list_to_map (M := gmap str str) (path_bindings blob_name) !! n) eqn:E; [eauto|].
      by apply not_elem_of_list_to_map_2 in E.
    + repeat split; try done; [|by rewrite (right_id_L ∅ (∪))].
      apply Forall_forall. intros. apply lookup_empty.
Qed.
End Paths.

(** ** Splitting is by the columns an expression mentions *)

Section Split.
Context (attnums : list nat).

Definition is_partition_col (q : PushedQual) : bool := bool_decide (col q ∈ attnums).
Definition mentions_partition (e : PushedExpr) : bool := existsb is_partition_col (leaves e).
Definition mentions_storage (e : PushedExpr) : bool := existsb (fun q => negb (is_partition_col q)) (leaves e).

Definition of_seen (seen_p seen_s : bool) : Target :=
  match seen_p, seen_s with
  | true, true => TMixed
  | true, false => TPartition
  | false, _ => TStorage
  end.

(** The loop of [classify_target] over the children. *)
Definition classify_scan (f : PushedExpr -> Target) :=
  fix scan (xs : list PushedExpr) (seen_p seen_s : bool) : Target :=
    match xs with
    | [] => of_seen seen_p seen_s
    | x :: xs' => match f x with
                  | TPartition => scan xs' true seen_s
                  | TStorage => scan xs' seen_p true
                  | TMixed => TMixed
                  end
    end.

(** No conjunction or disjunction in the expression is empty. *)
Fixpoint leafy (e : PushedExpr) : bool :=
  match e with
  | PLeaf _ => true
  | PAnd xs | POr xs => negb (bool_decide (xs = [])) && forallb leafy xs
  | PNot x => leafy x
  end.

Lemma leafy_leaves e : leafy e = true -> leaves e <> [].
Proof.
  induction e as [q|xs IH|xs IH|x IH] using PushedExpr_ind'; cbn [leafy leaves]; try done.
  all: intros [Hne Hall]%andb_true_iff; destruct xs as [|x xs]; [done|]; cbn in Hall; apply andb_true_iff in Hall as [Hx _];
    apply Forall_cons in IH as [IH _]; specialize (IH Hx); cbn [map concat]; by destruct (leaves x).
Qed.

Lemma mentions_some e : leafy e = true -> mentions_partition e || mentions_storage e = true.
Proof.
  intros H%leafy_leaves. unfold mentions_partition, mentions_storage. destruct (leaves e) as [|q l]; [done|]. cbn.
  destruct (is_partition_col q); cbn; [done | apply orb_true_r].
Qed.

Lemma classify_scan_spec xs p s :
  Forall (fun x => leafy x = true /\ classify_target x attnums = of_seen (mentions_partition x) (mentions_storage x)) xs ->
  classify_scan (fun x => classify_target x attnums) xs p s
  = of_seen (p || existsb mentions_partition xs) (s || existsb mentions_storage xs).
Proof.
  intros H. revert p s. induction H as [|x xs [Hx E] _ IH]; intros p s; cbn [classify_scan existsb].
  - by rewrite !orb_false_r.
  - rewrite E. apply mentions_some in Hx. destruct (mentions_partition x), (mentions_storage x); try done; cbn [of_seen orb].
    + by rewrite !orb_true_r.
    + rewrite IH. by rewrite orb_true_r.
    + rewrite IH. by rewrite orb_true_r.
Qed.

Lemma existsb_leaves (f : PushedQual -> bool) xs :
  existsb f (concat (map leaves xs)) = existsb (fun x => existsb f (leaves x)) xs.
Proof. induction xs as [|x xs IH]; [done|]. cbn. by rewrite existsb_app, IH. Qed.

Lemma classify_target_spec e :
  leafy e = true -> classify_target e attnums = of_seen (mentions_partition e) (mentions_storage e).
Proof.
  induction e as [q|xs IH|xs IH|x IH] using PushedExpr_ind'; intros Hl.
  - cbn. unfold mentions_partition, mentions_storage, is_partition_col. cbn. by destruct (bool_decide _).
  - cbn [leafy] in Hl. apply andb_true_iff in Hl as [_ Hl]. rewrite forallb_forall in Hl. rewrite Forall_forall in IH.
    transitivity (classify_scan (fun x => classify_target x attnums) xs false false); [done|].
    rewrite classify_scan_spec; [by unfold mentions_partition, mentions_storage; cbn [leaves]; rewrite !existsb_leaves|].
    apply Forall_forall. intros x Hx. assert (leafy x = true) by (apply Hl; by apply list_elem_of_In). auto.
  - cbn [leafy] in Hl. apply andb_true_iff in Hl as [_ Hl]. rewrite forallb_forall in Hl. rewrite Forall_forall in IH.
    transitivity (classify_scan (fun x => classify_target x attnums) xs false false); [done|].
    rewrite classify_scan_spec; [by unfold mentions_partition, mentions_storage; cbn [leaves]; rewrite !existsb_leaves|].
    apply Forall_forall. intros x Hx. assert (leafy x = true) by (apply Hl; by apply list_elem_of_In). auto.
  - by apply IH.
Qed.

Lemma split_filter exprs :
  split_quals_by_target exprs attnums =
  (List.filter (fun e => match classify_target e attnums with TPartition => true | _ => false end) exprs,
   List.filter (fun e => match classify_target e attnums with TStorage => true | _ => false end) exprs).
Proof. induction exprs as [|e es IH]; [done|]. cbn. rewrite IH. by destruct (classify_target e attnums). Qed.

(** The split sends to the partition side exactly the expressions that
    mention partition columns only, to the storage side exactly those that
    mention none, keeping their order, and drops the mixed ones. *)
Theorem split_quals_by_target_spec exprs :
  Forall (fun e => leafy e = true) exprs ->
  split_quals_by_target exprs attnums =
  (List.filter (fun e => forallb is_partition_col (leaves e)) exprs,
   List.filter (fun e => negb (existsb is_partition_col (leaves e))) exprs).
Proof.
  intros H. rewrite split_filter. f_equal; apply filter_ext_in; intros e He%list_elem_of_In;
    rewrite Forall_forall in H; specialize (H e He); rewrite (classify_target_spec _ H).
  - assert (forallb is_partition_col (leaves e) = negb (mentions_storage e)) as ->.
    { unfold mentions_storage. induction (leaves e) as [|q l IH]; [done|]. cbn. rewrite IH. by destruct (is_partition_col q). }
    apply mentions_some in H. by destruct (mentions_partition e), (mentions_storage e).
  - change (existsb is_partition_col (leaves e)) with (mentions_partition e).
    by destruct (mentions_partition e), (mentions_storage e).
Qed.
End Split.

(** ** Skipping a blob is exact on canonical values *)

(** A day whose year is between 0 and 9999, in days from 1970-01-01. *)
Definition four_digit_year (d : Z) : Prop := -719528 <= d <= 2932896.

(** chrono's ["%Y-%m-%d"] within four-digit years: every such day has a text,
    zero-padded to a fixed width, so texts order like the days; with its
    hyphens inside it is no integer. *)
Class DateTextLaws (P : PgApi) : Prop := {
  date_text d : four_digit_year d -> exists s, chrono_format_days (d - UNIX_TO_PG_EPOCH_DAYS) = Some s /\ parse_i64 s = None;
  date_text_order d d' s s' : four_digit_year d -> four_digit_year d' ->
    chrono_format_days (d - UNIX_TO_PG_EPOCH_DAYS) = Some s -> chrono_format_days (d' - UNIX_TO_PG_EPOCH_DAYS) = Some s' ->
    str_compare s s' = (d ?= d');
}.

(** Expressions without NOT. *)
Fixpoint positive (e : PushedExpr) : bool :=
  match e with PLeaf _ => true | PAnd xs | POr xs => forallb positive xs | PNot _ => false end.

Section Exact.
Context {P : PgApi} {DL : DateTextLaws P} (attnums : list nat) (declared : Declared) (parsed : gmap str str) (row : Row).

(** What a path value [raw] of type [ty] and the row's value [v] have to do
    with the literal: integers and dates are written canonically, and a text
    literal does not make an ordering of two numerals. *)
Definition canonical (ty : PgPartitionType) (raw : str) (v : Value) (o : PushedOp) (l : ScalarValueRepr) : Prop :=
  match ty with
  | PInt2 | PInt4 | PInt8 =>
      exists z b, raw = show_Z z /\ in_i64 z /\ in_i64 b /\ (l = SI16 b \/ l = SI32 b \/ l = SI64 b) /\
        (v = VI16 z \/ v = VI32 z \/ v = VI64 z)
  | PText =>
      exists s, l = SUtf8 s /\ v = VUtf8 raw /\
        (o = OpEq \/ o = OpNe \/ parse_i64 raw = None \/ parse_i64 s = None)
  | PDate =>
      exists z d, v = VDate32 z /\ l = SDate32 d /\ four_digit_year z /\ four_digit_year d /\
        chrono_format_days (z - UNIX_TO_PG_EPOCH_DAYS) = Some raw
  end.

Definition leaf_canonical (q : PushedQual) : Prop :=
  exists pos name ty raw v,
    position attnums (col q) = Some pos /\ declared !! pos = Some (name, ty) /\ parsed !! name = Some raw /\
    row (col q) = Some v /\
    (op q = OpIsNotNull /\ value q = SNull \/ null_test (op q) = false /\ canonical ty raw v (op q) (value q)).

(** [IS NULL] on a partition column the path has a value for. *)
Definition leaf_is_null (q : PushedQual) : Prop :=
  exists pos d raw, position attnums (col q) = Some pos /\ declared !! pos = Some d /\ parsed !! d.1 = Some raw /\
    row (col q) <> None /\ op q = OpIsNull /\ value q = SNull.

Lemma compare_as_cmp o raw lit c :
  null_test o = false -> (c = Datatypes.Eq <-> raw = lit) ->
  match parse_i64 raw, parse_i64 lit with
  | Some r, Some l => (r ?= l) = c
  | _, _ => str_compare raw lit = c
  end \/ o = OpEq \/ o = OpNe ->
  compare_texts o raw lit = op_holds o c.
Proof.
  intros Hn Heq Hc. destruct o; try done; unfold compare_texts.
  all: try (destruct Hc as [Hc|[|]]; [|done|done]).
  1-2: clear Hc; destruct (str_eqb raw lit) eqn:E;
    [apply str_eqb_eq in E; apply Heq in E as ->; done
    | destruct c; try done; exfalso; rewrite (proj1 Heq eq_refl), (proj2 (str_eqb_eq lit lit) eq_refl) in E; done].
  all: assert (str_compare lit raw = CompOpp (str_compare raw lit)) as Ha by apply str_compare_antisym.
  all: destruct (parse_i64 raw) as [r|], (parse_i64 lit) as [l|]; subst c;
    unfold str_ltb, str_leb; rewrite ?Ha;
    try (by destruct (str_compare raw lit)).
  all: destruct (Z.compare_spec r l); cbn; first [apply Z.ltb_lt | apply Z.ltb_ge | apply Z.leb_le | apply Z.leb_gt]; lia.
Qed.

Lemma show_Z_eq_iff z b : (z ?= b) = Datatypes.Eq <-> show_Z z = show_Z b.
Proof. rewrite Z.compare_eq_iff. split; [by intros -> | apply show_Z_inj]. Qed.

Lemma canonical_leaf ty raw v o l :
  null_test o = false -> canonical ty raw v o l ->
  exists t, literal_text l = Some (Some t) /\ exists c, sql_cmp v l = Some c /\ compare_texts o raw t = op_holds o c.
Proof.
  intros Hn H. destruct ty; cbn [canonical] in H.
  1-3: destruct H as (z & b & -> & Hz & Hb & Hl & Hv); exists (show_Z b);
    (split; [by destruct Hl as [->|[->| ->]]|]); exists (z ?= b);
    (split; [by destruct Hl as [->|[->| ->]], Hv as [->|[->| ->]]|]);
    (apply compare_as_cmp; [done | apply show_Z_eq_iff|]; left; unfold parse_i64, in_i64 in *; by rewrite !parse_show_Z by lia).
  - destruct H as (s & -> & -> & Ho). exists s. split; [done|]. exists (str_compare raw s). split; [done|].
    apply compare_as_cmp; [done | apply str_compare_eq|].
    destruct Ho as [Ho|[Ho|[Ho|Ho]]]; [by right; left | by right; right | left | left]; rewrite Ho; [done | by destruct (parse_i64 raw)].
  - destruct H as (z & d & -> & -> & Hz & Hd & Hraw). destruct (date_text d Hd) as (s & Hf & Hp).
    pose proof (date_text_order z d raw s Hz Hd Hraw Hf) as Hc.
    exists s. cbn [literal_text]. rewrite Hf. split; [done|].
    exists (z ?= d). split; [done|]. apply compare_as_cmp; [done | rewrite <- Hc; apply str_compare_eq|].
    left. rewrite Hp. by destruct (parse_i64 raw).
Qed.

Lemma leaf_exact q : leaf_canonical q ->
  exists b, eval_partition_leaf q attnums parsed declared = Some b /\ sql_leaf q (row (col q)) = Some b.
Proof.
  intros (pos & name & ty & raw & v & Hpos & Hd & Hp & Hr & H). unfold eval_partition_leaf, sql_leaf.
  rewrite Hpos, Hd. cbn [mbind option_bind]. rewrite Hp, Hr.
  destruct H as [[-> ->] | [Hn H]]; [by exists true|].
  destruct (canonical_leaf _ _ _ _ _ Hn H) as (t & -> & c & Hc & Ht). cbn [mbind option_bind].
  exists (compare_texts (op q) raw t). split; [done|].
  rewrite Hc, Ht. by destruct (op q).
Qed.

Lemma expr_exact e : Forall leaf_canonical (leaves e) ->
  exists b, eval_one_partition_expr e attnums parsed declared = Some b /\ sql_eval e row = Some b.
Proof.
  induction e as [q|xs IH|xs IH|x IH] using PushedExpr_ind'; cbn [leaves]; intros H.
  - apply leaf_exact. by apply Forall_singleton.
  - induction IH as [|x xs IHx _ IH]; [by exists true|]. cbn [map concat] in H. apply Forall_app in H as [Hx Hxs].
    destruct (IHx Hx) as (b & Eb & Sb), (IH Hxs) as (c & Ec & Sc). cbn in Ec, Sc |- *. rewrite Eb, Sb, Sc. cbn [mbind option_bind].
    destruct b; [exists c; by destruct c | exists false; by destruct c].
  - induction IH as [|x xs IHx _ IH]; [by exists false|]. cbn [map concat] in H. apply Forall_app in H as [Hx Hxs].
    destruct (IHx Hx) as (b & Eb & Sb), (IH Hxs) as (c & Ec & Sc). cbn in Ec, Sc |- *. rewrite Eb, Sb, Sc. cbn [mbind option_bind].
    destruct b; [exists true; by destruct c | exists c; by destruct c].
  - destruct (IH H) as (b & Eb & Sb). exists (negb b). cbn. by rewrite Eb, Sb.
Qed.

(** An [IS NULL] leaf keeps the blob, although SQL finds it false: the
    literal, NULL, takes the arm of unsupported literals before the operator
    is looked at. *)
Lemma partition_is_null_keeps q : leaf_is_null q ->
  eval_partition_leaf q attnums parsed declared = Some true /\ sql_eval (PLeaf q) row = Some false.
Proof.
  intros (pos & [name ty] & raw & Hpos & Hd & Hp & Hr & Ho & Hv). unfold eval_partition_leaf. cbn [sql_eval fst] in *. unfold sql_leaf.
  rewrite Hpos, Hd. cbn [mbind option_bind]. rewrite Hp, Hv, Ho. split; [done|]. by rewrite bool_decide_eq_false_2.
Qed.

(** Without NOT it only keeps more. *)
Lemma expr_keeps e : positive e = true -> Forall (fun q => leaf_canonical q \/ leaf_is_null q) (leaves e) ->
  exists b, eval_one_partition_expr e attnums parsed declared = Some b /\ (sql_eval e row = Some true -> b = true).
Proof.
  induction e as [q|xs IH|xs IH|x IH] using PushedExpr_ind'; cbn [leaves positive]; intros Hpos H.
  - apply Forall_singleton in H as [H|H].
    + destruct (leaf_exact q H) as (b & Eb & Sb). exists b. split; [done|]. cbn. rewrite Sb. by intros [= ->].
    + destruct (partition_is_null_keeps q H) as [Eb _]. by exists true.
  - induction IH as [|x xs IHx _ IH]; [by exists true|]. cbn [map concat forallb] in H, Hpos. apply Forall_app in H as [Hx Hxs].
    apply andb_true_iff in Hpos as [Px Pxs]. destruct (IHx Px Hx) as (b & Eb & Sb), (IH Pxs Hxs) as (c & Ec & Sc).
    cbn [sql_eval] in Sc |- *. cbn in Ec |- *. rewrite Eb. cbn [mbind option_bind].
    exists (b && c). split; [destruct b; [done|done]|]. change (kleene_and (sql_eval x row) (foldr kleene_and (Some true) (map (fun x => sql_eval x row) xs))) with
      (foldr kleene_and (Some true) (map (fun x => sql_eval x row) (x :: xs))).
    rewrite kleene_and_true in Sc |- *. cbn [map]. intros [Hx' Hxs']%Forall_cons. by rewrite Sb, Sc.
  - induction IH as [|x xs IHx _ IH]; [by exists false|]. cbn [map concat forallb] in H, Hpos. apply Forall_app in H as [Hx Hxs].
    apply andb_true_iff in Hpos as [Px Pxs]. destruct (IHx Px Hx) as (b & Eb & Sb), (IH Pxs Hxs) as (c & Ec & Sc).
    cbn [sql_eval] in Sc |- *. cbn in Ec |- *. rewrite Eb. cbn [mbind option_bind].
    exists (b || c). split; [destruct b; [done|done]|]. change (kleene_or (sql_eval x row) (foldr kleene_or (Some false) (map (fun x => sql_eval x row) xs))) with
      (foldr kleene_or (Some false) (map (fun x => sql_eval x row) (x :: xs))).
    rewrite kleene_or_true in Sc |- *. cbn [map]. intros [Hx'|Hxs']%Exists_cons; [by rewrite Sb|]. rewrite Sc by done. apply orb_true_r.
  - done.
Qed.

(** C33: partition pruning on comparisons and null tests of columns the path
    has canonical values for (integers as printed, dates as chrono prints them
    in years 0 to 9999; a text column compared for equality, or ordered
    against texts that are not both integers): the evaluation does not panic
    and never skips a blob on whose rows SQL finds every qual true; and with
    comparisons and [IS NOT NULL] only, the blob is kept exactly when SQL
    does.  [IS NULL], allowed outside of NOT, keeps the blob although SQL finds
    it false ([partition_is_null_keeps]); on other path values pruning is not
    sound ([partition_eq_compares_text], [partition_orders_numerals]). *)
Theorem partition_pruning_exact exprs :
  Forall (fun e => Forall leaf_canonical (leaves e) \/
                   positive e = true /\ Forall (fun q => leaf_canonical q \/ leaf_is_null q) (leaves e)) exprs ->
  exists b, evaluate_partition_quals_against_blob exprs attnums parsed declared = Some b /\
    (Forall (fun e => sql_eval e row = Some true) exprs -> b = true) /\
    (Forall (fun e => Forall leaf_canonical (leaves e)) exprs -> b = true -> Forall (fun e => sql_eval e row = Some true) exprs).
Proof.
  induction 1 as [|e es He _ (c & Ec & Hkeep & Hex)]; [by exists true|].
  assert (exists b, eval_one_partition_expr e attnums parsed declared = Some b /\ (sql_eval e row = Some true -> b = true) /\
    (Forall leaf_canonical (leaves e) -> sql_eval e row = Some b)) as (b & Eb & Hk & Hb).
  { assert (Forall leaf_canonical (leaves e) -> exists b, eval_one_partition_expr e attnums parsed declared = Some b /\ (sql_eval e row = Some true -> b = true) /\
      (Forall leaf_canonical (leaves e) -> sql_eval e row = Some b)) as Hcan.
    { intros H. destruct (expr_exact e H) as (b & Eb & Sb). exists b. split; [done|]. split; [|done]. rewrite Sb. by intros [= ->]. }
    destruct He as [He|[Hp He]]; [by apply Hcan|]. destruct (expr_keeps e Hp He) as (b & Eb & Hk). exists b. split; [done|]. split; [done|].
    intros H. destruct (Hcan H) as (b' & Eb' & _ & Sb). rewrite Eb in Eb'. injection Eb' as <-. by apply Sb. }
  cbn. rewrite Eb. cbn [mbind option_bind]. exists (b && c). split; [by destruct b|]. split.
  - intros [H1 H2]%Forall_cons. by rewrite Hk, Hkeep.
  - intros [H1 H2]%Forall_cons [-> ->]%andb_true_iff. apply Forall_cons. split; [by apply Hb|by apply Hex].
Qed.

(** An integer partition written with leading zeros is compared as text:
    a blob whose value equals the literal is skipped. *)
Theorem partition_eq_compares_text q pos name ty raw z :
  position attnums (col q) = Some pos -> declared !! pos = Some (name, ty) -> parsed !! name = Some raw ->
  op q = OpEq -> value q = SI32 z -> row (col q) = Some (VI32 z) ->
  parse_i32 raw = Some z -> raw <> show_Z z ->
  sql_eval (PLeaf q) row = Some true /\
  evaluate_partition_quals_against_blob [PLeaf q] attnums parsed declared = Some false.
Proof.
  intros Hpos Hd Hp Ho Hv Hr Hz Hne. split.
  - cbn. unfold sql_leaf. rewrite Ho, Hr, Hv. cbn. by rewrite Z.compare_refl.
  - cbn. unfold eval_partition_leaf. rewrite Hpos, Hd. cbn [mbind option_bind]. rewrite Hp, Hv, Ho. cbn.
    destruct (str_eqb raw (show_Z z)) eqn:E; [by apply str_eqb_eq in E | done].
Qed.
End Exact.

(** Two numerals of a text column are ordered as numbers: a blob of region
    "10" is skipped for [region < '9'], although the text is smaller; one of
    region "9" is kept for [region < '10'], although it is greater. *)
Lemma partition_orders_numerals {P : PgApi} :
  let q l := PLeaf (mkQual 0 OpLt (SUtf8 l)) in let declared := [(lit "region", PText)] in
  let parsed r : gmap str str := {[ lit "region" := r ]} in let row r : Row := fun _ => Some (VUtf8 r) in
  sql_eval (q (lit "9")) (row (lit "10")) = Some true /\
  evaluate_partition_quals_against_blob [q (lit "9")] [0%nat] (parsed (lit "10")) declared = Some false /\
  sql_eval (q (lit "10")) (row (lit "9")) = Some false /\
  evaluate_partition_quals_against_blob [q (lit "10")] [0%nat] (parsed (lit "9")) declared = Some true.
Proof. vm_compute. repeat split. Qed.

(** ** Dates written with a fixed width *)

Fixpoint pad (k : nat) (a : Z) : str := match k with O => [] | S k' => pad k' (a / 10) ++ [digit (a mod 10)] end.

Lemma pad_length k a : length (pad k a) = k.
Proof. revert a. induction k as [|k IH]; intros a; [done|]. cbn. rewrite length_app, IH. cbn. lia. Qed.

Lemma str_compare_snoc x y c c' : length x = length y ->
  str_compare (x ++ [c]) (y ++ [c']) = match str_compare x y with Datatypes.Eq => byte c ?= byte c' | o => o end.
Proof.
  revert y. induction x as [|a x IH]; intros [|b y] Hl; try done; cbn.
  - by destruct (byte c ?= byte c').
  - injection Hl as Hl. rewrite (IH y Hl). by destruct (byte a ?= byte b).
Qed.

Lemma pad_compare k : forall a b, 0 <= a < 10 ^ Z.of_nat k -> 0 <= b < 10 ^ Z.of_nat k -> str_compare (pad k a) (pad k b) = (a ?= b).
Proof.
  induction k as [|k IH]; intros a b Ha Hb.
  - cbn in Ha, Hb. assert (a = 0) as -> by lia. assert (b = 0) as -> by lia. done.
  - rewrite Nat2Z.inj_succ, Z.pow_succ_r in Ha, Hb by lia. cbn [pad].
    rewrite str_compare_snoc by by rewrite !pad_length.
    assert (0 <= a / 10 < 10 ^ Z.of_nat k) as Ha' by (split; [apply Z.div_pos|apply Z.div_lt_upper_bound]; lia).
    assert (0 <= b / 10 < 10 ^ Z.of_nat k) as Hb' by (split; [apply Z.div_pos|apply Z.div_lt_upper_bound]; lia).
    rewrite (IH _ _ Ha' Hb').
    pose proof (Z.mod_pos_bound a 10 ltac:(lia)). pose proof (Z.mod_pos_bound b 10 ltac:(lia)).
    unfold digit. rewrite !byte_byte_of by lia.
    pose proof (Z.div_mod a 10 ltac:(lia)). pose proof (Z.div_mod b 10 ltac:(lia)).
    destruct (Z.compare_spec (a / 10) (b / 10)), (Z.compare_spec a b); try done; try lia.
    all: match goal with |- (?x ?= ?y) = _ => destruct (Z.compare_spec x y) end; try done; lia.
Qed.

Lemma str_compare_cons c x y : str_compare (c :: x) (c :: y) = str_compare x y.
Proof. cbn. by rewrite Z.compare_refl. Qed.

(** A printer with the promised order. *)
Definition dated_pg : PgApi := {|
  chrono_parse_ymd := chrono_parse_ymd;
  chrono_format_days d :=
    let u := d + UNIX_TO_PG_EPOCH_DAYS in
    if (-719528 <=? u) && (u <=? 2932896) then Some ("D"%char :: pad 7 (u + 719528)) else None;
  pg_date_try_from := pg_date_try_from;
  pg_timestamp_try_from := pg_timestamp_try_from;
  any_numeric_try_from := any_numeric_try_from;
  json_from_str := json_from_str;
  debug_type := debug_type;
|}.

#[export] Instance dated_laws : DateTextLaws dated_pg.
Proof.
  split; cbn [chrono_format_days dated_pg].
  - intros d Hd. unfold four_digit_year in Hd. rewrite Z.sub_add.
    rewrite (proj2 (Z.leb_le _ _)), (proj2 (Z.leb_le d _)) by lia. cbn [andb]. by eexists.
  - intros d d' s s' Hd Hd'. unfold four_digit_year in *. rewrite !Z.sub_add.
    rewrite (proj2 (Z.leb_le _ d)), (proj2 (Z.leb_le d _)), (proj2 (Z.leb_le _ d')), (proj2 (Z.leb_le d' _)) by lia.
    cbn [andb]. intros E%(inj Some) E'%(inj Some). rewrite <- E, <- E', str_compare_cons, (pad_compare 7) by (cbn; lia). destruct (Z.compare_spec (d + 719528) (d' + 719528)), (Z.compare_spec d d'); try done; lia.
Qed.

(** ** A concrete table *)

Definition demo_declared : Declared := [(lit "year", PInt4); (lit "region", PText)].
Definition demo_path : str := "sales/Year=2024/region=eu/part-0.parquet".
Definition demo_parsed : gmap str str := {[ lit "year" := lit "2024"; lit "region" := lit "eu" ]}.
Definition demo_row : Row := fun i => match i with 1%nat => Some (VI32 2024) | 3%nat => Some (VUtf8 "eu") | _ => None end.

Example demo_path_parses : map_to_list <$> partition_values_from_path demo_path demo_declared = Ok (map_to_list demo_parsed).
Proof. vm_compute. reflexivity. Qed.

Lemma split_quals_by_target_spec_witness :
  let p := PLeaf (mkQual 1 OpEq (SI32 2024)) in let s := PLeaf (mkQual 0 OpGt (SI32 5)) in
  split_quals_by_target [p; POr [p; s]; s] [1; 3]%nat = ([p], [s]).
Proof.
  intros p s. rewrite (split_quals_by_target_spec [1; 3]%nat [p; POr [p; s]; s]); [reflexivity|].
  repeat constructor.
Defined.

(** [year >= 2020 AND region <> 'us'], [day < 20000], and a [year IS NULL]
    that SQL finds false. *)
Definition demo_quals : list PushedExpr :=
  [PAnd [PLeaf (mkQual 1 OpGe (SI32 2020)); PLeaf (mkQual 3 OpNe (SUtf8 "us"))]; PLeaf (mkQual 4 OpLt (SDate32 20000))].

Definition dated_declared : Declared := demo_declared ++ [(lit "day", PDate)].
Definition dated_parsed : gmap str str := <[lit "day" := "D"%char :: pad 7 (19723 + 719528)]> demo_parsed.
Definition dated_row : Row := fun i => if (i =? 4)%nat then Some (VDate32 19723) else demo_row i.

Lemma partition_pruning_exact_witness :
  (exists b, evaluate_partition_quals_against_blob (P := dated_pg) demo_quals [1; 3; 4]%nat dated_parsed dated_declared = Some b /\ b = true) /\
  exists b, evaluate_partition_quals_against_blob (P := dated_pg) [POr [PLeaf (mkQual 1 OpIsNull SNull); PLeaf (mkQual 1 OpEq (SI32 2024))]]
    [1; 3; 4]%nat dated_parsed dated_declared = Some b /\ b = true.
Proof.
  assert (forall o z, null_test o = false -> in_i64 z -> leaf_canonical (P := dated_pg) [1; 3; 4]%nat dated_declared dated_parsed dated_row (mkQual 1 o (SI32 z))) as Hyear.
  { intros o z Ho Hz. exists 0%nat, (lit "year"), PInt4, (lit "2024"), (VI32 2024). do 4 (split; [vm_compute; reflexivity|]).
    right. split; [exact Ho|]. exists 2024, z. split; [vm_compute; reflexivity|]. split; [unfold in_i64; lia|]. split; [exact Hz|]. auto. }
  split.
  - destruct (partition_pruning_exact (P := dated_pg) [1; 3; 4]%nat dated_declared dated_parsed dated_row demo_quals) as (b & Eb & Hb & _).
    + constructor; [left|constructor; [left|constructor]].
      * repeat constructor; [apply Hyear; [reflexivity|unfold in_i64; lia]|].
        exists 1%nat, (lit "region"), PText, (lit "eu"), (VUtf8 "eu"). do 4 (split; [vm_compute; reflexivity|]).
        right. split; [reflexivity|]. exists (lit "us"). auto.
      * repeat constructor. exists 2%nat, (lit "day"), PDate, ("D"%char :: pad 7 (19723 + 719528)), (VDate32 19723).
        do 4 (split; [vm_compute; reflexivity|]). right. split; [reflexivity|]. exists 19723, 20000.
        split; [reflexivity|]. split; [reflexivity|]. unfold four_digit_year. split; [lia|]. split; [lia|]. vm_compute. reflexivity.
    + exists b. split; [exact Eb|]. apply Hb. repeat constructor.
  - destruct (partition_pruning_exact (P := dated_pg) [1; 3; 4]%nat dated_declared dated_parsed dated_row
      [POr [PLeaf (mkQual 1 OpIsNull SNull); PLeaf (mkQual 1 OpEq (SI32 2024))]]) as (b & Eb & Hb & _).
    + constructor; [right|constructor]. split; [reflexivity|]. constructor; [right|constructor; [left|constructor]].
      * exists 0%nat, (lit "year", PInt4), (lit "2024"). do 3 (split; [vm_compute; reflexivity|]). split; [discriminate|]. split; reflexivity.
      * apply Hyear; [reflexivity|unfold in_i64; lia].
    + exists b. split; [exact Eb|]. apply Hb. repeat constructor.
Defined.

Lemma partition_eq_compares_text_witness :
  let q := mkQual 1 OpEq (SI32 7) in let parsed : gmap str str := {[ lit "year" := lit "007" ]} in
  sql_eval (PLeaf q) (fun _ => Some (VI32 7)) = Some true /\
  evaluate_partition_quals_against_blob [PLeaf q] [1%nat] parsed demo_declared = Some false.
Proof.
  apply (partition_eq_compares_text [1%nat] demo_declared {[ lit "year" := lit "007" ]} (fun _ => Some (VI32 7))
           (mkQual 1 OpEq (SI32 7)) 0 (lit "year") PInt4 (lit "007") 7); try reflexivity; vm_compute; congruence.
Defined.
