(* ===== verification/Glob.v ===== *)
(** * [src/fdw/glob.rs]: blob patterns.

    A pattern is listed by its wildcard-free prefix and filtered by an
    anchored regular expression that [parse_glob] writes out as text.  The
    [regex] crate is a class; its law gives the documented meaning of the
    fragment of the syntax the code produces ([ReSyntax], [atoms_match]).
    The theorems show that the expression matches what the pattern means and
    that listing by the prefix loses no match. *)

From S2P Require Import Prelude RustStr Redact Errors.
Local Open Scope Z_scope.

(** ** The regex crate *)

(** UTF-8 continuation bytes: a character is a byte and those that follow. *)
Definition is_cont (c : ascii) : bool := in_range 128 191 c.
Definition boundary (s : str) : bool := match s with [] => true | c :: _ => negb (is_cont c) end.

Definition regex_meta (c : ascii) : bool := contains_char c "\.+*?()|[]{}^$".

Inductive Atom := ALit (c : ascii) | ANotSlash | ANotSlashes.

(** The syntax of a sequence of literals, escaped metacharacters, [[^/]] and
    [[^/]*]. *)
Inductive ReSyntax : str -> list Atom -> Prop :=
| RSnil : ReSyntax [] []
| RSlit c src atoms : regex_meta c = false -> ReSyntax src atoms -> ReSyntax (c :: src) (ALit c :: atoms)
| RSesc c src atoms : regex_meta c = true -> ReSyntax src atoms -> ReSyntax ("\"%char :: c :: src) (ALit c :: atoms)
| RSone src atoms : ReSyntax src atoms -> ReSyntax ("[^/]" ++ src) (ANotSlash :: atoms)
| RSmany src atoms : ReSyntax src atoms -> ReSyntax ("[^/]*" ++ src) (ANotSlashes :: atoms).

(** The strings a sequence matches in full. *)
Inductive atoms_match : list Atom -> str -> Prop :=
| AMnil : atoms_match [] []
| AMlit c atoms s : atoms_match atoms s -> atoms_match (ALit c :: atoms) (c :: s)
| AMone c t atoms s : c <> "/"%char -> Forall (fun x => is_cont x = true) t -> boundary s = true ->
    atoms_match atoms s -> atoms_match (ANotSlash :: atoms) (c :: t ++ s)
| AMmany t atoms s : "/"%char ∉ t -> boundary s = true ->
    atoms_match atoms s -> atoms_match (ANotSlashes :: atoms) (t ++ s).

Class RegexApi := {
  Regex : Type;
  regex_new : str -> Result str Regex;
  is_match : Regex -> str -> bool;
}.

(** [^...$] without flags matches a haystack exactly when its body matches
    all of it. *)
Class RegexLaws (R : RegexApi) : Prop := {
  regex_anchored src atoms r s : ReSyntax src atoms -> regex_new ("^" ++ src ++ "$") = Ok r ->
    utf8_valid s = true -> is_match r s = true <-> atoms_match atoms s;
}.

(** ** [parse_glob] *)

Section Glob.
Context {R : RegexApi}.

Record GlobPattern := mkGlob { prefix : str; regex : Regex }.

Definition is_wild (c : ascii) : bool := ascii_eqb c "*" || ascii_eqb c "?".

(** What a character of the pattern becomes. *)
Definition glob_char (c : ascii) : str :=
  if ascii_eqb c "*" then "[^/]*"
  else if ascii_eqb c "?" then "[^/]"
  else if contains_char c ".+^$()[]{}|\" then ["\"%char; c]
  else [c].

Definition glob_prefix (pattern : str) : str := take (default (length pattern) (find_char is_wild pattern)) pattern.

Definition glob_source (pattern : str) : str := "^" ++ concat (map glob_char pattern) ++ "$".

Definition parse_glob (pattern : str) : FdwResult GlobPattern :=
  if str_eqb pattern [] then Err (InvalidOption "filename is empty")
  else if starts_with "/" pattern then
    Err (InvalidOption "filename must be a blob name within the container, not an absolute path")
  else if contains ".." pattern then Err (InvalidOption "filename must not contain '..' path segments")
  else if contains "**" pattern then Err (InvalidOption "recursive glob '**' is not supported in v1")
  else
    regex ← map_err (fun e => InvalidOption ("invalid glob '" ++ pattern ++ "': " ++ e)) (regex_new (glob_source pattern));
    Ok (mkGlob (glob_prefix pattern) regex).

(** ** What a pattern means *)

(** [*] is any run of characters other than '/', [?] one such character,
    anything else itself. *)
Inductive glob_match : str -> str -> Prop :=
| GMnil : glob_match [] []
| GMlit c p s : is_wild c = false -> glob_match p s -> glob_match (c :: p) (c :: s)
| GMone c t p s : c <> "/"%char -> Forall (fun x => is_cont x = true) t -> boundary s = true ->
    glob_match p s -> glob_match ("?"%char :: p) (c :: t ++ s)
| GMmany t p s : "/"%char ∉ t -> boundary s = true -> glob_match p s -> glob_match ("*"%char :: p) (t ++ s).

(** The number of '/' in a name. *)
Definition slashes (s : str) : nat := length (List.filter (ascii_eqb "/") s).

Lemma split_on_slashes s : length (split_on "/" s) = S (slashes s).
Proof.
  unfold slashes. induction s as [|c s IH]; [done|]. cbn. destruct (ascii_eqb "/" c); cbn; [by rewrite IH|].
  destruct (split_on_cons "/" s) as (p & ps & E). rewrite E in *. done.
Qed.

Lemma slashes_app a b : slashes (a ++ b) = (slashes a + slashes b)%nat.
Proof. unfold slashes. by rewrite List.filter_app, length_app. Qed.

Lemma no_slashes s : "/"%char ∉ s -> slashes s = 0%nat.
Proof.
  unfold slashes. induction s as [|c s IH]; [done|]. intros [Hc Hs]%not_elem_of_cons. cbn.
  destruct (ascii_eqb "/" c) eqn:E; [by apply ascii_eqb_eq in E | auto].
Qed.

Lemma cont_no_slash t : Forall (fun x => is_cont x = true) t -> "/"%char ∉ t.
Proof. intros H Hin. rewrite Forall_forall in H. by apply H in Hin. Qed.

Definition glob_atom (c : ascii) : Atom :=
  if ascii_eqb c "*" then ANotSlashes else if ascii_eqb c "?" then ANotSlash else ALit c.

(** The escaped characters are the metacharacters that are not wildcards. *)
Lemma escaped_meta c :
  Bool.eqb (regex_meta c) (is_wild c || contains_char c ".+^$()[]{}|\") = true.
Proof. revert c. apply ascii_forall. vm_compute. reflexivity. Qed.

Lemma glob_char_syntax c src atoms : ReSyntax src atoms -> ReSyntax (glob_char c ++ src) (glob_atom c :: atoms).
Proof.
  intros H. pose proof (escaped_meta c) as E. apply eqb_prop in E. unfold glob_char, glob_atom, is_wild in *.
  destruct (ascii_eqb c "*"); [by constructor|]. destruct (ascii_eqb c "?"); [by constructor|].
  cbn [orb] in E. destruct (contains_char c _); by constructor.
Qed.

Lemma glob_source_syntax pattern : ReSyntax (concat (map glob_char pattern)) (map glob_atom pattern).
Proof. induction pattern; [constructor|]. by apply glob_char_syntax. Qed.

Lemma glob_atoms pattern s : atoms_match (map glob_atom pattern) s <-> glob_match pattern s.
Proof.
  revert s. induction pattern as [|c p IH]; intros s; cbn [map].
  - split; inversion 1; constructor.
  - unfold glob_atom. destruct (ascii_eqb c "*") eqn:E1; [apply ascii_eqb_eq in E1 as ->|destruct (ascii_eqb c "?") eqn:E2; [apply ascii_eqb_eq in E2 as ->|]].
    + split; inversion 1; subst; try discriminate; constructor; try done; by apply IH.
    + split; inversion 1; subst; try discriminate; constructor; try done; by apply IH.
    + split; inversion 1; subst; try (by rewrite ascii_eqb_refl in *); constructor; try by apply IH.
      unfold is_wild. by rewrite E1, E2.
Qed.

Lemma parse_glob_inv pattern g :
  parse_glob pattern = Ok g -> prefix g = glob_prefix pattern /\ regex_new (glob_source pattern) = Ok (regex g).
Proof.
  unfold parse_glob. repeat (case_match; [intros HH; done|]). intros HH. inv_ok. done.
Qed.

Lemma parse_glob_matches `{!RegexLaws R} pattern g s :
  parse_glob pattern = Ok g -> utf8_valid s = true -> is_match (regex g) s = true <-> glob_match pattern s.
Proof.
  intros [_ Hr]%parse_glob_inv Hs. rewrite <- glob_atoms. eapply regex_anchored; [apply glob_source_syntax | exact Hr | done].
Qed.

Lemma glob_match_app_prefix pattern s : glob_match pattern s -> exists t, s = glob_prefix pattern ++ t.
Proof.
  induction 1 as [|c p s Hc _ [t ->]|c t p s Hc Ht Hb _ IH|t p s Ht Hb _ IH].
  - by exists [].
  - exists t. unfold glob_prefix. cbn [find_char]. rewrite Hc. by destruct (find_char is_wild p).
  - unfold glob_prefix. cbn. eauto.
  - unfold glob_prefix. cbn. eauto.
Qed.

(** A part without wildcards matches itself only. *)
Lemma glob_literal_inv p q s : Forall (fun c => is_wild c = false) p -> glob_match (p ++ q) s -> exists r, s = p ++ r /\ glob_match q r.
Proof.
  intros HF. revert s. induction HF as [|c p Hc _ IH]; intros s H; [by exists s|]. cbn [app] in H. inversion H; subst; try discriminate.
  destruct (IH _ ltac:(eassumption)) as (r & -> & Hr). by exists r.
Qed.

Lemma glob_literal p s q : Forall (fun c => is_wild c = false) p -> glob_match q s -> glob_match (p ++ q) (p ++ s).
Proof. intros Hp Hq. induction Hp as [|c p Hc _ IH]; [done|]. cbn. by constructor. Qed.

Lemma glob_match_slashes pattern s : glob_match pattern s -> slashes s = slashes pattern.
Proof.
  induction 1 as [|c p s Hc _ IH|c t p s Hc Ht Hb _ IH|t p s Ht Hb _ IH]; [done|..].
  - change (c :: s) with ([c] ++ s). change (c :: p) with ([c] ++ p). rewrite !slashes_app. auto.
  - change (c :: t ++ s) with ([c] ++ t ++ s). change ("?"%char :: p) with (["?"%char] ++ p).
    rewrite !slashes_app, (no_slashes t), (no_slashes [c]), IH; [done | | by apply cont_no_slash].
    intros E%list_elem_of_singleton. by apply Hc.
  - change ("*"%char :: p) with (["*"%char] ++ p). rewrite !slashes_app, (no_slashes t) by done. by rewrite IH.
Qed.

(** C34: an accepted pattern is a non-empty relative path, and its regular
    expression matches a blob name exactly when the pattern does: a wildcard
    never crosses a '/', and every other character stands for itself. *)
Theorem parse_glob_exact `{!RegexLaws R} pattern g s :
  parse_glob pattern = Ok g -> utf8_valid s = true ->
  pattern <> [] /\ starts_with "/" pattern = false /\ (is_match (regex g) s = true <-> glob_match pattern s).
Proof.
  intros Hg Hs. split; [by intros -> | split].
  - destruct (starts_with "/" pattern) eqn:E; [|done]. unfold parse_glob in Hg. rewrite E in Hg. destruct (str_eqb pattern []); discriminate Hg.
  - by apply parse_glob_matches.
Qed.

(** Listing by the pattern's prefix and filtering by its regular
    expression finds every blob the pattern matches, and all of them lie at
    the pattern's depth. *)
Theorem glob_listing_complete `{!RegexLaws R} pattern g names :
  parse_glob pattern = Ok g -> Forall (fun n => utf8_valid n = true) names ->
  let listed := List.filter (is_match (regex g)) (List.filter (starts_with (prefix g)) names) in
  listed = List.filter (is_match (regex g)) names /\
  Forall (fun n => length (split_on "/" n) = length (split_on "/" pattern)) listed.
Proof.
  intros Hg Hu. cbn zeta. assert (forall n, n ∈ names -> is_match (regex g) n = true -> glob_match pattern n) as Hm.
  { intros n Hn Hi. rewrite Forall_forall in Hu. by apply (parse_glob_matches _ g); auto. }
  destruct (parse_glob_inv _ _ Hg) as [Hp _].
  assert (List.filter (is_match (regex g)) (List.filter (starts_with (prefix g)) names)
          = List.filter (is_match (regex g)) names) as E.
  { clear Hu. induction names as [|n ns IH]; [done|]. cbn. rewrite <- IH by (intros; apply Hm; [by constructor | done]).
    destruct (starts_with (prefix g) n) eqn:Es; cbn; [done|].
    destruct (is_match (regex g) n) eqn:Ei; [|done].
    apply Hm in Ei; [|by constructor]. apply glob_match_app_prefix in Ei as [t Ht].
    assert (starts_with (prefix g) n = true) by (apply starts_with_true; rewrite Hp; eauto). congruence. }
  split; [done|]. rewrite E. apply Forall_forall. intros n [Hn Hi]%list_elem_of_In%filter_In.
  apply list_elem_of_In in Hn. specialize (Hm n Hn Hi). clear -Hm. rewrite !split_on_slashes.
  f_equal. apply glob_match_slashes, Hm.
Qed.
End Glob.

(** ** A concrete matcher for the fragment *)

Fixpoint ref_parse (src : str) : option (list Atom) :=
  match src with
  | [] => None
  | [c] => if ascii_eqb c "$" then Some [] else None
  | c :: (d :: src') as rest =>
      if ascii_eqb c "\" then cons (ALit d) <$> ref_parse src'
      else if ascii_eqb c "[" then
        match src' with
        | x :: y :: (z :: src'') as rest' => if ascii_eqb z "*" then cons ANotSlashes <$> ref_parse src'' else cons ANotSlash <$> ref_parse rest'
        | _ => None
        end
      else cons (ALit c) <$> ref_parse rest
  end.

Fixpoint skip_cont (s : str) : str :=
  match s with c :: s' => if is_cont c then skip_cont s' else s | [] => [] end.

Fixpoint ref_match (atoms : list Atom) : str -> bool :=
  match atoms with
  | [] => fun s => match s with [] => true | _ => false end
  | ALit c :: atoms' => fun s => match s with d :: s' => ascii_eqb c d && ref_match atoms' s' | [] => false end
  | ANotSlash :: atoms' => fun s =>
      match s with d :: s' => negb (ascii_eqb d "/") && ref_match atoms' (skip_cont s') | [] => false end
  | ANotSlashes :: atoms' => fix go (s : str) : bool :=
      (boundary s && ref_match atoms' s) || match s with d :: s' => negb (ascii_eqb d "/") && go s' | [] => false end
  end.

Lemma skip_cont_spec s : exists t, s = t ++ skip_cont s /\ Forall (fun x => is_cont x = true) t /\ boundary (skip_cont s) = true.
Proof.
  induction s as [|c s (t & E & Ht & Hb)]; cbn; [by exists []|]. destruct (is_cont c) eqn:Ec.
  - exists (c :: t). rewrite E at 1. auto.
  - exists []. cbn. by rewrite Ec.
Qed.

Lemma skip_cont_app t s : Forall (fun x => is_cont x = true) t -> boundary s = true -> skip_cont (t ++ s) = s.
Proof.
  induction 1 as [|c t Hc _ IH]; cbn; [|by rewrite Hc]. destruct s as [|c s]; cbn; [done|]. by destruct (is_cont c).
Qed.

Lemma ref_match_spec atoms s : ref_match atoms s = true <-> atoms_match atoms s.
Proof.
  revert s. induction atoms as [|[c| |] atoms IH]; intros s; cbn [ref_match].
  - split; [destruct s; [constructor | done] | by inversion 1].
  - split.
    + destruct s as [|d s]; [done|]. intros [->%ascii_eqb_eq H%IH]%andb_true_iff. by constructor.
    + inversion 1; subst. rewrite ascii_eqb_refl. by apply IH.
  - split.
    + destruct s as [|d s]; [done|]. intros [Hd H%IH]%andb_true_iff. destruct (skip_cont_spec s) as (t & E & Ht & Hb).
      rewrite E. constructor; auto. intros ->. by rewrite ascii_eqb_refl in Hd.
    + inversion 1; subst. rewrite skip_cont_app by done. apply andb_true_iff. split; [|by apply IH].
      by apply negb_true_iff, ascii_eqb_neq.
  - split.
    + induction s as [|d s IHs]; intros [[Hb H%IH]%andb_true_iff|H]%orb_true_iff; try done.
      * by apply (AMmany []); [apply not_elem_of_nil|..].
      * by apply (AMmany []); [apply not_elem_of_nil|..].
      * apply andb_true_iff in H as [Hd H]. apply IHs in H. inversion H; subst.
        rewrite app_comm_cons. constructor; try done. apply not_elem_of_cons. split; [|done].
        intros <-. by rewrite ascii_eqb_refl in Hd.
    + inversion 1 as [| | |t atoms' s' Ht Hb Hm]; subst. apply IH in Hm. clear H.
      induction t as [|d t IHt]; cbn.
      * destruct s' as [|d s']; apply orb_true_iff; left; apply andb_true_iff; done.
      * apply not_elem_of_cons in Ht as [Hd Ht]. apply orb_true_iff. right. apply andb_true_iff.
        split; [by apply negb_true_iff, ascii_eqb_neq | by apply IHt].
Qed.

#[export] Instance ref_regex : RegexApi := {
  Regex := list Atom;
  regex_new src := match src with c :: body => ok_or (ref_parse body) (lit "bad regex") | [] => Err (lit "bad regex") end;
  is_match := ref_match;
}.

Lemma ref_parse_lit c s :
  ascii_eqb c "\" = false -> ascii_eqb c "[" = false -> s <> [] -> ref_parse (c :: s) = cons (ALit c) <$> ref_parse s.
Proof. intros E1 E2 Hs. destruct s as [|d s]; [done|]. cbn. by rewrite E1, E2. Qed.

Lemma ref_parse_syntax src atoms : ReSyntax src atoms -> ref_parse (src ++ "$") = Some atoms.
Proof.
  induction 1 as [|c src atoms Hc _ IH|c src atoms Hc _ IH|src atoms H IH|src atoms _ IH].
  - done.
  - assert (ascii_eqb c "\" = false /\ ascii_eqb c "[" = false) as [E1 E2].
    { split; apply ascii_eqb_neq; intros ->; discriminate Hc. }
    cbn [app]. rewrite ref_parse_lit, IH; [done..|]. by destruct src.
  - change (cons (ALit c) <$> ref_parse (src ++ "$") = Some (ALit c :: atoms)). by rewrite IH.
  - assert (exists d rest, src ++ "$" = d :: rest /\ ascii_eqb d "*" = false) as (d & rest & E & Hd).
    { destruct H as [|c src atoms Hc| | |]; cbn; eauto. exists c, (src ++ "$"). split; [done|].
      apply ascii_eqb_neq. intros ->. discriminate. }
    rewrite E in IH. cbn [app]. rewrite <- app_assoc, E.
    change ((if ascii_eqb d "*" then cons ANotSlashes <$> ref_parse rest else cons ANotSlash <$> ref_parse (d :: rest))
            = Some (ANotSlash :: atoms)). by rewrite Hd, IH.
  - change (cons ANotSlashes <$> ref_parse (src ++ "$") = Some (ANotSlashes :: atoms)). by rewrite IH.
Qed.

#[export] Instance ref_regex_laws : RegexLaws ref_regex.
Proof.
  constructor. intros src atoms r s Hs Hr _. change (ok_or (ref_parse (src ++ "$")) (lit "bad regex") = Ok r) in Hr. rewrite (ref_parse_syntax _ _ Hs) in Hr. injection Hr as <-. apply ref_match_spec.
Qed.

Definition demo_pattern : str := "d/?.p*".
Definition demo_names : list str := [lit "d/a.pq"; lit "d/e/a.pq"; lit "x"].
Definition demo_glob : GlobPattern := mkGlob "d/" (map glob_atom demo_pattern).

Lemma demo_glob_ok : parse_glob demo_pattern = Ok demo_glob.
Proof. vm_compute. reflexivity. Qed.

Lemma parse_glob_exact_witness : is_match (regex demo_glob) "d/a.pq" = true /\ glob_match demo_pattern "d/a.pq".
Proof.
  assert (is_match (regex demo_glob) "d/a.pq" = true) as Hm by (vm_compute; reflexivity).
  destruct (parse_glob_exact demo_pattern demo_glob "d/a.pq" demo_glob_ok eq_refl) as (_ & _ & H).
  split; [exact Hm | apply H; exact Hm].
Defined.

Lemma glob_listing_complete_witness :
  List.filter (is_match (regex demo_glob)) (List.filter (starts_with (prefix demo_glob)) demo_names)
  = List.filter (is_match (regex demo_glob)) demo_names.
Proof. apply (glob_listing_complete demo_pattern demo_glob demo_names demo_glob_ok). repeat constructor. Defined.
