(* ===== verification/MergeFacts.v ===== *)
(** * The K-way merge is complete and correct.

    The rows still to come of every source ([pending]) describe the state of
    the merge ([merge_inv]); one call emits the head of a source with the
    least key.  Draining it is an interleaving of the sources, sorted, exactly
    when all sources are sorted. *)

From S2P Require Import Prelude RustStr Redact Errors Externals Convert MultiFile.
Local Open Scope Z_scope.

#[export] Instance sort_key_total : TotalCmp sort_key_cmp.
Proof.
  assert (forall a b, sort_key_cmp b a = CompOpp (sort_key_cmp a b)) as Hanti.
  { intros [] []; cbn; try done; first [apply Z.compare_antisym | apply str_compare_antisym]. }
  split; [exact Hanti|..]; intros [] [] []; cbn; try done.
  all: first [ apply (cmp_le_trans (cmp := Z.compare)) | apply (cmp_lt_le_trans (cmp := Z.compare))
             | apply (cmp_le_lt_trans (cmp := Z.compare))
             | apply (cmp_le_trans (cmp := str_compare)) | apply (cmp_lt_le_trans (cmp := str_compare))
             | apply (cmp_le_lt_trans (cmp := str_compare)) ].
Qed.

#[export] Instance key_total_order : TotalCmp key_cmp.
Proof. apply lex_total, _. Qed.

#[export] Instance entry_total `{ArrowApi} : TotalCmp entry_cmp.
Proof.
  unfold entry_cmp. split; intros.
  - apply cmp_antisym.
  - by eapply (cmp_le_trans (cmp := key_cmp)).
  - by eapply (cmp_lt_le_trans (cmp := key_cmp)).
  - by eapply (cmp_le_lt_trans (cmp := key_cmp)).
Qed.

Section Facts.
Context {A : ArrowApi} {P : PgApi} {H : BinaryHeapApi} {HL : BinaryHeapLaws H}.
Context (debug_key : Key -> str) (cols : list nat).

Abbreviation BatchRow := (RecordBatch * nat)%type.

Definition rows_from (b : RecordBatch) (r : nat) : list BatchRow := map (pair b) (seq r (num_rows b - r)).
Definition stream_rows (bs : list RecordBatch) : list BatchRow := concat (map (fun b => rows_from b 0) bs).

(** The sort key of a row, and that it can be computed. *)
Definition row_key (x : BatchRow) : Key := match build_key x.1 x.2 cols with Ok k => k | Err _ => [] end.
Definition keyed (x : BatchRow) : Prop := build_key x.1 x.2 cols = Ok (row_key x).
Definition row_le (x y : BatchRow) : Prop := key_cmp (row_key x) (row_key y) <> Gt.

Definition head_entry (i : nat) (l : list BatchRow) : list HeapEntry :=
  match l with [] => [] | x :: _ => [mkHeapEntry (row_key x) i x.1 x.2] end.
Fixpoint heads (i : nat) (pending : list (list BatchRow)) : list HeapEntry :=
  match pending with [] => [] | l :: ls => head_entry i l ++ heads (S i) ls end.

(** [pending] is what is left of every source. *)
Record merge_inv (st : MultiFileSortedStream) (pending : list (list BatchRow)) : Prop := {
  inv_cols : sort_col_indices st = cols;
  inv_streams : length (streams st) = length pending;
  inv_names : length (blob_names st) = length pending;
  inv_heap : heap st ≡ₚ heads 0 pending;
  inv_rest : forall i x xs, pending !! i = Some (x :: xs) -> exists bs,
    streams st !! i = Some (Some (map Ok bs)) /\ (x.2 < num_rows x.1)%nat /\ xs = rows_from x.1 (S x.2) ++ stream_rows bs;
  inv_keyed : Forall (Forall keyed) pending;
}.

(** Rows taken one at a time from the fronts of the sources. *)
Inductive Interleave {T} : list (list T) -> list T -> Prop :=
| Idone ls : Forall (fun l => l = []) ls -> Interleave ls []
| Itake ls i x xs out : ls !! i = Some (x :: xs) -> Interleave (<[i := xs]> ls) out -> Interleave ls (x :: out).

Lemma rows_from_cons b r : (r < num_rows b)%nat -> rows_from b r = (b, r) :: rows_from b (S r).
Proof.
  intros Hr. unfold rows_from. replace (num_rows b - r)%nat with (S (num_rows b - S r)) by lia. done.
Qed.

Lemma rows_from_nil b r : (num_rows b <= r)%nat -> rows_from b r = [].
Proof. intros Hr. unfold rows_from. by replace (num_rows b - r)%nat with 0%nat by lia. Qed.

Lemma pull_ok bs :
  (pull (map Ok bs) = Ok None /\ stream_rows bs = []) \/
  exists b bs', pull (map Ok bs) = Ok (Some (b, map Ok bs')) /\ (0 < num_rows b)%nat /\
    stream_rows bs = rows_from b 0 ++ stream_rows bs'.
Proof.
  induction bs as [|b bs IH]; cbn [map pull]; [by left|].
  destruct (Nat.ltb_spec 0 (num_rows b)) as [Hb|Hb]; [right; by exists b, bs|].
  unfold stream_rows. cbn [map concat]. rewrite rows_from_nil by lia. apply IH.
Qed.

Lemma heads_split pending : forall k i l, pending !! i = Some l -> exists rest,
  heads k pending ≡ₚ head_entry (k + i) l ++ rest /\
  forall l', heads k (<[i := l']> pending) ≡ₚ head_entry (k + i) l' ++ rest.
Proof.
  induction pending as [|l0 ls IH]; intros k i l Hi; [done|]. destruct i as [|i]; cbn in Hi.
  - injection Hi as ->. exists (heads (S k) ls). rewrite Nat.add_0_r. done.
  - destruct (IH (S k) i l Hi) as (rest & H1 & H2). exists (head_entry k l0 ++ rest).
    replace (k + S i)%nat with (S k + i)%nat by lia. split; [|intros l'; specialize (H2 l')]; cbn; rewrite ?H1, ?H2;
      rewrite !app_assoc; f_equiv; apply Permutation_app_comm.
Qed.

Lemma heads_elem pending : forall k e, e ∈ heads k pending ->
  exists i x xs, pending !! i = Some (x :: xs) /\ e = mkHeapEntry (row_key x) (k + i) x.1 x.2.
Proof.
  induction pending as [|l ls IH]; intros k e; cbn; [by intros ?%elem_of_nil|]. intros [He|He]%elem_of_app.
  - destruct l as [|x xs]; cbn in He; [by apply elem_of_nil in He|]. apply list_elem_of_singleton in He as ->.
    exists 0%nat, x, xs. by rewrite Nat.add_0_r.
  - destruct (IH _ _ He) as (i & x & xs & Hi & ->). exists (S i), x, xs. split; [done|]. f_equal. lia.
Qed.

Lemma heads_nil pending k : heads k pending = [] -> Forall (fun l => l = []) pending.
Proof.
  revert k. induction pending as [|l ls IH]; intros k; cbn; [by constructor|]. intros [Hl Hr]%app_eq_nil.
  constructor; [by destruct l | by eapply IH].
Qed.

Lemma head_in pending i x xs : pending !! i = Some (x :: xs) -> mkHeapEntry (row_key x) i x.1 x.2 ∈ heads 0 pending.
Proof. intros Hi. destruct (heads_split pending 0 i _ Hi) as (rest & -> & _). cbn. by constructor. Qed.

(** The refill leaves the heap and streams of the shortened source. *)
Lemma refill_ok st pending i x xs h last :
  merge_inv st pending -> pending !! i = Some (x :: xs) ->
  heap st ≡ₚ mkHeapEntry (row_key x) i x.1 x.2 :: h ->
  exists st', refill (mkMerge (streams st) (blob_names st) (sort_col_indices st) h last) (mkHeapEntry (row_key x) i x.1 x.2) = Ok st' /\
    merge_inv st' (<[i := xs]> pending) /\ last_emitted st' = last /\ blob_names st' = blob_names st.
Proof.
  intros [Hc Hs Hn Hh Hr Hk] Hi Hpop.
  destruct (heads_split pending 0 i _ Hi) as (rest & H1 & H2). specialize (H2 xs). cbn [head_entry app Nat.add] in H1, H2.
  assert (h ≡ₚ rest) as Hrest by (apply (Permutation_cons_inv (a := mkHeapEntry (row_key x) i x.1 x.2)); by rewrite <- Hpop, Hh).
  destruct (Hr _ _ _ Hi) as (bs & Hst & Hx & Exs).
  assert (Forall keyed xs) as Hkx.
  { rewrite Forall_forall in Hk. specialize (Hk (x :: xs)). apply Forall_cons in Hk as [_ Hk]; [done|]. by eapply list_elem_of_lookup_2. }
  assert (forall ss', length ss' = length (streams st) ->
    (forall j y ys, j <> i -> pending !! j = Some (y :: ys) -> ss' !! j = streams st !! j) ->
    (forall y ys, xs = y :: ys -> exists bs, ss' !! i = Some (Some (map Ok bs)) /\ (y.2 < num_rows y.1)%nat /\
       ys = rows_from y.1 (S y.2) ++ stream_rows bs) ->
    merge_inv (mkMerge ss' (blob_names st) cols (h ++ head_entry i xs) last) (<[i := xs]> pending)) as Hfin.
  { intros ss' Hl Hother Hself. split; cbn; rewrite ?length_insert; try congruence.
    - by rewrite H2, Hrest, (Permutation_app_comm rest).
    - intros j y ys Hj. destruct (decide (j = i)) as [->|Hne].
      + rewrite list_lookup_insert_eq in Hj by (by eapply lookup_lt_Some). injection Hj as Hj. by apply Hself.
      + rewrite list_lookup_insert_ne in Hj by done. rewrite (Hother _ _ _ Hne Hj). by apply Hr.
    - apply Forall_insert; done. }
  unfold refill. cbn [streams blob_names sort_col_indices heap last_emitted row_in_batch source_idx batch]. rewrite Hc.
  destruct (Nat.ltb_spec (S x.2) (num_rows x.1)) as [Hlt|Hge].
  - rewrite (rows_from_cons _ _ Hlt) in Exs. assert (keyed (x.1, S x.2)) as Hky by (rewrite Exs in Hkx; by apply Forall_cons in Hkx as [? _]).
    unfold keyed in Hky. cbn [fst snd] in Hky. rewrite Hky. cbn [mbind result_bind]. eexists. split; [done|]. split; [|done].
    assert ([mkHeapEntry (row_key (x.1, S x.2)) i x.1 (S x.2)] = head_entry i xs) as -> by (by rewrite Exs).
    apply Hfin; [done|done|]. intros y ys E. rewrite Exs in E. injection E as <- <-. eauto.
  - rewrite Hst. cbn [ok_or mbind result_bind]. rewrite rows_from_nil in Exs by lia. cbn in Exs.
    destruct (pull_ok bs) as [[-> E]|(b & bs' & -> & Hb & E)]; cbn [mbind result_bind].
    + eexists. split; [done|]. split; [|done]. rewrite E in Exs. subst xs. rewrite <- (app_nil_r h).
      apply (Hfin (<[i := None]> (streams st))); [by rewrite length_insert | |done].
      intros j y ys Hne _. by rewrite list_lookup_insert_ne.
    + rewrite E, (rows_from_cons _ _ Hb) in Exs. assert (keyed (b, 0%nat)) as Hky by (rewrite Exs in Hkx; by apply Forall_cons in Hkx as [? _]).
      unfold keyed in Hky. cbn [fst snd] in Hky. rewrite Hky. cbn [mbind result_bind]. eexists. split; [done|]. split; [|done].
      assert ([mkHeapEntry (row_key (b, 0%nat)) i b 0] = head_entry i xs) as -> by (by rewrite Exs).
      apply (Hfin (<[i := Some (map Ok bs')]> (streams st))); [by rewrite length_insert | |].
      * intros j y ys Hne _. by rewrite list_lookup_insert_ne.
      * intros y ys Ey. rewrite Exs in Ey. injection Ey as <- <-. exists bs'.
        rewrite list_lookup_insert_eq by (by eapply lookup_lt_Some). done.
Qed.

(** One call: nothing is left, or the least head is emitted, unless it comes
    before the last row emitted. *)
Lemma mf_next_row_ok st pending :
  merge_inv st pending ->
  (Forall (fun l => l = []) pending /\ mf_next_row debug_key st = Ok (None, st)) \/
  exists i x xs, pending !! i = Some (x :: xs) /\
    (forall j y ys, pending !! j = Some (y :: ys) -> row_le x y) /\
    if match last_emitted st with Some p => bool_decide (key_cmp (row_key x) p = Lt) | None => false end
    then exists name p, blob_names st !! i = Some name /\ last_emitted st = Some p /\ key_cmp (row_key x) p = Lt /\
      mf_next_row debug_key st = Err (order_error debug_key name (row_key x) p)
    else exists st', mf_next_row debug_key st = Ok (Some x, st') /\ merge_inv st' (<[i := xs]> pending) /\
      last_emitted st' = Some (row_key x) /\ blob_names st' = blob_names st.
Proof.
  intros Hinv. pose proof Hinv as [Hc Hs Hn Hh Hr Hk]. unfold mf_next_row.
  destruct (heap_pop entry_cmp (heap st)) as [[e h]|] eqn:Hpop.
  - right. apply (heap_pop_least (BinaryHeapLaws := HL)) in Hpop as [Hperm Hleast]; [|apply _].
    assert (e ∈ heads 0 pending) as He by (rewrite <- Hh, Hperm; by constructor).
    apply heads_elem in He as (i & x & xs & Hi & ->). cbn [Nat.add] in *. exists i, x, xs. split; [done|]. split.
    { intros j y ys Hj. apply head_in in Hj. rewrite <- Hh, Hperm in Hj. apply elem_of_cons in Hj as [E|Hj].
      - injection E as E _ _ _. unfold row_le. rewrite E. rewrite (cmp_refl key_cmp). done.
      - apply Hleast in Hj. done. }
    destruct (refill_ok st pending i x xs h (Some (row_key x)) Hinv Hi Hperm) as (st' & Hst' & Hinv' & Hlast' & Hnames').
    assert (check_order debug_key st (mkHeapEntry (row_key x) i x.1 x.2) = Ok tt ->
      exists st', (_ ← check_order debug_key st (mkHeapEntry (row_key x) i x.1 x.2);
        st2 ← refill (mkMerge (streams st) (blob_names st) (sort_col_indices st) h (Some (row_key x))) (mkHeapEntry (row_key x) i x.1 x.2);
        Ok (Some (x.1, x.2), st2)) = Ok (Some x, st') /\ merge_inv st' (<[i := xs]> pending) /\
        last_emitted st' = Some (row_key x) /\ blob_names st' = blob_names st) as Hgo.
    { intros ->. cbn [mbind result_bind]. rewrite Hst'. cbn [mbind result_bind]. exists st'. by destruct x. }
    unfold check_order in *. cbn [key source_idx batch row_in_batch] in *. destruct (last_emitted st) as [p|]; [|by apply Hgo].
    destruct (key_cmp (row_key x) p) eqn:E; [by apply Hgo | | by apply Hgo]. cbn.
    destruct (lookup_lt_is_Some_2 (blob_names st) i) as [name Hname]; [rewrite Hn; by eapply lookup_lt_Some|].
    exists name, p. rewrite Hname. done.
  - left. apply (heap_pop_empty (BinaryHeapLaws := HL)) in Hpop. split; [|done]. rewrite Hpop in Hh. symmetry in Hh.
    apply Permutation_nil_r in Hh. by eapply heads_nil.
Qed.

Definition total_pending (pending : list (list BatchRow)) : nat := length (concat pending).

Lemma total_insert pending i (x : BatchRow) xs :
  pending !! i = Some (x :: xs) -> total_pending pending = S (total_pending (<[i := xs]> pending)).
Proof.
  unfold total_pending. revert i. induction pending as [|l ls IH]; intros [|i] Hi; try done; cbn in Hi.
  - injection Hi as ->. done.
  - change (length (l ++ concat ls) = S (length (l ++ concat (<[i := xs]> ls)))). rewrite !length_app, (IH _ Hi). lia.
Qed.

(** Only the source of the last row can have a smaller head. *)
Definition last_ok (pending : list (list BatchRow)) (prev : option (nat * BatchRow)) : Prop :=
  match prev with
  | None => True
  | Some (i0, z) => forall j y ys, j <> i0 -> pending !! j = Some (y :: ys) -> row_le z y
  end.

Definition before (prev : option (nat * BatchRow)) (i : nat) : list BatchRow :=
  match prev with Some (i0, z) => if decide (i0 = i) then [z] else [] | None => [] end.

Definition outcome (st : MultiFileSortedStream) (pending : list (list BatchRow)) (prev : option (nat * BatchRow))
    (r : FdwResult (list BatchRow)) : Prop :=
  match r with
  | Ok out => Interleave pending out /\ StronglySorted row_le (option_list (snd <$> prev) ++ out)
  | Err e => exists i l name k p, pending !! i = Some l /\ blob_names st !! i = Some name /\
      ~ StronglySorted row_le (before prev i ++ l) /\ e = order_error debug_key name k p
  end.

Lemma row_le_trans x y z : row_le x y -> row_le y z -> row_le x z.
Proof. unfold row_le. apply cmp_le_trans. Qed.

(** Emitting a row extends the outcome of the rest. *)
Lemma outcome_cons st st' pending prev i x xs r :
  pending !! i = Some (x :: xs) -> blob_names st' = blob_names st ->
  (forall j z, prev = Some (j, z) -> row_le z x) ->
  outcome st' (<[i := xs]> pending) (Some (i, x)) r -> outcome st pending prev (fmap (M := Result FdwError) (cons x) r).
Proof.
  intros Hi Hnames Hle. destruct r as [out|e]; cbn [outcome fmap result_fmap].
  - intros [Hint Hs]. split; [by econstructor|]. cbn in Hs. destruct prev as [[j z]|]; cbn; [|done].
    constructor; [done|]. specialize (Hle j z eq_refl). constructor; [done|].
    apply StronglySorted_inv in Hs as [_ Hs]. eapply Forall_impl; [exact Hs|]. intros y. by apply row_le_trans.
  - intros (j & l & name & k & p & Hj & Hname & Hs & ->). rewrite Hnames in Hname.
    assert (forall l1 l2, StronglySorted row_le (l1 ++ l2) -> StronglySorted row_le l2) as Hsuffix.
    { induction l1 as [|y l1 IH]; intros l2 Hl; [done|]. apply StronglySorted_inv in Hl as [Hl _]. by apply IH. }
    cbn [before] in Hs. destruct (decide (i = j)) as [<-|Hne].
    + rewrite list_lookup_insert_eq in Hj by (by eapply lookup_lt_Some). injection Hj as <-.
      exists i, (x :: xs), name, k, p. split; [done|]. split; [done|]. split; [|done]. intros Hl. apply Hs. by apply Hsuffix in Hl.
    + rewrite list_lookup_insert_ne in Hj by done. exists j, l, name, k, p. split; [done|]. split; [done|]. split; [|done].
      intros Hl. apply Hs. cbn. by eapply Hsuffix.
Qed.

Lemma drain_ok n : forall st pending prev,
  total_pending pending = n -> merge_inv st pending -> last_ok pending prev ->
  last_emitted st = (fun p => row_key p.2) <$> prev ->
  exists r, drain debug_key (S n) st = Some r /\ outcome st pending prev r.
Proof.
  induction n as [|n IH]; intros st pending prev Hn Hinv Hlast Hprev.
  all: cbn [drain]; destruct (mf_next_row_ok st pending Hinv) as [[Hnil ->]|(i & x & xs & Hi & Hleast & Hstep)].
  all: try (exists (Ok []); split; [done|]; split; [by constructor|]; destruct prev as [[i0 z]|]; cbn; repeat constructor).
  { rewrite (total_insert _ _ _ _ Hi) in Hn. lia. }
  assert (forall st', mf_next_row debug_key st = Ok (Some x, st') -> merge_inv st' (<[i := xs]> pending) ->
    last_emitted st' = Some (row_key x) -> blob_names st' = blob_names st ->
    (forall j z, prev = Some (j, z) -> row_le z x) ->
    exists r, drain debug_key (S (S n)) st = Some r /\ outcome st pending prev r) as Hgo.
  { intros st' E Hinv' Hlast' Hnames' Hle.
    destruct (IH st' (<[i := xs]> pending) (Some (i, x)) ltac:(rewrite (total_insert _ _ _ _ Hi) in Hn; lia) Hinv') as (r & Er & Hr); [|done|].
    { intros j y ys Hj Hjl. rewrite list_lookup_insert_ne in Hjl by done. by eapply Hleast. }
    eexists. split; [cbn [drain]; rewrite E; cbn [drain] in Er; rewrite Er; done|]. by eapply outcome_cons. }
  rewrite Hprev in Hstep. destruct prev as [[i0 z]|]; cbn in Hstep.
  - destruct (bool_decide_reflect (key_cmp (row_key x) (row_key z) = Lt)) as [Hlt|Hge].
    + destruct Hstep as (name & p & Hname & Ep & _ & ->). exists (Err (order_error debug_key name (row_key x) p)). split; [done|].
      exists i, (x :: xs), name, (row_key x), p. split; [done|]. split; [done|]. split; [|done].
      assert (key_cmp (row_key z) (row_key x) = Gt) as Hgt by (by rewrite (cmp_antisym (cmp := key_cmp)), Hlt).
      cbn. destruct (decide (i0 = i)) as [->|Hne]; cbn.
      * intros Hs. apply StronglySorted_inv in Hs as [_ Hs]. apply Forall_cons in Hs as [Hs _]. by apply Hs.
      * exfalso. apply (Hlast i x xs); [congruence | done | done].
    + destruct Hstep as (st' & E & Hinv' & Hlast' & Hnames'). apply (Hgo st' E Hinv' Hlast' Hnames').
      intros j z' [= <- <-]. unfold row_le. rewrite (cmp_antisym (cmp := key_cmp)). by destruct (key_cmp (row_key x) (row_key z)).
  - destruct Hstep as (st' & E & Hinv' & Hlast' & Hnames'). by apply (Hgo st').
Qed.

Lemma heads_app p1 : forall k p2, heads k (p1 ++ p2) = heads k p1 ++ heads (k + length p1) p2.
Proof.
  induction p1 as [|l ls IH]; intros k p2; cbn [app heads length]; [by rewrite Nat.add_0_r|].
  rewrite IH, app_assoc. by replace (S k + length ls)%nat with (k + S (length ls))%nat by lia.
Qed.

(** The loop of [MultiFileSortedStream::new]. *)
Lemma open_sources_ok bss : forall done ss,
  length ss = length done -> Forall (Forall keyed) (map stream_rows bss) ->
  (forall i x xs, done !! i = Some (x :: xs) -> exists bs,
    ss !! i = Some (Some (map Ok bs)) /\ (x.2 < num_rows x.1)%nat /\ xs = rows_from x.1 (S x.2) ++ stream_rows bs) ->
  exists ss', foldM (open_source cols) (heads 0 done, ss) (map (map Ok) bss) = Ok (heads 0 (done ++ map stream_rows bss), ss') /\
    length ss' = length (done ++ map stream_rows bss) /\
    forall i x xs, (done ++ map stream_rows bss) !! i = Some (x :: xs) -> exists bs,
      ss' !! i = Some (Some (map Ok bs)) /\ (x.2 < num_rows x.1)%nat /\ xs = rows_from x.1 (S x.2) ++ stream_rows bs.
Proof.
  induction bss as [|bs bss IH]; intros don ss Hl Hk Hrest; cbn [map foldM].
  - exists ss. rewrite app_nil_r. done.
  - cbn [map] in Hk. apply Forall_cons in Hk as [Hk Hks].
    assert (exists slot, open_source cols (heads 0 don, ss) (map Ok bs) = Ok (heads 0 (don ++ [stream_rows bs]), ss ++ [slot]) /\
      forall x xs, stream_rows bs = x :: xs -> exists bs', slot = Some (map Ok bs') /\ (x.2 < num_rows x.1)%nat /\
        xs = rows_from x.1 (S x.2) ++ stream_rows bs') as (slot & -> & Hslot).
    { unfold open_source. destruct (pull_ok bs) as [[-> E]|(b & bs' & -> & Hb & E)]; cbn [mbind result_bind].
      - exists (Some []). rewrite E, heads_app. cbn. rewrite app_nil_r. done.
      - rewrite (rows_from_cons _ _ Hb) in E. rewrite E in Hk. apply Forall_cons in Hk as [Hky _]. unfold keyed in Hky. cbn [fst snd] in Hky.
        rewrite Hky. cbn [mbind result_bind]. exists (Some (map Ok bs')). rewrite heads_app, E, Hl. split; [done|].
        intros x xs [= <- <-]. eauto. }
    cbn [mbind result_bind]. destruct (IH (don ++ [stream_rows bs]) (ss ++ [slot])) as (ss' & E & Hl' & Hr'); [by rewrite !length_app, Hl | done | |].
    + intros i x xs Hi. apply lookup_app_Some in Hi as [Hi|[Hge Hi]].
      * destruct (Hrest _ _ _ Hi) as (bs' & Hs & ?). exists bs'. split; [|done]. apply lookup_lt_Some in Hi. by rewrite lookup_app_l by lia.
      * assert (i = length don) as -> by (apply lookup_lt_Some in Hi; cbn in Hi; lia). rewrite Nat.sub_diag in Hi. cbn in Hi.
        injection Hi as Hi. destruct (Hslot _ _ Hi) as (bs' & -> & ?). exists bs'. split; [|done]. by rewrite lookup_app_r, Hl, Nat.sub_diag by lia.
    + exists ss'. rewrite <- (assoc_L (++)) in E, Hl', Hr'. done.
Qed.

Lemma merge_new_ok bss names :
  Z.of_nat (length bss) <= merge_cap -> length names = length bss -> Forall (Forall keyed) (map stream_rows bss) ->
  exists st, merge_new (map (map Ok) bss) names cols = Ok st /\ merge_inv st (map stream_rows bss) /\
    last_emitted st = None /\ blob_names st = names.
Proof.
  intros Hcap Hn Hk. unfold merge_new. rewrite length_map, Hn, Nat.eqb_refl.
  destruct (Z.ltb_spec merge_cap (Z.of_nat (length bss))); [lia|]. cbn [negb].
  destruct (open_sources_ok bss [] []) as (ss & E & Hl & Hr); [done|done|done|]. cbn [app heads] in *. rewrite E. cbn [mbind result_bind].
  eexists. split; [done|]. split; [|done]. by split; cbn; rewrite ?length_map in *.
Qed.

Lemma interleave_sublist {T} (ls : list (list T)) out : Interleave ls out -> forall i l, ls !! i = Some l -> l `sublist_of` out.
Proof.
  induction 1 as [ls Hls|ls j x xs out Hj _ IH]; intros i l Hi.
  - rewrite Forall_forall in Hls. rewrite (Hls l); [constructor|]. by eapply list_elem_of_lookup_2.
  - destruct (decide (i = j)) as [->|Hne].
    + rewrite Hj in Hi. injection Hi as <-. constructor. apply (IH j). rewrite list_lookup_insert_eq; [done|]. by eapply lookup_lt_Some.
    + constructor. apply (IH i). by rewrite list_lookup_insert_ne.
Qed.

Lemma sublist_sorted {T} (R : T -> T -> Prop) l out : l `sublist_of` out -> StronglySorted R out -> StronglySorted R l.
Proof.
  induction 1 as [|x l out Hsub IH|x l out Hsub IH]; intros Hs; [constructor| |]; apply StronglySorted_inv in Hs as [Hs Hx]; [|auto].
  constructor; [auto|]. rewrite Forall_forall in Hx |- *. intros y Hy. apply Hx. by eapply elem_of_sublist.
Qed.

(** C20: opening the merge over sources whose sort keys can be read succeeds,
    and draining it returns within one call more than there are rows.  Either
    it returns an interleaving of the sources in sorted order, and then every
    source was sorted, or it fails with the error that names a source that is
    not. *)
Theorem merge_complete bss names :
  Z.of_nat (length bss) <= merge_cap -> length names = length bss -> Forall (Forall keyed) (map stream_rows bss) ->
  exists st r, merge_new (map (map Ok) bss) names cols = Ok st /\
    drain debug_key (S (total_pending (map stream_rows bss))) st = Some r /\
    match r with
    | Ok out => Interleave (map stream_rows bss) out /\ StronglySorted row_le out /\
        Forall (fun bs => StronglySorted row_le (stream_rows bs)) bss
    | Err e => exists i bs name k p, bss !! i = Some bs /\ names !! i = Some name /\
        ~ StronglySorted row_le (stream_rows bs) /\ e = order_error debug_key name k p
    end.
Proof.
  intros Hcap Hn Hk. destruct (merge_new_ok bss names Hcap Hn Hk) as (st & Hst & Hinv & Hlast & Hnames).
  destruct (drain_ok _ st _ None eq_refl Hinv I Hlast) as (r & Hr & Hout).
  exists st, r. split; [done|]. split; [done|]. destruct r as [out|e].
  - destruct Hout as [Hint Hs]. cbn in Hs. split; [done|]. split; [done|]. apply Forall_forall. intros bs [i Hi]%list_elem_of_lookup.
    eapply sublist_sorted; [|exact Hs]. apply (interleave_sublist _ _ Hint i). by rewrite (list_lookup_fmap stream_rows), Hi.
  - destruct Hout as (i & l & name & k & p & Hi & Hname & Hs & ->). rewrite (list_lookup_fmap stream_rows) in Hi.
    destruct (bss !! i) as [bs|] eqn:E; [|done]. injection Hi as <-. rewrite Hnames in Hname. cbn in Hs.
    exists i, bs, name, k, p. done.
Qed.
End Facts.

(** ** A heap whose ties go to the oldest entry *)

Fixpoint ref_pop {T} (cmp : T -> T -> comparison) (h : list T) : option (T * list T) :=
  match h with
  | [] => None
  | x :: h' => match ref_pop cmp h' with
               | None => Some (x, [])
               | Some (y, r) => match cmp y x with Lt => Some (y, x :: r) | _ => Some (x, y :: r) end
               end
  end.

#[export] Instance ref_heap : BinaryHeapApi := { heap_pop := @ref_pop }.

#[export] Instance ref_heap_laws : BinaryHeapLaws ref_heap.
Proof.
  split; cbn.
  - intros T cmp [|x h]; cbn; [done|]. split; [|done]. destruct (ref_pop cmp h) as [[y r]|]; [|done]. by destruct (cmp y x).
  - intros T cmp Hcmp h. induction h as [|a h IH]; intros x h'; cbn; [done|].
    destruct (ref_pop cmp h) as [[y r]|] eqn:E.
    + destruct (IH _ _ eq_refl) as [Hp Hy]. destruct (cmp y a) eqn:Ea; intros [= <- <-].
      1,3: split; [by rewrite Hp|]; intros z [->|Hz]%elem_of_cons;
        [rewrite (cmp_antisym (cmp := cmp)), Ea; done
        | apply (cmp_le_trans (cmp := cmp) a y z); [rewrite (cmp_antisym (cmp := cmp)), Ea; done | auto]].
      split; [rewrite Hp; constructor|]. intros z [->|Hz]%elem_of_cons; [by rewrite Ea | auto].
    + assert (h = []) as -> by (destruct h as [|b h]; [done|]; cbn in E; destruct (ref_pop cmp h) as [[y r]|]; [|done]; by destruct (cmp y b)).
      intros [= <- <-]. split; [done|]. by intros z ?%elem_of_nil.
Qed.

Definition demo_ids (l : list Z) : RecordBatch (ArrowApi := ref_arrow) := [(Int64, map (fun z => Some (VI64 z)) l)].
Definition demo_sources : list (list (RecordBatch (ArrowApi := ref_arrow))) :=
  [[demo_ids [1; 4]; demo_ids []; demo_ids [9]]; [demo_ids [2; 3]]].

Definition demo_drains : bool :=
  match merge_new (map (map Ok) demo_sources) [lit "a"; lit "b"] [0%nat] with
  | Ok st => match drain (fun _ => []) 6 st with Some (Ok _) => true | _ => false end
  | Err _ => false
  end.

Lemma demo_drains_ok : demo_drains = true.
Proof. vm_compute. reflexivity. Qed.

Lemma merge_complete_witness :
  exists st out, merge_new (map (map Ok) demo_sources) [lit "a"; lit "b"] [0%nat] = Ok st /\
    drain (fun _ => []) 6 st = Some (Ok out) /\ StronglySorted (row_le [0%nat]) out.
Proof.
  destruct (merge_complete (fun _ => []) [0%nat] demo_sources [lit "a"; lit "b"])
    as (st & r & Hst & Hr & Hout); [vm_compute; discriminate | reflexivity | repeat constructor |].
  change (total_pending (map stream_rows demo_sources)) with 5%nat in Hr.
  exists st. destruct r as [out|e].
  - exists out. split; [exact Hst|]. split; [exact Hr | apply Hout].
  - exfalso. pose proof demo_drains_ok as Hd. unfold demo_drains in Hd. rewrite Hst, Hr in Hd. discriminate Hd.
Defined.
