(* ===== verification/Scan.v ===== *)
(** * [src/fdw/scan.rs], execution: from blobs to tuples.

    [next_row] drives a scan: rows of the current batch, batches of the
    current stream, blobs of the range producer, skipping blobs whose
    partition values do not parse.  [iterate_foreign_scan] turns a row into a
    slot and stamps the synthetic ctid, registering 65536-row chunks as it
    goes.  One turn of the loop is [turn]; [next_row] repeats it with fuel,
    and the theorems of [ScanFacts] show that fuel always suffices.

    The parquet crate's reader is the class [ParquetScanApi]; the shared
    cursor of a parallel scan is threaded through as [cursor]. *)

From S2P Require Import Prelude RustStr Redact Errors RowId Options Externals Kernel Convert BlobService Store Handoff Coordinator ParquetIO Modify Pushdown Partition MultiFile.
Local Open Scope Z_scope.

(** The stream builder over one blob, as far as the scan uses it. *)
Class ParquetScanApi {A : ArrowApi} := {
  ScanBuilder : Type;
  (** [ParquetRecordBatchStreamBuilder::new(client.open_blob(name))]. *)
  builder_new : str -> Result str ScanBuilder;
  builder_metadata : ScanBuilder -> list RowGroup;
  (** [parquet_to_arrow_schema] of the footer. *)
  builder_footer_schema : ScanBuilder -> option Schema;
  builder_schema : ScanBuilder -> Schema;
  (** [build()] after [with_row_groups], [with_projection], [with_row_filter];
      the stream is the list of its items. *)
  builder_build : ScanBuilder -> option (list nat) -> option (list nat) -> option (list Predicate) ->
    Result str (list (Result str RecordBatch));
}.

(** ** Range producers *)

(** [Box<dyn RangeProducer>].  A parallel one holds its copy of the blob list
    and a pointer to the shared cursor. *)
Inductive Ranges :=
| SequentialRanges (blobs : BlobList) (cursor : nat)
| ParallelRanges (blobs : BlobList).

(** [next_blob]: [shared] is the cursor in dynamic shared memory
    ([fetch_add] wraps at 64 bits). *)
Definition next_blob (r : Ranges) (shared : Z) : Ranges * Z * option (str * str) :=
  match r with
  | SequentialRanges blobs cursor =>
      let out := blobs !! cursor in
      (SequentialRanges blobs (match out with Some _ => S cursor | None => cursor end), shared, out)
  | ParallelRanges blobs => (r, as_u64 (shared + 1), blobs !! Z.to_nat shared)
  end.

(** ** The chunk table of the scan *)

Definition register_chunk_if_boundary (table : list BlobIdEntry) (cur_blob_base_id cur_row_in_blob : Z)
    : FdwResult (list BlobIdEntry) :=
  if cur_row_in_blob =? 0 then Ok table
  else if negb (cur_row_in_blob mod CHUNK_ROWS =? 0) then Ok table
  else
    let expected_entries := cur_blob_base_id + cur_row_in_blob / CHUNK_ROWS + 1 in
    if expected_entries <=? Z.of_nat (length table) then Ok table
    else
      base ← ok_or (table !! Z.to_nat cur_blob_base_id) (RustPanic "index out of bounds");
      Ok (table ++ [mkEntry (name base) cur_row_in_blob (etag base)]).

Section Scan.
Context {A : ArrowApi} {P : PgApi} {K : ComputeApi} {SA : ParquetScanApi} {H : BinaryHeapApi}.
Context (debug_key : Key -> str).

Abbreviation BatchStream := (list (Result str RecordBatch)).

Record ScanStateCore := mkCore {
  sc_client : AzureBlobClient;
  sc_blobs : BlobList;
  sc_pg_oids : list Z;
  sc_projection : option (list nat);
  sc_attno_map : list nat;
  sc_qual_filter : option (list PushedExpr);
  sc_table_opts : TableOptions;
  sc_partition_attnums : list nat;
  sc_partition_keys_decl : Declared;
  sc_storage_attno_to_parquet_idx : list (option nat) }.

(** [core] holds the fields no callback changes; [notices] are the messages
    sent to the client. *)
Record ScanState := mkScan {
  core : ScanStateCore;
  cur_blob : nat;
  cur_stream : option BatchStream;
  cur_batch : option RecordBatch;
  cur_row : nat;
  range_producer : Ranges;
  blob_id_table : list BlobIdEntry;
  cur_blob_base_id : Z;
  cur_row_in_blob : Z;
  partition_datums : list Datum;
  sorted_stream : option MultiFileSortedStream;
  notices : list str }.

Definition assemble_scan_state (c : ScanStateCore) (r : Ranges) : ScanState :=
  mkScan c 0 None None 0 r [] 0 0 [] None [].

(** ** Opening a blob *)

(** [PushedExprFilter::keep_row_groups]. *)
Definition keep_row_groups (exprs : list PushedExpr) (b : ScanBuilder) : FdwResult (option (list nat)) :=
  match exprs with
  | [] => Ok None
  | _ => match builder_footer_schema b with
         | None => Ok None
         | Some schema => ok_or (prune_row_groups (builder_metadata b) exprs schema) (RustPanic "entered unreachable code")
         end
  end.

(** The stream of the next blob: plain, or with pruning and a row filter. *)
Definition open_scan_stream (c : ScanStateCore) (blob : str) : FdwResult BatchStream :=
  b ← map_err Parquet (builder_new blob);
  match sc_qual_filter c with
  | None => map_err Parquet (builder_build b None (sc_projection c) None)
  | Some exprs =>
      keep ← keep_row_groups exprs b;
      map_err Parquet (builder_build b keep (sc_projection c) (build_row_filter exprs))
  end.

(** The partition values of a blob as datums; [inr] is the notice with which
    the blob is skipped. *)
Fixpoint cast_partitions (blob : str) (parsed : gmap str str) (decl : Declared) : FdwResult (list Datum + str) :=
  match decl with
  | [] => Ok (inl [])
  | (key, ty) :: decl' =>
      raw ← ok_or (parsed !! key) (RustPanic "partition_values_from_path validated presence");
      match parse_text_to_datum ty raw with
      | Err e => Ok (inr ("skipping blob '" ++ blob ++ "': partition cast failed for '" ++ key ++ "': " ++ display e))
      | Ok d => rest ← cast_partitions blob parsed decl';
                Ok (match rest with inl ds => inl (d :: ds) | inr msg => inr msg end)
      end
  end.

Definition blob_partition_datums (c : ScanStateCore) (blob : str) : FdwResult (list Datum + str) :=
  match partition_values_from_path blob (sc_partition_keys_decl c) with
  | Err e => Ok (inr ("skipping blob '" ++ blob ++ "': " ++ display e))
  | Ok parsed => cast_partitions blob parsed (sc_partition_keys_decl c)
  end.

(** ** One turn of the loop of [next_row] *)

Inductive Turn :=
| Continue (s : ScanState) (shared : Z)
| Return (s : ScanState) (shared : Z) (row : option (RecordBatch * nat))
| Fail (e : FdwError).

Definition of_result {T} (r : FdwResult T) (f : T -> Turn) : Turn :=
  match r with Ok a => f a | Err e => Fail e end.

(** Push the first chunk of the blob, open its stream. *)
Definition start_blob (s : ScanState) (r : Ranges) (shared : Z) (blob et : str) (datums : list Datum) : Turn :=
  of_result (open_scan_stream (core s) blob) (fun stream =>
    Continue (mkScan (core s) (cur_blob s) (Some stream) (cur_batch s) (cur_row s) r
                (blob_id_table s ++ [mkEntry blob 0 et]) (as_u32 (Z.of_nat (length (blob_id_table s)))) 0
                datums (sorted_stream s) (notices s)) shared).

Definition with_ranges (s : ScanState) (r : Ranges) (ns : list str) : ScanState :=
  mkScan (core s) (cur_blob s) (cur_stream s) (cur_batch s) (cur_row s) r (blob_id_table s) (cur_blob_base_id s)
    (cur_row_in_blob s) (partition_datums s) (sorted_stream s) (notices s ++ ns).

Definition turn (s : ScanState) (shared : Z) : Turn :=
  let from_stream (s : ScanState) : Turn :=
    match cur_stream s with
    | Some (Ok batch :: rest) =>
        Continue (mkScan (core s) (cur_blob s) (Some rest) (Some batch) (cur_row s) (range_producer s) (blob_id_table s)
                    (cur_blob_base_id s) (cur_row_in_blob s) (partition_datums s) (sorted_stream s) (notices s)) shared
    | Some (Err e :: _) => Fail (Parquet e)
    | Some [] =>
        Continue (mkScan (core s) (S (cur_blob s)) None (cur_batch s) (cur_row s) (range_producer s) (blob_id_table s)
                    (cur_blob_base_id s) (cur_row_in_blob s) (partition_datums s) (sorted_stream s) (notices s)) shared
    | None =>
        let '(r, shared, next) := next_blob (range_producer s) shared in
        match next with
        | None => Return (with_ranges s r []) shared None
        | Some (blob, et) =>
            match sc_partition_keys_decl (core s) with
            | [] => start_blob s r shared blob et (partition_datums s)
            | _ => of_result (blob_partition_datums (core s) blob) (fun res =>
                     match res with
                     | inr msg => Continue (with_ranges s r [msg]) shared
                     | inl datums => start_blob s r shared blob et datums
                     end)
            end
        end
    end in
  match cur_batch s with
  | Some batch =>
      if (cur_row s <? num_rows batch)%nat then
        Return (mkScan (core s) (cur_blob s) (cur_stream s) (Some batch) (S (cur_row s)) (range_producer s) (blob_id_table s)
                  (cur_blob_base_id s) (cur_row_in_blob s) (partition_datums s) (sorted_stream s) (notices s))
               shared (Some (batch, cur_row s))
      else from_stream (mkScan (core s) (cur_blob s) (cur_stream s) None 0 (range_producer s) (blob_id_table s)
                          (cur_blob_base_id s) (cur_row_in_blob s) (partition_datums s) (sorted_stream s) (notices s))
  | None => from_stream s
  end.

Abbreviation Next := (FdwResult (ScanState * Z * option (RecordBatch * nat))).

(** The loop; [None] is out of fuel. *)
Fixpoint next_row_loop (fuel : nat) (s : ScanState) (shared : Z) : option Next :=
  match fuel with
  | O => None
  | S fuel' =>
      match turn s shared with
      | Continue s' shared' => next_row_loop fuel' s' shared'
      | Return s' shared' row => Some (Ok (s', shared', row))
      | Fail e => Some (Err e)
      end
  end.

Definition set_sorted (s : ScanState) (sm : option MultiFileSortedStream) : ScanState :=
  mkScan (core s) (cur_blob s) (cur_stream s) (cur_batch s) (cur_row s) (range_producer s) (blob_id_table s)
    (cur_blob_base_id s) (cur_row_in_blob s) (partition_datums s) sm (notices s).

Definition next_row (fuel : nat) (s : ScanState) (shared : Z) : option Next :=
  match sorted_stream s with
  | Some sm => Some ('(row, sm') ← mf_next_row debug_key sm; Ok (set_sorted s (Some sm'), shared, row))
  | None => next_row_loop fuel s shared
  end.

(** ** [iterate_foreign_scan] *)

(** [values]/[isnull] of a slot ([None] is NULL) and the stamped ctid, absent
    when the callback leaves [tts_tid] at its default. *)
Record Slot := mkSlot { tts_values : list (option Datum); tts_tid : option ItemPointerData }.

Definition fill_column (c : ScanStateCore) (batch : RecordBatch) (row : nat) (vals : list (option Datum)) (kv : nat * nat)
    : FdwResult (list (option Datum)) :=
  let '(arrow_col, rel_col) := kv in
  let natts := length (sc_pg_oids c) in
  if (natts <=? rel_col)%nat then
    Err (SchemaMismatch ("attno_map[" ++ show_Z (Z.of_nat arrow_col) ++ "] = " ++ show_Z (Z.of_nat rel_col)
           ++ " >= natts " ++ show_Z (Z.of_nat natts)))
  else
    arr ← ok_or (batch_columns batch !! arrow_col) (RustPanic "index out of bounds");
    oid ← ok_or (sc_pg_oids c !! rel_col) (RustPanic "index out of bounds");
    x ← ok_or (array_cells arr !! row) (RustPanic "index out of bounds");
    d ← arrow_value_to_datum (array_type arr) x oid;
    Ok (<[rel_col := d]> vals).

Definition indexed {T} (l : list T) : list (nat * T) := combine (seq 0 (length l)) l.

(** Partition columns come from the path, after the arrow columns. *)
Definition inject_partition (natts : nat) (datums : list Datum) (vals : list (option Datum)) (ia : nat * nat)
    : list (option Datum) :=
  let '(i, attno) := ia in
  if (natts <=? attno)%nat then vals
  else match datums !! i with None => vals | Some d => <[attno := Some d]> vals end.

Definition fill_slot (c : ScanStateCore) (datums : list Datum) (batch : RecordBatch) (row : nat) (old : list (option Datum))
    : FdwResult (list (option Datum)) :=
  let natts := length (sc_pg_oids c) in
  let start := if (length (sc_attno_map c) <? natts)%nat then replicate natts None else old in
  vals ← foldM (fill_column c batch row) start (indexed (sc_attno_map c));
  Ok (foldl (inject_partition natts datums) vals (indexed (sc_partition_attnums c))).

(** What happens to a row [next_row] returned. *)
Definition emit_row (s : ScanState) (batch : RecordBatch) (row : nat) (old : list (option Datum)) : FdwResult (ScanState * Slot) :=
  let sorted_mode := match sorted_stream s with Some _ => true | None => false end in
  table ← (if sorted_mode then Ok (blob_id_table s)
           else register_chunk_if_boundary (blob_id_table s) (cur_blob_base_id s) (cur_row_in_blob s));
  vals ← fill_slot (core s) (partition_datums s) batch row old;
  let tid := if sorted_mode then None
             else Some (to_ctid (from_absolute (cur_blob_base_id s) (cur_row_in_blob s))) in
  Ok (mkScan (core s) (cur_blob s) (cur_stream s) (cur_batch s) (cur_row s) (range_producer s) table
        (cur_blob_base_id s) (as_u64 (cur_row_in_blob s + 1)) (partition_datums s) (sorted_stream s) (notices s),
      mkSlot vals tid).

Definition iterate_foreign_scan (fuel : nat) (s : ScanState) (shared : Z) (old : list (option Datum))
    : option (FdwResult (ScanState * Z * option Slot)) :=
  r ← next_row fuel s shared;
  Some ('(s', shared', row) ← (r : Next);
        match row with
        | None => Ok (s', shared', None)
        | Some (batch, row) => '(s'', slot) ← emit_row s' batch row old; Ok (s'', shared', Some slot)
        end).

(** The executor's loop: iterate until the slot comes back empty. *)
Fixpoint scan_all (fuel : nat) (s : ScanState) (shared : Z) (old : list (option Datum))
    : option (FdwResult (ScanState * Z * list Slot)) :=
  match fuel with
  | O => None
  | S fuel' =>
      r ← iterate_foreign_scan (S fuel') s shared old;
      match (r : FdwResult (ScanState * Z * option Slot)) with
      | Err e => Some (Err e)
      | Ok (s', shared', None) => Some (Ok (s', shared', []))
      | Ok (s', shared', Some slot) =>
          rest ← scan_all fuel' s' shared' old;
          Some ('(s'', shared'', slots) ← (rest : FdwResult (ScanState * Z * list Slot)); Ok (s'', shared'', slot :: slots))
      end
  end.

(** ** [re_scan_foreign_scan], [end_foreign_scan] *)

(** [rebuilt] is the outcome of [build_sorted_stream_if_active], called only
    when the scan is in sorted mode. *)
Definition re_scan_foreign_scan (relid : Z) (rebuilt : FdwResult (option MultiFileSortedStream)) (s : ScanState) : SM Handoff ScanState :=
  sm ← lift (match sorted_stream s with Some _ => rebuilt | None => Ok None end);
  _ ← modify_state (fun h => publish relid (sc_blobs (core s)) (discard relid h));
  mret (mkScan (core s) 0 None None 0 (SequentialRanges (sc_blobs (core s)) 0) [] 0 0 (partition_datums s) sm (notices s)).

Definition end_foreign_scan (relid : Z) : SM Handoff unit := modify_state (discard relid).
End Scan.
