(* ===== verification/ScanFacts.v ===== *)
(** * A sequential scan emits every row once, under the ctid the modify path
    resolves.

    [scans] is the big-step meaning of the executor's loop; it is shown to be
    what [scan_all] computes with enough fuel, so the theorems state that the
    scan returns, not only what it returns if it does. *)

From S2P Require Import Prelude RustStr Redact Errors RowId Options Externals Kernel Convert BlobService Store Handoff Coordinator ParquetIO Modify PlanFacts Pushdown Partition MultiFile MergeFacts Scan.
Local Open Scope Z_scope.

Section Facts.
Context {A : ArrowApi} {P : PgApi} {K : ComputeApi} {SA : ParquetScanApi} {H : BinaryHeapApi}.
Context (debug_key : Key -> str) (old : list (option Datum)).

Inductive scans : ScanState -> Z -> list Slot -> ScanState -> Z -> Prop :=
| scans_end s sh s' sh' : turn s sh = Return s' sh' None -> scans s sh [] s' sh'
| scans_turn s sh s1 sh1 l s' sh' : turn s sh = Continue s1 sh1 -> scans s1 sh1 l s' sh' -> scans s sh l s' sh'
| scans_row s sh s1 sh1 b r s2 slot l s' sh' :
    turn s sh = Return s1 sh1 (Some (b, r)) -> emit_row s1 b r old = Ok (s2, slot) ->
    scans s2 sh1 l s' sh' -> scans s sh (slot :: l) s' sh'.

Lemma next_row_loop_mono f g s sh r : next_row_loop f s sh = Some r -> (f <= g)%nat -> next_row_loop g s sh = Some r.
Proof.
  revert g s sh. induction f as [|f IH]; intros g s sh Hf Hg; [done|]. destruct g as [|g]; [lia|].
  cbn in Hf |- *. destruct (turn s sh); [|done|done]. apply IH; [done|lia].
Qed.

(** The sorted stream is no business of the loop. *)
Lemma turn_sorted s sh :
  match turn s sh with
  | Continue s' _ | Return s' _ _ => sorted_stream s' = sorted_stream s
  | Fail _ => True
  end.
Proof.
  unfold turn. destruct (cur_batch s) as [b|]; [destruct (_ <? _)%nat; [done|]|]; cbn [cur_stream range_producer core cur_batch cur_row].
  all: destruct (cur_stream s) as [[|[batch|e] rest]|]; try done.
  all: destruct (next_blob (range_producer s) sh) as [[r sh'] [[blob et]|]]; try done.
  all: destruct (sc_partition_keys_decl (core s)); unfold start_blob, of_result; cbn [core].
  all: repeat case_match; try done; cbn [sorted_stream] in *; by simplify_eq.
Qed.

Lemma emit_sorted s b r s' slot : emit_row s b r old = Ok (s', slot) -> sorted_stream s' = sorted_stream s.
Proof. unfold emit_row. intros Hs. inv_ok. by simplify_eq. Qed.

Lemma scan_all_step F s sh :
  sorted_stream s = None ->
  scan_all debug_key (S F) s sh old =
  r ← next_row_loop (S F) s sh;
  match r with
  | Err e => Some (Err e)
  | Ok (s', sh', None) => Some (Ok (s', sh', []))
  | Ok (s', sh', Some (b, row)) =>
      match emit_row s' b row old with
      | Err e => Some (Err e)
      | Ok (s2, slot) =>
          rest ← scan_all debug_key F s2 sh' old;
          Some ('(s'', sh'', slots) ← (rest : FdwResult (ScanState * Z * list Slot)); Ok (s'', sh'', slot :: slots))
      end
  end.
Proof.
  intros Hs. cbn [scan_all]. unfold iterate_foreign_scan, next_row. rewrite Hs.
  destruct (next_row_loop (S F) s sh) as [[[[s' sh'] [[b row]|]]|e]|]; try done.
  cbn [mbind option_bind result_bind]. by destruct (emit_row s' b row old) as [[s2 slot]|e].
Qed.

Lemma scans_scan_all s sh l s' sh' :
  scans s sh l s' sh' -> sorted_stream s = None -> exists N r, next_row_loop N s sh = Some r /\
    forall F, (N <= F)%nat -> scan_all debug_key F s sh old = Some (Ok (s', sh', l)).
Proof.
  induction 1 as [s sh s' sh' E|s sh s1 sh1 l s' sh' E _ IH|s sh s1 sh1 b r s2 slot l s' sh' E Ee _ IH]; intros Hs.
  - exists 1%nat, (Ok (s', sh', None)). split; [cbn; by rewrite E|]. intros F HF. destruct F as [|F]; [lia|].
    rewrite scan_all_step by done. cbn [next_row_loop]. rewrite E. done.
  - pose proof (turn_sorted s sh) as Ht. rewrite E, Hs in Ht. destruct (IH Ht) as (N & r & Hr & Hall).
    exists (S N), r. split; [cbn; by rewrite E|]. intros F HF. destruct F as [|F]; [lia|].
    rewrite <- (Hall (S F)) by lia. rewrite !scan_all_step by done.
    assert (next_row_loop (S F) s sh = next_row_loop F s1 sh1) as -> by (cbn; by rewrite E).
    by rewrite (next_row_loop_mono N F s1 sh1 r), (next_row_loop_mono N (S F) s1 sh1 r) by (done || lia).
  - pose proof (turn_sorted s sh) as Ht. rewrite E, Hs in Ht. pose proof (emit_sorted _ _ _ _ _ Ee) as Ht2. rewrite Ht in Ht2.
    destruct (IH Ht2) as (N & r' & Hr & Hall). exists (S N), (Ok (s1, sh1, Some (b, r))). split; [cbn; by rewrite E|].
    intros F HF. destruct F as [|F]; [lia|]. rewrite scan_all_step by done. cbn [next_row_loop]. rewrite E.
    cbn [mbind option_bind]. rewrite Ee, (Hall F) by lia. done.
Qed.

Lemma scans_same_turn s t sh l s' sh' : turn s sh = turn t sh -> scans t sh l s' sh' -> scans s sh l s' sh'.
Proof.
  intros E Ht. inversion Ht; subst; [eapply scans_end | eapply scans_turn | eapply scans_row]; rewrite ?E; eauto.
Qed.

(** ** The chunk table grows with the rows emitted *)

Lemma chunk_count_next k : 0 <= k ->
  chunk_count (k + 1) = if negb (k =? 0) && (k mod CHUNK_ROWS =? 0) then chunk_count k + 1 else chunk_count k.
Proof.
  intros Hk. unfold chunk_count. assert (0 < CHUNK_ROWS) by (unfold CHUNK_ROWS; lia).
  destruct (Z.eqb_spec k 0) as [->|Hk0]; [done|]. cbn [negb andb].
  destruct (Z.eqb_spec (k mod CHUNK_ROWS) 0) as [Hm|Hm]; unfold CHUNK_ROWS in *; Z.div_mod_to_equations; lia.
Qed.

Lemma blob_chunks_snoc nm et k :
  0 <= k -> k mod CHUNK_ROWS = 0 -> k <> 0 -> blob_chunks nm et (k + 1) = blob_chunks nm et k ++ [mkEntry nm k et].
Proof.
  intros Hk Hm Hk0. unfold blob_chunks. rewrite chunk_count_next by done.
  rewrite (proj2 (Z.eqb_neq _ _) Hk0), (proj2 (Z.eqb_eq _ _) Hm). cbn [negb andb].
  pose proof (chunk_count_pos k). rewrite seqZ_app by lia. rewrite map_app. f_equal.
  rewrite seqZ_cons by lia. cbn. do 2 f_equal.
  unfold chunk_count in *. unfold CHUNK_ROWS in *. Z.div_mod_to_equations. lia.
Qed.

Lemma register_ok pre nm et k :
  0 <= k -> register_chunk_if_boundary (pre ++ blob_chunks nm et k) (Z.of_nat (length pre)) k = Ok (pre ++ blob_chunks nm et (k + 1)).
Proof.
  intros Hk. unfold register_chunk_if_boundary. destruct (Z.eqb_spec k 0) as [->|Hk0]; [done|].
  destruct (Z.eqb_spec (k mod CHUNK_ROWS) 0) as [Hm|Hm]; cbn [negb].
  - assert (k / CHUNK_ROWS = chunk_count k) as Hq by (unfold chunk_count, CHUNK_ROWS in *; Z.div_mod_to_equations; lia).
    rewrite length_app, Nat2Z.inj_add, blob_chunks_length, Hq. destruct (Z.leb_spec (Z.of_nat (length pre) + chunk_count k + 1) (Z.of_nat (length pre) + chunk_count k)); [lia|].
    rewrite Nat2Z.id, lookup_app_r, Nat.sub_diag by lia. pose proof (chunk_count_pos k).
    pose proof (blob_chunks_lookup nm et k 0 ltac:(lia)) as E. change (Z.to_nat 0) with 0%nat in E. change (0 * CHUNK_ROWS) with 0 in E. rewrite E. cbn [ok_or mbind result_bind name etag].
    by rewrite (blob_chunks_snoc nm et k), (assoc_L (++)).
  - unfold blob_chunks. rewrite chunk_count_next by done. rewrite (proj2 (Z.eqb_neq (k mod CHUNK_ROWS) 0) Hm), andb_false_r. done.
Qed.

(** ** What a scan emits *)

Section Emission.
Context (c : ScanStateCore).

Definition slot_values (ds : list Datum) (x : RecordBatch * nat) : list (option Datum) :=
  match fill_slot c ds x.1 x.2 old with Ok v => v | Err _ => [] end.
Definition row_ok (ds : list Datum) (x : RecordBatch * nat) : Prop :=
  fill_slot c ds x.1 x.2 old = Ok (slot_values ds x).

(** The slots of the rows of a blob, the first being row [k] of the blob whose
    chunks start at [base]. *)
Fixpoint slots_from (ds : list Datum) (base k : Z) (rows : list (RecordBatch * nat)) : list Slot :=
  match rows with
  | [] => []
  | x :: rows' => mkSlot (slot_values ds x) (Some (to_ctid (from_absolute base k))) :: slots_from ds base (k + 1) rows'
  end.

Lemma slots_from_app ds base r1 : forall k r2,
  slots_from ds base k (r1 ++ r2) = slots_from ds base k r1 ++ slots_from ds base (k + Z.of_nat (length r1)) r2.
Proof.
  induction r1 as [|x r1 IH]; intros k r2; cbn [app slots_from length]; [by rewrite Z.add_0_r|].
  rewrite IH. by replace (k + 1 + Z.of_nat (length r1)) with (k + Z.of_nat (S (length r1))) by lia.
Qed.

Lemma slots_from_lookup ds base rows : forall k i x, rows !! i = Some x ->
  slots_from ds base k rows !! i = Some (mkSlot (slot_values ds x) (Some (to_ctid (from_absolute base (k + Z.of_nat i))))).
Proof.
  induction rows as [|y rows IH]; intros k [|i] x Hi; cbn in Hi |- *; try done.
  - injection Hi as ->. by rewrite Z.add_0_r.
  - rewrite (IH _ _ _ Hi). by replace (k + 1 + Z.of_nat i) with (k + Z.of_nat (S i)) by lia.
Qed.

Lemma slots_from_length ds base k rows : length (slots_from ds base k rows) = length rows.
Proof. revert k. induction rows; intros k; cbn; auto. Qed.

(** Everything but the stream position, in a plain scan. *)
Definition plain (cb : nat) (stream : option (list (Result str RecordBatch))) (b : option RecordBatch) (r : nat) (rp : Ranges)
    (table : list BlobIdEntry) (base k : Z) (ds : list Datum) (ns : list str) : ScanState :=
  mkScan c cb stream b r rp table base k ds None ns.

Lemma emit_plain cb stream b r r' rp pre nm et k ds ns :
  0 <= k < u64_max -> row_ok ds (b, r) ->
  emit_row (plain cb stream (Some b) r' rp (pre ++ blob_chunks nm et k) (Z.of_nat (length pre)) k ds ns) b r old =
  Ok (plain cb stream (Some b) r' rp (pre ++ blob_chunks nm et (k + 1)) (Z.of_nat (length pre)) (k + 1) ds ns,
      mkSlot (slot_values ds (b, r)) (Some (to_ctid (from_absolute (Z.of_nat (length pre)) k)))).
Proof.
  intros Hk Hrow. unfold emit_row, plain. cbn [sorted_stream blob_id_table cur_blob_base_id cur_row_in_blob core partition_datums].
  rewrite register_ok by lia. cbn [mbind result_bind]. unfold row_ok in Hrow. cbn [fst snd] in Hrow. rewrite Hrow. cbn [mbind result_bind].
  assert (as_u64 (k + 1) = k + 1) as -> by int_lia. done.
Qed.

Lemma drain_rows m : forall cb stream b r rp pre nm et k ds ns sh l s' sh',
  m = (num_rows b - r)%nat -> 0 <= k -> k + Z.of_nat m <= u64_max -> Forall (row_ok ds) (rows_from b r) ->
  scans (plain cb stream None 0 rp (pre ++ blob_chunks nm et (k + Z.of_nat m)) (Z.of_nat (length pre)) (k + Z.of_nat m) ds ns) sh l s' sh' ->
  scans (plain cb stream (Some b) r rp (pre ++ blob_chunks nm et k) (Z.of_nat (length pre)) k ds ns) sh
    (slots_from ds (Z.of_nat (length pre)) k (rows_from b r) ++ l) s' sh'.
Proof.
  induction m as [|m IH]; intros cb stream b r rp pre nm et k ds ns sh l s' sh' Hm Hk Hmax Hok Hrest.
  - rewrite rows_from_nil by lia. cbn. rewrite Z.add_0_r in Hrest. eapply scans_same_turn; [|exact Hrest].
    unfold turn, plain. cbn [cur_batch cur_row]. by destruct (Nat.ltb_spec r (num_rows b)); [lia|].
  - rewrite rows_from_cons in Hok |- * by lia. apply Forall_cons in Hok as [Hr Hok]. cbn [slots_from app].
    eapply (scans_row _ _ (plain cb stream (Some b) (S r) rp (pre ++ blob_chunks nm et k) (Z.of_nat (length pre)) k ds ns) sh b r).
    + unfold turn, plain. cbn [cur_batch cur_row]. by destruct (Nat.ltb_spec r (num_rows b)); [|lia].
    + apply emit_plain; [lia|done].
    + apply IH; [lia|lia|lia|done|]. by replace (k + 1 + Z.of_nat m) with (k + Z.of_nat (S m)) by lia.
Qed.

Lemma drain_stream bs : forall cb rp pre nm et k ds ns sh l s' sh',
  0 <= k -> k + Z.of_nat (length (stream_rows bs)) <= u64_max -> Forall (row_ok ds) (stream_rows bs) ->
  let k' := k + Z.of_nat (length (stream_rows bs)) in
  scans (plain (S cb) None None 0 rp (pre ++ blob_chunks nm et k') (Z.of_nat (length pre)) k' ds ns) sh l s' sh' ->
  scans (plain cb (Some (map Ok bs)) None 0 rp (pre ++ blob_chunks nm et k) (Z.of_nat (length pre)) k ds ns) sh
    (slots_from ds (Z.of_nat (length pre)) k (stream_rows bs) ++ l) s' sh'.
Proof.
  induction bs as [|b bs IH]; intros cb rp pre nm et k ds ns sh l s' sh' Hk Hmax Hok k' Hrest.
  - cbn in k', Hrest |- *. subst k'. rewrite Z.add_0_r in Hrest. eapply scans_turn; [|exact Hrest]. done.
  - assert (stream_rows (b :: bs) = rows_from b 0 ++ stream_rows bs) as E by done.
    assert (length (rows_from b 0) = num_rows b) as Hlen by (unfold rows_from; rewrite length_map, length_seq; lia).
    subst k'. rewrite E in *. rewrite length_app, Hlen in Hmax, Hrest. apply Forall_app in Hok as [Hb Hbs].
    rewrite slots_from_app, Hlen, <- app_assoc.
    eapply (scans_turn _ _ (plain cb (Some (map Ok bs)) (Some b) 0 rp (pre ++ blob_chunks nm et k) (Z.of_nat (length pre)) k ds ns) sh); [done|].
    apply (drain_rows (num_rows b)); [lia|lia|lia|done|].
    apply IH; [lia|lia|done|]. by replace (k + Z.of_nat (num_rows b) + Z.of_nat (length (stream_rows bs)))
      with (k + Z.of_nat (num_rows b + length (stream_rows bs))) by lia.
Qed.

(** What becomes of a listed blob. *)
Inductive BlobScan := Skipped (msg : str) | Scanned (ds : list Datum) (bs : list RecordBatch).

Definition blob_scan_ok (b : (str * str) * BlobScan) : Prop :=
  match b.2 with
  | Skipped msg => sc_partition_keys_decl c <> [] /\ blob_partition_datums c b.1.1 = Ok (inr msg)
  | Scanned ds bs =>
      (if bool_decide (sc_partition_keys_decl c = []) then ds = [] else blob_partition_datums c b.1.1 = Ok (inl ds)) /\
      open_scan_stream c b.1.1 = Ok (map Ok bs) /\ Forall (row_ok ds) (stream_rows bs) /\
      Z.of_nat (length (stream_rows bs)) <= u64_max
  end.

(** The slots a scan of the blobs emits and the chunk table it builds, from
    the table so far. *)
Fixpoint scan_spec (table : list BlobIdEntry) (l : list ((str * str) * BlobScan)) : list Slot * list BlobIdEntry :=
  match l with
  | [] => ([], table)
  | (_, Skipped _) :: l' => scan_spec table l'
  | ((nm, et), Scanned ds bs) :: l' =>
      let rows := stream_rows bs in
      let '(slots, table') := scan_spec (table ++ blob_chunks nm et (Z.of_nat (length rows))) l' in
      (slots_from ds (Z.of_nat (length table)) 0 rows ++ slots, table')
  end.

Lemma scan_spec_table l : forall table, exists more, (scan_spec table l).2 = table ++ more.
Proof.
  induction l as [|[[nm et] [msg|ds bs]] l IH]; intros table; cbn; [exists []; by rewrite app_nil_r | apply IH |].
  destruct (IH (table ++ blob_chunks nm et (Z.of_nat (length (stream_rows bs))))) as [more E].
  destruct (scan_spec _ l) as [slots table']. cbn in E |- *. rewrite E, <- (assoc_L (++)). eauto.
Qed.

Lemma scans_blobs l : forall cur cb table base k ds ns sh bl,
  drop cur bl = map fst l -> Forall blob_scan_ok l ->
  (sc_partition_keys_decl c = [] -> ds = []) -> Z.of_nat (length (scan_spec table l).2) <= u32_max ->
  exists s', scans (plain cb None None 0 (SequentialRanges bl cur) table base k ds ns) sh (scan_spec table l).1 s' sh /\
    blob_id_table s' = (scan_spec table l).2.
Proof.
  induction l as [|[[nm et] o] l IH]; intros cur cb table base k ds ns sh bl Hbl Hok Hds Hmax.
  - assert (bl !! cur = None) as E.
    { apply lookup_ge_None. cbn in Hbl. apply (f_equal length) in Hbl. rewrite length_drop in Hbl. cbn in Hbl. lia. }
    eexists. split; [apply scans_end|].
    + unfold turn, plain. cbn [cur_batch cur_stream range_producer next_blob]. by rewrite E.
    + done.
  - cbn [map fst] in Hbl. assert (bl !! cur = Some (nm, et)) as E.
    { pose proof (lookup_drop bl cur 0) as Hl. rewrite Hbl, Nat.add_0_r in Hl. by symmetry. }
    assert (drop (S cur) bl = map fst l) as Hbl'.
    { pose proof (drop_drop bl 1 cur) as Hd. rewrite Hbl, Nat.add_1_r in Hd. cbn in Hd. by symmetry. }
    apply Forall_cons in Hok as [Hb Hok]. destruct o as [msg|ds' bs]; cbn [blob_scan_ok fst snd] in Hb.
    + destruct Hb as [Hdecl Hpart]. cbn [scan_spec] in *.
      destruct (IH (S cur) cb table base k ds (ns ++ [msg]) sh bl Hbl' Hok Hds Hmax) as (s' & Hs & Ht).
      exists s'. split; [|done]. eapply scans_turn; [|exact Hs]. unfold turn, plain.
      cbn [cur_batch cur_stream range_producer next_blob core]. rewrite E. cbn zeta.
      destruct (sc_partition_keys_decl c) eqn:Ed; [done|]. rewrite Hpart. done.
    + destruct Hb as (Hdat & Hopen & Hrows & Hn). cbn [scan_spec] in *.
      set (n := Z.of_nat (length (stream_rows bs))) in *.
      assert (Hds' : sc_partition_keys_decl c = [] -> ds' = []) by (intros Ed; by rewrite Ed in Hdat).
      assert (as_u32 (Z.of_nat (length table)) = Z.of_nat (length table)) as Hbase.
      { apply as_u32_id. destruct (scan_spec_table l (table ++ blob_chunks nm et n)) as [more Em].
        destruct (scan_spec _ l). cbn [fst snd] in *. rewrite Em, !length_app in Hmax. unfold is_u32. lia. }
      destruct (IH (S cur) (S cb) (table ++ blob_chunks nm et n) (Z.of_nat (length table)) n ds' ns sh bl Hbl' Hok Hds') as (s' & Hs & Ht).
      { by destruct (scan_spec _ l). }
      destruct (scan_spec (table ++ blob_chunks nm et n) l) as [slots table']. cbn [fst snd] in *.
      exists s'. split; [|done].
      eapply (scans_turn _ _ (plain cb (Some (map Ok bs)) None 0 (SequentialRanges bl (S cur)) (table ++ blob_chunks nm et 0)
                                (Z.of_nat (length table)) 0 ds' ns) sh).
      * unfold turn, plain. cbn [cur_batch cur_stream range_producer next_blob core]. rewrite E. cbn zeta.
        unfold start_blob. cbn [core cur_blob cur_batch cur_row blob_id_table partition_datums sorted_stream notices].
        destruct (sc_partition_keys_decl c) as [|d decl] eqn:Ed; cbn in Hdat.
        -- rewrite Hopen, Hbase, Hds by done. rewrite Hdat. done.
        -- rewrite Hdat. cbn [of_result]. rewrite Hopen, Hbase. done.
      * apply drain_stream; [lia|lia|done|]. exact Hs.
Qed.
End Emission.
End Facts.
