(* ===== verification/ScanClaims.v ===== *)
(** * The scan and the modify path agree on ctids, unless rows are filtered.

    The chunk table a plain scan builds is the one [build_plan] computes from
    the footers, so every ctid it stamps resolves to the row it came from.  A
    row filter or row-group pruning breaks this: the scan numbers the rows it
    emits, the modify path the rows of the file. *)

From S2P Require Import Prelude RustStr Redact Errors RowId Options Externals Kernel Convert BlobService Store Handoff Coordinator ParquetIO Modify PlanFacts Pushdown PushdownFacts RowFilter Partition MultiFile MergeFacts Scan ScanFacts.
Local Open Scope Z_scope.

Section Claims.
Context {A : ArrowApi} {P : PgApi} {K : ComputeApi} {SA : ParquetScanApi} {H : BinaryHeapApi} {Rr : RoaringApi}.
Context (debug_key : Key -> str) (old : list (option Datum)) (c : ScanStateCore).

Lemma scan_runs l sh :
  Forall (blob_scan_ok old c) l -> Z.of_nat (length (scan_spec old c [] l).2) <= u32_max ->
  exists N s', blob_id_table s' = (scan_spec old c [] l).2 /\ forall F, (N <= F)%nat ->
    scan_all debug_key F (assemble_scan_state c (SequentialRanges (map fst l) 0)) sh old = Some (Ok (s', sh, (scan_spec old c [] l).1)).
Proof.
  intros Hok Hmax.
  destruct (scans_blobs old c l 0 0 [] 0 0 [] [] sh (map fst l) eq_refl Hok (fun _ => eq_refl) Hmax) as (s' & Hs & Ht).
  destruct (scans_scan_all debug_key old _ _ _ _ _ Hs eq_refl) as (N & r & _ & Hall).
  exists N, s'. split; [done | exact Hall].
Qed.

(** C13: a sequential scan terminates and emits, blob after blob in listing
    order, one slot for every row of every blob whose partition values parse,
    with that row's values and consecutive row numbers. *)
Theorem scan_emits_every_row l sh :
  Forall (blob_scan_ok old c) l -> Z.of_nat (length (scan_spec old c [] l).2) <= u32_max ->
  exists N s', forall F, (N <= F)%nat ->
    scan_all debug_key F (assemble_scan_state c (SequentialRanges (map fst l) 0)) sh old = Some (Ok (s', sh, (scan_spec old c [] l).1)).
Proof. intros Hok Hmax. destruct (scan_runs l sh Hok Hmax) as (N & s' & _ & Hall). eauto. Qed.

(** ** Against the plan *)

Section Plan.
Context (nr : str -> FdwResult Z) (plan : ModifyPlan).

(** No blob is skipped, and a footer counts the rows of its stream. *)
Definition full_scan (b : (str * str) * BlobScan) : Prop :=
  match b.2 with
  | Skipped _ => False
  | Scanned _ bs => blob_row_count nr b.1.1 = Ok (Z.of_nat (length (stream_rows bs)))
  end.

Lemma spec_table l : forall table, Forall full_scan l ->
  (scan_spec old c table l).2 = table ++ concat (map (chunks_of nr) (map fst l)).
Proof.
  induction l as [|[[nm et] [msg|ds bs]] l IH]; intros table HF; cbn [scan_spec map concat]; [by rewrite app_nil_r| |];
    apply Forall_cons in HF as [Hf HF]; cbn in Hf; [done|].
  specialize (IH (table ++ blob_chunks nm et (Z.of_nat (length (stream_rows bs)))) HF).
  destruct (scan_spec _ _ _ l) as [slots table']. cbn [fst snd] in *. rewrite IH, <- (assoc_L (++)).
  unfold chunks_of at 2. cbn [fst snd]. by rewrite Hf.
Qed.

(** The slot of row [k] of the [j]-th blob. *)
Lemma spec_slot l : forall table j nm et ds bs k x, Forall full_scan l ->
  l !! j = Some ((nm, et), Scanned ds bs) -> stream_rows bs !! k = Some x ->
  mkSlot (slot_values old c ds x)
    (Some (to_ctid (from_absolute (Z.of_nat (length table + base_id_of nr (map fst l) j)) (Z.of_nat k))))
  ∈ (scan_spec old c table l).1.
Proof.
  induction l as [|[[nm' et'] [msg|ds' bs']] l IH]; intros table j nm et ds bs k x HF Hj Hk; [done| |];
    apply Forall_cons in HF as [Hf HF]; cbn in Hf; [done|]. cbn [scan_spec].
  specialize (IH (table ++ blob_chunks nm' et' (Z.of_nat (length (stream_rows bs'))))).
  destruct (scan_spec _ _ _ l) as [slots table'] eqn:E. cbn [fst snd] in *. apply elem_of_app. destruct j as [|j]; cbn in Hj.
  - injection Hj as -> -> -> ->. left. unfold base_id_of. cbn. rewrite Nat.add_0_r.
    apply (list_elem_of_lookup_2 _ k). rewrite (slots_from_lookup old c ds _ _ 0 k x Hk). done.
  - right. specialize (IH j nm et ds bs k x HF Hj Hk). rewrite length_app in IH.
    unfold base_id_of in *. cbn [map take concat]. rewrite length_app. unfold chunks_of at 1. cbn [fst snd]. rewrite Hf, Nat.add_assoc. exact IH.
Qed.

(** C12: a scan that reads every blob in full builds exactly the chunk table
    the modify plan computes from the footers, and row [k] of the [j]-th blob
    is emitted under a ctid that the plan resolves to that blob and to row
    [k]. *)
Theorem scan_refines_plan l sh :
  Forall (blob_scan_ok old c) l -> Forall full_scan l -> NoDup (map fst (map fst l)) ->
  build_blob_table nr (map fst l) = Ok (blob_table plan) -> Z.of_nat (length (blob_table plan)) <= u32_max ->
  exists N s' slots, (forall F, (N <= F)%nat ->
      scan_all debug_key F (assemble_scan_state c (SequentialRanges (map fst l) 0)) sh old = Some (Ok (s', sh, slots))) /\
    blob_id_table s' = blob_table plan /\
    forall j nm et ds bs k x, l !! j = Some ((nm, et), Scanned ds bs) -> stream_rows bs !! k = Some x ->
      exists tid base, mkSlot (slot_values old c ds x) (Some tid) ∈ slots /\
        resolve_to_source plan (from_ctid tid) = Ok (base, Z.of_nat k) /\
        blob_table plan !! Z.to_nat base = Some (mkEntry nm 0 et).
Proof.
  intros Hok Hfull Hnd Hplan Hmax.
  assert ((scan_spec old c [] l).2 = blob_table plan) as Htab.
  { rewrite (spec_table l [] Hfull). by apply build_blob_table_from in Hplan as [-> _]. }
  destruct (scan_runs l sh Hok) as (N & s' & Hs' & Hall); [by rewrite Htab|].
  exists N, s', (scan_spec old c [] l).1. split; [done|]. split; [by rewrite Hs'|].
  intros j nm et ds bs k x Hj Hk.
  exists (to_ctid (from_absolute (Z.of_nat (base_id_of nr (map fst l) j)) (Z.of_nat k))), (Z.of_nat (base_id_of nr (map fst l) j)).
  split; [by apply (spec_slot l [] j nm et ds bs k x)|].
  assert (map fst l !! j = Some (nm, et)) as Hbj by (by rewrite (list_lookup_fmap fst), Hj).
  assert (full_scan ((nm, et), Scanned ds bs)) as Hf by (rewrite Forall_lookup in Hfull; by eapply Hfull).
  pose proof (lookup_lt_Some _ _ _ Hk) as Hlt.
  destruct (resolve_row nr plan (map fst l) j nm et (Z.of_nat (length (stream_rows bs))) (Z.of_nat k)) as [Hres Hbase]; try done; [lia|].
  rewrite ctid_roundtrip; [done|]. apply from_absolute_wf; [|lia].
  apply lookup_lt_Some in Hbase. unfold is_u32. lia.
Qed.
End Plan.
End Claims.

(** ** A concrete reader: files of int8 batches, the filter applied per batch *)

Definition ref_predicates (preds : list (Predicate (A := ref_arrow))) (b : list RefArray) : Result str (list RefArray) :=
  foldM (fun b p => m ← run p b; filter_record_batch (ArrowApi := ref_arrow) b (map (fun o => bool_decide (o = Some true)) m)) b preds.

(** One file, [f.parquet], with the ids 1, 2 and 3. *)
Definition demo_file : list (RecordBatch (ArrowApi := ref_arrow)) := [demo_ids [1; 2; 3]].

Definition ref_scan : ParquetScanApi (A := ref_arrow) :=
  @Build_ParquetScanApi ref_arrow (list (list RefArray)) (fun _ => Ok demo_file) (fun _ => []) (fun _ => None) (fun _ => [])
    (fun bs _ _ f => match f with
                     | None => Ok (map Ok bs)
                     | Some preds => Ok (map (ref_predicates preds) bs)
                     end).

Definition demo_core (filter : option (list PushedExpr)) : ScanStateCore :=
  mkCore demo_client [(lit "f.parquet", lit "e1")] [INT8OID] (Some [0%nat]) [0%nat] filter
    (mkTableOptions "c" "f.parquet" Snappy None [] [] [] false) [] [] [Some 0%nat].

Definition one_plan : ModifyPlan (A := ref_arrow) (R := ref_roaring) :=
  mkPlan (blob_chunks "f.parquet" "e1" 3) ∅ [mkField "id" Int64 true] [INT8OID] [] demo_client Snappy true 2 0.

Definition no_debug : Key -> str := fun _ => [].
Definition three_rows : str -> FdwResult Z := fun _ => Ok 3.

Definition demo_l (rows : list Z) : list ((str * str) * BlobScan) := [((lit "f.parquet", lit "e1"), Scanned [] [demo_ids rows])].

Lemma demo_scan_ok filter rows :
  open_scan_stream (SA := ref_scan) (demo_core filter) "f.parquet" = Ok [Ok (demo_ids rows)] ->
  forallb (fun x => is_ok (fill_slot (P := ref_pg) (demo_core filter) [] x.1 x.2 [None])) (stream_rows [demo_ids rows]) = true ->
  (length rows < 100)%nat ->
  Forall (blob_scan_ok (SA := ref_scan) [None] (demo_core filter)) (demo_l rows).
Proof.
  intros Ho Hf Hn. repeat constructor; cbn [fst snd]; try done.
  - rewrite forallb_forall in Hf. apply Forall_forall. intros x Hx%list_elem_of_In%Hf. unfold row_ok, slot_values. by destruct (fill_slot _ _ _ _ _).
  - unfold stream_rows, rows_from. cbn [map concat]. rewrite app_nil_r, length_map, length_seq. cbn. rewrite length_map. unfold u64_max. lia.
Qed.

Lemma scan_emits_every_row_witness :
  exists N s', forall F, (N <= F)%nat ->
    scan_all (SA := ref_scan) no_debug F (assemble_scan_state (demo_core None) (SequentialRanges (map fst (demo_l [1; 2; 3])) 0)) 0 [None]
    = Some (Ok (s', 0, (scan_spec [None] (demo_core None) [] (demo_l [1; 2; 3])).1)).
Proof.
  apply (scan_emits_every_row (SA := ref_scan) no_debug [None] (demo_core None)).
  - apply demo_scan_ok; [reflexivity | vm_compute; reflexivity | cbn; lia].
  - vm_compute. discriminate.
Defined.

Lemma scan_refines_plan_witness :
  exists N s' slots, (forall F, (N <= F)%nat ->
      scan_all (SA := ref_scan) no_debug F (assemble_scan_state (demo_core None) (SequentialRanges (map fst (demo_l [1; 2; 3])) 0)) 0 [None]
      = Some (Ok (s', 0, slots))) /\ blob_id_table s' = blob_table one_plan.
Proof.
  destruct (scan_refines_plan (SA := ref_scan) no_debug [None] (demo_core None) three_rows one_plan (demo_l [1; 2; 3]) 0)
    as (N & s' & slots & Hall & Ht & _).
  - apply demo_scan_ok; [reflexivity | vm_compute; reflexivity | cbn; lia].
  - repeat constructor.
  - repeat constructor. apply not_elem_of_nil.
  - vm_compute. reflexivity.
  - vm_compute. discriminate.
  - exists N, s', slots. split; [exact Hall | exact Ht].
Defined.
