(* ===== verification/EndToEnd.v ===== *)
(** * From the scan to the commit: UPDATE and DELETE with a WHERE clause.

    The executor runs the scan, keeps the tuples the clause accepts and calls
    the row callback with the ctid of each.  Put together with the rewrite and
    the commit: what is left in the container are exactly the rows the clause
    refuses, or all rows with exactly the accepted ones changed. *)

From S2P Require Import Prelude RustStr Redact Errors RowId Options Externals Kernel Convert BlobService Store Handoff Coordinator ParquetIO Modify PlanFacts CommitFacts ModifyStatement ModifyClaims Pushdown PushdownFacts RowFilter Partition MultiFile MergeFacts Scan ScanFacts ScanClaims.
Local Open Scope Z_scope.

Section EndToEnd.
Context {Y : BytesApi} {B : BlobApi} {L : BlobLaws B} {A : ArrowApi} {AL : ArrowLaws A} {R : RoaringApi} {RL : RoaringLaws R}.
Context {Q : ParquetApi} {QL : ParquetLaws Q} {P : PgApi} {PL : PgLaws P} {U : UuidApi} {UL : UuidLaws U}.
Context {K : ComputeApi} {SA : ParquetScanApi} {H : BinaryHeapApi}.
Context (debug_key : Key -> str) (old : list (option Datum)) (c : ScanStateCore).

Abbreviation cont w := (blobs (w_svc w)).
Abbreviation Listed := (list ((str * str) * BlobScan)).

(** ** The slots of a full scan, by row *)

Definition scanned_rows (b : (str * str) * BlobScan) : nat :=
  match b.2 with Scanned _ bs => length (stream_rows bs) | Skipped _ => O end.

(** The values the scan delivers for row [t.2] of the [t.1]-th blob. *)
Definition row_values (l : Listed) (t : nat * nat) : list (option Datum) :=
  match l !! t.1 with
  | Some (_, Scanned ds bs) => match stream_rows bs !! t.2 with Some x => slot_values old c ds x | None => [] end
  | _ => []
  end.

(** The rows in scan order. *)
Fixpoint row_list (j : nat) (l : Listed) : list (nat * nat) :=
  match l with
  | [] => []
  | b :: l' => map (pair j) (seq 0 (scanned_rows b)) ++ row_list (S j) l'
  end.

Lemma row_list_elem l : forall j0 j k, (j, k) ∈ row_list j0 l <-> exists b, (j0 <= j)%nat /\ l !! (j - j0)%nat = Some b /\ (k < scanned_rows b)%nat.
Proof.
  induction l as [|b l IH]; intros j0 j k; cbn [row_list].
  - rewrite elem_of_nil. split; [done|]. by intros (b & _ & Hb & _).
  - rewrite elem_of_app, IH. change (map (pair j0) ?s) with (pair j0 <$> s). rewrite list_elem_of_fmap. split.
    + intros [(k' & [= -> ->] & Hk%elem_of_seq)|(b' & Hj & Hb & Hk)].
      * exists b. rewrite Nat.sub_diag. split; [lia|]. split; [done|lia].
      * exists b'. replace (j - j0)%nat with (S (j - S j0)) by lia. split; [lia|done].
    + intros (b' & Hj & Hb & Hk). destruct (decide (j = j0)) as [->|Hne].
      * left. rewrite Nat.sub_diag in Hb. injection Hb as <-. exists k. split; [done|]. apply elem_of_seq. lia.
      * right. exists b'. replace (j - j0)%nat with (S (j - S j0)) in Hb by lia. split; [lia|done].
Qed.

Lemma row_list_nodup l : forall j0, NoDup (row_list j0 l).
Proof.
  induction l as [|b l IH]; intros j0; cbn [row_list]; [constructor|]. apply NoDup_app. split; [|split; [|done]].
  - change (map (pair j0) ?s) with (pair j0 <$> s). apply NoDup_fmap; [by intros ? ? [=]|apply NoDup_seq].
  - intros [j k] Hin Hin'. change (map (pair j0) ?s) with (pair j0 <$> s) in Hin. apply list_elem_of_fmap in Hin as (k' & [= -> ->] & _).
    apply row_list_elem in Hin' as (b' & Hj & _). lia.
Qed.

Section Rows.
Context (nr : str -> FdwResult Z) (l : Listed) (full : Forall (full_scan nr) l).

(** The slot of row [t]. *)
Definition slot_of (t : nat * nat) : Slot := mkSlot (row_values l t) (Some (row_ctid nr (map fst l) t)).

Lemma slots_of_blob ds base rows : forall k,
  slots_from old c ds base (Z.of_nat k) rows =
  map (fun i => mkSlot (match rows !! (i - k)%nat with Some x => slot_values old c ds x | None => [] end) (Some (to_ctid (from_absolute base (Z.of_nat i)))))
    (seq k (length rows)).
Proof.
  induction rows as [|x rows IH]; intros k; [done|]. cbn [slots_from length seq map]. rewrite Nat.sub_diag. f_equal.
  replace (Z.of_nat k + 1) with (Z.of_nat (S k)) by lia. rewrite IH. apply map_ext_in. intros i Hi%in_seq. by replace (i - k)%nat with (S (i - S k)) by lia.
Qed.

(** The scan emits the slots of the rows in order. *)
Lemma scan_slots pre post : l = pre ++ post ->
  (scan_spec old c (concat (map (chunks_of nr) (map fst pre))) post).1 = map slot_of (row_list (length pre) post).
Proof.
  revert pre. induction post as [|[[nm et] o] post IH]; intros pre Hl; [done|]. assert (full_scan nr ((nm, et), o)) as Hf.
  { rewrite Forall_forall in full. apply full. rewrite Hl, elem_of_app. right. left. }
  destruct o as [msg|ds bs]; [done|]. cbn [full_scan fst snd] in Hf. cbn [scan_spec row_list].
  specialize (IH (pre ++ [((nm, et), Scanned ds bs)])). rewrite <- app_assoc in IH. specialize (IH Hl).
  rewrite length_app, !map_app, concat_app in IH. cbn [map concat fst length] in IH. rewrite app_nil_r, Nat.add_1_r in IH.
  unfold chunks_of at 2 in IH. cbn [fst snd] in IH. rewrite Hf in IH.
  destruct (scan_spec old c _ post) as [slots table']. cbn [fst] in IH |- *. rewrite IH, map_app. f_equal.
  rewrite (slots_of_blob ds _ _ 0), (map_map (pair (length pre)) slot_of). cbn [scanned_rows snd]. apply map_ext_in. intros k Hk%in_seq. unfold slot_of, row_values, row_ctid. cbn [fst snd].
  rewrite Hl, lookup_app_r, Nat.sub_diag, Nat.sub_0_r by lia. cbn. do 4 f_equal. unfold base_id_of.
  by rewrite map_app, take_app_length' by (by rewrite length_map).
Qed.

Lemma full_slots : (scan_spec old c [] l).1 = map slot_of (row_list 0 l).
Proof. apply (scan_slots [] l eq_refl). Qed.
End Rows.

(** ** Statements with a WHERE clause *)

Section Where.
Context (nr : str -> FdwResult Z) (plan : ModifyPlan) (l : Listed) (srcs : list Source).
Context (accepts : list (option Datum) -> bool) (carry : Slot -> PlanSlot).

(** The executor passes the ctid of a tuple on as the junk attribute. *)
Definition carries_ctid : Prop := forall vals tid, read_ctid_via_junk (carry (mkSlot vals (Some tid))) (ctid_attno plan) = Ok (from_ctid tid).

Definition accepted (slots : list Slot) : list Slot := List.filter (fun sl => accepts (tts_values sl)) slots.
Definition hit_rows : list (nat * nat) := List.filter (fun t => accepts (row_values l t)) (row_list 0 l).

Lemma accepted_slots : Forall (full_scan nr) l -> accepted (scan_spec old c [] l).1 = map (slot_of nr l) hit_rows.
Proof.
  intros Hf. rewrite (full_slots nr l Hf). unfold accepted, hit_rows. induction (row_list 0 l) as [|t ts IH]; [done|].
  cbn [map List.filter slot_of tts_values]. destruct (accepts (row_values l t)); cbn [map]; by rewrite IH.
Qed.

Lemma hit_nodup : NoDup hit_rows.
Proof. unfold hit_rows. apply NoDup_ListNoDup, List.NoDup_filter, NoDup_ListNoDup, row_list_nodup. Qed.

Lemma hit_elem j k : (j, k) ∈ hit_rows <-> (exists b, l !! j = Some b /\ (k < scanned_rows b)%nat) /\ accepts (row_values l (j, k)) = true.
Proof.
  unfold hit_rows. rewrite list_elem_of_In, filter_In, <- list_elem_of_In, row_list_elem. apply and_iff_compat_r. split.
  - intros (b & _ & Hb & Hk). exists b. by rewrite Nat.sub_0_r in Hb.
  - intros (b & Hb & Hk). exists b. rewrite Nat.sub_0_r. split; [lia|done].
Qed.

Context (scan_ok : Forall (blob_scan_ok old c) l) (full : Forall (full_scan nr) l) (carries : carries_ctid).

(** The scan of the statement. *)
Lemma where_scan (w : World B) n sh : statement_ok nr plan (map fst l) srcs w n ->
  exists N s', forall F, (N <= F)%nat ->
    scan_all debug_key F (assemble_scan_state c (SequentialRanges (map fst l) 0)) sh old = Some (Ok (s', sh, (scan_spec old c [] l).1)).
Proof.
  intros (_ & _ & _ & Htb & _ & Hsm & _). destruct (scan_runs debug_key old c l sh scan_ok) as (N & s' & _ & Hall); [|by exists N, s'].
  rewrite (spec_table old c nr l [] full). by apply build_blob_table_from in Htb as [<- _].
Qed.

(** A source has the rows that were scanned. *)
Lemma source_scanned (w : World B) n j b s : statement_ok nr plan (map fst l) srcs w n ->
  l !! j = Some b -> srcs !! j = Some s -> scanned_rows b = total_rows (src_ins s).
Proof.
  intros (_ & _ & _ & _ & _ & _ & Hsrc & _) Hb Hs. assert (map fst l !! j = Some b.1) as Hbl by (by rewrite (list_lookup_fmap fst), Hb).
  destruct (Forall2_lookup_lr _ _ _ _ _ _ Hsrc Hbl Hs) as (_ & _ & _ & _ & _ & Hn). rewrite Forall_forall in full.
  pose proof (full b (list_elem_of_lookup_2 _ _ _ Hb)) as Hf. destruct b as [[nm et] [msg|ds bs]]; cbn in *; [done|].
  rewrite Hf in Hn. injection Hn as Hn. lia.
Qed.

Lemma hit_slots (w : World B) n : statement_ok nr plan (map fst l) srcs w n ->
  Forall2 (slot_at_row nr plan (map fst l) srcs) (map (fun t => carry (slot_of nr l t)) hit_rows) hit_rows.
Proof.
  intros Hok. assert (forall ts, (forall t, t ∈ ts -> in_source srcs t) ->
    Forall2 (slot_at_row nr plan (map fst l) srcs) (map (fun t => carry (slot_of nr l t)) ts) ts) as Hall.
  { induction ts as [|t ts IH]; intros Hin; constructor; [|apply IH; intros; apply Hin; by right]. split; [apply Hin; by left|apply carries]. }
  apply Hall. intros [j k] ((b & Hb & Hk) & _)%hit_elem. pose proof Hok as (_ & _ & _ & _ & _ & _ & Hsrc & _).
  assert (map fst l !! j = Some b.1) as Hbl by (by rewrite (list_lookup_fmap fst), Hb).
  destruct (Forall2_lookup_l _ _ _ _ _ Hsrc Hbl) as (s & Hs & _). exists s. cbn [fst snd]. split; [done|]. by rewrite <- (source_scanned w n j b s Hok Hb Hs).
Qed.

(** Whether a row of blob [j] is accepted, for its rows in order. *)
Definition hits (j n : nat) : list bool := map (fun k => accepts (row_values l (j, k))) (seq 0 n).

Lemma hits_touched (w : World B) n j b s : statement_ok nr plan (map fst l) srcs w n -> l !! j = Some b -> srcs !! j = Some s ->
  existsb id (hits j (total_rows (src_ins s))) = true <-> exists k, (j, k) ∈ hit_rows.
Proof.
  intros Hok Hb Hs. pose proof (source_scanned w n j b s Hok Hb Hs) as Hn. unfold hits. rewrite existsb_exists. split.
  - intros (x & (k & <- & Hk%in_seq)%in_map_iff & Hx). exists k. apply hit_elem. split; [|done]. exists b. split; [done|lia].
  - intros (k & ((b' & Hb' & Hk) & Ha)%hit_elem). exists true. split; [|done]. apply in_map_iff. exists k. split; [done|]. apply in_seq.
    assert (b' = b) as -> by congruence. lia.
Qed.

(** A blob without an accepted row has a name no touched blob has. *)
Lemma untouched_name (w : World B) n j b : statement_ok nr plan (map fst l) srcs w n -> l !! j = Some b -> ~ (exists k, (j, k) ∈ hit_rows) ->
  forall j' b', (exists k, (j', k) ∈ hit_rows) -> map fst l !! j' = Some b' -> b.1.1 <> b'.1.
Proof.
  intros (_ & _ & _ & _ & Hnd & _) Hb Hn j' b' Hj' Hb' E. apply Hn. assert (j = j') as ->; [|done].
  eapply (bl_name_inj (map fst l) Hnd j j' b.1 b'); [by rewrite (list_lookup_fmap fst), Hb|done|done].
Qed.

Lemma hit_iff (w : World B) n j b s k : statement_ok nr plan (map fst l) srcs w n -> l !! j = Some b -> srcs !! j = Some s ->
  (k < total_rows (src_ins s))%nat -> (j, k) ∈ hit_rows <-> accepts (row_values l (j, k)) = true.
Proof.
  intros Hok Hb Hs Hk. rewrite hit_elem. split; [by intros [_ ?]|]. intros ?. split; [|done]. exists b. split; [done|]. by rewrite (source_scanned w n j b s Hok Hb Hs).
Qed.

Lemma unlisted_name n j b : n ∉ map (fun b => b.1.1) l -> map fst l !! j = Some b -> n <> b.1.
Proof.
  intros Hn Hb ->. apply Hn. apply list_elem_of_lookup_2 in Hb. apply (list_elem_of_fmap fst) in Hb as (x & -> & Hx).
  apply (list_elem_of_fmap (fun b : (str * str) * BlobScan => b.1.1)). by exists x.
Qed.

Lemma delete_where_runs (w : World B) sh :
  statement_ok nr plan (map fst l) srcs w (length (accepted (scan_spec old c [] l).1)) ->
  (forall p, foldM exec_foreign_delete plan (map carry (accepted (scan_spec old c [] l).1)) = Ok p -> uploads_fit nr (map fst l) srcs p) ->
  exists N s' slots plan' w',
    (forall F, (N <= F)%nat -> scan_all debug_key F (assemble_scan_state c (SequentialRanges (map fst l) 0)) sh old = Some (Ok (s', sh, slots))) /\
    foldM exec_foreign_delete plan (map carry (accepted slots)) = Ok plan' /\ commit_plan plan' w = (w', Ok tt) /\ flight w' = ∅ /\
    (forall j b s, l !! j = Some b -> srcs !! j = Some s ->
       let gone := hits j (total_rows (src_ins s)) in
       if negb (existsb id gone) then cont w' !! b.1.1 = cont w !! b.1.1
       else if forallb id gone then cont w' !! b.1.1 = None
       else exists et bytes outs, cont w' !! b.1.1 = Some (et, bytes) /\ et <> b.1.2 /\
         decodes bytes (Some (rewrite_codec plan (src_codec s))) outs /\ Forall (fun g => conforms (plan_schema plan) (batch_columns g) (num_rows g)) outs /\
         forall i, (i < length (plan_schema plan))%nat -> blob_column i outs = mask_filter (map negb gone) (blob_column i (src_ins s))) /\
    (forall n, n ∉ map (fun b => b.1.1) l -> cont w' !! n = cont w !! n).
Proof.
  intros Hok Hfit. destruct (where_scan w _ sh Hok) as (N & s' & Hscan). pose proof (accepted_slots full) as Hacc. rewrite Hacc in Hok, Hfit.
  rewrite length_map in Hok. rewrite map_map in Hfit. pose proof (hit_slots w _ Hok) as Hslots.
  destruct (delete_statement nr plan (map fst l) srcs w _ hit_rows Hok Hslots Hfit) as (plan' & w' & Hrun & Hcm & Hfl & Hout & Hfr).
  exists N, s', (scan_spec old c [] l).1, plan', w'. split; [exact Hscan|]. split; [by rewrite Hacc, map_map|]. split; [done|]. split; [done|]. split.
  - intros j b s Hb Hs gone. assert (map fst l !! j = Some b.1) as Hbl by (by rewrite (list_lookup_fmap fst), Hb).
    pose proof (hits_touched w _ j b s Hok Hb Hs) as Ht. fold gone in Ht. destruct (existsb id gone) eqn:Eex; cbn [negb].
    + specialize (Hout j b.1 s Hbl Hs (proj1 Ht eq_refl)). cbn zeta in Hout.
      assert (kept_rows hit_rows j (total_rows (src_ins s)) = map negb gone) as Hk.
      { unfold kept_rows, gone, hits. rewrite map_map. apply map_ext_in. intros k Hk%in_seq. f_equal. apply eq_true_iff_eq. rewrite bool_decide_eq_true.
        apply (hit_iff w _ j b s k Hok Hb Hs). lia. }
      rewrite Hk in Hout. assert (existsb id (map negb gone) = negb (forallb id gone)) as E.
      { clear. induction gone as [|[] g IH]; cbn; [done|exact IH|done]. }
      rewrite E in Hout. destruct (forallb id gone); exact Hout.
    + apply (Hfr b.1.1). intros j' b' Hj' Hb'. eapply (untouched_name w _ j b Hok Hb); [|exact Hj'|exact Hb']. intros Hex. apply Ht in Hex. congruence.
  - intros n Hn. apply Hfr. intros j b _. by apply unlisted_name.
Qed.

(** C2: [DELETE ... WHERE] when every listed blob is scanned in full
    ([full_scan]: nothing of the clause is pushed, so no row filter, row-group
    pruning or skipped blob; otherwise other rows go, see
    [FilteredScan.filtered_scan_misnumbers]): the scan ends, the callbacks of
    the tuples the clause accepts and the commit succeed, and afterwards every
    listed blob holds, in order, exactly the rows whose scanned values the
    clause refuses: it is untouched when the clause accepts none, rewritten
    under a new etag in its own codec when it accepts some, and gone when it
    accepts all. No other blob changes and nothing stays in flight. *)
Theorem delete_where (w : World B) sh :
  statement_ok nr plan (map fst l) srcs w (length (accepted (scan_spec old c [] l).1)) ->
  (forall p, foldM exec_foreign_delete plan (map carry (accepted (scan_spec old c [] l).1)) = Ok p -> uploads_fit nr (map fst l) srcs p) ->
  exists N s' slots plan' w',
    (forall F, (N <= F)%nat -> scan_all debug_key F (assemble_scan_state c (SequentialRanges (map fst l) 0)) sh old = Some (Ok (s', sh, slots))) /\
    foldM exec_foreign_delete plan (map carry (accepted slots)) = Ok plan' /\ commit_plan plan' w = (w', Ok tt) /\ flight w' = ∅ /\
    (forall j b s, l !! j = Some b -> srcs !! j = Some s ->
       let gone := hits j (total_rows (src_ins s)) in
       if negb (existsb id gone) then cont w' !! b.1.1 = cont w !! b.1.1
       else if forallb id gone then cont w' !! b.1.1 = None
       else exists et bytes outs, cont w' !! b.1.1 = Some (et, bytes) /\ et <> b.1.2 /\
         decodes bytes (Some (rewrite_codec plan (src_codec s))) outs /\ Forall (fun g => conforms (plan_schema plan) (batch_columns g) (num_rows g)) outs /\
         forall i, (i < length (plan_schema plan))%nat -> blob_column i outs = mask_filter (map negb gone) (blob_column i (src_ins s))) /\
    (forall n, n ∉ map (fun b => b.1.1) l -> cont w' !! n = cont w !! n).
Proof. apply delete_where_runs. Qed.

(** ** UPDATE *)

(** The new tuple of the executor, from the old values. *)
Context (new_tuple : list (option Datum) -> list (Datum * bool)).

Definition update_slots (slots : list Slot) : list (list (Datum * bool) * PlanSlot) := map (fun sl => (new_tuple (tts_values sl), carry sl)) slots.

Definition update_slot_of (t : nat * nat) : list (Datum * bool) * PlanSlot := (new_tuple (row_values l t), carry (slot_of nr l t)).

Lemma update_hits (w : World B) n : statement_ok nr plan (map fst l) srcs w n -> (forall t, t ∈ hit_rows -> slot_typed plan (new_tuple (row_values l t))) ->
  Forall2 (update_at_row nr plan (map fst l) srcs) (map update_slot_of hit_rows) hit_rows.
Proof.
  intros Hok Hty. pose proof (hit_slots w n Hok) as Hs. induction hit_rows as [|t ts IH]; cbn [map] in *; [constructor|].
  apply Forall2_cons in Hs as [Ht Hs]. constructor; [|apply IH; [by intros; apply Hty; right|done]]. split; [apply Hty; by left|done].
Qed.

Lemma zip_update_slot t : t ∈ hit_rows -> (update_slot_of t, t) ∈ zip (map update_slot_of hit_rows) hit_rows.
Proof.
  intros Hin. apply list_elem_of_lookup in Hin as [i Hi]. apply (list_elem_of_lookup_2 _ i), lookup_zip_with_Some. exists (update_slot_of t), t.
  split; [done|]. split; [|done]. change (map ?f ?l) with (f <$> l). by rewrite list_lookup_fmap, Hi.
Qed.

Lemma update_where_runs (w : World B) sh :
  statement_ok nr plan (map fst l) srcs w (length (accepted (scan_spec old c [] l).1)) ->
  (forall t, t ∈ hit_rows -> slot_typed plan (new_tuple (row_values l t))) ->
  (forall p, foldM exec_update plan (update_slots (accepted (scan_spec old c [] l).1)) = Ok p -> uploads_fit nr (map fst l) srcs p) ->
  exists N s' slots plan' w',
    (forall F, (N <= F)%nat -> scan_all debug_key F (assemble_scan_state c (SequentialRanges (map fst l) 0)) sh old = Some (Ok (s', sh, slots))) /\
    foldM exec_update plan (update_slots (accepted slots)) = Ok plan' /\ commit_plan plan' w = (w', Ok tt) /\ flight w' = ∅ /\
    (forall j b s, l !! j = Some b -> srcs !! j = Some s ->
       if negb (existsb id (hits j (total_rows (src_ins s)))) then cont w' !! b.1.1 = cont w !! b.1.1
       else exists et bytes outs, cont w' !! b.1.1 = Some (et, bytes) /\ et <> b.1.2 /\
         decodes bytes (Some (rewrite_codec plan (src_codec s))) outs /\ Forall (fun g => conforms (plan_schema plan) (batch_columns g) (num_rows g)) outs /\ total_rows outs = total_rows (src_ins s) /\
         forall i k, (i < length (plan_schema plan))%nat -> (k < total_rows (src_ins s))%nat ->
           if accepts (row_values l (j, k)) && bool_decide (i ∈ update_attnums plan)
           then exists x, blob_column i outs !! k = Some x /\ reads_as plan (new_tuple (row_values l (j, k))) i x
           else blob_column i outs !! k = blob_column i (src_ins s) !! k) /\
    (forall n, n ∉ map (fun b => b.1.1) l -> cont w' !! n = cont w !! n).
Proof.
  intros Hok Hty Hfit. destruct (where_scan w _ sh Hok) as (N & s' & Hscan). pose proof (accepted_slots full) as Hacc. rewrite Hacc in Hok, Hfit.
  rewrite length_map in Hok. unfold update_slots in *. rewrite map_map in Hfit.
  destruct (update_statement nr plan (map fst l) srcs w _ hit_rows Hok hit_nodup (update_hits w _ Hok Hty) Hfit) as (plan' & w' & Hrun & Hcm & Hfl & Hout & Hfr).
  exists N, s', (scan_spec old c [] l).1, plan', w'. split; [exact Hscan|]. split; [by rewrite Hacc, map_map|]. split; [done|]. split; [done|]. split.
  - intros j b s Hb Hs. assert (map fst l !! j = Some b.1) as Hbl by (by rewrite (list_lookup_fmap fst), Hb).
    pose proof (hits_touched w _ j b s Hok Hb Hs) as Ht. destruct (existsb id _) eqn:Eex; cbn [negb].
    + destruct (Hout j b.1 s Hbl Hs (proj1 Ht eq_refl)) as (et & bytes & outs & Hl & Het & Hdec & Hconf & Htot & Hcell). exists et, bytes, outs.
      split; [done|]. split; [done|]. split; [done|]. split; [done|]. split; [done|]. intros i k Hi Hk. destruct (Hcell i k Hi Hk) as [Hset Hold].
      pose proof (hit_iff w _ j b s k Hok Hb Hs Hk) as Hhit.
      destruct (accepts (row_values l (j, k))) eqn:Ea; cbn [andb]; [|apply Hold; left; intros E%Hhit; done].
      case_bool_decide as Hin; [|by apply Hold; right]. apply (Hset (update_slot_of (j, k))); [|done]. by apply zip_update_slot, Hhit.
    + apply (Hfr b.1.1). intros j' b' Hj' Hb'. eapply (untouched_name w _ j b Hok Hb); [|exact Hj'|exact Hb']. intros Hex. apply Ht in Hex. congruence.
  - intros n Hn. apply Hfr. intros j b _. by apply unlisted_name.
Qed.

End Where.
End EndToEnd.
