(* ===== verification/EndToEndDemo.v ===== *)
(** * UPDATE and DELETE with a WHERE clause on a concrete container. *)

From S2P Require Import Prelude RustStr Redact Errors RowId Options Externals Kernel Convert BlobService Store Handoff Coordinator ParquetIO Modify PlanFacts CommitFacts CommitDemo ModifyStatement ModifyClaims ModifyDemo Pushdown PushdownFacts RowFilter Partition MultiFile MergeFacts Scan ScanFacts ScanClaims EndToEnd.
Local Open Scope Z_scope.

(** The reader of the three files of [demo_files]. *)
Definition where_batches (nm : str) : list (list RefArray) :=
  if str_eqb nm "a.parquet" then demo_blob else if str_eqb nm "b.parquet" then [stmt_batch_b] else [stmt_batch_c].

Definition where_scan_api : ParquetScanApi (A := ref_arrow) :=
  @Build_ParquetScanApi ref_arrow (list (list RefArray)) (fun nm => Ok (where_batches nm)) (fun _ => []) (fun _ => None) (fun _ => demo_schema)
    (fun bs _ _ _ => Ok (map Ok bs)).

Definition where_core : ScanStateCore :=
  mkCore demo_client stmt_list [INT8OID; TEXTOID] (Some [0%nat; 1%nat]) [0%nat; 1%nat] None
    (mkTableOptions "data" "*.parquet" Snappy None [] [] [] false) [] [] [Some 0%nat; Some 1%nat].

Definition where_listed : list ((str * str) * BlobScan) :=
  [((lit "a.parquet", lit "e1"), Scanned [] demo_blob); ((lit "b.parquet", lit "e2"), Scanned [] [stmt_batch_b]); ((lit "c.parquet", lit "e3"), Scanned [] [stmt_batch_c])].

(** [id = 1 OR id BETWEEN 5 AND 6]. *)
Definition where_id (v : list (option Datum)) : bool :=
  match v with Some (DWord z) :: _ => (z =? 1) || (5 <=? z) && (z <=? 6) | _ => false end.

Definition where_carry (sl : Slot) : PlanSlot := mkPlanSlot [] (fun _ => (false, tts_tid sl)).

Abbreviation old_tuple := ([None; None] : list (option Datum)).

Lemma where_rows_ok bs : forallb (fun x => is_ok (fill_slot (P := ref_pg) where_core [] x.1 x.2 old_tuple)) (stream_rows (A := ref_arrow) bs) = true ->
  Forall (row_ok (P := ref_pg) old_tuple where_core []) (stream_rows bs).
Proof.
  intros Hf. rewrite forallb_forall in Hf. apply Forall_forall. intros x Hx%list_elem_of_In%Hf. unfold row_ok, slot_values. by destruct (fill_slot _ _ _ _ _).
Qed.

Lemma where_scan_ok : Forall (blob_scan_ok (SA := where_scan_api) old_tuple where_core) where_listed.
Proof.
  repeat apply Forall_cons_2; [| | |apply Forall_nil_2].
  all: split; [reflexivity|]; split; [reflexivity|]; split; [apply where_rows_ok; vm_compute; reflexivity|vm_compute; discriminate].
Qed.

Lemma where_full : Forall (full_scan stmt_rows) where_listed.
Proof. repeat apply Forall_cons_2; [reflexivity..|apply Forall_nil_2]. Qed.

(** [a] loses its first row, [b] goes, [c] stays as it was. *)
Lemma delete_where_witness :
  exists plan' w', commit_plan plan' (demo_world demo_files) = (w', Ok tt) /\
    (exists et bytes outs, blobs (w_svc w') !! lit "a.parquet" = Some (et, bytes) /\ decodes (Y := ref_bytes) bytes (Some SNAPPY) outs /\
       blob_column 0 outs = [Some (VI64 2); Some (VI64 3); Some (VI64 4)]) /\
    blobs (w_svc w') !! lit "b.parquet" = None /\
    blobs (w_svc w') !! lit "c.parquet" = demo_files !! lit "c.parquet".
Proof.
  destruct (delete_where (Y := ref_bytes) (SA := where_scan_api) no_debug old_tuple where_core stmt_rows (stmt_plan true) where_listed stmt_sources
              where_id where_carry where_scan_ok where_full (fun _ _ => eq_refl) (demo_world demo_files) 0) as (N & s' & slots & plan' & w' & _ & _ & Hcm & _ & Hout & _).
  - apply stmt_ok. vm_compute. lia.
  - apply stmt_fit. vm_compute. reflexivity.
  - exists plan', w'. split; [exact Hcm|]. split; [|split].
    + pose proof (Hout 0%nat _ _ eq_refl eq_refl) as Ha. cbn zeta in Ha.
      match type of Ha with context [hits ?a ?b ?c ?d ?e ?f] => assert (hits a b c d e f = [true; false; false; false]) as E by (vm_compute; reflexivity); rewrite E in Ha end.
      destruct Ha as (et & bytes & outs & Hl & _ & Hdec & _ & Hcol). cbn [fst snd src_codec] in *. rewrite stmt_codec in Hdec.
      exists et, bytes, outs. split; [exact Hl|]. split; [exact Hdec|]. rewrite Hcol by (simpl; lia). vm_compute. reflexivity.
    + pose proof (Hout 1%nat _ _ eq_refl eq_refl) as Hb. cbn zeta in Hb.
      match type of Hb with context [hits ?a ?b ?c ?d ?e ?f] => assert (hits a b c d e f = [true; true]) as E by (vm_compute; reflexivity); rewrite E in Hb end.
      exact Hb.
    + pose proof (Hout 2%nat _ _ eq_refl eq_refl) as Hc. cbn zeta in Hc.
      match type of Hc with context [hits ?a ?b ?c ?d ?e ?f] => assert (hits a b c d e f = [false]) as E by (vm_compute; reflexivity); rewrite E in Hc end.
      exact Hc.
Defined.

(** [SET name = 'z']. *)
Definition where_tuple (v : list (option Datum)) : list (Datum * bool) :=
  match v with [Some d; _] => [(d, false); (DText "z", false)] | _ => [(DWord 0, true); (DText "z", false)] end.

