(* ===== verification/ScanPlan.v ===== *)
(** * [src/fdw/scan.rs], setup: which blobs are scanned, and how.

    [build_scan_state_core] reads the options, lists the blobs (one HEAD for
    a plain name, a prefix LIST filtered by the pattern otherwise), resolves
    the partition columns, decodes the projection, walks the quals and prunes
    the blob list by the partition values in the paths.  [build_state] hands
    the list over to the modify path and opens the sorted merge when the
    table asks for one. *)

From S2P Require Import Prelude RustStr Redact Errors RowId Options Externals Kernel Convert BlobService Store Handoff Coordinator ParquetIO Modify Pushdown PushdownWalk Partition Glob MultiFile Scan.
Local Open Scope Z_scope.

(** What the statement and the catalog say of the relation being scanned. *)
Record ScanNode := mkNode {
  scan_options : FdwResult (ServerOptions * UserMappingOptions * TableOptions);
  scan_tupdesc : list PgAttribute;
  (** [fdw_private]: the projected attribute numbers, [None] for NULL. *)
  fdw_private : option (list Z);
  (** [plan.qual]. *)
  plan_qual : option (list Node);
  enable_multifile : bool;
  is_select : bool }.

Section Build.
Context {Y : BytesApi} {B : BlobApi} {A : ArrowApi} {P : PgApi} {K : ComputeApi} {SA : ParquetScanApi} {X : RegexApi}.

(** ** Plan sources *)

Inductive PlanSource := HeadEtagSource (blob : str) | GlobSource (g : GlobPattern).

Definition le_name (a b : str * str) : Prop := str_leb a.1 b.1 = true.
#[export] Instance le_name_dec : RelDecision le_name.
Proof. intros a b. unfold le_name. apply _. Defined.

Definition plan_source_list (p : PlanSource) : SM Svc (list (str * str)) :=
  match p with
  | HeadEtagSource blob => etag ← head_etag blob; mret [(blob, etag)]
  | GlobSource g =>
      listed ← list_with_prefix_etags (Glob.prefix g);
      mret (merge_sort le_name (List.filter (fun b => is_match (regex g) b.1) listed))
  end.

Definition plan_source (pattern : str) : FdwResult PlanSource :=
  if negb (contains_char "*" pattern) && negb (contains_char "?" pattern) then Ok (HeadEtagSource pattern)
  else g ← parse_glob pattern; Ok (GlobSource g).

(** The test builds' list when no scan published one. *)
Definition expand_glob_with_etags (pattern : str) : SM Svc (list (str * str)) :=
  if negb (contains_char "*" pattern) && negb (contains_char "?" pattern) then etag ← head_etag pattern; mret [(pattern, etag)]
  else
    g ← lift (parse_glob pattern);
    listed ← list_with_prefix_etags (Glob.prefix g);
    mret (merge_sort le_name (List.filter (fun b => is_match (regex g) b.1) listed)).

Definition expand_glob_for_modify (pattern : str) : SM Svc (list (str * str)) := expand_glob_with_etags pattern.

(** It is the list the scan would make. *)
Lemma expand_glob_is_plan_source pattern s : expand_glob_for_modify pattern s = (p ← lift (plan_source pattern); plan_source_list p) s.
Proof.
  unfold expand_glob_for_modify, expand_glob_with_etags, plan_source. destruct (_ && _); [reflexivity|].
  unfold mbind at 1 2, sm_bind, lift. by destruct (parse_glob pattern).
Qed.

(** ** The relation's columns *)

Definition scan_oid (acc : list Z) (att : PgAttribute) : FdwResult (list Z) :=
  if attisdropped att then
    Err (SchemaMismatch ("dropped column at attnum " ++ show_Z (attnum att) ++ " not supported"))
  else Ok (acc ++ [atttypid att]).

Definition att_names (tupdesc : list PgAttribute) : list str := map (fun a => default [] (attname a)) tupdesc.

Definition resolve_partition_attno (tupdesc : list PgAttribute) (nm : str) : FdwResult nat :=
  ok_or (find_attno 0 (att_names tupdesc) nm)
    (SchemaMismatch ("partition_columns names '" ++ nm ++ "' but no such column in foreign table")).

Definition resolve_attno_by_name (tupdesc : list PgAttribute) (nm : str) : FdwResult nat :=
  ok_or (find_attno 0 (att_names tupdesc) nm) (SchemaMismatch ("column '" ++ nm ++ "' not found on foreign table")).

(** Storage columns are numbered in order, partition columns have no parquet
    index. *)
Fixpoint storage_map_from (i next_parquet_idx n : nat) (partition_attnums : list nat) : list (option nat) :=
  match n with
  | O => []
  | S n' =>
      if bool_decide (i ∈ partition_attnums) then None :: storage_map_from (S i) next_parquet_idx n' partition_attnums
      else Some next_parquet_idx :: storage_map_from (S i) (S next_parquet_idx) n' partition_attnums
  end.

Definition storage_attno_to_parquet_idx (natts : nat) (partition_attnums : list nat) : list (option nat) :=
  storage_map_from 0 0 natts partition_attnums.

Definition project_attnum (natts : nat) (a : Z) : FdwResult nat :=
  let i := a - 1 in
  if (0 <=? i) && (i <? Z.of_nat natts) then Ok (Z.to_nat i)
  else Err (SchemaMismatch ("projected attnum " ++ show_Z a ++ " out of range (natts=" ++ show_Z (Z.of_nat natts) ++ ")")).

(** Projection and arrow-to-relation map are the same list. *)
Definition decode_projection (natts : nat) (private : option (list Z)) : FdwResult (list nat) :=
  match private with
  | None => Ok (seq 0 natts)
  | Some attnums => mapM_res (project_attnum natts) (match attnums with [] => [1] | _ => attnums end)
  end.

(** ** Pruning the blob list *)

Definition keep_blob (quals : list PushedExpr) (attnums : list nat) (decl : Declared) (b : str * str) : FdwResult bool :=
  match partition_values_from_path b.1 decl with
  | Err _ => Ok true
  | Ok parsed => ok_or (evaluate_partition_quals_against_blob quals attnums parsed decl) (RustPanic "date out of range")
  end.

Fixpoint filter_res {T} (f : T -> FdwResult bool) (l : list T) : FdwResult (list T) :=
  match l with
  | [] => Ok []
  | x :: l' => keep ← f x; rest ← filter_res f l'; Ok (if keep : bool then x :: rest else rest)
  end.

Definition prune_blobs (quals : list PushedExpr) (attnums : list nat) (decl : Declared) (bl : BlobList) : FdwResult BlobList :=
  match quals, decl with
  | [], _ | _, [] => Ok bl
  | _, _ => filter_res (keep_blob quals attnums decl) bl
  end.

Definition build_scan_state_core (env : ClientEnv) (node : ScanNode) : SM Svc ScanStateCore :=
  '(server, um, table) ← lift (scan_options node);
  _ ← lift (validate_combo server um);
  client ← lift (make_client env server um table);
  source ← lift (plan_source (filename table));
  bl ← plan_source_list source;
  oids ← lift (foldM scan_oid [] (scan_tupdesc node));
  attnums ← lift (mapM_res (resolve_partition_attno (scan_tupdesc node)) (partition_columns table));
  let storage := storage_attno_to_parquet_idx (length oids) attnums in
  projection ← lift (decode_projection (length oids) (fdw_private node));
  let pushed := if enable_pushdown server then walk_quals (plan_qual node) else [] in
  let '(partition_quals, storage_raw) := split_quals_by_target pushed attnums in
  pruned ← lift (prune_blobs partition_quals attnums (partition_keys table) bl);
  let storage_quals := omap (fun e => translate_qual_to_parquet_idx e storage) storage_raw in
  mret (mkCore client pruned oids (Some projection) projection
          (match storage_quals with [] => None | _ => Some storage_quals end)
          table attnums (partition_keys table) storage).

(** ** The sorted merge *)

Definition check_sort_column (tupdesc : list PgAttribute) (attnums : list nat) (u : unit) (nm : str) : FdwResult unit :=
  attno ← resolve_attno_by_name tupdesc nm;
  if bool_decide (attno ∈ attnums) then
    Err (SchemaMismatch ("sort column '" ++ nm ++ "' is a partition column; partition values are constant per blob"))
  else Ok u.

Definition sort_col_index (tupdesc : list PgAttribute) (storage : list (option nat)) (nm : str) : FdwResult nat :=
  attno ← resolve_attno_by_name tupdesc nm;
  ok_or (mjoin (storage !! attno)) (SchemaMismatch ("sort column '" ++ nm ++ "' has no parquet index (storage_attno map miss)")).

Definition sort_type (blob : str) (schema : Schema) (col_idx : nat) : FdwResult DataType :=
  f ← ok_or (schema !! col_idx)
        (SchemaMismatch ("sort column index " ++ show_Z (Z.of_nat col_idx) ++ " out of range for blob '" ++ blob
           ++ "' (parquet has " ++ show_Z (Z.of_nat (length schema)) ++ " columns)"));
  Ok (field_type f).

Definition open_sorted (cols : list nat) (b : str * str) : FdwResult (str * list DataType * list (Result str RecordBatch)) :=
  builder ← map_err Parquet (builder_new b.1);
  types ← mapM_res (sort_type b.1 (builder_schema builder)) cols;
  stream ← map_err Parquet (builder_build builder None None None);
  Ok (b.1, types, stream).

(** Every blob must agree with the first on the types of the sort columns. *)
Fixpoint check_sort_types (blob : str) (cols : list nat) (this first : list DataType) : FdwResult unit :=
  match cols, this, first with
  | col_idx :: cols', t :: this', f :: first' =>
      if bool_decide (t = f) then check_sort_types blob cols' this' first'
      else Err (SchemaMismatch ("blob '" ++ blob ++ "' disagrees on the type of sort column at parquet index "
             ++ show_Z (Z.of_nat col_idx) ++ ": " ++ debug_type t ++ " vs " ++ debug_type f
             ++ " — all merged blobs must share the same physical type"))
  | _, _, _ => Ok tt
  end.

Record OpenSet := mkOpenSet { first_types : option (list DataType); open_streams : list (list (Result str RecordBatch)); open_names : list str }.

Definition add_open (cols : list nat) (acc : OpenSet) (b : str * str) : FdwResult OpenSet :=
  '(blob, types, stream) ← open_sorted cols b;
  first ← match first_types acc with
          | None => Ok types
          | Some first => _ ← check_sort_types blob cols types first; Ok first
          end;
  Ok (mkOpenSet (Some first) (open_streams acc ++ [stream]) (open_names acc ++ [blob])).

Definition build_sorted_stream_if_active (node : ScanNode) (c : ScanStateCore) : FdwResult (option MultiFileSortedStream) :=
  if negb (enable_multifile node) then Ok None
  else if bool_decide (sorted (sc_table_opts c) = []) then Ok None
  else if negb (is_select node) then Ok None
  else if negb (bool_decide (sc_partition_attnums c = [])) then
    Err (SchemaMismatch "sorted merge is not supported on partitioned tables in v1; combine partition pruning OR sorted merge, not both")
  else
    _ ← foldM (check_sort_column (scan_tupdesc node) (sc_partition_attnums c)) tt (sorted (sc_table_opts c));
    if 256 <? Z.of_nat (length (sc_blobs c)) then
      Err (SchemaMismatch ("sorted-merge cannot open " ++ show_Z (Z.of_nat (length (sc_blobs c)))
             ++ " blobs at once (cap 256) — narrow the filename glob or partition filter"))
    else
      cols ← mapM_res (sort_col_index (scan_tupdesc node) (sc_storage_attno_to_parquet_idx c)) (sorted (sc_table_opts c));
      opened ← foldM (add_open cols) (mkOpenSet None [] []) (sc_blobs c);
      merge ← merge_new (open_streams opened) (open_names opened) cols;
      Ok (Some merge).

(** ** Entry points *)

Definition on_store {T} (m : SM Svc T) : SM (Svc * Handoff) T := fun '(s, h) => let '(s', r) := m s in ((s', h), r).
Definition on_handoff (f : Handoff -> Handoff) : SM (Svc * Handoff) unit := fun '(s, h) => ((s, f h), Ok tt).

(** Sorted mode reads every column. *)
Definition identity_projection (c : ScanStateCore) : ScanStateCore :=
  let identity := seq 0 (length (sc_pg_oids c)) in
  mkCore (sc_client c) (sc_blobs c) (sc_pg_oids c) (Some identity) identity (sc_qual_filter c) (sc_table_opts c)
    (sc_partition_attnums c) (sc_partition_keys_decl c) (sc_storage_attno_to_parquet_idx c).

Definition build_state (env : ClientEnv) (node : ScanNode) (relid : Z) : SM (Svc * Handoff) ScanState :=
  c ← on_store (build_scan_state_core env node);
  _ ← on_handoff (publish relid (sc_blobs c));
  sm ← lift (build_sorted_stream_if_active node c);
  let c' := match sm with Some _ => identity_projection c | None => c end in
  mret (set_sorted (assemble_scan_state c' (SequentialRanges (sc_blobs c) 0)) sm).

(** [begin_foreign_scan]: nothing under EXPLAIN and in a parallel worker. *)
Definition begin_foreign_scan (env : ClientEnv) (node : ScanNode) (relid : Z) (explain_only : bool) (parallel_worker : Z)
    : SM (Svc * Handoff) (option ScanState) :=
  if explain_only then mret None
  else if 0 <=? parallel_worker then mret None
  else s ← build_state env node relid; mret (Some s).

(** The worker-side entry: same setup, no handoff. *)
Definition build_state_for_parallel_worker (env : ClientEnv) (node : ScanNode) (r : Ranges) : SM Svc ScanState :=
  c ← build_scan_state_core env node; mret (assemble_scan_state c r).
End Build.
