(* ===== verification/ScanSetup.v ===== *)
(** * What a scan is set up to read, and reading it again.

    [build_state] fixes the blob list of a scan and hands the same list to
    the modify path; a rescan starts over on it. *)

From S2P Require Import Prelude RustStr Redact Errors RowId Options Externals Kernel Convert BlobService Store Handoff Coordinator ParquetIO Modify PlanFacts Pushdown PushdownFacts RowFilter PushdownWalk Partition Glob MultiFile MergeFacts Scan ScanFacts ScanClaims ScanPlan.
Local Open Scope Z_scope.

Lemma filter_res_Ok {T} (f : T -> FdwResult bool) l l' : filter_res f l = Ok l' ->
  sublist l' l /\ forall x, x ∈ l' <-> x ∈ l /\ f x = Ok true.
Proof.
  revert l'. induction l as [|y l IH]; intros l' H; cbn [filter_res] in H.
  - injection H as <-. split; [done|]. intros x. split; [|intros [Hx _]; revert Hx]; by intros ?%not_elem_of_nil.
  - apply bind_Ok_inv in H as (keep & Hk & H). apply bind_Ok_inv in H as (rest & Hr & H). injection H as <-.
    destruct (IH rest Hr) as [Hs Hin]. destruct keep.
    + split; [by constructor|]. intros x. rewrite !elem_of_cons, Hin. split; [intros [->|[? ?]]; auto|intros [[->|?] ?]; auto].
    + split; [by constructor|]. intros x. rewrite elem_of_cons, Hin. split; [intros [? ?]; auto|intros [[->|?] Hx]; [congruence|auto]].
Qed.

#[export] Instance le_name_total : Total le_name.
Proof. intros a b. apply str_leb_total. Qed.

#[export] Instance le_name_trans : Transitive le_name.
Proof. intros a b c. apply str_leb_trans. Qed.

Section Setup.
Context {Y : BytesApi} {B : BlobApi} {L : BlobLaws B} {A : ArrowApi} {P : PgApi} {K : ComputeApi} {SA : ParquetScanApi} {X : RegexApi} {XL : RegexLaws X}.
Context {H : BinaryHeapApi}.

Lemma visible_elem (p : str) (c : Container) n e :
  (n, e) ∈ Store.visible p c <-> (exists body, c !! n = Some (e, body)) /\ starts_with p n = true /\ is_staging_name n = false.
Proof.
  unfold Store.visible. rewrite list_elem_of_fmap. split.
  - intros ([n' [e' body]] & [= -> ->] & Hin). apply list_elem_of_In, filter_In in Hin as [Hin Hf]. apply list_elem_of_In in Hin.
    rewrite merge_sort_Permutation, elem_of_map_to_list in Hin. apply andb_true_iff in Hf as [? ?%negb_true_iff]. eauto.
  - intros ((body & Hb) & Hp & Hs). exists (n, (e, body)). split; [done|]. apply list_elem_of_In, filter_In. rewrite Hp, Hs. split; [|done].
    apply list_elem_of_In. by rewrite merge_sort_Permutation, elem_of_map_to_list.
Qed.

(** A blob is left out only when its path refutes a partition qual. *)
Definition kept (quals : list PushedExpr) (attnums : list nat) (decl : Declared) (n : str) : Prop :=
  quals = [] \/ decl = [] \/
  match partition_values_from_path n decl with
  | Err _ => True
  | Ok parsed => evaluate_partition_quals_against_blob quals attnums parsed decl = Some true
  end.

Lemma prune_blobs_elem quals attnums decl bl l : prune_blobs quals attnums decl bl = Ok l ->
  sublist l bl /\ forall b, b ∈ l <-> b ∈ bl /\ kept quals attnums decl b.1.
Proof.
  unfold prune_blobs, kept. destruct quals as [|q qs]; [intros [= <-]; split; [done|]; tauto|].
  destruct decl as [|d ds]; [intros [= <-]; split; [done|]; tauto|]. intros Hf. apply filter_res_Ok in Hf as [Hs Hin]. split; [done|].
  intros b. rewrite Hin. unfold keep_blob. destruct (partition_values_from_path _ _) as [m|].
  - destruct (evaluate_partition_quals_against_blob _ _ _ _) as [[]|]; cbn [ok_or]; split; intros [? HH]; split; try done; auto;
      destruct HH as [HH|[HH|HH]]; congruence.
  - split; intros [? _]; split; auto.
Qed.

Lemma filter_nodup_fst {T} (p : str * T -> bool) (l : list (str * T)) : NoDup (map fst l) -> NoDup (map fst (List.filter p l)).
Proof.
  induction l as [|x l IH]; [done|]. cbn. intros [Hx Hl]%NoDup_cons. destruct (p x); [|by apply IH]. cbn. apply NoDup_cons. split; [|by apply IH].
  change (map fst ?l) with (fst <$> l). intros (y & E & Hy)%list_elem_of_fmap. apply Hx. change (map fst ?l) with (fst <$> l). apply list_elem_of_fmap.
  exists y. split; [done|]. by apply list_elem_of_In, filter_In in Hy as [?%list_elem_of_In _].
Qed.

Lemma visible_nodup (p : str) (ct : Container) : NoDup (map fst (Store.visible p ct)).
Proof.
  unfold Store.visible. rewrite map_map, (map_ext _ fst) by (by intros [? [? ?]]). apply filter_nodup_fst.
  change (map fst ?l) with (fst <$> l). rewrite merge_sort_Permutation. apply NoDup_fst_map_to_list.
Qed.

(** What the options and the plan say about the pruning of a node. *)
Definition node_quals (server : ServerOptions) (node : ScanNode) (attnums : list nat) : list PushedExpr :=
  fst (split_quals_by_target (if enable_pushdown server then walk_quals (plan_qual node) else []) attnums).

Lemma core_lists env node server um table g svc svc' c :
  scan_options node = Ok (server, um, table) -> plan_source (filename table) = Ok (GlobSource g) -> parse_glob (filename table) = Ok g ->
  Z.of_nat (size (blobs svc)) <= MAX_LIST_RESULTS -> map_Forall (fun n _ => utf8_valid n = true) (blobs svc) ->
  build_scan_state_core env node svc = (svc', Ok c) ->
  blobs svc' = blobs svc /\ StronglySorted le_name (sc_blobs c) /\ NoDup (map fst (sc_blobs c)) /\
  forall n e, (n, e) ∈ sc_blobs c <->
    (exists body, blobs svc !! n = Some (e, body)) /\ is_staging_name n = false /\ glob_match (filename table) n /\
    kept (node_quals server node (sc_partition_attnums c)) (sc_partition_attnums c) (partition_keys table) n.
Proof.
  intros Ho Hsrc Hg Hsz Hutf Hrun. unfold build_scan_state_core in Hrun. rewrite Ho in Hrun.
  erewrite sm_bind_Ok in Hrun; [|done]. cbn beta iota in Hrun. apply sm_bind_inv in Hrun as (s1 & [] & Hv & Hrun). injection Hv as <- _.
  apply sm_bind_inv in Hrun as (s1 & client & Hv & Hrun). injection Hv as <- _. rewrite Hsrc in Hrun. erewrite sm_bind_Ok in Hrun; [|done].
  apply sm_bind_inv in Hrun as (s1 & bl & Hbl & Hrun). cbn [plan_source_list] in Hbl.
  destruct (list_visible (Glob.prefix g) svc Hsz) as (s2 & Hl & Hb2). erewrite sm_bind_Ok in Hbl; [|exact Hl]. injection Hbl as <- <-.
  apply sm_bind_inv in Hrun as (s3 & oids & Hv & Hrun). injection Hv as <- _. apply sm_bind_inv in Hrun as (s3 & attnums & Hv & Hrun). injection Hv as <- _.
  apply sm_bind_inv in Hrun as (s3 & proj & Hv & Hrun). injection Hv as <- _.
  destruct (split_quals_by_target _ attnums) as [pq sq] eqn:Esp. apply sm_bind_inv in Hrun as (s3 & pruned & Hv & Hrun). injection Hv as <- Hpr.
  injection Hrun as <- <-. cbn [sc_blobs sc_partition_attnums]. split; [done|].
  destruct (prune_blobs_elem _ _ _ _ _ Hpr) as [Hsub Hin]. split.
  - eapply sublist_sorted; [exact Hsub|]. apply StronglySorted_merge_sort; apply _.
  - split.
    { change (map fst ?l) with (fst <$> l). eapply sublist_NoDup; [|exact (fmap_sublist fst _ _ Hsub)].
      rewrite merge_sort_Permutation. apply filter_nodup_fst, visible_nodup. }
    intros n e. rewrite Hin, merge_sort_Permutation. unfold node_quals. rewrite Esp. cbn [fst].
    assert ((n, e) ∈ List.filter (fun b => is_match (regex g) b.1) (Store.visible (Glob.prefix g) (blobs svc)) <->
      (exists body, blobs svc !! n = Some (e, body)) /\ is_staging_name n = false /\ glob_match (filename table) n) as ->; [|tauto].
    rewrite list_elem_of_In, filter_In, <- list_elem_of_In, visible_elem. cbn [fst]. split.
    + intros (((body & Hbody) & _ & Hst) & Hm). split; [by exists body|]. split; [done|]. apply (parse_glob_matches _ _ _ Hg); [by apply (Hutf n _ Hbody)|done].
    + intros ((body & Hbody) & Hst & Hm). split; [split; [by exists body|split; [|done]]|apply (parse_glob_matches _ _ _ Hg); [by apply (Hutf n _ Hbody)|done]].
      destruct (parse_glob_inv _ _ Hg) as [-> _]. apply starts_with_true. by apply glob_match_app_prefix.
Qed.

(** The blobs of a listing that are still there, under their current etags. *)
Definition relist (ct : Container) (bl : BlobList) : BlobList :=
  omap (fun b : str * str => match ct !! b.1 with Some (e, _) => Some (b.1, e) | None => None end) bl.

Lemma relist_elem ct bl n e : (n, e) ∈ relist ct bl <-> (exists e0, (n, e0) ∈ bl) /\ exists body, ct !! n = Some (e, body).
Proof.
  unfold relist. rewrite list_elem_of_omap. split.
  - intros ([n' e0] & Hb & Hm). cbn [fst] in Hm. destruct (ct !! n') as [[e' body]|] eqn:E; [|done]. injection Hm as <- <-.
    split; [by exists e0|by exists body].
  - intros [[e0 Hb] [body E]]. exists (n, e0). split; [done|]. cbn [fst]. by rewrite E.
Qed.

Lemma relist_names ct bl : sublist (map fst (relist ct bl)) (map fst bl).
Proof.
  induction bl as [|[n e] bl IH]; [done|]. unfold relist in *. cbn [omap list_omap fst map]. destruct (ct !! n) as [[e' body]|]; cbn; by constructor.
Qed.

Lemma sorted_by_name (l : BlobList) : StronglySorted le_name l <-> StronglySorted (fun a b => str_leb a b = true) (map fst l).
Proof.
  split.
  - induction 1 as [|x l _ IH HF]; cbn; constructor; [done|]. apply Forall_map. eapply Forall_impl; [exact HF|]. done.
  - induction l as [|x l IH]; cbn; intros Hs; constructor; apply StronglySorted_inv in Hs as [Hs HF]; [by apply IH|].
    apply Forall_map in HF. eapply Forall_impl; [exact HF|]. done.
Qed.

(** A statement that only touched listed blobs leaves exactly the listed ones
    that are still there for the next scan of the same options. *)
Lemma select_relists env env' node node' server um table g svc0 svc0' c0 svc1 svc1' c1 :
  scan_options node = Ok (server, um, table) -> scan_options node' = Ok (server, um, table) ->
  plan_source (filename table) = Ok (GlobSource g) -> parse_glob (filename table) = Ok g -> partition_keys table = [] ->
  Z.of_nat (size (blobs svc0)) <= MAX_LIST_RESULTS -> map_Forall (fun n _ => utf8_valid n = true) (blobs svc0) ->
  Z.of_nat (size (blobs svc1)) <= MAX_LIST_RESULTS -> map_Forall (fun n _ => utf8_valid n = true) (blobs svc1) ->
  build_scan_state_core env node svc0 = (svc0', Ok c0) -> build_scan_state_core env' node' svc1 = (svc1', Ok c1) ->
  (forall n, n ∉ map fst (sc_blobs c0) -> blobs svc1 !! n = blobs svc0 !! n) ->
  sc_blobs c1 = relist (blobs svc1) (sc_blobs c0).
Proof.
  intros Ho Ho' Hsrc Hg Hpk Hsz Hutf Hsz' Hutf' Hrun Hrun' Hfr.
  destruct (core_lists _ _ _ _ _ _ _ _ _ Ho Hsrc Hg Hsz Hutf Hrun) as (_ & Hs0 & Hn0 & Hin0).
  destruct (core_lists _ _ _ _ _ _ _ _ _ Ho' Hsrc Hg Hsz' Hutf' Hrun') as (_ & Hs1 & Hn1 & Hin1).
  assert (forall n e, (n, e) ∈ sc_blobs c1 <-> (n, e) ∈ relist (blobs svc1) (sc_blobs c0)) as Heq.
  { intros n e. rewrite relist_elem, Hin1. split.
    - intros ((body & Hb) & Hst & Hm & _). split; [|by exists body]. destruct (decide (n ∈ map fst (sc_blobs c0))) as [Hin|Hnin].
      + change (map fst ?l) with (fst <$> l) in Hin. apply list_elem_of_fmap in Hin as ([n' e0] & -> & Hin). by exists e0.
      + exists e. apply Hin0. rewrite <- Hfr by done. split; [by exists body|]. split; [done|]. split; [done|]. right. by left.
    - intros [[e0 (_ & Hst & Hm & _)%Hin0] [body Hb]]. split; [by exists body|]. split; [done|]. split; [done|]. right. by left. }
  assert (NoDup (relist (blobs svc1) (sc_blobs c0))) as Hnr.
  { apply (NoDup_fmap_1 fst). change (fst <$> ?l) with (map fst l). eapply sublist_NoDup; [|apply relist_names]; done. }
  apply (StronglySorted_unique_strong le_name); [|done| |].
  - intros [n1 e1] [n2 e2] H1%Heq H2 H12 H21. assert (n1 = n2) as -> by (by apply str_leb_antisym).
    apply relist_elem in H1 as [_ [b1 H1]]. apply relist_elem in H2 as [_ [b2 H2]]. congruence.
  - apply sorted_by_name. eapply sublist_sorted; [apply relist_names|by apply sorted_by_name].
  - apply NoDup_Permutation; [by apply (NoDup_fmap_1 fst)|done|]. intros [n e]. apply Heq.
Qed.

Lemma publish_take relid l h : h !! relid = None -> take_unique relid (publish relid l h) = (h, Ok (Some l)).
Proof.
  intros Hh. unfold take_unique, publish. rewrite lookup_insert_eq, Hh. cbn. by rewrite delete_insert_id.
Qed.

(** C17: a scan of a pattern that is set up reads, in name order, exactly the
    stored blobs the pattern matches, with their current etags, but for
    staging blobs and blobs whose path refutes a pushed partition qual.  The
    container does not change, the sequential reader starts at the head of
    that list, and the modify side is handed the same list. *)
Theorem build_state_spec env node relid server um table g svc h svc' h' s :
  scan_options node = Ok (server, um, table) -> plan_source (filename table) = Ok (GlobSource g) -> parse_glob (filename table) = Ok g ->
  Z.of_nat (size (blobs svc)) <= MAX_LIST_RESULTS -> map_Forall (fun n _ => utf8_valid n = true) (blobs svc) ->
  build_state env node relid (svc, h) = ((svc', h'), Ok s) ->
  let l := sc_blobs (core s) in let attnums := sc_partition_attnums (core s) in
  blobs svc' = blobs svc /\ range_producer s = SequentialRanges l 0 /\ StronglySorted le_name l /\
  (h !! relid = None -> take_unique relid h' = (h, Ok (Some l))) /\
  forall n e, (n, e) ∈ l <->
    (exists body, blobs svc !! n = Some (e, body)) /\ is_staging_name n = false /\ glob_match (filename table) n /\
    kept (node_quals server node attnums) attnums (partition_keys table) n.
Proof.
  intros Ho Hsrc Hg Hsz Hutf Hrun. unfold build_state in Hrun. apply sm_bind_inv in Hrun as ([s1 h1] & c & Hc & Hrun).
  unfold on_store in Hc. destruct (build_scan_state_core env node svc) as [s2 r] eqn:Ec. injection Hc as -> -> ->.
  destruct (core_lists _ _ _ _ _ _ _ _ _ Ho Hsrc Hg Hsz Hutf Ec) as (Hb & Hsort & _ & Hin).
  apply sm_bind_inv in Hrun as ([s3 h3] & [] & Hp & Hrun). injection Hp as <- <-.
  apply sm_bind_inv in Hrun as ([s4 h4] & sm & Hm & Hrun). injection Hm as <- <- _. injection Hrun as <- <- <-.
  assert (forall c' : ScanStateCore, sc_blobs (core (set_sorted (assemble_scan_state c' (SequentialRanges (sc_blobs c) 0)) sm)) = sc_blobs c') as Hcb by done.
  assert (sc_blobs (match sm with Some _ => identity_projection c | None => c end) = sc_blobs c /\
    sc_partition_attnums (match sm with Some _ => identity_projection c | None => c end) = sc_partition_attnums c) as [E1 E2] by (by destruct sm).
  cbn zeta. cbn [core set_sorted assemble_scan_state range_producer]. rewrite E1, E2.
  split; [done|]. split; [done|]. split; [done|]. split; [apply publish_take|done].
Qed.
End Setup.

Section Rescan.
Context {A : ArrowApi} {P : PgApi} {K : ComputeApi} {SA : ParquetScanApi} {H : BinaryHeapApi}.
Context (debug_key : Key -> str) (old : list (option Datum)).

(** C18: a rescan of a plain scan, stopped anywhere, starts over: run to the
    end it emits one slot for every row of every readable blob of the list,
    with the ctids of a first scan, and the list is stacked once for the
    modify side. *)
Theorem re_scan_repeats relid rebuilt s l h sh :
  let c := core s in
  sorted_stream s = None -> sc_blobs c = map fst l -> (sc_partition_keys_decl c = [] -> partition_datums s = []) ->
  Forall (blob_scan_ok old c) l -> Z.of_nat (length (scan_spec old c [] l).2) <= u32_max -> (stacked_count relid h <= 1)%nat ->
  exists s' h', re_scan_foreign_scan relid rebuilt s h = (h', Ok s') /\
    h' !! relid = Some [sc_blobs c] /\ (forall r, r <> relid -> h' !! r = h !! r) /\
    exists N s'', blob_id_table s'' = (scan_spec old c [] l).2 /\
      forall F, (N <= F)%nat -> scan_all debug_key F s' sh old = Some (Ok (s'', sh, (scan_spec old c [] l).1)).
Proof.
  intros c Hsort Hbl Hds Hok Hmax Hst. unfold re_scan_foreign_scan. rewrite Hsort. erewrite sm_bind_Ok; [|done]. erewrite sm_bind_Ok; [|done].
  fold c. rewrite Hbl. eexists _, _. split; [reflexivity|]. split; [|split].
  - unfold publish. rewrite lookup_insert_eq. unfold discard, stacked_count in *. destruct (h !! relid) as [e|] eqn:E; [|by rewrite E].
    destruct e as [|x [|y e]]; [| |cbn in Hst; lia]; cbn [vec_pop removelast]; rewrite bool_decide_true by done; by rewrite lookup_delete_eq.
  - intros r Hr. unfold publish. rewrite lookup_insert_ne by done. unfold discard. destruct (h !! relid) as [e|]; [|done].
    destruct (vec_pop e) as [e' v]. case_bool_decide; [by rewrite lookup_delete_ne|by rewrite lookup_insert_ne].
  - destruct (scans_blobs old c l 0 0 [] 0 0 (partition_datums s) (notices s) sh (map fst l) eq_refl Hok Hds Hmax) as (s'' & Hs & Ht).
    destruct (scans_scan_all debug_key old _ _ _ _ _ Hs eq_refl) as (N & r & _ & Hall). exists N, s''. split; [done|exact Hall].
Qed.
End Rescan.

(** ** A concrete table *)



Definition demo_node : ScanNode :=
  mkNode (Ok (mkServerOptions "acct1" DEFAULT_ENDPOINT ManagedIdentity true, mkUserMapping None,
              mkTableOptions "data" "data/*.parquet" Snappy None [] [] [] false))
    [mkAttr (Some (lit "id")) INT8OID false false 1] (Some [1]) None true false.

Definition demo_setup_env : ClientEnv := mkClientEnv (fun _ => None) (Ok tt) (fun _ _ _ => Ok tt) (fun _ => Ok tt) (fun _ _ => Ok tt).

Definition demo_setup_glob : GlobPattern (R := ref_regex) := mkGlob (R := ref_regex) "data/" (map glob_atom "data/*.parquet").

Lemma build_state_spec_witness :
  exists svc' h' s,
    build_state (B := ref_blob (Y := str_bytes)) (SA := ref_scan) (X := ref_regex) (P := ref_pg) demo_setup_env demo_node 7 (demo_container, ∅)
      = ((svc', h'), Ok s) /\
    take_unique 7 h' = (∅, Ok (Some (sc_blobs (core s)))) /\ (lit "data/a.parquet", lit "e1") ∈ sc_blobs (core s).
Proof.
  destruct (build_state (B := ref_blob (Y := str_bytes)) (SA := ref_scan) (X := ref_regex) (P := ref_pg) demo_setup_env demo_node 7 (demo_container, ∅))
    as [[svc' h'] r] eqn:E.
  assert (is_ok r = true) as Hr.
  { change r with (snd ((svc', h'), r)). rewrite <- E. vm_compute. reflexivity. }
  destruct r as [s|e]; [|discriminate Hr].
  destruct (build_state_spec (B := ref_blob (Y := str_bytes)) (SA := ref_scan) (X := ref_regex) (P := ref_pg) demo_setup_env demo_node 7
    (mkServerOptions "acct1" DEFAULT_ENDPOINT ManagedIdentity true) (mkUserMapping None)
    (mkTableOptions "data" "data/*.parquet" Snappy None [] [] [] false) demo_setup_glob demo_container ∅ svc' h' s) as (_ & _ & _ & Ht & Hin).
  - reflexivity.
  - vm_compute. reflexivity.
  - vm_compute. reflexivity.
  - vm_compute. discriminate.
  - intros n x Hx. assert (n ∈ map fst (map_to_list demo_container)) as Hn.
    { apply list_elem_of_fmap. exists (n, x). split; [done|]. by apply elem_of_map_to_list. }
    assert (forallb utf8_valid (map fst (map_to_list demo_container)) = true) as Hall by (vm_compute; reflexivity).
    rewrite forallb_forall in Hall. apply Hall. by apply list_elem_of_In.
  - exact E.
  - exists svc', h', s. split; [reflexivity|]. split; [apply Ht; apply lookup_empty|]. apply Hin. split; [exists (lit "A"); vm_compute; reflexivity|].
    split; [vm_compute; reflexivity|]. split; [|left; vm_compute; reflexivity].
    cbn [filename]. apply (parse_glob_matches (R := ref_regex) "data/*.parquet" demo_setup_glob); [vm_compute; reflexivity|vm_compute; reflexivity|vm_compute; reflexivity].
Defined.

Lemma re_scan_repeats_witness :
  exists s' h', re_scan_foreign_scan 7 (Ok None) (assemble_scan_state (demo_core None) (SequentialRanges [] 5)) ∅ = (h', Ok s') /\
    exists N s'', forall F, (N <= F)%nat -> scan_all (SA := ref_scan) no_debug F s' 0 [None] = Some (Ok (s'', 0, (scan_spec [None] (demo_core None) [] (demo_l [1; 2; 3])).1)).
Proof.
  destruct (re_scan_repeats (SA := ref_scan) no_debug [None] 7 (Ok None) (assemble_scan_state (demo_core None) (SequentialRanges [] 5)) (demo_l [1; 2; 3]) ∅ 0)
    as (s' & h' & Hr & _ & _ & N & s'' & _ & Hall).
  - reflexivity.
  - reflexivity.
  - intros _. reflexivity.
  - apply demo_scan_ok; [reflexivity | vm_compute; reflexivity | cbn; lia].
  - vm_compute. discriminate.
  - unfold stacked_count. rewrite lookup_empty. lia.
  - exists s', h'. split; [exact Hr|]. exists N, s''. exact Hall.
Defined.
