(* ===== verification/SelectFilter.v ===== *)
(** * A blob opened with a filter ([open_scan_stream] in [fdw/scan.rs]).

    What the parquet reader does with a row-group selection, a projection and
    a row filter is documented behaviour of the crate: the class
    [ParquetScanLaws].  Section [Opening] puts the repository's side to it
    (the predicates of [build_row_filter], the groups of [prune_row_groups])
    and states which rows of the file the opened stream shows. *)

From S2P Require Import Prelude RustStr Redact Errors RowId Options Externals Kernel Convert BlobService Store Handoff Coordinator ParquetIO Modify PlanFacts Pushdown PushdownFacts RowFilter Partition MultiFile MergeFacts Scan.
Local Open Scope Z_scope.

(** ** What the reader promises *)

Section Law.
Context {A : ArrowApi}.

Definition rows_of (b : RecordBatch) : list Row := map (row_of b) (seq 0 (num_rows b)).

Definition same_row (r r' : Row) : Prop := forall i, r i = r' i.

(** A batch of the file's columns whose rows are among [U]. *)
Definition batch_from (types : list DataType) (U : list Row) (b : RecordBatch) : Prop :=
  map array_type (batch_columns b) = types /\ forall r, (r < num_rows b)%nat -> exists row, row ∈ U /\ same_row (row_of b r) row.

(** A predicate that decides row by row: on the masked columns of any batch
    of rows of [U] its closure gives [f] of each row. *)
Definition row_predicate (types : list DataType) (U : list Row) (p : Predicate) (f : Row -> option bool) : Prop :=
  (forall r r', same_row r r' -> f r = f r') /\ mask p <> [] /\ Forall (fun i => (i < length types)%nat) (mask p) /\
  forall fb pb, batch_from types U fb -> projected (mask p) fb pb ->
    run p pb = Ok (map (fun r => f (row_of fb r)) (seq 0 (num_rows fb))).

(** The columns a projection leaves, in file order. *)
Definition projected_cols (n : nat) (proj : option (list nat)) : list nat :=
  match proj with None => seq 0 n | Some cols => List.filter (fun i => bool_decide (i ∈ cols)) (seq 0 n) end.

(** Row [x.2] of the batch [x.1] is the projected row. *)
Definition shows (types : list DataType) (proj : option (list nat)) (row : Row) (x : RecordBatch * nat) : Prop :=
  (x.2 < num_rows x.1)%nat /\
  map array_type (batch_columns x.1) = omap (fun i => types !! i) (projected_cols (length types) proj) /\
  map (fun c => mjoin (array_cells c !! x.2)) (batch_columns x.1) = map row (projected_cols (length types) proj).

Definition passes (fs : list (Row -> option bool)) (row : Row) : bool := forallb (fun f => bool_decide (f row = Some true)) fs.

Definition selected_groups {T} (gs : list T) (keep : option (list nat)) : list T :=
  match keep with None => gs | Some ks => omap (fun k => gs !! k) ks end.

(** The builder over a file with the given column types and row groups: the
    footer describes the groups, and the stream shows, in file order, the
    projection of the rows of the selected groups that pass every
    predicate. *)
Class ParquetScanLaws (SA : ParquetScanApi) := {
  holds_file : ScanBuilder -> list DataType -> list RecordBatch -> Prop;
  types_law b types gs : holds_file b types gs -> Forall (fun g => map array_type (batch_columns g) = types) gs;
  metadata_law b types gs : holds_file b types gs ->
    Forall2 (fun rg g => group_describes rg (rows_of g)) (builder_metadata b) gs;
  build_law b types gs keep proj preds fs : holds_file b types gs ->
    (forall ks, keep = Some ks -> sublist ks (seq 0 (length gs))) ->
    (forall cols, proj = Some cols -> cols <> [] /\ Forall (fun i => (i < length types)%nat) cols) ->
    Forall2 (row_predicate types (concat (map rows_of gs))) (default [] preds) fs ->
    exists bs, builder_build b keep proj preds = Ok (map Ok bs) /\
      Forall2 (shows types proj) (List.filter (passes fs) (concat (map rows_of (selected_groups gs keep)))) (stream_rows bs);
}.
End Law.

(** ** Selecting groups *)

Lemma selected_sublist {T} (gs : list T) ks : sublist ks (seq 0 (length gs)) -> sublist (selected_groups gs (Some ks)) gs.
Proof.
  intros H. cbn. assert (forall n m, sublist n m -> sublist (omap (fun k => gs !! k) n) (omap (fun k => gs !! k) m)) as Hmono.
  { induction 1 as [|x l1 l2 _ IH|x l1 l2 _ IH]; [done|..]; cbn; destruct (gs !! x); by try constructor. }
  apply Hmono in H. enough (omap (fun k => gs !! k) (seq 0 (length gs)) = gs) as E by by rewrite E in H.
  clear. induction gs as [|g gs IH]; [done|]. cbn. f_equal. rewrite <- seq_shift. rewrite <- IH at 2.
  generalize (seq 0 (length gs)). intros l. induction l as [|x l IHl]; [done|]. cbn. rewrite IHl. done.
Qed.

(** Leaving out groups none of whose elements satisfies [p] loses nothing. *)
Lemma filter_none {T} (p : T -> bool) l : (forall x, x ∈ l -> p x = false) -> List.filter p l = [].
Proof. induction l as [|x l IH]; intros H; [done|]. cbn. rewrite H by left. apply IH. intros. apply H. by right. Qed.

Lemma selected_filter_from {T V} (f : T -> list V) (p : V -> bool) (gs : list T) : forall ks s,
  sublist ks (seq s (length gs)) -> (forall i g x, gs !! i = Some g -> x ∈ f g -> p x = true -> (s + i)%nat ∈ ks) ->
  List.filter p (concat (map f (omap (fun k => gs !! (k - s)%nat) ks))) = List.filter p (concat (map f gs)).
Proof.
  induction gs as [|g gs IH]; intros ks s Hs Hk; cbn [length seq] in Hs.
  { apply sublist_nil_r in Hs as ->. done. }
  assert (forall ks', sublist ks' (seq (S s) (length gs)) ->
    (forall k, k ∈ ks' -> (S s <= k)%nat) /\ omap (fun k => (g :: gs) !! (k - s)%nat) ks' = omap (fun k => gs !! (k - S s)%nat) ks') as Hshift.
  { intros ks' Hs'. assert (forall k, k ∈ ks' -> (S s <= k)%nat) as HF.
    { intros k Hkin. pose proof (elem_of_sublist _ _ _ Hkin Hs') as Hin. apply elem_of_seq in Hin. lia. }
    split; [done|]. clear -HF. induction ks' as [|k ks' IH]; [done|]. cbn [omap list_omap].
    assert (S s <= k)%nat by (apply HF; left).
    replace (k - s)%nat with (S (k - S s)) by lia. cbn [lookup list_lookup].
    rewrite IH; [done|]. intros. apply HF. by right. }
  inversion Hs as [|x l1 l2 Hs'|x l1 l2 Hs']; subst.
  - destruct (Hshift _ Hs') as [Hge E]. cbn [omap list_omap]. rewrite Nat.sub_diag. cbn [lookup list_lookup].
    rewrite E. cbn [map concat]. rewrite !List.filter_app. f_equal. apply IH; [done|].
    intros i g' v Hi Hv Hp. specialize (Hk (S i) g' v Hi Hv Hp). apply elem_of_cons in Hk as [Hk|Hk]; [lia|].
    by replace (S s + i)%nat with (s + S i)%nat by lia.
  - destruct (Hshift _ Hs') as [Hge E]. rewrite E. cbn [map concat]. rewrite List.filter_app, (filter_none p (f g)), app_nil_l.
    + apply IH; [done|]. intros i g' v Hi Hv Hp. specialize (Hk (S i) g' v Hi Hv Hp).
      by replace (S s + i)%nat with (s + S i)%nat by lia.
    + intros v Hv. destruct (p v) eqn:Hp; [|done]. specialize (Hk O g v eq_refl Hv Hp). specialize (Hge _ Hk). lia.
Qed.

Lemma selected_filter {T V} (f : T -> list V) (p : V -> bool) (gs : list T) ks :
  sublist ks (seq 0 (length gs)) -> (forall i g x, gs !! i = Some g -> x ∈ f g -> p x = true -> i ∈ ks) ->
  List.filter p (concat (map f (selected_groups gs (Some ks)))) = List.filter p (concat (map f gs)).
Proof.
  intros Hs Hk. rewrite <- (selected_filter_from f p gs ks 0 Hs Hk). cbn. do 2 f_equal.
  clear. f_equal. induction ks as [|k ks IH]; [done|]. cbn. by rewrite Nat.sub_0_r, IH.
Qed.

Lemma sublist_concat {T V} (f : T -> list V) l1 l2 : sublist l1 l2 -> sublist (concat (map f l1)) (concat (map f l2)).
Proof. induction 1 as [|x l1 l2 _ IH|x l1 l2 _ IH]; cbn; [done|by apply sublist_app|by apply sublist_inserts_l]. Qed.

Lemma bool_filter_sublist {T} (p : T -> bool) (l : list T) : sublist (List.filter p l) l.
Proof. induction l as [|x l IH]; cbn; [done|]. destruct (p x); by constructor. Qed.

(** Rows dropped that the stronger test [q] rejects anyway. *)
Lemma filter_weaker {T} (p q : T -> bool) (l : list T) :
  (forall x, x ∈ l -> q x = true -> p x = true) -> List.filter q (List.filter p l) = List.filter q l.
Proof.
  induction l as [|x l IH]; intros H; [done|]. cbn. specialize (IH (fun y Hy => H y (list_elem_of_further _ _ _ Hy))).
  destruct (p x) eqn:E; cbn; rewrite IH; [done|].
  destruct (q x) eqn:E2; [|done]. rewrite H in E; [done|left|done].
Qed.

(** ** The repository's predicates decide row by row *)

Section Opening.
Context {A : ArrowApi} {AL : ArrowLaws A} {C : ComputeApi} {CL : ComputeLaws C} {SA : ParquetScanApi} {SL : ParquetScanLaws SA}.

Lemma arrow_eval_ext e r r' : same_row r r' -> arrow_eval e r = arrow_eval e r'.
Proof.
  intros H. induction e as [q|xs IH|xs IH|x IH] using PushedExpr_ind'; cbn [arrow_eval].
  - by rewrite H.
  - f_equal. apply map_ext_in. intros x Hx. rewrite Forall_forall in IH. by apply IH, list_elem_of_In.
  - f_equal. apply map_ext_in. intros x Hx. rewrite Forall_forall in IH. by apply IH, list_elem_of_In.
  - by rewrite IH.
Qed.

(** What the file must look like for an expression: columns of the literals'
    types; floats regular. *)
Definition fits (types : list DataType) (U : list Row) (e : PushedExpr) : Prop :=
  forall q, q ∈ leaves e -> exists ty, types !! col q = Some ty /\
    (null_test (op q) = true \/ exists v, lit_array (value q) ty = Some (ty, v)) /\
    forall row v, row ∈ U -> row (col q) = Some v -> null_test (op q) = true \/ plain_value v (value q).

(** An expression the row filter evaluates as SQL does: it names columns, in
    file order, and it is a conjunction of leaves and one-column
    disjunctions, or no column it names holds a NULL. *)
Record exactly_filtered (types : list DataType) (U : list Row) (e : PushedExpr) : Prop := {
  ef_fits : fits types U e;
  ef_leaves : leaves e <> [];
  ef_order : StronglySorted lt (collect_cols e);
  ef_shape : exact e = true \/ forall q row, q ∈ leaves e -> row ∈ U -> row (col q) <> None;
}.

Lemma collect_from_leaf e : forall out i, i ∈ collect_walk e out -> i ∈ out \/ exists q, q ∈ leaves e /\ col q = i.
Proof.
  induction e as [q|xs IH|xs IH|x IH] using PushedExpr_ind'; intros out i Hi; cbn [collect_walk leaves] in *.
  - case_bool_decide; [by left|]. apply elem_of_app in Hi as [Hi|Hi%list_elem_of_singleton]; [by left|]. right.
    exists q. split; [left|done].
  - revert out Hi. induction IH as [|x xs Hx _ IHl]; intros out Hi; cbn in *; [by left|].
    apply IHl in Hi as [Hi|(q & Hq & ?)]; [apply Hx in Hi as [?|(q & Hq & ?)]; [by left|]|]; right; exists q;
      (split; [apply elem_of_app; auto|done]).
  - revert out Hi. induction IH as [|x xs Hx _ IHl]; intros out Hi; cbn in *; [by left|].
    apply IHl in Hi as [Hi|(q & Hq & ?)]; [apply Hx in Hi as [?|(q & Hq & ?)]; [by left|]|]; right; exists q;
      (split; [apply elem_of_app; auto|done]).
  - by apply IH.
Qed.

Lemma fits_columns types U e : fits types U e -> Forall (fun i => (i < length types)%nat) (collect_cols e).
Proof.
  intros Hf. apply Forall_forall. intros i Hi. apply collect_from_leaf in Hi as [Hi|(q & Hq & <-)]; [by apply not_elem_of_nil in Hi|].
  destruct (Hf q Hq) as (ty & Hty & _). by apply lookup_lt_Some in Hty.
Qed.

Lemma fits_batch types U e fb : fits types U e -> batch_from types U fb -> leaves_fit e fb.
Proof.
  intros Hf [Hty Hrows] q Hq. destruct (Hf q Hq) as (ty & Hl & Ht & Hv). rewrite <- Hty, (list_lookup_fmap array_type) in Hl.
  apply fmap_Some in Hl as (c & Hc & ->). exists c. split; [done|]. split; [done|]. intros v Hin.
  apply list_elem_of_lookup in Hin as [r Hr]. pose proof (columns_len fb) as Hlen. rewrite Forall_forall in Hlen.
  specialize (Hlen c (list_elem_of_lookup_2 _ _ _ Hc)). pose proof (lookup_lt_Some _ _ _ Hr) as Hlt. unfold array_len in Hlen.
  destruct (Hrows r) as (row & HU & Hsame); [lia|]. apply (Hv row); [done|].
  rewrite <- (Hsame (col q)), (row_cell _ _ _ _ Hc), Hr. done.
Qed.

Lemma predicate_row types U e :
  fits types U e -> leaves e <> [] -> StronglySorted lt (collect_cols e) -> row_predicate types U (predicate_of e) (arrow_eval e).
Proof.
  intros Hf Hne Hs. pose proof (fits_columns _ _ _ Hf) as HF. split; [intros; by apply arrow_eval_ext|]. split.
  { destruct (leaves e) as [|q l] eqn:E; [done|]. assert (col q ∈ collect_cols e) as Hq by (apply collect_walk_leaf; rewrite E; left).
    intros Hm. cbn in Hm. rewrite Hm in Hq. by apply not_elem_of_nil in Hq. }
  split; [done|].
  intros fb pb Hfb Hp. apply leaves_fit_run; [done|done| |by eapply fits_batch].
  destruct Hfb as [Hty _]. by rewrite <- Hty, length_map in HF.
Qed.

Lemma exactly_filtered_eval types U e row : exactly_filtered types U e -> row ∈ U ->
  arrow_eval e row = Some true <-> sql_eval e row = Some true.
Proof.
  intros [Hf _ _ Hsh] HU.
  assert (plain_row e row) as Hp by (intros q v Hq Hv; destruct (Hf q Hq) as (_ & _ & _ & H); by apply (H row)).
  destruct Hsh as [He|Hn]; [by apply exact_eval|]. destruct (no_null_eval e row) as [-> _]; [|done|done].
  intros q Hq. specialize (Hn q row Hq HU). by destruct (row (col q)).
Qed.

Lemma preds_rows types U exprs : Forall (exactly_filtered types U) exprs ->
  Forall2 (row_predicate types U) (default [] (build_row_filter exprs)) (map arrow_eval exprs).
Proof.
  intros HF. assert (default [] (build_row_filter exprs) = map predicate_of exprs) as -> by by destruct exprs.
  induction HF as [|e es [Hf Hl Ho _] _ IH]; cbn; constructor; [by apply predicate_row|done].
Qed.

(** The groups pruning keeps. *)
Lemma keep_ok exprs b types gs : holds_file b types gs ->
  exists keep, keep_row_groups exprs b = Ok keep /\
    (forall ks, keep = Some ks -> sublist ks (seq 0 (length gs)) /\
      forall i g row, gs !! i = Some g -> row ∈ rows_of g -> (forall e, e ∈ exprs -> sql_eval e row = Some true) -> i ∈ ks).
Proof.
  intros Hb. unfold keep_row_groups. destruct exprs as [|e0 es]; [by exists None|]. set (exprs := e0 :: es).
  destruct (builder_footer_schema b) as [schema|]; [|by exists None].
  destruct (prune_ok (builder_metadata b) exprs schema) as (res & -> & Hres). exists res. split; [done|].
  intros ks ->. destruct (Hres ks eq_refl) as [Hsub Hk]. pose proof (metadata_law b types gs Hb) as HF.
  rewrite <- (Forall2_length _ _ _ HF). split; [done|]. intros i g row Hg Hrow Hall.
  destruct (Forall2_lookup_r _ _ _ _ _ HF Hg) as (rg & Hrg & Hd). by apply (Hk i rg (rows_of g) row).
Qed.

Definition satisfies (exprs : list PushedExpr) (row : Row) : bool :=
  forallb (fun e => bool_decide (sql_eval e row = Some true)) exprs.

Lemma satisfies_spec exprs row : satisfies exprs row = true <-> forall e, e ∈ exprs -> sql_eval e row = Some true.
Proof.
  unfold satisfies. rewrite forallb_forall. split; intros H e He; [|apply list_elem_of_In in He].
  - apply list_elem_of_In in He. by apply H, bool_decide_eq_true in He.
  - by apply bool_decide_eq_true, H.
Qed.

Lemma passes_spec types U exprs row : Forall (exactly_filtered types U) exprs -> row ∈ U ->
  passes (map arrow_eval exprs) row = satisfies exprs row.
Proof.
  intros HF HU. unfold passes, satisfies. induction HF as [|e es He _ IH]; [done|]. cbn. rewrite IH. f_equal.
  apply bool_decide_ext. by apply (exactly_filtered_eval types U).
Qed.

Lemma rows_of_length (b : RecordBatch) : length (rows_of b) = num_rows b.
Proof. unfold rows_of. by rewrite length_map, length_seq. Qed.

Lemma rows_of_column (b : RecordBatch) i :
  map (fun row : Row => row i) (rows_of b) =
    match batch_columns b !! i with Some c => array_cells c | None => replicate (num_rows b) None end.
Proof.
  unfold rows_of. rewrite map_map. destruct (batch_columns b !! i) as [c|] eqn:E.
  - rewrite (map_ext _ (fun r => mjoin (array_cells c !! r))) by (intros r; by apply row_cell).
    pose proof (columns_len b) as Hl. rewrite Forall_forall in Hl. specialize (Hl c (list_elem_of_lookup_2 _ _ _ E)).
    rewrite <- (cells_by_row c (num_rows b) (fun x => x) Hl). apply map_id.
  - rewrite (map_ext _ (fun _ => None)) by (intros r; unfold row_of; by rewrite E).
    generalize (num_rows b) as n. generalize 0%nat. intros s n. revert s. induction n; intros s; cbn; by rewrite ?IHn.
Qed.

Definition file_rows (gs : list RecordBatch) : list Row := concat (map rows_of gs).

(** A column of the rows of a file. *)
Lemma file_rows_column types gs i : Forall (fun g => map array_type (batch_columns g) = types) gs -> (i < length types)%nat ->
  map (fun row : Row => row i) (file_rows gs) = blob_column i gs.
Proof.
  intros HF Hi. induction HF as [|g gs Hg _ IH]; [done|]. unfold file_rows, blob_column in *. cbn [map concat].
  rewrite map_app, IH, rows_of_column. f_equal.
  destruct (lookup_lt_is_Some_2 (batch_columns g) i) as [c Hc]; [by rewrite <- Hg, length_map in Hi|].
  by rewrite Hc, (col_cells_some i g c Hc).
Qed.

Lemma file_rows_length gs : length (file_rows gs) = total_rows gs.
Proof.
  induction gs as [|g gs IH]; [done|]. unfold file_rows. cbn [map concat]. rewrite length_app, rows_of_length. fold (file_rows gs). rewrite IH. done.
Qed.

(** An opened blob shows, in file order, rows of the file among which are all
    those that satisfy the pushed expressions; the others it shows satisfy
    them too. *)
Lemma open_shows (c : ScanStateCore) blob b types gs :
  builder_new blob = Ok b -> holds_file b types gs ->
  (forall cols, sc_projection c = Some cols -> cols <> [] /\ Forall (fun i => (i < length types)%nat) cols) ->
  Forall (exactly_filtered types (file_rows gs)) (default [] (sc_qual_filter c)) ->
  exists bs emitted, open_scan_stream c blob = Ok (map Ok bs) /\
    Forall2 (shows types (sc_projection c)) emitted (stream_rows bs) /\
    emitted = List.filter (satisfies (default [] (sc_qual_filter c))) (file_rows gs).
Proof.
  intros Hnew Hb Hproj Hex. unfold open_scan_stream. rewrite Hnew. cbn [map_err mbind result_bind].
  destruct (sc_qual_filter c) as [exprs|]; cbn [default from_option id] in *.
  - destruct (keep_ok exprs b types gs Hb) as (keep & -> & Hkeep). cbn [mbind result_bind].
    destruct (build_law b types gs keep (sc_projection c) (build_row_filter exprs) (map arrow_eval exprs)) as (bs & -> & Hs);
      [done|by intros ks Hks; apply Hkeep|done|by apply preds_rows|].
    exists bs, (List.filter (passes (map arrow_eval exprs)) (concat (map rows_of (selected_groups gs keep)))).
    split; [done|]. split; [done|].
    assert (forall l, sublist l (file_rows gs) -> List.filter (passes (map arrow_eval exprs)) l = List.filter (satisfies exprs) l) as Hsame.
    { intros l Hl. apply filter_ext_in. intros row Hrow%list_elem_of_In. eapply passes_spec; [done|]. by eapply elem_of_sublist. }
    destruct keep as [ks|]; [|by apply Hsame]. destruct (Hkeep ks eq_refl) as [Hsub Hk].
    rewrite Hsame by by apply sublist_concat, selected_sublist.
    apply (selected_filter rows_of); [done|]. intros i g row Hg Hrow Hp. apply (Hk i g row Hg Hrow). by apply satisfies_spec.
  - destruct (build_law b types gs None (sc_projection c) None []) as (bs & -> & Hs); [done|done|done|constructor|].
    exists bs. eexists. split; [done|]. split; [exact Hs|]. done.
Qed.
End Opening.
