(* ===== verification/SelectWhere.v ===== *)
(** * SELECT with a WHERE clause.

    The setup of [ScanPlan], the opened streams of [SelectFilter] and the
    executor's loop of [ScanFacts] together: on a table without partition
    columns the scan emits rows of the listed files among which the WHERE
    clause, applied again by Postgres, finds exactly the rows of the files
    that satisfy it. *)

From S2P Require Import Prelude RustStr Redact Errors RowId Options Externals Kernel Convert BlobService Store Handoff Coordinator ParquetIO Modify PlanFacts Pushdown PushdownFacts RowFilter PushdownWalk Partition Glob MultiFile MergeFacts Scan ScanFacts ScanClaims ScanPlan SelectFilter.
Local Open Scope Z_scope.

Section Slots.
Context {A : ArrowApi} {AL : ArrowLaws A} {P : PgApi}.
Context (c : ScanStateCore) (types : list DataType).
Abbreviation natts := (length (sc_pg_oids c)).

(** The datum of column [att] of a row. *)
Definition column_shows (row : Row) (att : nat) (d : option Datum) : Prop :=
  exists ty oid, types !! att = Some ty /\ sc_pg_oids c !! att = Some oid /\ arrow_value_to_datum ty (row att) oid = Ok d.

(** A slot of the scan for a row of the file: the projected columns hold the
    row's datums, the others are NULL. *)
Definition slot_shows (row : Row) (vals : list (option Datum)) : Prop :=
  length vals = natts /\
  (forall att, att ∈ sc_attno_map c -> exists d, column_shows row att d /\ vals !! att = Some d) /\
  (forall att, (att < natts)%nat -> att ∉ sc_attno_map c -> vals !! att = Some None).

Definition convertible (row : Row) : Prop := forall att, att ∈ sc_attno_map c -> exists d, column_shows row att d.

Lemma fill_fold (x : RecordBatch * nat) row l : forall k vals,
  length vals = natts -> NoDup l -> Forall (fun i => (i < natts)%nat) l ->
  (forall j att, l !! j = Some att -> exists arr d, batch_columns x.1 !! (k + j)%nat = Some arr /\
     types !! att = Some (array_type arr) /\ array_cells arr !! x.2 = Some (row att) /\ column_shows row att d) ->
  exists vals', foldM (fill_column c x.1 x.2) vals (combine (seq k (length l)) l) = Ok vals' /\ length vals' = natts /\
    (forall att, att ∈ l -> exists d, column_shows row att d /\ vals' !! att = Some d) /\
    (forall att, att ∉ l -> vals' !! att = vals !! att).
Proof.
  induction l as [|a l IH]; intros k vals Hlen Hnd Hlt Hcols; cbn [length seq combine foldM].
  - exists vals. split; [done|]. split; [done|]. split; [by intros ? ?%not_elem_of_nil|done].
  - apply NoDup_cons in Hnd as [Hna Hnd]. apply Forall_cons in Hlt as [Ha Hlt].
    destruct (Hcols O a eq_refl) as (arr & d & Harr & Hty & Hcell & (ty & oid & Hty' & Hoid & Hd)). rewrite Nat.add_0_r in Harr.
    rewrite Hty in Hty'. injection Hty' as <-.
    assert (fill_column c x.1 x.2 vals (k, a) = Ok (<[a := d]> vals)) as ->.
    { unfold fill_column. destruct (Nat.leb_spec natts a); [lia|]. rewrite Harr, Hoid. cbn [ok_or mbind result_bind].
      rewrite Hcell. cbn [ok_or mbind result_bind]. by rewrite Hd. }
    cbn [mbind result_bind].
    destruct (IH (S k) (<[a := d]> vals)) as (vals' & Hf & Hl & Hin & Hout); [by rewrite length_insert|done|done| |].
    { intros j att Hj. destruct (Hcols (S j) att Hj) as (arr' & d' & H & ?). exists arr', d'. split; [|done].
      by replace (S k + j)%nat with (k + S j)%nat by lia. }
    exists vals'. split; [exact Hf|]. split; [done|]. split.
    + intros att [->|Hatt]%elem_of_cons; [|by apply Hin]. exists d. split; [by exists (array_type arr), oid|].
      rewrite Hout by done. apply list_lookup_insert_eq. lia.
    + intros att Hatt. apply not_elem_of_cons in Hatt as [Hne Hatt]. rewrite Hout by done. by apply list_lookup_insert_ne.
Qed.

Lemma sorted_nodup l : StronglySorted lt l -> NoDup l.
Proof. induction 1 as [|x l _ IH HF]; constructor; [|done]. intros Hin. rewrite Forall_forall in HF. specialize (HF x Hin). lia. Qed.

(** A sorted list of as many numbers below [n] misses none. *)
Lemma sorted_full l n att : StronglySorted lt l -> Forall (fun i => (i < n)%nat) l -> (n <= length l)%nat -> (att < n)%nat -> att ∈ l.
Proof.
  intros Hs HF Hl Ha. destruct (decide (att ∈ l)) as [|Hn]; [done|].
  assert (length (att :: l) <= length (seq 0 n))%nat as Hc.
  { apply submseteq_length, NoDup_submseteq; [constructor; [done|by apply sorted_nodup]|].
    intros i [->|Hi]%elem_of_cons; apply elem_of_seq; [lia|]. rewrite Forall_forall in HF. specialize (HF i Hi). lia. }
  cbn [length] in Hc. rewrite length_seq in Hc. lia.
Qed.

Lemma fill_shows (x : RecordBatch * nat) row old :
  StronglySorted lt (sc_attno_map c) -> Forall (fun i => (i < natts)%nat) (sc_attno_map c) -> sc_partition_attnums c = [] ->
  Forall (fun i => (i < length types)%nat) (sc_attno_map c) -> length old = natts ->
  shows types (Some (sc_attno_map c)) row x -> convertible row ->
  exists vals, fill_slot c [] x.1 x.2 old = Ok vals /\ slot_shows row vals.
Proof.
  intros Hs Hlt Hpart Htypes Hold (Hr & Hty & Hcells) Hconv. cbn [projected_cols] in Hty, Hcells.
  rewrite filter_sorted in Hty, Hcells by (done || (eapply Forall_impl; [exact Htypes|]; cbn; intros; lia)).
  set (proj := sc_attno_map c) in *.
  set (start := if (length proj <? natts)%nat then replicate natts None else old).
  destruct (fill_fold x row proj 0 start) as (vals & Hf & Hlen & Hin & Hout).
  - unfold start. destruct (_ <? _)%nat; [apply length_replicate|done].
  - by apply sorted_nodup.
  - done.
  - intros j att Hj. destruct (Hconv att) as [d Hd]; [by eapply list_elem_of_lookup_2|].
    assert (exists arr, batch_columns x.1 !! j = Some arr) as [arr Harr].
    { apply lookup_lt_is_Some. apply (f_equal length) in Hcells. rewrite !length_map in Hcells. rewrite Hcells. by eapply lookup_lt_Some. }
    exists arr, d. split; [done|]. split; [|split; [|done]].
    + rewrite <- (omap_all_lookup types proj Htypes j att Hj), <- Hty, (list_lookup_fmap array_type), Harr. done.
    + pose proof (f_equal (fun l => l !! j) Hcells) as Hcell. cbn beta in Hcell.
      rewrite (list_lookup_fmap (fun c => mjoin (array_cells c !! x.2))), Harr, (list_lookup_fmap row), Hj in Hcell.
      injection Hcell as Hcell. pose proof (columns_len x.1) as Hcl. rewrite Forall_forall in Hcl.
      specialize (Hcl arr (list_elem_of_lookup_2 _ _ _ Harr)). unfold array_len in Hcl.
      destruct (lookup_lt_is_Some_2 (array_cells arr) x.2) as [y Hy]; [lia|]. rewrite Hy in Hcell |- *. cbn in Hcell. by subst y.
  - exists vals. split.
    + unfold fill_slot. fold proj. fold start. unfold indexed. rewrite Hf. cbn [mbind result_bind]. by rewrite Hpart.
    + split; [done|]. split; [exact Hin|]. intros att Ha Hn. rewrite Hout by done. unfold start.
      destruct (Nat.ltb_spec (length proj) natts); [by apply lookup_replicate_2|].
      destruct Hn. by apply (sorted_full proj natts).
Qed.
End Slots.

(** ** The scan of all listed files *)

Section Scan.
Context {A : ArrowApi} {AL : ArrowLaws A} {P : PgApi} {C : ComputeApi} {CL : ComputeLaws C} {SA : ParquetScanApi} {SL : ParquetScanLaws SA}
  {H : BinaryHeapApi}.
Context (debug_key : Key -> str) (old : list (option Datum)) (c : ScanStateCore) (types : list DataType) (files : str -> list RecordBatch).

(** The rows of the listed files, in listing order. *)
Definition listed_rows (bl : BlobList) : list Row := concat (map (fun b => file_rows (files b.1)) bl).

(** An unpartitioned scan whose projection is its column map, ascending and
    within the relation and the file. *)
Record plain_core : Prop := {
  pc_partitions : sc_partition_attnums c = [] /\ sc_partition_keys_decl c = [];
  pc_projection : sc_projection c = Some (sc_attno_map c);
  pc_sorted : StronglySorted lt (sc_attno_map c);
  pc_natts : Forall (fun i => (i < length (sc_pg_oids c))%nat) (sc_attno_map c);
  pc_types : sc_attno_map c <> [] /\ Forall (fun i => (i < length types)%nat) (sc_attno_map c);
  pc_old : length old = length (sc_pg_oids c);
}.

(** The blob is stored as a readable file whose rows can be shown and
    filtered. *)
Definition readable (b : str * str) : Prop :=
  (exists builder, builder_new b.1 = Ok builder /\ holds_file builder types (files b.1)) /\
  Forall (exactly_filtered types (file_rows (files b.1))) (default [] (sc_qual_filter c)) /\
  Forall (convertible c types) (file_rows (files b.1)).

Definition shown (b : str * str) (o : (str * str) * BlobScan) : Prop :=
  o.1 = b /\ exists bs, o.2 = Scanned [] bs /\
    Forall2 (fun row x => slot_shows c types row (slot_values old c [] x))
      (List.filter (satisfies (default [] (sc_qual_filter c))) (file_rows (files b.1))) (stream_rows bs).

Lemma blob_shown b : plain_core -> readable b -> (Z.of_nat (length (file_rows (files b.1))) <= u32_max) ->
  exists o, shown b o /\ blob_scan_ok old c o.
Proof.
  intros [[Hp Hd] Hproj Hs Hlt [Hne Hty] Hold] ((builder & Hnew & Hb) & Hex & Hconv) Hmax.
  destruct (open_shows c b.1 builder types (files b.1) Hnew Hb) as (bs & emitted & Hopen & Hshow & ->);
    [by rewrite Hproj; intros cols [= <-]|done|].
  rewrite Hproj in Hshow. exists (b, Scanned [] bs).
  set (kept := List.filter _ (file_rows (files b.1))) in *.
  assert (sublist kept (file_rows (files b.1))) as Hsub by apply bool_filter_sublist.
  assert (Forall2 (fun row x => exists vals, fill_slot c [] x.1 x.2 old = Ok vals /\ slot_shows c types row vals) kept (stream_rows bs)) as HF.
  { assert (Forall (convertible c types) kept) as Hck.
    { rewrite Forall_forall in Hconv |- *. intros row Hr. apply Hconv. by eapply elem_of_sublist. }
    clear -Hshow Hck Hs Hlt Hty Hold Hp AL. induction Hshow as [|row x rows xs Hx _ IH]; constructor.
    - apply Forall_cons in Hck as [Hr _]. by apply fill_shows.
    - apply IH. by apply Forall_cons in Hck as [_ ?]. }
  split.
  - split; [done|]. exists bs. split; [done|]. eapply Forall2_impl; [exact HF|]. intros row x (vals & Hf & Hv).
    unfold slot_values. by rewrite Hf.
  - cbn. rewrite bool_decide_eq_true_2 by done. split; [done|]. split; [done|]. split.
    + apply Forall_forall. intros x Hx. apply list_elem_of_lookup in Hx as [i Hi].
      destruct (Forall2_lookup_r _ _ _ _ _ HF Hi) as (row & _ & vals & Hf & _). unfold row_ok, slot_values. by rewrite Hf.
    + rewrite <- (Forall2_length _ _ _ HF). apply sublist_length in Hsub. unfold u32_max, u64_max in *. lia.
Qed.

Lemma chunk_count_le n : 0 <= n -> chunk_count n <= n + 1.
Proof. unfold chunk_count, CHUNK_ROWS. intros. Z.div_mod_to_equations. lia. Qed.

(** The slots of the scan and the size of its chunk table. *)
Lemma spec_shows bl l : Forall2 shown bl l -> forall table,
  Forall2 (fun row s => slot_shows c types row (tts_values s))
    (List.filter (satisfies (default [] (sc_qual_filter c))) (listed_rows bl)) (scan_spec old c table l).1 /\
  Z.of_nat (length (scan_spec old c table l).2) <= Z.of_nat (length table) + Z.of_nat (length (listed_rows bl)) + Z.of_nat (length bl).
Proof.
  induction 1 as [|b [[nm et] o] bl l [Hb (bs & Ho & HF)] _ IH]; intros table.
  { cbn. split; [constructor|lia]. }
  cbn in Hb, Ho. subst o. cbn [scan_spec]. unfold listed_rows. cbn [map concat]. fold (listed_rows bl).
  set (n := Z.of_nat (length (stream_rows bs))).
  destruct (IH (table ++ blob_chunks nm et n)) as [Hs Hl]. destruct (scan_spec old c _ l) as [slots table']. cbn [fst snd] in *.
  split.
  - rewrite List.filter_app. apply Forall2_app; [|done]. clear -HF. revert HF. generalize (Z.of_nat (length table)) as base. intros base.
    generalize 0 as k. intros k HF. revert k. induction HF as [|row x rows xs Hx _ IH]; intros k; cbn; constructor; [done|apply IH].
  - pose proof (chunk_count_le n ltac:(lia)). rewrite length_app in *. pose proof (blob_chunks_length nm et n).
    pose proof (Forall2_length _ _ _ HF) as Hlen.
    pose proof (sublist_length _ _ (bool_filter_sublist (satisfies (default [] (sc_qual_filter c))) (file_rows (files b.1)))).
    unfold n in *. cbn [length]. lia.
Qed.

Lemma scan_shows bl sh : plain_core -> Forall readable bl ->
  Z.of_nat (length (listed_rows bl) + length bl) <= u32_max ->
  exists N s' slots, (forall F, (N <= F)%nat ->
      scan_all debug_key F (assemble_scan_state c (SequentialRanges bl 0)) sh old = Some (Ok (s', sh, slots))) /\
    Forall2 (fun row s => slot_shows c types row (tts_values s))
      (List.filter (satisfies (default [] (sc_qual_filter c))) (listed_rows bl)) slots.
Proof.
  intros Hc Hread Hmax.
  assert (exists l, Forall2 shown bl l /\ Forall (blob_scan_ok old c) l) as (l & Hshown & Hok).
  { revert Hmax. induction Hread as [|b bl Hb _ IH]; intros Hmax; [by exists []|]. unfold listed_rows in *. cbn [map concat length] in Hmax.
    rewrite length_app in Hmax. destruct (blob_shown b Hc Hb) as (o & Ho & Hbo); [lia|].
    destruct IH as (l & Hl & Hlo); [lia|]. exists (o :: l). split; by constructor. }
  destruct (spec_shows bl l Hshown []) as [Hs Hl]. cbn [length] in Hl.
  assert (map fst l = bl) as Hfst.
  { clear -Hshown. induction Hshown as [|b o bl l [Hb _] _ IH]; [done|]. cbn. by rewrite Hb, IH. }
  destruct (scan_runs debug_key old c l sh Hok) as (N & s' & _ & Hall); [lia|].
  rewrite Hfst in Hall. exists N, s', (scan_spec old c [] l).1. split; [done|exact Hs].
Qed.
End Scan.

(** ** The statement *)

Section Statement.
Context {Y : BytesApi} {B : BlobApi} {X : RegexApi} {A : ArrowApi} {AL : ArrowLaws A} {P : PgApi} {C : ComputeApi} {CL : ComputeLaws C}
  {SA : ParquetScanApi} {SL : ParquetScanLaws SA} {H : BinaryHeapApi} {S : PgSem} {PL : PgSemLaws S}.

(** Without partition columns every attribute is its own parquet column. *)
Lemma storage_identity n : forall i j, storage_map_from i j n [] = map Some (seq j n).
Proof.
  induction n as [|n IH]; intros i j; cbn [storage_map_from]; [done|].
  rewrite bool_decide_eq_false_2 by apply not_elem_of_nil. by rewrite IH.
Qed.

Lemma translate_identity n e e' : translate_qual_to_parquet_idx e (map Some (seq 0 n)) = Some e' -> e' = e.
Proof.
  assert (forall xs, Forall (fun x => forall y, translate_qual_to_parquet_idx x (map Some (seq 0 n)) = Some y -> y = x) xs ->
    forall ys, (fix all (xs : list PushedExpr) : option (list PushedExpr) :=
      match xs with [] => Some []
      | x :: xs' => y ← translate_qual_to_parquet_idx x (map Some (seq 0 n)); ys ← all xs'; Some (y :: ys) end) xs = Some ys -> ys = xs) as Hall.
  { induction 1 as [|x xs Hx _ IH]; intros ys Hys; [by injection Hys as <-|].
    destruct (translate_qual_to_parquet_idx x _) as [y|]; [|done]. cbn [mbind option_bind] in Hys.
    destruct (_ xs) as [ys'|]; [|done]. injection Hys as <-. by rewrite (Hx y eq_refl), (IH ys' eq_refl). }
  revert e'. induction e as [q|xs IH|xs IH|x IH] using PushedExpr_ind'; intros e' He; cbn [translate_qual_to_parquet_idx] in He.
  - apply bind_Some in He as (p & Hp & He). injection He as <-. rewrite (list_lookup_fmap Some) in Hp.
    destruct (seq 0 n !! col q) as [k|] eqn:E; [|done]. injection Hp as <-. apply lookup_seq in E as [-> _]. by destruct q.
  - apply fmap_Some in He as (ys & Hys & ->). by rewrite (Hall xs IH ys Hys).
  - apply fmap_Some in He as (ys & Hys & ->). by rewrite (Hall xs IH ys Hys).
  - apply fmap_Some in He as (y & Hy & ->). by rewrite (IH y Hy).
Qed.

Lemma projection_sorted natts private l :
  match private with None => True | Some attnums => StronglySorted Z.lt attnums end ->
  decode_projection natts private = Ok l -> StronglySorted lt l /\ Forall (fun i => (i < natts)%nat) l.
Proof.
  intros Hs Hl. unfold decode_projection in Hl. destruct private as [attnums|].
  - apply mapM_res_Ok in Hl. assert (StronglySorted Z.lt (match attnums with [] => [1] | _ => attnums end)) as Hs' by (destruct attnums; [repeat constructor|done]).
    clear Hs. revert Hs' Hl. generalize (match attnums with [] => [1] | _ => attnums end). clear. intros as' Hs Hl.
    assert (forall a i, project_attnum natts a = Ok i -> (i < natts)%nat /\ a = Z.of_nat i + 1) as Hp.
    { intros a i. unfold project_attnum. destruct (Z.leb_spec 0 (a - 1)), (Z.ltb_spec (a - 1) (Z.of_nat natts)); cbn; try done.
      intros [= <-]. lia. }
    induction Hl as [|a i as' is' Ha Hl IH]; [split; constructor|]. apply StronglySorted_inv in Hs as [Hs Hlt].
    destruct (IH Hs) as [H1 H2]. apply Hp in Ha as [Hi ->]. split; constructor; try done.
    apply Forall_forall. intros i' Hi'. apply list_elem_of_lookup in Hi' as [k Hk].
    destruct (Forall2_lookup_r _ _ _ _ _ Hl Hk) as (a' & Ha' & Hpa). apply Hp in Hpa as [_ ->].
    apply list_elem_of_lookup_2 in Ha'. pose proof (proj1 (Forall_forall _ _) Hlt _ Ha'). lia.
  - injection Hl as <-. split.
    + clear. generalize 0%nat. induction natts as [|n IH]; intros s; cbn; constructor; [apply IH|].
      apply Forall_forall. intros i Hi%elem_of_seq. lia.
    + apply Forall_forall. intros i Hi%elem_of_seq. lia.
Qed.

Lemma default_quals {T} (l : list T) : default [] (match l with [] => None | _ => Some l end) = l.
Proof. by destruct l. Qed.

(** The core of a scan of a table without partition columns. *)
Lemma core_setup env node server um table (svc svc' : Svc) c types old :
  scan_options node = Ok (server, um, table) -> partition_columns table = [] -> partition_keys table = [] ->
  match fdw_private node with None => True | Some attnums => StronglySorted Z.lt attnums end ->
  build_scan_state_core env node svc = (svc', Ok c) ->
  sc_attno_map c <> [] -> Forall (fun i => (i < length types)%nat) (sc_attno_map c) -> length old = length (sc_pg_oids c) ->
  plain_core old c types /\ forall e, e ∈ default [] (sc_qual_filter c) -> e ∈ walk_quals (plan_qual node).
Proof.
  intros Ho Hpc Hpk Hpriv Hrun Hne Htypes Hold. unfold build_scan_state_core in Hrun. rewrite Ho in Hrun.
  erewrite sm_bind_Ok in Hrun; [|done]. cbn beta iota in Hrun.
  apply sm_bind_inv in Hrun as (s1 & [] & _ & Hrun). apply sm_bind_inv in Hrun as (s2 & client & _ & Hrun).
  apply sm_bind_inv in Hrun as (s3 & source & _ & Hrun). apply sm_bind_inv in Hrun as (s4 & bl & _ & Hrun).
  apply sm_bind_inv in Hrun as (s5 & oids & _ & Hrun). rewrite Hpc in Hrun.
  apply sm_bind_inv in Hrun as (s6 & attnums & Ha & Hrun). injection Ha as <- <-.
  apply sm_bind_inv in Hrun as (s7 & proj & Hproj & Hrun). injection Hproj as <- Hproj.
  destruct (split_quals_by_target _ []) as [pq sq] eqn:Esp. apply sm_bind_inv in Hrun as (s8 & pruned & _ & Hrun).
  injection Hrun as <- <-. destruct (projection_sorted _ _ _ Hpriv Hproj) as [Hs Hlt]. split; [by split|].
  cbn [sc_qual_filter]. unfold storage_attno_to_parquet_idx. rewrite storage_identity.
  assert (forall e, e ∈ omap (fun e => translate_qual_to_parquet_idx e (map Some (seq 0 (length oids)))) sq -> e ∈ walk_quals (plan_qual node)) as Hin.
  { intros e He. apply list_elem_of_omap in He as (e0 & He0 & Ht). apply translate_identity in Ht as ->.
    rewrite split_filter in Esp. injection Esp as _ <-. apply list_elem_of_In, filter_In in He0 as [He0%list_elem_of_In _].
    destruct (enable_pushdown server); [done|by apply not_elem_of_nil in He0]. }
  intros e He. apply Hin. by rewrite <- (default_quals (omap _ sq)).
Qed.

(** The rows on which the WHERE clause is true. *)
Definition where_true (quals : list Node) (row : Row) : bool := forallb (fun n => bool_decide (pg_eval row n = Some true)) quals.

Lemma where_satisfies quals exprs row :
  (forall a b, collate DEFAULT_COLLATION_OID a b = str_compare a b) -> Forall (fun n => own_collation n = true) quals -> Forall (fun n => sound_node n = true) quals ->
  (forall e, e ∈ exprs -> e ∈ walk_quals (Some quals)) -> where_true quals row = true -> satisfies exprs row = true.
Proof.
  intros Hb Hc Hs Hin Ht. apply satisfies_spec. intros e He. apply Hin, list_elem_of_omap in He as (n & Hn & Hw).
  unfold where_true in Ht. rewrite forallb_forall in Ht. rewrite Forall_forall in Hc, Hs.
  apply (node_sound Hb n e row (Hc n Hn) (Hs n Hn) Hw). by apply list_elem_of_In, Ht, bool_decide_eq_true in Hn.
Qed.

End Statement.
