(* ===== verification/SelectDemo.v ===== *)
(** * A reader that keeps [ParquetScanLaws], and a query run through it. *)

From S2P Require Import Prelude RustStr Redact Errors RowId Options Externals Kernel Convert BlobService Store Handoff Coordinator ParquetIO Modify PlanFacts Pushdown PushdownFacts RowFilter PushdownWalk Partition Glob MultiFile MergeFacts Scan ScanFacts ScanClaims ScanPlan ScanSetup SelectFilter SelectWhere.
Local Open Scope Z_scope.

Abbreviation RBatch := (RecordBatch (ArrowApi := ref_arrow)).

(** The columns [cols] of a batch, in file order. *)
Definition ref_project (cols : list nat) (g : list RefArray) : list RefArray :=
  let b := batch_columns (ArrowApi := ref_arrow) g in
  omap (fun i => b !! i) (List.filter (fun i => bool_decide (i ∈ cols)) (seq 0 (length b))).

Definition ref_keep (g : list RefArray) (p : Predicate (A := ref_arrow)) : Result str (list RefArray) :=
  m ← run p (ref_project (mask p) g);
  filter_record_batch (ArrowApi := ref_arrow) g (map (fun o => bool_decide (o = Some true)) m).

Definition ref_read (proj : option (list nat)) (preds : list (Predicate (A := ref_arrow))) (g : list RefArray) : Result str (list RefArray) :=
  g' ← foldM ref_keep g preds;
  Ok (match proj with None => g' | Some cols => ref_project cols g' end).

(** Files by name: footer metadata and row groups. *)
Definition ref_files (store : str -> option (list RowGroup * list RBatch)) : ParquetScanApi (A := ref_arrow) :=
  @Build_ParquetScanApi ref_arrow (list RowGroup * list (list RefArray)) (fun nm => ok_or (store nm) (lit "not found"))
    fst (fun _ => Some []) (fun _ => [])
    (fun b keep proj preds => bs ← mapM_res (ref_read proj (default [] preds)) (selected_groups b.2 keep); Ok (map Ok bs)).

Section Laws.
Local Existing Instance ref_arrow.

Lemma rows_by_column (l1 l2 : list Row) : length l1 = length l2 ->
  (forall i, map (fun row : Row => row i) l1 = map (fun row : Row => row i) l2) -> Forall2 same_row l1 l2.
Proof.
  revert l2. induction l1 as [|r l1 IH]; intros [|r2 l2] Hl Hm; try done. constructor.
  - intros i. specialize (Hm i). by injection Hm.
  - apply IH; [by injection Hl|]. intros i. specialize (Hm i). by injection Hm.
Qed.

Lemma mask_filter_map {T V} (f : T -> V) m l : mask_filter m (map f l) = map f (mask_filter m l).
Proof. revert l. induction m as [|[] m IH]; intros [|x l]; cbn; try done; by rewrite IH. Qed.

Lemma filtered_rows (b b' : RBatch) m : length m = num_rows b -> filter_record_batch b m = Ok b' ->
  map array_type (batch_columns b') = map array_type (batch_columns b) /\ Forall2 same_row (rows_of b') (mask_filter m (rows_of b)).
Proof.
  intros Hm Hf. destruct (filter_ok b m Hm) as (b'' & Hf' & Hn & HF). rewrite Hf in Hf'. injection Hf' as <-. split.
  - clear -HF. revert HF. generalize (batch_columns b), (batch_columns b'). induction 1 as [|c c' l l' [Ht _] _ IH]; [done|]. cbn [map]. by rewrite Ht, IH.
  - apply rows_by_column; [by rewrite rows_of_length, mask_filter_length, Hn by by rewrite rows_of_length|]. intros i.
    rewrite <- mask_filter_map, !rows_of_column. destruct (batch_columns b !! i) as [c|] eqn:E.
    + destruct (Forall2_lookup_l _ _ _ _ _ HF E) as (c' & -> & _ & ->). done.
    + rewrite (proj2 (lookup_ge_None _ _)) by (rewrite <- (Forall2_length _ _ _ HF); by apply lookup_ge_None).
      rewrite Hn. clear -Hm. revert Hm. generalize (num_rows b). induction m as [|x m IH]; intros [|n] Hm; cbn in *; try done.
      injection Hm as Hm. destruct x; cbn; by rewrite (IH n Hm).
Qed.

Lemma mask_filter_by {T} (p : T -> bool) l : mask_filter (map p l) l = List.filter p l.
Proof. induction l as [|x l IH]; [done|]. cbn. rewrite IH. done. Qed.

(** A projection onto existing columns keeps the rows. *)
Lemma ref_project_ok cols (g : RBatch) : cols <> [] -> Forall (fun i => (i < length (batch_columns g))%nat) cols ->
  projected cols g (ref_project cols g).
Proof.
  intros Hne HF. unfold projected, ref_project. set (sel := List.filter _ _).
  assert (Forall (fun c : RefArray => length (snd c) = num_rows g) (omap (fun i => batch_columns g !! i) sel)) as Hlen.
  { apply Forall_forall. intros c Hc. apply list_elem_of_omap in Hc as (i & _ & Hi).
    pose proof (columns_len g) as Hl. rewrite Forall_forall in Hl. by apply (Hl c (list_elem_of_lookup_2 _ _ _ Hi)). }
  assert (omap (fun i => batch_columns g !! i) sel <> []) as Hsel.
  { destruct cols as [|i cols]; [done|]. apply Forall_cons in HF as [Hi _]. destruct (lookup_lt_is_Some_2 _ _ Hi) as [c Hc].
    intros E. assert (c ∈ omap (fun i => batch_columns g !! i) sel) as Hin; [|rewrite E in Hin; by apply not_elem_of_nil in Hin].
    apply list_elem_of_omap. exists i. split; [|done]. unfold sel. apply list_elem_of_In, filter_In. split.
    - apply in_seq. lia.
    - apply bool_decide_eq_true. left. }
  assert (ref_rows (omap (fun i => batch_columns g !! i) sel) = num_rows g) as Hrows.
  { destruct (omap _ sel) as [|c l]; [done|]. cbn. by apply Forall_cons in Hlen as [? _]. }
  split; [exact Hrows|]. refine (fit_all_id _ _). eapply Forall_impl; [exact Hlen|]. intros c Hc. exact (eq_trans Hc (eq_sym Hrows)).
Qed.

Lemma filter_true {T} (l : list T) : List.filter (fun _ => true) l = l.
Proof. induction l as [|x l IH]; [done|]. cbn. by rewrite IH. Qed.

Lemma filter_filter {T} (p q : T -> bool) l : List.filter q (List.filter p l) = List.filter (fun x => p x && q x) l.
Proof. induction l as [|x l IH]; [done|]. cbn. destruct (p x) eqn:E; cbn; rewrite IH; done. Qed.

(** One predicate, then all of them, on the rows of a group. *)
Lemma ref_keep_ok types U (p : Predicate) f (g : RBatch) (L : list Row) :
  row_predicate types U p f -> map array_type (batch_columns g) = types -> Forall2 same_row (rows_of g) L -> sublist L U ->
  exists g', ref_keep g p = Ok g' /\ map array_type (batch_columns g') = types /\
    Forall2 same_row (rows_of g') (List.filter (fun r => bool_decide (f r = Some true)) L).
Proof.
  intros (Hext & Hne & Hmask & Hrun) Hty HL HU.
  assert (batch_from types U g) as Hg.
  { split; [done|]. intros r Hr. pose proof (Forall2_lookup_l _ _ _ r (row_of g r) HL) as Hl. destruct Hl as (row & Hrow & Hs).
    - unfold rows_of. rewrite (list_lookup_fmap (row_of g)), lookup_seq_lt by done. done.
    - exists row. split; [|done]. by eapply elem_of_sublist; [eapply list_elem_of_lookup_2|]. }
  unfold ref_keep. rewrite (Hrun g (ref_project (mask p) g) Hg); [|apply ref_project_ok; [done|]].
  2: { eapply Forall_impl; [exact Hmask|]. intros i Hi. apply (f_equal length) in Hty. rewrite length_map in Hty. cbn beta in Hi. lia. }
  cbn [mbind result_bind]. rewrite map_map.
  set (m := map (fun r => bool_decide (f (row_of g r) = Some true)) (seq 0 (num_rows g))).
  assert (length m = num_rows g) as Hm by (unfold m; by rewrite length_map, length_seq).
  destruct (filter_ok g m Hm) as (g' & Hg' & _). destruct (filtered_rows g g' m Hm Hg') as [Ht Hr].
  exists g'. split; [exact Hg'|]. split; [by rewrite Ht|].
  assert (m = map (fun r => bool_decide (f r = Some true)) L) as HmL.
  { transitivity (map (fun r => bool_decide (f r = Some true)) (rows_of g)); [unfold m, rows_of; by rewrite map_map|].
    clear -HL Hext. induction HL as [|r r' l l' Hs _ IH]; [done|]. cbn [map]. rewrite IH. f_equal. by rewrite (Hext r r' Hs). }
  rewrite <- mask_filter_by, <- HmL. clear -Hr HL. assert (forall m l l', Forall2 same_row l l' -> Forall2 same_row (mask_filter m l) (mask_filter m l')) as Hmf.
  { clear. intros m l l' H. revert m. induction H as [|r r' l l' Hs H IH]; intros [|[] m]; cbn; try constructor; auto. }
  specialize (Hmf m _ _ HL). revert Hr Hmf. generalize (rows_of g'), (mask_filter m (rows_of g)), (mask_filter m L). clear.
  intros l1 l2 l3 H. revert l3. induction H as [|a b l1 l2 Hab _ IH]; intros l3 H3; inversion H3 as [|? c ? l3' Hbc H3']; subst; constructor.
  - intros i. by rewrite Hab, Hbc.
  - by apply IH.
Qed.

Lemma ref_keeps_ok types U preds fs : Forall2 (row_predicate types U) preds fs -> forall (g : RBatch) (L : list Row),
  map array_type (batch_columns g) = types -> Forall2 same_row (rows_of g) L -> sublist L U ->
  exists g', foldM ref_keep g preds = Ok g' /\ map array_type (batch_columns g') = types /\
    Forall2 same_row (rows_of g') (List.filter (passes fs) L).
Proof.
  induction 1 as [|p f preds fs Hp _ IH]; intros g L Hty HL HU; cbn [foldM].
  - exists g. split; [done|]. split; [done|]. unfold passes. cbn. by rewrite (filter_true L).
  - destruct (ref_keep_ok types U p f g L Hp Hty HL HU) as (g1 & -> & Hty1 & HL1). cbn [mbind result_bind].
    destruct (IH g1 _ Hty1 HL1) as (g' & -> & Hty' & HL'); [etrans; [apply bool_filter_sublist|done]|].
    exists g'. split; [done|]. split; [done|]. rewrite filter_filter in HL'. exact HL'.
Qed.

Lemma omap_map {T V} (l : list T) (F : T -> V) (G : nat -> V) idxs :
  Forall (fun i => exists x, l !! i = Some x /\ F x = G i) idxs -> map F (omap (fun i => l !! i) idxs) = map G idxs.
Proof. induction 1 as [|i idxs (x & Hx & HF) _ IH]; [done|]. cbn. rewrite Hx. cbn. by rewrite HF, IH. Qed.

Lemma omap_seq {T} (l : list T) : omap (fun i => l !! i) (seq 0 (length l)) = l.
Proof.
  induction l as [|x l IH]; [done|]. cbn. f_equal. rewrite <- seq_shift. rewrite <- IH at 2.
  generalize (seq 0 (length l)). intros idx. induction idx as [|i idx IHi]; [done|]. cbn. by rewrite IHi.
Qed.

Lemma ref_read_ok types U proj preds fs (g : RBatch) :
  Forall2 (row_predicate types U) preds fs -> map array_type (batch_columns g) = types -> sublist (rows_of g) U ->
  (forall cols, proj = Some cols -> cols <> [] /\ Forall (fun i => (i < length types)%nat) cols) ->
  exists g', ref_read proj preds g = Ok g' /\ Forall2 (shows types proj) (List.filter (passes fs) (rows_of g)) (rows_from g' 0).
Proof.
  intros Hp Hty HU Hproj. assert (Forall2 same_row (rows_of g) (rows_of g)) as Hrefl by (apply Forall_Forall2_diag, Forall_forall; done).
  destruct (ref_keeps_ok types U preds fs Hp g (rows_of g) Hty Hrefl HU) as (k & Hk & Htk & HL). unfold ref_read. rewrite Hk. cbn [mbind result_bind].
  set (pb := match proj with None => k | Some cols => ref_project cols k end).
  assert (length (batch_columns k) = length types) as Hn by (by rewrite <- Htk, length_map).
  assert (num_rows pb = num_rows k /\ batch_columns pb = omap (fun i => batch_columns k !! i) (projected_cols (length types) proj)) as [Hrows Hcols].
  { unfold pb. destruct proj as [cols|]; cbn [projected_cols]; rewrite <- Hn; [|by rewrite omap_seq].
    destruct (Hproj cols eq_refl) as [Hne HF]. rewrite <- Hn in HF. by apply ref_project_ok. }
  assert (Forall (fun i => exists c, batch_columns k !! i = Some c) (projected_cols (length types) proj)) as Hin.
  { apply Forall_forall. intros i Hi. apply lookup_lt_is_Some. rewrite Hn.
    assert (i ∈ seq 0 (length types)) as Hs; [|by apply elem_of_seq in Hs; lia].
    destruct proj as [cols|]; cbn [projected_cols] in Hi; [|done]. eapply elem_of_sublist; [exact Hi|]. apply bool_filter_sublist. }
  exists pb. split; [done|]. unfold rows_from. rewrite Nat.sub_0_r, Hrows. 
  apply (proj1 (Forall2_fmap_l (row_of (A := ref_arrow) k) same_row (seq 0 (num_rows (ArrowApi := ref_arrow) k)) _)) in HL.
  apply Forall2_flip. apply (proj2 (Forall2_fmap_l (pair pb) _ (seq 0 (num_rows (ArrowApi := ref_arrow) k)) _)).
  assert (forall l L, Forall (fun r => (r < num_rows k)%nat) l -> Forall2 (fun r row => same_row (row_of k r) row) l L ->
    Forall2 (fun r row => shows types proj row (pb, r)) l L) as Hgo; [|apply Hgo; [|exact HL]; apply Forall_forall; intros r Hr%elem_of_seq; lia].
  intros l L HF H. induction H as [|r row l L Hs _ IH]; constructor; [|by apply IH; apply Forall_cons in HF as [_ ?]].
  apply Forall_cons in HF as [Hr _]. split; [cbn [fst snd]; by rewrite Hrows|]. cbn [fst snd]. rewrite Hcols. split.
  - clear -Hin Htk. revert Hin. generalize (projected_cols (length types) proj). intros idx Hin. rewrite <- Htk. clear Htk.
    induction Hin as [|i idx (c & Hc) _ IH]; [done|]. cbn [omap list_omap].
    rewrite (list_lookup_fmap array_type), Hc. cbn. by f_equal.
  - apply omap_map. eapply Forall_impl; [exact Hin|]. intros i (c & Hc). exists c. split; [done|]. by rewrite <- (Hs i), (row_cell _ _ _ _ Hc).
Qed.

Lemma ref_reads_ok types U proj preds fs (gs : list RBatch) :
  Forall2 (row_predicate types U) preds fs -> Forall (fun g => map array_type (batch_columns g) = types) gs ->
  Forall (fun g => sublist (rows_of g) U) gs ->
  (forall cols, proj = Some cols -> cols <> [] /\ Forall (fun i => (i < length types)%nat) cols) ->
  exists bs, mapM_res (ref_read proj preds) gs = Ok bs /\
    Forall2 (shows types proj) (List.filter (passes fs) (concat (map rows_of gs))) (stream_rows bs).
Proof.
  intros Hp Hty HU Hproj. induction Hty as [|g gs Hg _ IH]; cbn [mapM_res map concat]; [by exists []|].
  apply Forall_cons in HU as [Hgu HU]. destruct (ref_read_ok types U proj preds fs g Hp Hg Hgu Hproj) as (g' & -> & Hg').
  destruct (IH HU) as (bs & -> & Hbs). exists (g' :: bs). split; [done|]. rewrite List.filter_app. by apply Forall2_app.
Qed.
End Laws.

Definition ref_holds (b : list RowGroup * list RBatch) (types : list DataType) (gs : list RBatch) : Prop :=
  gs = b.2 /\ Forall (fun g => map (array_type (ArrowApi := ref_arrow)) (batch_columns g) = types) gs /\
  Forall2 (fun rg g => group_describes rg (rows_of g)) b.1 gs.

#[export] Program Instance ref_files_laws store : ParquetScanLaws (ref_files store) := {| holds_file := ref_holds |}.
Next Obligation. by intros store b types gs (_ & H & _). Qed.
Next Obligation. by intros store b types gs (_ & _ & H). Qed.
Next Obligation.
  intros store [md gs0] types gs keep proj preds fs (Hgs & Hty & _) Hkeep Hproj Hp. cbn [snd] in Hgs. subst gs0.
  assert (sublist (selected_groups gs keep) gs) as Hsub.
  { destruct keep as [ks|]; [|done]. apply selected_sublist. by apply Hkeep. }
  destruct (ref_reads_ok types _ proj (default [] preds) fs (selected_groups gs keep) Hp) as (bs & Hbs & HF).
  - rewrite Forall_forall in Hty. apply Forall_forall. intros g Hg. apply Hty. by eapply elem_of_sublist.
  - apply Forall_forall. intros g Hg. assert (g ∈ gs) as Hin by by eapply elem_of_sublist.
    clear -Hin. apply list_elem_of_split in Hin as (l1 & l2 & ->). rewrite map_app. cbn [map]. rewrite concat_app. cbn [concat].
    apply sublist_inserts_l, sublist_inserts_r. done.
  - done.
  - exists bs. split; [|exact HF]. transitivity ((bs ← mapM_res (ref_read proj (default [] preds)) (selected_groups gs keep); Ok (map Ok bs)) : Result str (list (Result str RBatch))); [done|].
    by rewrite Hbs.
Qed.

(** ** SELECT v FROM t WHERE v > 3 over a file of two row groups, the second
    of which its statistics rule out *)

Definition select_g1 : RBatch := [(Int64, [Some (VI64 1); Some (VI64 2)]); (Int32, [Some (VI32 10); None])].
Definition select_g2 : RBatch := [(Int64, [Some (VI64 3); Some (VI64 4)]); (Int32, [Some (VI32 3); Some (VI32 2)])].

Definition select_chunk (mn mx nulls : Z) : RowGroup :=
  [mkChunk None None 2; mkChunk (Some (PqInt32 (Some mn) (Some mx))) (Some nulls) 2].

Definition select_store (nm : str) : option (list RowGroup * list RBatch) :=
  if str_eqb nm "t.parquet" then Some ([select_chunk 10 10 1; select_chunk 2 3 0], [select_g1; select_g2]) else None.

Definition select_server : ServerOptions := mkServerOptions "acct1" DEFAULT_ENDPOINT ManagedIdentity true.
Definition select_table : TableOptions := mkTableOptions "data" "t.parquet" Snappy None [] [] [] false.

Definition select_quals : list Node := [int4_op 521 2 3].

Definition select_node : ScanNode :=
  mkNode (Ok (select_server, mkUserMapping None, select_table))
    [mkAttr (Some (lit "id")) INT8OID false false 1; mkAttr (Some (lit "v")) INT4OID false false 2] (Some [2]) (Some select_quals) true true.

Definition select_blobs : gmap str (str * str) := {[lit "t.parquet" := (lit "e1", lit "T")]}.

Definition select_core : ScanStateCore :=
  mkCore demo_client [(lit "t.parquet", lit "e1")] [INT8OID; INT4OID] (Some [1%nat]) [1%nat]
    (Some [PLeaf (mkQual 1 OpGt (SI32 3))]) select_table [] [] [Some 0%nat; Some 1%nat].

Definition select_files (nm : str) : list RBatch := [select_g1; select_g2].

Lemma select_groups : ref_holds ([select_chunk 10 10 1; select_chunk 2 3 0], [select_g1; select_g2]) [Int64; Int32] [select_g1; select_g2].
Proof.
  split; [done|]. split; [repeat constructor|].
  assert (forall mn mx nulls (g : RBatch) cells, num_rows g = 2%nat -> map (fun row : Row => row 1%nat) (rows_of g) = cells -> length cells = 2%nat ->
    nulls = Z.of_nat (length (List.filter is_null_cell cells)) ->
    (forall v, Some v ∈ cells -> value_in_stats (PqInt32 (Some mn) (Some mx)) v) ->
    group_describes (select_chunk mn mx nulls) (rows_of g)) as Hgo.
  { intros mn mx nulls g cells Hn Hc Hl Hnulls Hv i c Hi. destruct i as [|[|i]]; cbn in Hi; [injection Hi as <-|injection Hi as <-|done].
    - split; [|done|done]. rewrite length_map, rows_of_length, Hn. done.
    - rewrite Hc. split.
      + cbn. rewrite Hl. done.
      + cbn. intros n [= <-]. exact Hnulls.
      + cbn [statistics]. intros s v [= <-] Hin. by apply Hv. }
  apply Forall2_cons_2; [|apply Forall2_cons_2; [|apply Forall2_nil_2]]; (eapply Hgo; [reflexivity|reflexivity|reflexivity|reflexivity|]); intros v Hv;
    change (map _ _) with [Some (VI32 10); @None Value] in Hv || change (map _ _) with [Some (VI32 3); Some (VI32 2)] in Hv;
    repeat (apply elem_of_cons in Hv as [Hv|Hv]); simplify_eq; try (by apply not_elem_of_nil in Hv);
    split; intros m [= <-]; vm_compute; discriminate.
Qed.

Lemma select_rows row : row ∈ listed_rows select_files (sc_blobs select_core) ->
  row = row_of select_g1 0 \/ row = row_of select_g1 1 \/ row = row_of select_g2 0 \/ row = row_of select_g2 1.
Proof.
  intros Hr. change (row ∈ [row_of select_g1 0; row_of select_g1 1; row_of select_g2 0; row_of select_g2 1]) in Hr.
  repeat (apply elem_of_cons in Hr as [->|Hr]; [tauto|]). by apply not_elem_of_nil in Hr.
Qed.

