(* ===== verification/FilteredScan.v ===== *)
(** * The row numbers of a filtered scan.

    A scan with a row filter numbers the rows it emits, while the modify plan
    and the rewrite number the rows of the file.  The two agree on a row
    exactly when the filter accepts every row before it; otherwise an UPDATE
    or DELETE fed by the scan edits another row than the one it was shown. *)

From S2P Require Import Prelude RustStr Redact Errors RowId Options Externals Kernel Convert BlobService Store Handoff Coordinator ParquetIO Modify PlanFacts Pushdown PushdownFacts RowFilter PushdownWalk Partition Glob MultiFile MergeFacts Scan ScanFacts ScanClaims ScanPlan ScanSetup SelectFilter SelectWhere SelectDemo.
Local Open Scope Z_scope.

(** ** Counting the accepted elements *)

Section Count.
Context {T : Type} (p : T -> bool).

Definition accepted_before (i : nat) (l : list T) : nat := length (List.filter p (take i l)).

Lemma filter_length_le (l : list T) : (length (List.filter p l) <= length l)%nat.
Proof. induction l as [|x l IH]; cbn; [lia|]. destruct (p x); cbn; lia. Qed.

(** The [i]-th element, if accepted, comes after the accepted ones before. *)
Lemma filter_position l i x :
  l !! i = Some x -> p x = true -> List.filter p l !! accepted_before i l = Some x.
Proof.
  intros Hi Hx. pose proof (f_equal (List.filter p) (take_drop_middle l i x Hi)) as E.
  rewrite List.filter_app in E. cbn in E. rewrite Hx in E. rewrite <- E.
  by rewrite lookup_app_r, Nat.sub_diag by done.
Qed.

Lemma accepted_all l i : (i <= length l)%nat ->
  accepted_before i l = i <-> forall j x, (j < i)%nat -> l !! j = Some x -> p x = true.
Proof.
  unfold accepted_before. revert i. induction l as [|y l IH]; intros [|i] Hi; cbn in *; try (split; [lia|done]); [lia|].
  pose proof (filter_length_le (take i l)) as Hle. rewrite length_take in Hle. destruct (p y) eqn:Hy; cbn.
  - split.
    + intros [= Hc]. intros [|j] x Hj Hl; cbn in Hl; [by simplify_eq|]. apply (proj1 (IH i ltac:(lia)) Hc j); [lia|done].
    + intros Hall. f_equal. apply IH; [lia|]. intros j x Hj Hl. apply (Hall (S j)); [lia|done].
  - split; [lia|]. intros Hall. specialize (Hall 0%nat y ltac:(lia) eq_refl). congruence.
Qed.

(** The first refused element, when an accepted one follows, sits at an index
    below the number of accepted elements. *)
Lemma refused_index l m i x y :
  l !! m = Some x -> p x = false -> l !! i = Some y -> p y = true -> (m < i)%nat ->
  exists k w, l !! k = Some w /\ p w = false /\ (k < length (List.filter p l))%nat.
Proof.
  revert m i. induction l as [|z l IH]; intros m i Hm Hx Hi Hy Hlt; [done|]. cbn. destruct (p z) eqn:Hz.
  - destruct m as [|m]; cbn in Hm; [congruence|]. destruct i as [|i]; [lia|]. cbn in Hi.
    destruct (IH m i Hm Hx Hi Hy ltac:(lia)) as (k & w & Hk & Hw & Hkl). exists (S k), w. cbn. split; [done|]. split; [done|lia].
  - exists 0%nat, z. split; [done|]. split; [done|]. destruct i as [|i]; [lia|]. cbn in Hi.
    pose proof (filter_position l i y Hi Hy) as Hp. apply lookup_lt_Some in Hp. lia.
Qed.
End Count.

Section Claim.
Context {Y : BytesApi} {A : ArrowApi} {AL : ArrowLaws A} {R : RoaringApi} {P : PgApi} {C : ComputeApi} {CL : ComputeLaws C}
  {SA : ParquetScanApi} {SL : ParquetScanLaws SA} {H : BinaryHeapApi}.
Context (debug_key : Key -> str) (old : list (option Datum)) (c : ScanStateCore) (types : list DataType) (files : str -> list RecordBatch).
Context (nr : str -> FdwResult Z) (plan : ModifyPlan).

(** The rows the pushed expressions of the scan accept. *)
Abbreviation accepts := (satisfies (default [] (sc_qual_filter c))).

(** C21: a sequential scan of one readable blob of an unpartitioned table,
    with pushed expressions the row filter evaluates as SQL does, terminates
    and emits, in file order, one slot per row they accept.  Row [i] of the
    file, if accepted, is in slot [k], the number of accepted rows before it,
    with its values, under a ctid the modify plan resolves to row [k]: the
    right row exactly when every row before it is accepted.  If a refused row
    comes before an accepted one, some slot, hence an accepted row, carries
    the ctid of a row the expressions refuse. *)
Theorem filtered_scan_misnumbers nm et sh :
  let rows := file_rows (files nm) in
  plain_core old c types -> readable c types files (nm, et) ->
  blob_row_count nr nm = Ok (Z.of_nat (length rows)) -> Z.of_nat (length rows) <= u32_max ->
  build_blob_table nr [(nm, et)] = Ok (blob_table plan) ->
  exists N s' slots, (forall F, (N <= F)%nat ->
      scan_all debug_key F (assemble_scan_state c (SequentialRanges [(nm, et)] 0)) sh old = Some (Ok (s', sh, slots))) /\
    length slots = length (List.filter accepts rows) /\
    (forall i row, rows !! i = Some row -> accepts row = true ->
      let k := accepted_before accepts i rows in
      exists vals tid, slots !! k = Some (mkSlot vals (Some tid)) /\ slot_shows c types row vals /\
        resolve_to_source plan (from_ctid tid) = Ok (0, Z.of_nat k) /\
        (k = i <-> forall j r, (j < i)%nat -> rows !! j = Some r -> accepts r = true)) /\
    (forall m i r0 r1, rows !! m = Some r0 -> accepts r0 = false -> rows !! i = Some r1 -> accepts r1 = true -> (m < i)%nat ->
      exists k wrong shown vals tid, rows !! k = Some wrong /\ accepts wrong = false /\
        slots !! k = Some (mkSlot vals (Some tid)) /\ slot_shows c types shown vals /\ accepts shown = true /\
        resolve_to_source plan (from_ctid tid) = Ok (0, Z.of_nat k)).
Proof.
  intros rows Hc Hread Hnr Hmax Hplan.
  destruct (blob_shown old c types files (nm, et) Hc Hread Hmax) as ([b o] & [Hb (bs & Ho & HF)] & Hok).
  cbn [fst snd] in Hb, Ho, HF. subst b o.
  assert (forall n, n <= u32_max -> chunk_count n <= u32_max) as Hchunks
    by (intros n Hn; unfold chunk_count, CHUNK_ROWS, u32_max in *; Z.div_mod_to_equations; lia).
  pose proof (Forall2_length _ _ _ HF) as Hlen. fold rows in HF, Hlen.
  pose proof (filter_length_le accepts rows) as Hle.
  destruct (scan_runs debug_key old c [((nm, et), Scanned [] bs)] sh) as (N & s' & _ & Hall).
  { by constructor. }
  { cbn [scan_spec snd]. rewrite app_nil_l, blob_chunks_length. apply Hchunks. lia. }
  cbn [map fst scan_spec] in Hall. rewrite app_nil_r in Hall.
  set (slots := slots_from old c [] (Z.of_nat (length (@nil BlobIdEntry))) 0 (stream_rows bs)) in *.
  assert (forall k row, List.filter accepts rows !! k = Some row ->
    exists vals tid, slots !! k = Some (mkSlot vals (Some tid)) /\ slot_shows c types row vals /\
      resolve_to_source plan (from_ctid tid) = Ok (0, Z.of_nat k)) as Hslot.
  { intros k row Hk. destruct (Forall2_lookup_l _ _ _ _ _ HF Hk) as (x & Hx & Hs).
    exists (slot_values old c [] x), (to_ctid (from_absolute 0 (Z.of_nat k))).
    split; [exact (slots_from_lookup old c [] 0 _ 0 k x Hx)|]. split; [exact Hs|]. pose proof (lookup_lt_Some _ _ _ Hk) as Hkl.
    rewrite ctid_roundtrip by (apply from_absolute_wf; [unfold is_u32, u32_max|]; lia).
    destruct (resolve_row nr plan [(nm, et)] 0 nm et (Z.of_nat (length rows)) (Z.of_nat k)) as [Hres _]; try done.
    - repeat constructor. apply not_elem_of_nil.
    - lia.
    - pose proof Hplan as Ht. apply build_blob_table_from in Ht as [-> _]. cbn. unfold chunks_of. cbn [fst snd].
      rewrite Hnr, app_nil_r, blob_chunks_length. by apply Hchunks. }
  exists N, s', slots. split; [exact Hall|]. split; [unfold slots; by rewrite slots_from_length|]. split.
  - intros i row Hi Hrow k. destruct (Hslot k row (filter_position _ _ _ _ Hi Hrow)) as (vals & tid & Hv & Hs & Hr).
    exists vals, tid. split; [done|]. split; [done|]. split; [done|]. apply accepted_all. apply lookup_lt_Some in Hi. lia.
  - intros m i r0 r1 Hm H0 Hi H1 Hlt. destruct (refused_index accepts rows m i r0 r1 Hm H0 Hi H1 Hlt) as (k & w & Hk & Hw & Hkl).
    destruct (lookup_lt_is_Some_2 _ _ Hkl) as [row Hrow]. destruct (Hslot k row Hrow) as (vals & tid & Hv & Hs & Hr).
    exists k, w, row, vals, tid. repeat (split; [done|]). split; [|done].
    apply list_elem_of_lookup_2, list_elem_of_In, filter_In in Hrow. by destruct Hrow.
Qed.
End Claim.

(** ** [WHERE v < 10] over the file of [SelectDemo]: its rows 2 and 3 come out
    as rows 0 and 1. *)

Definition low_core : ScanStateCore :=
  mkCore demo_client [(lit "t.parquet", lit "e1")] [INT8OID; INT4OID] (Some [1%nat]) [1%nat]
    (Some [PLeaf (mkQual 1 OpLt (SI32 10))]) select_table [] [] [Some 0%nat; Some 1%nat].

Definition four_rows : str -> FdwResult Z := fun _ => Ok 4.

Definition low_plan : ModifyPlan (A := ref_arrow) (R := ref_roaring) :=
  mkPlan (blob_chunks "t.parquet" "e1" 4) ∅ [] [] [] demo_client Snappy true 2 0.

Lemma filtered_scan_misnumbers_witness :
  exists N s' slots vals tid, (forall F, (N <= F)%nat ->
      scan_all (P := ref_pg) (K := ref_compute) (SA := ref_files select_store) no_debug F
        (assemble_scan_state low_core (SequentialRanges [(lit "t.parquet", lit "e1")] 0)) 0 [None; None] = Some (Ok (s', 0, slots))) /\
    slots !! 0%nat = Some (mkSlot vals (Some tid)) /\
    slot_shows low_core [Int64; Int32] (row_of select_g2 0) vals /\
    resolve_to_source low_plan (from_ctid tid) = Ok (0, 0).
Proof.
  destruct (filtered_scan_misnumbers (C := ref_compute) (SA := ref_files select_store) no_debug [None; None] low_core [Int64; Int32]
    select_files four_rows low_plan "t.parquet" "e1" 0) as (N & s' & slots & Hall & _ & Hrows & _).
  - split; try reflexivity; try (split; reflexivity); repeat constructor. discriminate.
  - split; [|split].
    + exists ([select_chunk 10 10 1; select_chunk 2 3 0], [select_g1; select_g2]).
      split; [vm_compute; reflexivity|exact select_groups].
    + constructor; [|constructor]. split.
      * intros q Hq. apply list_elem_of_singleton in Hq as ->. exists Int32. split; [reflexivity|]. split; [right; eexists; reflexivity|].
        intros row v Hr Hv. right. apply select_rows in Hr as [->|[->|[->| ->]]]; vm_compute in Hv; simplify_eq; exact I.
      * discriminate.
      * repeat constructor.
      * left. reflexivity.
    + apply Forall_forall. intros row Hr att Ha. apply list_elem_of_singleton in Ha as ->.
      apply select_rows in Hr as [->|[->|[->| ->]]]; eexists; exists Int32, INT4OID; (split; [reflexivity|split; [reflexivity|vm_compute; reflexivity]]).
  - vm_compute. reflexivity.
  - vm_compute. discriminate.
  - vm_compute. reflexivity.
  - destruct (Hrows 2%nat (row_of select_g2 0)) as (vals & tid & Hs & Hv & Hr & _); [reflexivity|vm_compute; reflexivity|].
    exists N, s', slots, vals, tid. split; [exact Hall|]. split; [exact Hs|]. split; [exact Hv|exact Hr].
Defined.
