(* ===== verification/Parallel.v ===== *)
(** * [src/fdw/parallel.rs]: parallel scans.

    The shared segment of a parallel scan (a header with the cursor, then the
    packed blob list), the callbacks that size, fill, reset and read it, and
    the gate that decides when a scan may be parallel.

    Raw memory is explicit: the segment is the header and the bytes after it,
    and a read or write past its end, undefined behaviour in the code, is
    [None].  [usize] is 64 bits wide. *)

From S2P Require Import Prelude RustStr Utf8 Redact Errors RowId Options Externals Kernel Convert BlobService Store Handoff Coordinator ParquetIO Modify Pushdown PushdownWalk Partition Glob MultiFile Scan ScanPlan.
Local Open Scope Z_scope.

(** ** The shared segment *)

(** The header is three [usize] words. *)
Record ParallelDsmStateHeader := mkHeader { dsm_cursor : Z; n_blobs : Z; total_payload_bytes : Z }.
Definition header_size : Z := 24.

Record Dsm := mkDsm { header : ParallelDsmStateHeader; payload : str }.

Definition entry_size (b : str * str) : Z := 8 + Z.of_nat (length b.1) + Z.of_nat (length b.2).

Definition dsm_size_for (blobs : BlobList) : Z := header_size + foldr Z.add 0 (map entry_size blobs).

(** [u32::to_le_bytes], [u32::from_le_bytes]. *)
Definition to_le_bytes (z : Z) : str :=
  [byte_of (z mod 256); byte_of (z / 256 mod 256); byte_of (z / 65536 mod 256); byte_of (z / 16777216 mod 256)].
Definition from_le_bytes (s : str) : Z := foldr (fun c acc => byte c + 256 * acc) 0 s.

(** [copy_nonoverlapping] into and out of the payload at offset [cur]. *)
Definition write_bytes (mem : str) (cur : nat) (bs : str) : option str :=
  if (cur + length bs <=? length mem)%nat then Some (take cur mem ++ bs ++ drop (cur + length bs) mem) else None.
Definition read_bytes (mem : str) (cur n : nat) : option str :=
  if (cur + n <=? length mem)%nat then Some (take n (drop cur mem)) else None.

Definition serialize_entry (mc : str * nat) (b : str * str) : option (str * nat) :=
  let '(mem, cur) := mc in
  let '(nm, et) := b in
  let nl := as_u32 (Z.of_nat (length nm)) in
  let el := as_u32 (Z.of_nat (length et)) in
  mem ← write_bytes mem cur (to_le_bytes nl);
  mem ← write_bytes mem (cur + 4) (to_le_bytes el);
  mem ← write_bytes mem (cur + 8) nm;
  mem ← write_bytes mem (cur + 8 + length nm) et;
  Some (mem, (cur + 8 + length nm + length et)%nat).

Fixpoint serialize_entries (mc : str * nat) (blobs : BlobList) : option (str * nat) :=
  match blobs with
  | [] => Some mc
  | b :: blobs' => mc' ← serialize_entry mc b; serialize_entries mc' blobs'
  end.

Definition dsm_serialize_blobs (dst : Dsm) (dst_len : Z) (blobs : BlobList) : option Dsm :=
  let payload_bytes := dst_len - header_size in
  '(mem, _) ← serialize_entries (payload dst, O) blobs;
  Some (mkDsm (mkHeader 0 (Z.of_nat (length blobs)) payload_bytes) mem).

(** One turn of the reading loop: the entry and the new [bytes_read], which is
    also the offset of the read pointer. *)
Definition read_entry (mem : str) (total : Z) (bytes_read : nat) : option (FdwResult ((str * str) * nat)) :=
  if total <? Z.of_nat bytes_read + 8 then Some (Err (SchemaMismatch "DSM payload truncated"))
  else
    nl_buf ← read_bytes mem bytes_read 4;
    el_buf ← read_bytes mem (bytes_read + 4) 4;
    let nl := Z.to_nat (from_le_bytes nl_buf) in
    let el := Z.to_nat (from_le_bytes el_buf) in
    let bytes_read := (bytes_read + 8)%nat in
    if total <? Z.of_nat (bytes_read + nl + el) then Some (Err (SchemaMismatch "DSM payload out of bounds"))
    else
      name_bytes ← read_bytes mem bytes_read nl;
      etag_bytes ← read_bytes mem (bytes_read + nl) el;
      Some (nm ← map_err (fun e => SchemaMismatch ("DSM payload contained non-UTF-8 blob name: " ++ display_utf8_error e)) (from_utf8 name_bytes);
            et ← map_err (fun e => SchemaMismatch ("DSM payload contained non-UTF-8 etag: " ++ display_utf8_error e)) (from_utf8 etag_bytes);
            Ok ((nm, et), (bytes_read + (nl + el))%nat)).

Fixpoint read_entries (n : nat) (mem : str) (total : Z) (bytes_read : nat) (out : BlobList) : option (FdwResult BlobList) :=
  match n with
  | O => Some (Ok out)
  | S n' =>
      r ← read_entry mem total bytes_read;
      match r with
      | Err e => Some (Err e)
      | Ok (b, bytes_read) => read_entries n' mem total bytes_read (out ++ [b])
      end
  end.

(** [Vec::with_capacity] panics when the capacity in bytes exceeds
    [isize::MAX]; a pair of strings takes 48 bytes. *)
Definition dsm_deserialize_blobs (src : Dsm) : option (FdwResult BlobList) :=
  if 9223372036854775807 <? n_blobs (header src) * 48 then Some (Err (RustPanic "capacity overflow"))
  else read_entries (Z.to_nat (n_blobs (header src))) (payload src) (total_payload_bytes (header src)) 0 [].

(** ** The planner's gate *)

Inductive CmdType := CMD_SELECT | CMD_UPDATE | CMD_INSERT | CMD_DELETE | CMD_MERGE | CMD_UTILITY | CMD_NOTHING | CMD_UNKNOWN.
#[export] Instance CmdType_eq_dec : EqDecision CmdType.
Proof. solve_decision. Defined.

(** The [options] list of a foreign table: names and [defGetString] values.
    [None] is a null table or a null list. *)
Abbreviation CatalogOptions := (option (list (str * option str))).

Fixpoint def_elem (nm : str) (opts : list (str * option str)) : option (option str) :=
  match opts with
  | [] => None
  | (n, v) :: opts' => if str_eqb n nm then Some v else def_elem nm opts'
  end.

Definition read_sorted_opt (table : CatalogOptions) : bool :=
  match table ≫= def_elem "sorted" with
  | Some (Some v) => negb (bool_decide (trim v = []))
  | _ => false
  end.

Definition read_parallel_workers_opt (table : CatalogOptions) : option Z :=
  match table ≫= def_elem "parallel_workers" with
  | Some (Some v) => parse_i32 v
  | _ => None
  end.

(** [cmd] is [None] when [root] or its query is null, [rte] is the relation of
    the range table entry. *)
Definition is_foreign_scan_parallel_safe (catalog : Z -> CatalogOptions) (cmd : option CmdType) (rte : option Z) : bool :=
  match cmd with
  | None => false
  | Some c =>
      if negb (bool_decide (c = CMD_SELECT)) then false
      else match rte with
      | None => false
      | Some relid =>
          if bool_decide (read_parallel_workers_opt (catalog relid) = Some 0) then false
          else if read_sorted_opt (catalog relid) then false
          else true
      end
  end.

(** ** The shared-memory callbacks *)

Section Callbacks.
Context {Y : BytesApi} {B : BlobApi} {A : ArrowApi} {P : PgApi} {K : ComputeApi} {SA : ParquetScanApi} {X : RegexApi}.

(** [ScanState::blobs_for_dsm]. *)
Definition blobs_for_dsm (s : ScanState) : BlobList := sc_blobs (core s).

Definition estimate_dsm_foreign_scan (s : ScanState) : Z := dsm_size_for (blobs_for_dsm s).

Definition initialize_dsm_foreign_scan (s : ScanState) (coordinate : Dsm) : option Dsm :=
  let blobs := blobs_for_dsm s in
  dsm_serialize_blobs coordinate (dsm_size_for blobs) blobs.

Definition set_cursor (d : Dsm) (z : Z) : Dsm :=
  mkDsm (mkHeader z (n_blobs (header d)) (total_payload_bytes (header d))) (payload d).

Definition re_initialize_dsm_foreign_scan (coordinate : Dsm) : Dsm := set_cursor coordinate 0.

(** The worker keeps its own copy of the list; only the cursor is shared. *)
Definition initialize_worker_foreign_scan (env : ClientEnv) (node : ScanNode) (has_relation : bool) (coordinate : Dsm)
    : option (SM Svc ScanState) :=
  r ← dsm_deserialize_blobs coordinate;
  Some (blobs ← lift r;
        if negb has_relation then lift (Err (SchemaMismatch "parallel worker init: ss_currentRelation is null"))
        else build_state_for_parallel_worker env node (ParallelRanges blobs)).
End Callbacks.
