(* ===== verification/ParallelFacts.v ===== *)
(** * The shared segment: what is written is read back, and no read leaves it. *)

From S2P Require Import Prelude RustStr Utf8 Redact Errors RowId Options Externals Kernel Convert BlobService Store Handoff Coordinator ParquetIO Modify Pushdown PushdownWalk Partition Glob MultiFile Scan ScanPlan Parallel.
Local Open Scope Z_scope.

(** ** Memory *)

Lemma write_bytes_at pre mid bs post :
  length bs = length mid -> write_bytes (pre ++ mid ++ post) (length pre) bs = Some (pre ++ bs ++ post).
Proof.
  intros Hl. unfold write_bytes. rewrite !length_app, (proj2 (Nat.leb_le _ _)) by lia.
  by rewrite take_app_length, <- drop_drop, drop_app_length, Hl, drop_app_length.
Qed.

Lemma read_bytes_at pre bs post : read_bytes (pre ++ bs ++ post) (length pre) (length bs) = Some bs.
Proof.
  unfold read_bytes. rewrite !length_app, (proj2 (Nat.leb_le _ _)) by lia.
  by rewrite drop_app_length, take_app_length.
Qed.

Lemma read_bytes_bound mem cur n : (cur + n <= length mem)%nat -> is_Some (read_bytes mem cur n).
Proof. intros Hl. unfold read_bytes. rewrite (proj2 (Nat.leb_le _ _)) by done. eauto. Qed.

Lemma le_bytes_roundtrip z : is_u32 z -> from_le_bytes (to_le_bytes z) = z.
Proof.
  intros Hz. unfold from_le_bytes, to_le_bytes. cbn [foldr].
  rewrite !byte_byte_of by (split; [apply Z.mod_pos_bound | apply Z.lt_succ_r, Z.mod_pos_bound]; lia).
  int_lia.
Qed.

(** ** Writing, then reading *)

(** The bytes of one entry. *)
Definition encode (b : str * str) : str :=
  to_le_bytes (as_u32 (Z.of_nat (length b.1))) ++ to_le_bytes (as_u32 (Z.of_nat (length b.2))) ++ b.1 ++ b.2.

Lemma encode_length b : Z.of_nat (length (encode b)) = entry_size b.
Proof. unfold encode, entry_size. rewrite !length_app. cbn [length to_le_bytes]. lia. Qed.

Lemma encode_all_length blobs : Z.of_nat (length (concat (map encode blobs))) = dsm_size_for blobs - header_size.
Proof.
  unfold dsm_size_for. induction blobs as [|b blobs IH]; [done|].
  cbn [map concat foldr]. rewrite length_app, Nat2Z.inj_add, encode_length, IH. lia.
Qed.

Lemma serialize_entry_at pre mid post b :
  length mid = length (encode b) ->
  serialize_entry (pre ++ mid ++ post, length pre) b = Some (pre ++ encode b ++ post, length (pre ++ encode b)).
Proof.
  destruct b as [nm et]. intros Hl. unfold serialize_entry. cbn [fst snd].
  set (l1 := to_le_bytes (as_u32 (Z.of_nat (length nm)))). set (l2 := to_le_bytes (as_u32 (Z.of_nat (length et)))).
  assert (encode (nm, et) = l1 ++ l2 ++ nm ++ et) as Ee by done. rewrite Ee in *.
  assert (exists m1 m2 m3 m4, mid = m1 ++ m2 ++ m3 ++ m4 /\ length m1 = 4%nat /\ length m2 = 4%nat
            /\ length m3 = length nm /\ length m4 = length et) as (m1 & m2 & m3 & m4 & -> & H1 & H2 & H3 & H4).
  { exists (take 4 mid), (take 4 (drop 4 mid)), (take (length nm) (drop 8 mid)), (drop (8 + length nm) mid).
    rewrite !length_app in Hl. cbn [length l1 l2 to_le_bytes] in Hl. rewrite !length_take, !length_drop.
    split; [|lia]. change (8 + length nm)%nat with (4 + (4 + length nm))%nat. change 8%nat with (4 + 4)%nat.
    by rewrite <- !drop_drop, !take_drop. }
  rewrite <- !(assoc_L (++)).
  rewrite (write_bytes_at pre m1 l1) by (rewrite H1; done). cbn [mbind option_bind].
  replace (length pre + 4)%nat with (length (pre ++ l1)) by (rewrite length_app; done).
  rewrite (assoc_L (++) pre l1 _), (write_bytes_at (pre ++ l1) m2 l2) by (rewrite H2; done). cbn [mbind option_bind].
  replace (length pre + 8)%nat with (length ((pre ++ l1) ++ l2)) by (rewrite !length_app; cbn; lia).
  rewrite (assoc_L (++) (pre ++ l1) l2 _), (write_bytes_at ((pre ++ l1) ++ l2) m3 nm) by done. cbn [mbind option_bind].
  rewrite <- length_app, (assoc_L (++) ((pre ++ l1) ++ l2) nm _), (write_bytes_at (((pre ++ l1) ++ l2) ++ nm) m4 et) by done.
  cbn [mbind option_bind]. rewrite !length_app. do 2 f_equal; [by rewrite <- !(assoc_L (++)) | lia].
Qed.

Lemma serialize_entries_at blobs : forall pre mid post,
  length mid = length (concat (map encode blobs)) ->
  serialize_entries (pre ++ mid ++ post, length pre) blobs =
  Some (pre ++ concat (map encode blobs) ++ post, length (pre ++ concat (map encode blobs))).
Proof.
  induction blobs as [|b blobs IH]; intros pre mid post Hl; cbn [map concat serialize_entries] in *.
  - apply nil_length_inv in Hl as ->. by rewrite app_nil_r.
  - rewrite length_app in Hl. rewrite <- (take_drop (length (encode b)) mid), <- (assoc_L (++)).
    rewrite serialize_entry_at by (rewrite length_take; lia). cbn [mbind option_bind].
    rewrite (assoc_L (++) pre), IH by (rewrite length_drop; lia). by rewrite <- !(assoc_L (++)).
Qed.

(** A blob list that exists in the program: strings are UTF-8 and shorter than
    2^32 bytes. *)
Definition packable (b : str * str) : Prop :=
  utf8_valid b.1 = true /\ utf8_valid b.2 = true /\ Z.of_nat (length b.1) <= u32_max /\ Z.of_nat (length b.2) <= u32_max.

Lemma read_entry_at pre b post total :
  packable b -> Z.of_nat (length pre) + entry_size b <= total ->
  read_entry (pre ++ encode b ++ post) total (length pre) = Some (Ok (b, length (pre ++ encode b))).
Proof.
  destruct b as [nm et]. intros (Hu1 & Hu2 & Hn & He) Ht. cbn [fst snd] in *. unfold entry_size in Ht. cbn [fst snd] in Ht.
  unfold read_entry, encode. cbn [fst snd].
  rewrite !as_u32_id by (unfold is_u32; lia).
  pose proof (le_bytes_roundtrip (Z.of_nat (length nm)) ltac:(unfold is_u32; lia)) as En.
  pose proof (le_bytes_roundtrip (Z.of_nat (length et)) ltac:(unfold is_u32; lia)) as Ee.
  remember (to_le_bytes (Z.of_nat (length nm))) as l1 eqn:El1. remember (to_le_bytes (Z.of_nat (length et))) as l2 eqn:El2.
  assert (length l1 = 4%nat /\ length l2 = 4%nat) as [L1 L2] by (by subst).
  destruct (Z.ltb_spec total (Z.of_nat (length pre) + 8)); [lia|]. rewrite <- !(assoc_L (++)).
  pose proof (read_bytes_at pre l1) as R1. rewrite L1 in R1. rewrite R1. cbn [mbind option_bind].
  replace (length pre + 4)%nat with (length (pre ++ l1)) by (rewrite length_app; lia).
  rewrite (assoc_L (++) pre l1 _). pose proof (read_bytes_at (pre ++ l1) l2) as R2. rewrite L2 in R2. rewrite R2. cbn [mbind option_bind].
  rewrite En, Ee, !Nat2Z.id. destruct (Z.ltb_spec total (Z.of_nat (length pre + 8 + length nm + length et))); [lia|].
  replace (length pre + 8)%nat with (length ((pre ++ l1) ++ l2)) by (rewrite !length_app; lia).
  rewrite (assoc_L (++) (pre ++ l1) l2 _), (read_bytes_at ((pre ++ l1) ++ l2) nm). cbn [mbind option_bind].
  rewrite <- (length_app ((pre ++ l1) ++ l2) nm), (assoc_L (++) ((pre ++ l1) ++ l2) nm _), (read_bytes_at (((pre ++ l1) ++ l2) ++ nm) et). cbn [mbind option_bind].
  rewrite !from_utf8_valid by done. cbn [map_err mbind result_bind]. rewrite !length_app. do 3 f_equal. lia.
Qed.

Lemma read_entries_at blobs : forall pre post total out,
  Forall packable blobs -> Z.of_nat (length pre) + Z.of_nat (length (concat (map encode blobs))) <= total ->
  read_entries (length blobs) (pre ++ concat (map encode blobs) ++ post) total (length pre) out = Some (Ok (out ++ blobs)).
Proof.
  induction blobs as [|b blobs IH]; intros pre post total out HF Ht; cbn [length read_entries map concat] in *; [by rewrite app_nil_r|].
  apply Forall_cons in HF as [Hb HF]. rewrite length_app, Nat2Z.inj_add, encode_length in Ht. rewrite <- (assoc_L (++)).
  rewrite read_entry_at by (done || lia). cbn [mbind option_bind].
  rewrite (assoc_L (++) pre), IH; [by rewrite <- (assoc_L (++)) | done |]. rewrite length_app, Nat2Z.inj_add, encode_length. lia.
Qed.

(** C26: a segment of the size [dsm_size_for] asks for is filled without a
    write outside it, and a worker reads back the leader's blob list with the
    cursor at its start. *)
Theorem dsm_roundtrip dst blobs :
  Forall packable blobs -> header_size + Z.of_nat (length (payload dst)) = dsm_size_for blobs ->
  Z.of_nat (length blobs) * 48 <= 9223372036854775807 ->
  exists d, dsm_serialize_blobs dst (dsm_size_for blobs) blobs = Some d /\
    header d = mkHeader 0 (Z.of_nat (length blobs)) (Z.of_nat (length (payload d))) /\
    length (payload d) = length (payload dst) /\
    dsm_deserialize_blobs d = Some (Ok blobs).
Proof.
  intros HF Hsize Hcap. pose proof (encode_all_length blobs) as Henc.
  unfold dsm_serialize_blobs.
  pose proof (serialize_entries_at blobs [] (payload dst) [] ltac:(lia)) as Hs. rewrite !app_nil_r in Hs. cbn [app length] in Hs.
  rewrite Hs. cbn [mbind option_bind]. eexists. split; [done|]. cbn [header payload].
  rewrite Henc. split; [done|]. split; [lia|].
  unfold dsm_deserialize_blobs. cbn [header n_blobs payload total_payload_bytes].
  destruct (Z.ltb_spec 9223372036854775807 (Z.of_nat (length blobs) * 48)); [lia|]. rewrite Nat2Z.id.
  pose proof (read_entries_at blobs [] [] (dsm_size_for blobs - header_size) [] HF) as Hr. rewrite app_nil_r in Hr. cbn [app length] in Hr.
  apply Hr. lia.
Qed.

Definition demo_blobs : BlobList := [(lit "data/a.parquet", lit "etag-a"); (lit "data/b.parquet", lit "etag-b")].
Definition blank_dsm (n : nat) : Dsm := mkDsm (mkHeader 7 7 7) (replicate n (byte_of 0)).

Lemma dsm_roundtrip_witness :
  exists d, dsm_serialize_blobs (blank_dsm 56) (dsm_size_for demo_blobs) demo_blobs = Some d /\
    dsm_deserialize_blobs d = Some (Ok demo_blobs).
Proof.
  destruct (dsm_roundtrip (blank_dsm 56) demo_blobs) as (d & Hd & _ & _ & Hr).
  - repeat constructor; vm_compute; discriminate.
  - vm_compute. reflexivity.
  - vm_compute. discriminate.
  - exists d. split; [exact Hd | exact Hr].
Defined.

(** ** Any contents *)

Lemma read_entry_bound mem total bytes_read :
  total <= Z.of_nat (length mem) -> is_Some (read_entry mem total bytes_read).
Proof.
  intros Ht. unfold read_entry. destruct (Z.ltb_spec total (Z.of_nat bytes_read + 8)) as [|H8]; [eauto|].
  destruct (read_bytes_bound mem bytes_read 4 ltac:(lia)) as [b1 ->].
  destruct (read_bytes_bound mem (bytes_read + 4) 4 ltac:(lia)) as [b2 ->]. cbn [mbind option_bind].
  destruct (Z.ltb_spec total (Z.of_nat (bytes_read + 8 + Z.to_nat (from_le_bytes b1) + Z.to_nat (from_le_bytes b2)))) as [|Hb]; [eauto|].
  destruct (read_bytes_bound mem (bytes_read + 8) (Z.to_nat (from_le_bytes b1)) ltac:(lia)) as [b3 ->].
  destruct (read_bytes_bound mem (bytes_read + 8 + Z.to_nat (from_le_bytes b1)) (Z.to_nat (from_le_bytes b2)) ltac:(lia)) as [b4 ->].
  cbn [mbind option_bind]. eauto.
Qed.

(** C27: when the header of a segment declares no more payload than there is,
    reading the blob list never leaves the segment, whatever blob count the
    header gives and whatever bytes the payload holds: the outcome is a list
    or an error.  The reader trusts the declared size itself
    ([dsm_read_trusts_header]). *)
Theorem dsm_read_in_bounds d :
  total_payload_bytes (header d) <= Z.of_nat (length (payload d)) -> is_Some (dsm_deserialize_blobs d).
Proof.
  intros Ht. unfold dsm_deserialize_blobs. destruct (_ <? _); [eauto|].
  generalize (Z.to_nat (n_blobs (header d))), 0%nat at 1, (@nil (str * str)) at 1.
  intros n. induction n as [|n IH]; intros off out; cbn [read_entries]; [eauto|].
  destruct (read_entry_bound (payload d) (total_payload_bytes (header d)) off Ht) as [[[b off']|e] ->]; cbn [mbind option_bind]; eauto.
Qed.

(** A header that declares 100 bytes over a payload of 8, whose first entry
    has a name of 20 bytes, sends the reader out of the segment. *)
Lemma dsm_read_trusts_header : dsm_deserialize_blobs (mkDsm (mkHeader 0 1 100) (byte_of 20 :: replicate 7 (byte_of 0))) = None.
Proof. vm_compute. reflexivity. Qed.

Lemma dsm_read_in_bounds_witness : is_Some (dsm_deserialize_blobs (mkDsm (mkHeader 0 3 40) (replicate 40 (byte_of 5)))).
Proof. apply dsm_read_in_bounds. vm_compute. discriminate. Defined.
