(* ===== verification/ParallelScan.v ===== *)
(** * Workers sharing the cursor scan every row once, in any interleaving.

    A parallel scan is a set of workers that take turns: a step runs one turn
    of the scan loop of one worker (a turn touches the shared cursor at most
    once), in any order.  Every run is finite, no worker fails, and when all
    have finished the rows they emitted are those of the blob list. *)

From S2P Require Import Prelude RustStr Redact Errors RowId Options Externals Kernel Convert BlobService Store Handoff Coordinator ParquetIO Modify PlanFacts Pushdown PushdownFacts RowFilter Partition MultiFile MergeFacts Scan ScanFacts ScanClaims.
Local Open Scope Z_scope.

Section System.
Context {A : ArrowApi} {P : PgApi} {K : ComputeApi} {SA : ParquetScanApi} {H : BinaryHeapApi}.
Context (debug_key : Key -> str) (old : list (option Datum)) (c : ScanStateCore).

Abbreviation Values := (list (option Datum)).

(** A worker, the rows it has emitted and whether its scan has ended. *)
Record Worker := mkWorker { w_state : ScanState; w_out : list Values; w_done : bool }.

Definition new_worker (bl : BlobList) : Worker := mkWorker (assemble_scan_state c (ParallelRanges bl)) [] false.

(** One turn of a running worker. *)
Definition worker_step (w : Worker) (shared : Z) : option (Worker * Z) :=
  match turn (w_state w) shared with
  | Fail _ => None
  | Continue s sh => Some (mkWorker s (w_out w) false, sh)
  | Return s sh None => Some (mkWorker s (w_out w) true, sh)
  | Return s sh (Some (b, r)) =>
      match emit_row s b r old with
      | Ok (s', slot) => Some (mkWorker s' (w_out w ++ [tts_values slot]) false, sh)
      | Err _ => None
      end
  end.

Abbreviation System := (list Worker * Z)%type.

Inductive step : System -> System -> Prop :=
| step_worker i ws sh w w' sh' : ws !! i = Some w -> w_done w = false -> worker_step w sh = Some (w', sh') ->
    step (ws, sh) (<[i := w']> ws, sh').

Inductive steps : nat -> System -> System -> Prop :=
| steps_refl s : steps 0 s s
| steps_cons n s1 s2 s3 : step s1 s2 -> steps n s2 s3 -> steps (S n) s1 s3.

Definition finished (s : System) : Prop := Forall (fun w => w_done w = true) s.1.

(** A run along a schedule: the worker to step, turn by turn. *)
Fixpoint run (schedule : list nat) (s : System) : option System :=
  match schedule with
  | [] => Some s
  | i :: schedule' =>
      w ← s.1 !! i;
      if w_done w then None else '(w', sh) ← worker_step w s.2; run schedule' (<[i := w']> s.1, sh)
  end.

Lemma run_steps schedule : forall s s', run schedule s = Some s' -> steps (length schedule) s s'.
Proof.
  induction schedule as [|i schedule IH]; intros [ws sh] s' Hr; cbn in Hr; [injection Hr as <-; constructor|].
  apply bind_Some in Hr as (w & Hi & Hr). destruct (w_done w) eqn:Hd; [done|].
  apply bind_Some in Hr as ([w' sh'] & Hstep & Hr). eapply steps_cons; [by econstructor | by apply IH].
Qed.

(** ** What a worker has left *)

Definition blob_values (b : (str * str) * BlobScan) : list Values :=
  match b.2 with Skipped _ => [] | Scanned ds bs => map (slot_values old c ds) (stream_rows bs) end.
Definition blob_cost (b : (str * str) * BlobScan) : nat :=
  match b.2 with Skipped _ => 1 | Scanned _ bs => 2 + length (stream_rows bs) + length bs end.
Definition blob_chunk_count (b : (str * str) * BlobScan) : nat :=
  match b.2 with Skipped _ => 0 | Scanned _ bs => Z.to_nat (chunk_count (Z.of_nat (length (stream_rows bs)))) end.

(** [winv bl T w p n]: the worker has the rows [p] of its current blob to emit,
    takes at most [n] more turns before it asks for another blob, and its chunk
    table will not grow beyond [T] before that. *)
Inductive winv (bl : BlobList) (T : nat) : Worker -> list Values -> nat -> Prop :=
| winv_done s out : winv bl T (mkWorker s out true) [] 0
| winv_idle cb table base k ds ns out :
    (length table <= T)%nat -> (sc_partition_keys_decl c = [] -> ds = []) ->
    winv bl T (mkWorker (plain c cb None None 0 (ParallelRanges bl) table base k ds ns) out false) [] 1
| winv_active cb ob r bs nm et pre k ds ns out rows :
    rows = match ob with Some b => rows_from b r | None => [] end ++ stream_rows bs -> (ob = None -> r = 0%nat) ->
    0 <= k -> k + Z.of_nat (length rows) <= u64_max -> Forall (row_ok old c ds) rows ->
    (length pre + Z.to_nat (chunk_count (k + Z.of_nat (length rows))) <= T)%nat ->
    (sc_partition_keys_decl c = [] -> ds = []) ->
    winv bl T (mkWorker (plain c cb (Some (map Ok bs)) ob r (ParallelRanges bl) (pre ++ blob_chunks nm et k)
                 (Z.of_nat (length pre)) k ds ns) out false)
      (map (slot_values old c ds) rows) (2 + length rows + length bs).

Lemma winv_mono bl T T' w p n : (T <= T')%nat -> winv bl T w p n -> winv bl T' w p n.
Proof. intros HT Hw. destruct Hw; econstructor; eauto; lia. Qed.

(** A step that stays within the current blob. *)
Lemma winv_local bl T w p n sh :
  winv bl T w p n -> (1 < n)%nat -> exists w' p' n', worker_step w sh = Some (w', sh) /\ winv bl T w' p' n' /\
    w_out w' ++ p' = w_out w ++ p /\ w_done w' = false /\ (n' < n)%nat.
Proof.
  intros Hw Hn. inversion Hw as [|? ? ? ? ? ? ? ? ?|cb ob r bs nm et pre k ds ns out rows Er Hr Hk Hmax Hok HT Hds]; subst w p n; [lia|lia|].
  assert (rows = stream_rows bs -> exists w' p' n',
    worker_step (mkWorker (plain c cb (Some (map Ok bs)) None 0 (ParallelRanges bl) (pre ++ blob_chunks nm et k) (Z.of_nat (length pre)) k ds ns) out false) sh
      = Some (w', sh) /\ winv bl T w' p' n' /\ w_out w' ++ p' = out ++ map (slot_values old c ds) rows /\ w_done w' = false /\
      (n' < 2 + length rows + length bs)%nat) as Hstream.
  { intros ->. destruct bs as [|b bs].
    - exists (mkWorker (plain c (S cb) None None 0 (ParallelRanges bl) (pre ++ blob_chunks nm et k) (Z.of_nat (length pre)) k ds ns) out false), [], 1%nat.
      split; [done|]. split; [|split; [done|split; [done|cbn; lia]]].
      apply winv_idle; [|done]. rewrite length_app. pose proof (blob_chunks_length nm et k). cbn in HT. rewrite Z.add_0_r in HT. lia.
    - exists (mkWorker (plain c cb (Some (map Ok bs)) (Some b) 0 (ParallelRanges bl) (pre ++ blob_chunks nm et k) (Z.of_nat (length pre)) k ds ns) out false),
        (map (slot_values old c ds) (stream_rows (b :: bs))), (2 + length (rows_from b 0 ++ stream_rows bs) + length bs)%nat. split; [done|].
      split; [|split; [reflexivity|split; [done|]]].
      2: { change (stream_rows (b :: bs)) with (rows_from b 0 ++ stream_rows bs). cbn [length]. lia. }
      apply (winv_active bl T cb (Some b) 0 bs nm et pre k ds ns out); auto. }
  destruct ob as [b|].
  - destruct (Nat.ltb_spec r (num_rows b)) as [Hlt|Hge].
    + rewrite rows_from_cons in Er by done. subst rows. cbn [app length] in *. apply Forall_cons in Hok as [Hrow Hok].
      eexists _, (map (slot_values old c ds) (rows_from b (S r) ++ stream_rows bs)), _. unfold worker_step. cbn [w_state].
      assert (turn (plain c cb (Some (map Ok bs)) (Some b) r (ParallelRanges bl) (pre ++ blob_chunks nm et k) (Z.of_nat (length pre)) k ds ns) sh
        = Return (plain c cb (Some (map Ok bs)) (Some b) (S r) (ParallelRanges bl) (pre ++ blob_chunks nm et k) (Z.of_nat (length pre)) k ds ns) sh (Some (b, r))) as ->.
      { unfold turn, plain. cbn [cur_batch cur_row]. by rewrite (proj2 (Nat.ltb_lt _ _)). }
      rewrite emit_plain by (done || lia). split; [done|].
      split; [apply (winv_active bl T cb (Some b) (S r) bs nm et pre (k + 1) ds ns _ (rows_from b (S r) ++ stream_rows bs)); try done; try lia|].
      * by replace (k + 1 + Z.of_nat (length (rows_from b (S r) ++ stream_rows bs))) with (k + Z.of_nat (S (length (rows_from b (S r) ++ stream_rows bs)))) by lia.
      * cbn [w_out tts_values map]. rewrite <- (assoc_L (++)). split; [done|]. split; [done|]. lia.
    + rewrite rows_from_nil in Er by done. destruct (Hstream Er) as (w' & p' & n' & Hs & Hrest).
      exists w', p', n'. split; [|exact Hrest]. rewrite <- Hs. unfold worker_step. cbn [w_state].
      assert (turn (plain c cb (Some (map Ok bs)) (Some b) r (ParallelRanges bl) (pre ++ blob_chunks nm et k) (Z.of_nat (length pre)) k ds ns) sh
        = turn (plain c cb (Some (map Ok bs)) None 0 (ParallelRanges bl) (pre ++ blob_chunks nm et k) (Z.of_nat (length pre)) k ds ns) sh) as ->; [|done].
      unfold turn, plain. cbn [cur_batch cur_row]. by rewrite (proj2 (Nat.ltb_ge _ _)).
  - rewrite Hr in * by done. destruct (Hstream Er) as (w' & p' & n' & Hs & Hrest). by exists w', p', n'.
Qed.

(** A worker between blobs asks for the next one. *)
Lemma winv_take l T w p sh :
  winv (map fst l) T w p 1 -> Forall (blob_scan_ok old c) l -> 0 <= sh < u64_max ->
  Z.of_nat (T + match l !! Z.to_nat sh with Some b => blob_chunk_count b | None => 0 end) <= u32_max ->
  exists w', worker_step w sh = Some (w', sh + 1) /\ w_out w' = w_out w /\ p = [] /\ w_done w = false /\
    match l !! Z.to_nat sh with
    | Some b => winv (map fst l) (T + blob_chunk_count b) w' (blob_values b) (blob_cost b) /\ w_done w' = false
    | None => winv (map fst l) T w' [] 0 /\ w_done w' = true
    end.
Proof.
  intros Hw Hok Hsh Hmax. inversion Hw as [|cb table base k ds ns out HT Hds|]; subst w p.
  assert (as_u64 (sh + 1) = sh + 1) as Hu by int_lia.
  destruct (l !! Z.to_nat sh) as [[[nm et] o]|] eqn:E.
  - assert (map fst l !! Z.to_nat sh = Some (nm, et)) as Eb by (by rewrite (list_lookup_fmap fst), E).
    rewrite Forall_lookup in Hok. specialize (Hok _ _ E). destruct o as [msg|ds' bs]; cbn [blob_scan_ok fst snd] in Hok.
    + destruct Hok as [Hdecl Hpart].
      exists (mkWorker (plain c cb None None 0 (ParallelRanges (map fst l)) table base k ds (ns ++ [msg])) out false).
      unfold worker_step, turn, plain. cbn [w_state cur_batch cur_stream range_producer next_blob core].
      rewrite Eb, Hu. cbn zeta. destruct (sc_partition_keys_decl c) eqn:Ed; [by destruct Hdecl|]. rewrite Hpart. cbn [of_result].
      repeat split. apply winv_idle; [cbn; lia | by rewrite Ed].
    + destruct Hok as (Hdat & Hopen & Hrows & Hn). cbn [blob_chunk_count blob_values blob_cost snd] in *.
      set (n := Z.of_nat (length (stream_rows bs))) in *.
      assert (as_u32 (Z.of_nat (length table)) = Z.of_nat (length table)) as Hbase by (apply as_u32_id; unfold is_u32; lia).
      exists (mkWorker (plain c cb (Some (map Ok bs)) None 0 (ParallelRanges (map fst l)) (table ++ blob_chunks nm et 0)
                          (Z.of_nat (length table)) 0 ds' ns) out false).
      split.
      { unfold worker_step, turn, plain. cbn [w_state cur_batch cur_stream range_producer next_blob core]. rewrite Eb, Hu. cbn zeta.
        unfold start_blob. cbn [core cur_blob cur_batch cur_row blob_id_table partition_datums sorted_stream notices].
        destruct (sc_partition_keys_decl c) as [|d decl] eqn:Ed; cbn in Hdat.
        - rewrite Hopen, Hbase, Hds by done. rewrite Hdat. done.
        - rewrite Hdat. cbn [of_result]. rewrite Hopen, Hbase. done. }
      split; [done|]. split; [done|]. split; [done|]. split; [|done].
      apply (winv_active _ _ cb None 0 bs nm et table 0 ds' ns out (stream_rows bs)); try done.
      * fold n. rewrite Z.add_0_l. lia.
      * intros Ed. by rewrite Ed in Hdat.
  - assert (map fst l !! Z.to_nat sh = None) as Eb by (by rewrite (list_lookup_fmap fst), E).
    exists (mkWorker (plain c cb None None 0 (ParallelRanges (map fst l)) table base k ds (ns ++ [])) out true).
    unfold worker_step, turn, plain. cbn [w_state cur_batch cur_stream range_producer next_blob core].
    rewrite Eb, Hu. cbn zeta. repeat split. apply winv_done.
Qed.

(** ** All workers *)

Section Blobs.
Context (l : list ((str * str) * BlobScan)).
Context (l_ok : Forall (blob_scan_ok old c) l).
Context (l_chunks : Z.of_nat (sum_list_with blob_chunk_count l) <= u32_max).

(** What has been handed out when the cursor is at [sh]. *)
Definition handed (sh : Z) := take (Z.to_nat sh) l.
Definition total_values : list Values := concat (map blob_values l).

Definition done_count (ws : list Worker) : nat := sum_list_with (fun w => if w_done w then 1%nat else 0%nat) ws.

(** [m] bounds the steps left. *)
Definition sys_inv (s : System) (m : nat) : Prop :=
  let '(ws, sh) := s in
  0 <= sh /\ sh <= Z.of_nat (length l) + Z.of_nat (done_count ws) /\
  (done_count ws <> 0%nat -> Z.of_nat (length l) <= sh) /\
  exists gs : list (list Values * nat),
    Forall2 (fun w g => winv (map fst l) (sum_list_with blob_chunk_count (handed sh)) w g.1 g.2) ws gs /\
    concat (map w_out ws) ++ concat (map fst gs) ≡ₚ concat (map blob_values (handed sh)) /\
    m = (sum_list_with snd gs + sum_list_with blob_cost (drop (Z.to_nat sh) l))%nat.

Lemma concat_mid {T} (a b c' d x y : list T) : (a ++ x ++ b) ++ (c' ++ y ++ d) ≡ₚ (x ++ y) ++ (a ++ b) ++ (c' ++ d).
Proof.
  rewrite <- !(assoc_L (++)). rewrite (Permutation_app_swap_app c' y d), (Permutation_app_swap_app b y), (Permutation_app_swap_app a x).
  by rewrite (Permutation_app_swap_app a y).
Qed.

Lemma handed_next sh b : 0 <= sh -> l !! Z.to_nat sh = Some b -> handed (sh + 1) = handed sh ++ [b].
Proof. intros Hsh E. unfold handed. rewrite Z2Nat.inj_add, Nat.add_1_r by lia. by apply take_S_r. Qed.

Lemma handed_all sh : 0 <= sh -> l !! Z.to_nat sh = None -> handed (sh + 1) = handed sh.
Proof. intros Hsh E%lookup_ge_None. unfold handed. by rewrite !take_ge by lia. Qed.

Lemma handed_chunks sh : (sum_list_with blob_chunk_count (handed sh) <= sum_list_with blob_chunk_count l)%nat.
Proof. unfold handed. rewrite <- (take_drop (Z.to_nat sh) l) at 2. rewrite sum_list_with_app. lia. Qed.

Lemma done_count_le ws : (done_count ws <= length ws)%nat.
Proof. unfold done_count. induction ws as [|w ws IH]; cbn; [done|]. destruct (w_done w); lia. Qed.

(** Replacing the worker in the middle. *)
Lemma sys_inv_replace ws1 w ws2 sh w' sh' p n p' n' more cost gs1 gs2 :
  let T sh := sum_list_with blob_chunk_count (handed sh) in
  Forall2 (fun w g => winv (map fst l) (T sh) w g.1 g.2) ws1 gs1 ->
  Forall2 (fun w g => winv (map fst l) (T sh) w g.1 g.2) ws2 gs2 ->
  concat (map w_out (ws1 ++ w :: ws2)) ++ concat (map fst (gs1 ++ (p, n) :: gs2)) ≡ₚ concat (map blob_values (handed sh)) ->
  (T sh <= T sh')%nat -> winv (map fst l) (T sh') w' p' n' -> w_out w' ++ p' = (w_out w ++ p) ++ more ->
  concat (map blob_values (handed sh')) = concat (map blob_values (handed sh)) ++ more ->
  0 <= sh' -> sh' <= Z.of_nat (length l) + Z.of_nat (done_count (ws1 ++ w' :: ws2)) ->
  (done_count (ws1 ++ w' :: ws2) <> 0%nat -> Z.of_nat (length l) <= sh') ->
  (sum_list_with blob_cost (drop (Z.to_nat sh) l) = cost + sum_list_with blob_cost (drop (Z.to_nat sh') l))%nat ->
  (n' < n + cost)%nat ->
  exists m', sys_inv (ws1 ++ w' :: ws2, sh') m' /\
    (m' < sum_list_with snd (gs1 ++ (p, n) :: gs2) + sum_list_with blob_cost (drop (Z.to_nat sh) l))%nat.
Proof.
  intros T H1 H2 Hp HT Hw Hout Hvals Hsh Hsh' Hend Hcost Hn.
  exists (sum_list_with snd (gs1 ++ (p', n') :: gs2) + sum_list_with blob_cost (drop (Z.to_nat sh') l))%nat. split.
  - split; [done|]. split; [done|]. split; [done|]. exists (gs1 ++ (p', n') :: gs2). split; [|split; [|done]].
    + apply Forall2_app; [|constructor; [done|]]; (eapply Forall2_impl; [eassumption|]); intros ? ? ?; by eapply winv_mono.
    + revert Hp. rewrite !map_app. cbn [map fst]. rewrite !concat_app. cbn [concat]. rewrite !concat_mid, Hout, Hvals.
      intros Hp. rewrite <- Hp, <- (assoc_L (++) (w_out w ++ p)), <- (assoc_L (++) (w_out w ++ p)). f_equiv. apply Permutation_app_comm.
  - rewrite !sum_list_with_app. cbn [sum_list_with snd]. lia.
Qed.

Lemma sys_inv_step ws sh m i w :
  Z.of_nat (length l) + Z.of_nat (length ws) < u64_max ->
  sys_inv (ws, sh) m -> ws !! i = Some w -> w_done w = false ->
  exists w' sh' m', worker_step w sh = Some (w', sh') /\ sys_inv (<[i := w']> ws, sh') m' /\ (m' < m)%nat.
Proof.
  intros Hmax (Hsh & Hcur & Hend & gs & HF & Hp & ->) Hi Hd.
  destruct (Forall2_lookup_l _ _ _ _ _ HF Hi) as ([p n] & Hg & Hw). cbn [fst snd] in Hw.
  pose proof (done_count_le ws) as Hdc. pose proof (lookup_lt_Some _ _ _ Hi) as Hil.
  rewrite <- (take_drop_middle ws i w Hi), <- (take_drop_middle gs i (p, n) Hg) in HF, Hp.
  pose proof (insert_take_drop ws i) as Hins.
  pose proof (f_equal done_count (take_drop_middle ws i w Hi)) as Hdw. rewrite <- (take_drop_middle gs i (p, n) Hg).
  set (ws1 := take i ws) in *. set (ws2 := drop (S i) ws) in *. set (gs1 := take i gs) in *. set (gs2 := drop (S i) gs) in *.
  apply Forall2_app_inv in HF as [HF1 HF2].
  2: { subst ws1 gs1. rewrite !length_take. apply lookup_lt_Some in Hg. lia. }
  apply Forall2_cons in HF2 as [_ HF2].
  assert (forall w', w_done w' = false -> done_count (ws1 ++ w' :: ws2) = done_count (ws1 ++ w :: ws2)) as Hdone.
  { intros w' Hd'. unfold done_count. rewrite !sum_list_with_app. cbn [sum_list_with]. by rewrite Hd, Hd'. }
  destruct (decide (1 < n)%nat) as [Hn|Hn].
  - destruct (winv_local _ _ _ _ _ sh Hw Hn) as (w' & p' & n' & Hstep & Hw' & Hout & Hd' & Hlt).
    destruct (sys_inv_replace ws1 w ws2 sh w' sh p n p' n' [] 0 gs1 gs2) as (m' & Hinv & Hm'); rewrite ?app_nil_r; try done; try lia.
    + by rewrite Hdone, Hdw.
    + by rewrite Hdone, Hdw.
    + exists w', sh, m'. rewrite Hins by done. done.
  - assert (n = 1%nat) as ->.
    { destruct n as [|[|n]]; [|done|lia]. inversion Hw; subst; done. }
    destruct (winv_take l _ _ _ sh Hw l_ok) as (w' & Hstep & Hout & -> & _ & Hnext).
    { lia. }
    { pose proof (handed_chunks (sh + 1)). destruct (l !! Z.to_nat sh) as [b|] eqn:E.
      - erewrite handed_next in H0 by eassumption. rewrite sum_list_with_app in H0. cbn in H0. lia.
      - pose proof (handed_chunks sh). lia. }
    destruct (l !! Z.to_nat sh) as [b|] eqn:E.
    + destruct Hnext as [Hw' Hd']. pose proof (handed_next _ _ Hsh E) as Hnext. pose proof (lookup_lt_Some _ _ _ E) as Hlt.
      destruct (sys_inv_replace ws1 w ws2 sh w' (sh + 1) [] 1 (blob_values b) (blob_cost b) (blob_values b) (blob_cost b) gs1 gs2)
        as (m' & Hinv & Hm'); try (rewrite Hdone, Hdw by done); try done; try lia.
      * rewrite Hnext, sum_list_with_app. lia.
      * rewrite Hnext, sum_list_with_app. cbn [sum_list_with]. by rewrite Nat.add_0_r.
      * by rewrite Hout, app_nil_r.
      * rewrite Hnext, map_app, concat_app. cbn. by rewrite app_nil_r.
      * rewrite (drop_S _ _ _ E). rewrite Z2Nat.inj_add, Nat.add_1_r by lia. done.
      * exists w', (sh + 1), m'. rewrite Hins by done. done.
    + destruct Hnext as [Hw' Hd']. pose proof (handed_all _ Hsh E) as Hnext. apply lookup_ge_None in E.
      destruct (sys_inv_replace ws1 w ws2 sh w' (sh + 1) [] 1 [] 0 [] 0 gs1 gs2) as (m' & Hinv & Hm'); try done; try lia.
      * by rewrite Hnext.
      * by rewrite Hnext.
      * by rewrite Hout, !app_nil_r.
      * by rewrite Hnext, app_nil_r.
      * revert Hcur. rewrite <- Hdw. unfold done_count. rewrite !sum_list_with_app. cbn [sum_list_with]. rewrite Hd, Hd'. lia.
      * by rewrite !drop_ge by lia.
      * exists w', (sh + 1), m'. rewrite Hins by done. done.
Qed.

Definition start (k : nat) : System := (replicate k (new_worker (map fst l)), 0).

Definition step_bound (k : nat) : nat := k + sum_list_with blob_cost l.

Lemma start_inv k : sys_inv (start k) (step_bound k).
Proof.
  unfold start, sys_inv. split; [done|]. split; [lia|]. split.
  { intros Hd. exfalso. apply Hd. clear Hd. induction k as [|k IH]; [done|exact IH]. }
  exists (replicate k ([], 1%nat)). split; [|split].
  - apply Forall2_replicate. cbn. apply (winv_idle _ _ 0 [] 0 0 [] []); [cbn; lia|done].
  - unfold handed. cbn [Z.to_nat take map concat]. induction k as [|k IH]; [done|exact IH].
  - unfold step_bound. cbn [Z.to_nat drop]. f_equal. induction k as [|k IH]; cbn; [done|]. by rewrite <- IH.
Qed.

Lemma steps_inv n s1 s2 m :
  steps n s1 s2 -> sys_inv s1 m -> Z.of_nat (length l) + Z.of_nat (length s1.1) < u64_max ->
  exists m', sys_inv s2 m' /\ (n + m' <= m)%nat /\ length s2.1 = length s1.1.
Proof.
  intros Hs. revert m. induction Hs as [s|n s1 s2 s3 H12 _ IH]; intros m Hinv Hmax; [exists m; auto with lia|].
  inversion H12 as [i ws sh w w' sh' Hi Hd Hstep]; subst.
  destruct (sys_inv_step ws sh m i w Hmax Hinv Hi Hd) as (w2 & sh2 & m2 & Hstep2 & Hinv2 & Hlt).
  rewrite Hstep in Hstep2. injection Hstep2 as <- <-.
  destruct (IH m2 Hinv2) as (m' & Hinv' & Hle & Hlen); cbn [fst] in *; rewrite ?length_insert in *; [done|].
  exists m'. split; [done|]. split; [lia|done].
Qed.

Lemma done_winv ws T gs :
  Forall2 (fun w g => winv (map fst l) T w g.1 g.2) ws gs -> Forall (fun w => w_done w = true) ws -> concat (map fst gs) = [].
Proof.
  induction 1 as [|w g ws gs Hw _ IH]; intros HF; [done|]. apply Forall_cons in HF as [Hd HF]. cbn.
  rewrite (IH HF), app_nil_r. by inversion Hw; subst.
Qed.

Lemma finished_rows s m : s.1 <> [] -> sys_inv s m -> finished s -> concat (map w_out s.1) ≡ₚ total_values.
Proof.
  destruct s as [ws sh]. intros Hne (Hsh & _ & Hend & gs & HF & Hp & _) Hfin. cbn [fst] in *.
  rewrite (done_winv _ _ _ HF Hfin), app_nil_r in Hp. rewrite Hp. unfold handed, total_values. rewrite take_ge; [done|].
  enough (Z.of_nat (length l) <= sh) by lia. apply Hend. destruct ws as [|w ws]; [done|]. apply Forall_cons in Hfin as [Hd _].
  cbn in Hd |- *. by rewrite Hd.
Qed.

Lemma not_finished ws sh : ~ finished (ws, sh) -> exists i w, ws !! i = Some w /\ w_done w = false.
Proof.
  intros Hn. unfold finished in Hn. apply not_Forall_Exists in Hn; [|apply _].
  apply Exists_exists in Hn as (w & Hw & Hd). apply list_elem_of_lookup in Hw as [i Hi]. exists i, w.
  cbn in Hd. by destruct (w_done w).
Qed.

(** C25: [k] workers sharing a cursor over a list of blobs that can be read and
    whose rows convert ([blob_scan_ok]), stepped in any order: every run is
    finite, a run can be continued until all workers have finished (none
    fails), and then they have emitted the rows of every blob exactly once
    between them. *)
Theorem parallel_scan_complete k n s :
  (0 < k)%nat -> Z.of_nat (length l) + Z.of_nat k < u64_max -> steps n (start k) s ->
  (n <= step_bound k)%nat /\
  (~ finished s -> exists s', step s s') /\
  (finished s -> concat (map w_out s.1) ≡ₚ total_values).
Proof.
  intros Hk Hmax Hs. destruct (steps_inv _ _ _ _ Hs (start_inv k)) as (m & Hinv & Hle & Hlen);
    cbn [start fst] in *; rewrite length_replicate in *; [done|].
  split; [lia|]. split; destruct s as [ws sh].
  - intros (i & w & Hi & Hd)%not_finished.
    destruct (sys_inv_step ws sh m i w) as (w' & sh' & m' & Hstep & _); try done; [cbn in Hlen; lia|].
    eexists. by econstructor.
  - apply (finished_rows _ m); [|done]. cbn in Hlen |- *. by destruct ws; cbn in Hlen; [lia|].
Qed.

(** ** The leader *)

Lemma spec_values ls : forall table, map tts_values (scan_spec old c table ls).1 = concat (map blob_values ls).
Proof.
  assert (forall ds base rows k, map tts_values (slots_from old c ds base k rows) = map (slot_values old c ds) rows) as Hf.
  { intros ds base rows. induction rows as [|x rows IH]; intros k; cbn; [done|]. by rewrite IH. }
  induction ls as [|[[nm et] [msg|ds bs]] ls IH]; intros table; cbn [scan_spec map concat]; [done|apply IH|].
  specialize (IH (table ++ blob_chunks nm et (Z.of_nat (length (stream_rows bs))))). destruct (scan_spec _ _ _ ls) as [slots table'].
  cbn [fst] in *. by rewrite map_app, IH, Hf.
Qed.

Lemma spec_chunks ls : forall table,
  length (scan_spec old c table ls).2 = (length table + sum_list_with blob_chunk_count ls)%nat.
Proof.
  induction ls as [|[[nm et] [msg|ds bs]] ls IH]; intros table; cbn [scan_spec sum_list_with snd]; [lia|by rewrite IH|].
  specialize (IH (table ++ blob_chunks nm et (Z.of_nat (length (stream_rows bs))))). destruct (scan_spec _ _ _ ls) as [slots table'].
  cbn [snd] in *. rewrite IH, length_app. pose proof (blob_chunks_length nm et (Z.of_nat (length (stream_rows bs)))).
  unfold blob_chunk_count at 2. cbn [snd]. lia.
Qed.

(** The leader's own scan state iterates the blob list with a cursor of
    its own, so when the leader takes part in the scan next to the workers
    every row is returned twice. *)
Theorem leader_repeats_rows k n s sh :
  (0 < k)%nat -> Z.of_nat (length l) + Z.of_nat k < u64_max -> steps n (start k) s -> finished s ->
  exists N s' slots, (forall F, (N <= F)%nat ->
      scan_all debug_key F (assemble_scan_state c (SequentialRanges (map fst l) 0)) sh old = Some (Ok (s', sh, slots))) /\
    map tts_values slots ++ concat (map w_out s.1) ≡ₚ total_values ++ total_values.
Proof.
  intros Hk Hmax Hs Hfin. destruct (steps_inv _ _ _ _ Hs (start_inv k)) as (m & Hinv & Hle & Hlen);
    cbn [start fst] in *; rewrite length_replicate in *; [done|].
  destruct (scan_runs debug_key old c l sh l_ok) as (N & s' & _ & Hall); [by rewrite spec_chunks|].
  exists N, s', (scan_spec old c [] l).1. split; [exact Hall|]. rewrite spec_values. apply Permutation_app; [done|].
  apply (finished_rows s m); [|done|done]. intros E. rewrite E in Hlen. cbn in Hlen. lia.
Qed.
End Blobs.
End System.

(** Two workers, one file of three rows: the second one gets it. *)
Definition demo_schedule : list nat := [1; 1; 0; 1; 1; 1; 1; 1]%nat.

Definition demo_end : list (Worker (A := ref_arrow)) * Z :=
  default ([], 0) (run (SA := ref_scan) [None] demo_schedule (start (demo_core None) (demo_l [1; 2; 3]) 2)).

Lemma demo_run : steps (SA := ref_scan) [None] 8 (start (demo_core None) (demo_l [1; 2; 3]) 2) demo_end.
Proof. apply (run_steps (SA := ref_scan) [None] demo_schedule). vm_compute. reflexivity. Qed.

Lemma demo_l_ok : Forall (blob_scan_ok (SA := ref_scan) [None] (demo_core None)) (demo_l [1; 2; 3]).
Proof. apply demo_scan_ok; [reflexivity | vm_compute; reflexivity | cbn; lia]. Qed.

Lemma demo_finished : finished demo_end.
Proof. unfold finished. assert (forallb w_done demo_end.1 = true) as Hb by (vm_compute; reflexivity). rewrite forallb_forall in Hb. apply Forall_forall. intros w Hw%list_elem_of_In. by apply Hb. Qed.

Lemma parallel_scan_complete_witness :
  concat (map w_out demo_end.1) ≡ₚ total_values [None] (demo_core None) (demo_l [1; 2; 3]).
Proof.
  apply (parallel_scan_complete (SA := ref_scan) [None] (demo_core None) (demo_l [1; 2; 3]) demo_l_ok ltac:(vm_compute; discriminate) 2 8 demo_end);
    [lia | vm_compute; reflexivity | exact demo_run | exact demo_finished].
Defined.

Lemma leader_repeats_rows_witness :
  exists N s' slots, (forall F, (N <= F)%nat ->
      scan_all (SA := ref_scan) no_debug F (assemble_scan_state (demo_core None) (SequentialRanges (map fst (demo_l [1; 2; 3])) 0)) 0 [None]
      = Some (Ok (s', 0, slots))) /\
    map tts_values slots ++ concat (map w_out demo_end.1)
    ≡ₚ total_values [None] (demo_core None) (demo_l [1; 2; 3]) ++ total_values [None] (demo_core None) (demo_l [1; 2; 3]).
Proof.
  apply (leader_repeats_rows (SA := ref_scan) no_debug [None] (demo_core None) (demo_l [1; 2; 3]) demo_l_ok ltac:(vm_compute; discriminate) 2 8 demo_end);
    [lia | vm_compute; reflexivity | exact demo_run | exact demo_finished].
Defined.
