(* ===== verification/Planner.v ===== *)
(** * The planner callbacks of [src/fdw/scan.rs].

    Size estimate, access paths and the plan node: which scans get a partial
    (parallel) path and which columns the scan is told to read.  Postgres'
    expression walker and bitmap sets are the class [PlannerApi]; [f64]
    arithmetic is IEEE binary64. *)

From Stdlib Require Import Floats.SpecFloat.
From S2P Require Import Prelude RustStr Redact Errors RowId Options Externals Kernel Convert BlobService Store Handoff Coordinator ParquetIO Modify Pushdown PushdownWalk Partition Glob MultiFile Scan ScanPlan Parallel.
Local Open Scope Z_scope.

(** ** [f64] *)

Abbreviation f64 := spec_float.
Definition f64_div (a b : f64) : f64 := SFdiv 53 1024 a b.
Definition f64_of_Z (z : Z) : f64 := binary_normalize 53 1024 z 0 false.
Definition f64_is_nan (a : f64) : bool := match a with S754_nan => true | _ => false end.
(** [f64::max]: a NaN argument is ignored. *)
Definition f64_max (a b : f64) : f64 :=
  if f64_is_nan a then b else if f64_is_nan b then a
  else match SFcompare a b with Some Lt => b | _ => a end.

(** ** [get_foreign_rel_size] *)

Record RelSize := mkSize { size_rows : f64; size_width : option Z }.

Definition get_foreign_rel_size (has_reltarget : bool) : RelSize :=
  mkSize (f64_of_Z 1000) (if has_reltarget then Some 32 else None).

(** ** [get_foreign_paths] *)

(** The arguments of [create_foreignscan_path] that are not null. *)
Record PathCall := mkPath { path_rows_arg : f64; startup_cost : f64; total_cost : f64 }.

(** A partial path and the fields set on it afterwards. *)
Record PartialPath := mkPartial { pp_call : PathCall; parallel_aware : bool; parallel_safe : bool; pp_workers : Z; pp_rows : f64 }.

Record Paths := mkPaths { add_path : PathCall; add_partial_path : option PartialPath; consider_parallel : bool }.

Definition partial_path (rows : f64) (n_workers : Z) : PartialPath :=
  let per_worker_rows := f64_max (f64_div rows (f64_of_Z n_workers)) (f64_of_Z 1) in
  let per_worker_cost := f64_max (f64_div rows (f64_of_Z n_workers)) (f64_of_Z 1) in
  mkPartial (mkPath per_worker_rows (f64_of_Z 0) per_worker_cost) true true n_workers per_worker_rows.

(** [considered] is [consider_parallel] as the planner set it before. *)
Definition get_foreign_paths (catalog : Z -> CatalogOptions) (max_parallel_workers_per_gather : Z) (cmd : option CmdType)
    (foreigntableid : Z) (rows : f64) (considered : bool) : Paths :=
  let plain := mkPath rows (f64_of_Z 0) rows in
  if bool_decide (cmd = Some CMD_SELECT) && negb (read_sorted_opt (catalog foreigntableid)) then
    let pw_opt := read_parallel_workers_opt (catalog foreigntableid) in
    if negb (bool_decide (pw_opt = Some 0)) then
      let n_workers := Z.max (default max_parallel_workers_per_gather pw_opt) 1 in
      mkPaths plain (Some (partial_path rows n_workers)) true
    else mkPaths plain None considered
  else mkPaths plain None considered.

(** ** [get_foreign_plan] *)

Class PlannerApi := {
  PlanExpr : Type;
  Bitmapset : Type;
  bms_null : Bitmapset;
  FirstLowInvalidHeapAttributeNumber : Z;
  pull_varattnos : PlanExpr -> Z -> Bitmapset -> Bitmapset;
  bms_next_member : Bitmapset -> Z -> Z }.

(** What the walker collects: [vars_of e r] are the attribute numbers of the
    columns of relation [r] in [e], negative for system columns and 0 for a
    reference to the whole row. *)
Class PlannerLaws (PL : PlannerApi) := {
  vars_of : PlanExpr -> Z -> gset Z;
  bms_members : Bitmapset -> gset Z;
  bms_members_null : bms_members bms_null = ∅;
  vars_of_low e r a : a ∈ vars_of e r -> FirstLowInvalidHeapAttributeNumber <= a;
  pull_varattnos_members e r b m :
    m ∈ bms_members (pull_varattnos e r b) <-> m ∈ bms_members b \/ m + FirstLowInvalidHeapAttributeNumber ∈ vars_of e r;
  bms_next_member_spec b prev : -1 <= prev -> (forall m, m ∈ bms_members b -> 0 <= m) ->
    (bms_next_member b prev < 0 /\ forall m, m ∈ bms_members b -> m <= prev) \/
    (bms_next_member b prev ∈ bms_members b /\ prev < bms_next_member b prev /\
     forall m, m ∈ bms_members b -> prev < m -> bms_next_member b prev <= m) }.

Section Plan.
Context {PL : PlannerApi}.

(** What [get_foreign_plan] reads of the relation; a null [RestrictInfo] or a
    null clause is [None]. *)
Record RelOptInfo := mkRel { rel_relid : Z; reltarget_exprs : option PlanExpr; baserestrictinfo : list (option (option PlanExpr)) }.

Definition pull_restrict (relid : Z) (bms : Bitmapset) (cell : option (option PlanExpr)) : Bitmapset :=
  match cell with Some (Some clause) => pull_varattnos clause relid bms | _ => bms end.

(** The loop over the members; [None] is out of fuel. *)
Fixpoint collect_attnums (fuel : nat) (bms : Bitmapset) (prev : Z) : option (list Z) :=
  match fuel with
  | O => None
  | S fuel' =>
      let next := bms_next_member bms prev in
      if next <? 0 then Some []
      else
        let attno := next + FirstLowInvalidHeapAttributeNumber in
        rest ← collect_attnums fuel' bms next;
        Some (if 1 <=? attno then attno :: rest else rest)
  end.

(** The outer option is fuel, the inner one the null list. *)
Definition build_projection_intlist (fuel : nat) (baserel : option RelOptInfo) : option (option (list Z)) :=
  match baserel with
  | None => Some None
  | Some rel =>
      match reltarget_exprs rel with
      | None => Some None
      | Some exprs =>
          let bms := pull_varattnos exprs (rel_relid rel) bms_null in
          let bms := foldl (pull_restrict (rel_relid rel)) bms (baserestrictinfo rel) in
          attnums ← collect_attnums fuel bms (-1);
          Some (Some (match attnums with [] => [1] | _ => attnums end))
      end
  end.

(** The [fdw_private] of the plan node. *)
Definition get_foreign_plan (fuel : nat) (cmd : option CmdType) (baserel : option RelOptInfo) : option (option (list Z)) :=
  if bool_decide (cmd = Some CMD_SELECT) then build_projection_intlist fuel baserel else Some None.
End Plan.

(** ** The parallel gate against the table options *)

Lemma def_elem_unique nm v kv :
  NoDup (map fst kv) -> (nm, v) ∈ kv -> def_elem nm (map (fun kv => (kv.1, Some kv.2)) kv) = Some (Some v).
Proof.
  induction kv as [|[k w] kv IH]; intros Hnd Hin; [by apply not_elem_of_nil in Hin|].
  cbn [map fst] in Hnd. apply NoDup_cons in Hnd as [Hk Hnd]. cbn [map def_elem fst snd]. apply elem_of_cons in Hin as [[= <- <-]|Hin].
  - by rewrite (proj2 (str_eqb_eq nm nm)).
  - destruct (str_eqb k nm) eqn:E; [|by apply IH]. apply str_eqb_eq in E as ->. destruct Hk.
    apply list_elem_of_fmap. by exists (nm, v).
Qed.

Lemma trim_loop_keeps strip fuel ch s :
  (forall w t r, w ∈ whitespace_chars -> strip w t = Some r -> ch ∈ t -> ch ∈ r) ->
  ch ∈ s -> ch ∈ trim_loop strip fuel s.
Proof.
  intros Hstrip. revert s. induction fuel as [|fuel IH]; intros s Hs; cbn [trim_loop]; [done|].
  destruct (first_strip strip whitespace_chars s) as [r|] eqn:E; [|done]. apply IH.
  assert (forall ws, (forall w, w ∈ ws -> w ∈ whitespace_chars) -> first_strip strip ws s = Some r -> ch ∈ r) as Hf; [|by eapply Hf].
  induction ws as [|w ws IHw]; intros Hw; cbn [first_strip]; [done|].
  destruct (strip w s) as [r'|] eqn:Es; [intros [= ->]; eapply Hstrip; [apply Hw; left|done|done]|].
  apply IHw. intros; apply Hw. by right.
Qed.

(** A comma survives [trim]. *)
Lemma trim_keeps_comma s : ","%char ∈ s -> ","%char ∈ trim s.
Proof.
  assert (forallb (fun w => negb (contains_char "," w)) whitespace_chars = true) as Hws by (vm_compute; reflexivity).
  rewrite forallb_forall in Hws.
  assert (forall w, w ∈ whitespace_chars -> ","%char ∉ w) as Hno.
  { intros w Hw%list_elem_of_In%Hws. apply negb_true_iff in Hw. by apply contains_char_not_elem. }
  intros Hs. unfold trim, trim_end, trim_start. apply trim_loop_keeps; [|apply trim_loop_keeps; [|done]].
  - intros w t r Hw Ht%strip_suffix_Some Hc. subst t. apply elem_of_app in Hc as [|Hc]; [done|]. by destruct (Hno w Hw).
  - intros w t r Hw Ht%strip_prefix_Some Hc. subst t. apply elem_of_app in Hc as [Hc|]; [|done]. by destruct (Hno w Hw).
Qed.

Lemma comma_list_blank v : trim v = [] -> comma_list v = [].
Proof.
  intros Ht. assert (","%char ∉ v) as Hc by (intros Hc%trim_keeps_comma; rewrite Ht in Hc; by apply not_elem_of_nil in Hc).
  unfold comma_list. rewrite split_on_no_elem by done. cbn [map List.filter]. by rewrite Ht.
Qed.

(** The option list as the catalog holds it. *)
Definition defs (kv : list (str * str)) : list (str * option str) := map (fun kv => (kv.1, Some kv.2)) kv.
Definition catalog_of (kv : list (str * str)) : CatalogOptions := Some (defs kv).

Lemma def_elem_defs nm kv : match def_elem nm (defs kv) with Some o => exists v, o = Some v /\ (nm, v) ∈ kv | None => nm ∉ map fst kv end.
Proof.
  induction kv as [|[k v] kv IH]; [by apply not_elem_of_nil|]. change (defs ((k, v) :: kv)) with ((k, Some v) :: defs kv).
  cbn [def_elem map fst]. destruct (str_eqb k nm) eqn:E.
  - apply str_eqb_eq in E as ->. exists v. split; [done|by left].
  - destruct (def_elem nm (defs kv)) as [o|]; [destruct IH as (v' & -> & Hin); exists v'; split; [done|by right]|].
    rewrite not_elem_of_cons. split; [|done]. intros ->. by rewrite (proj2 (str_eqb_eq k k)) in E.
Qed.

Lemma is_one_of_single k s : is_one_of k [s] = str_eqb k s.
Proof. unfold is_one_of. cbn. by rewrite orb_false_r. Qed.

(** Compare literal names. *)
Ltac eval_str_eqb :=
  repeat match goal with
  | |- context [str_eqb ?a ?b] => let x := eval vm_compute in (str_eqb a b) in change (str_eqb a b) with x
  end; cbv iota.

(** One option changes the two fields the gate reads only under their names. *)
Lemma table_option_gate a k v a' :
  table_option a (k, v) = Ok a' ->
  ta_sorted a' = (if str_eqb k "sorted" then comma_list v else ta_sorted a) /\
  (if str_eqb k "parallel_workers" then exists n, parse_workers v = Ok n /\ ta_workers a' = Some n else ta_workers a' = ta_workers a).
Proof.
  destruct a as [c f z w pc pk so io]. unfold table_option. rewrite !is_one_of_single. intros Ho.
  repeat match type of Ho with
  | (if str_eqb k ?s then _ else _) = Ok _ =>
      let E := fresh "E" in destruct (str_eqb k s) eqn:E;
        [apply str_eqb_eq in E; subst k; eval_str_eqb; inv_ok; simplify_eq; cbn; eauto; fail | ]
  end. done.
Qed.

Lemma options_gate kv : forall a0 a, NoDup (map fst kv) -> foldM table_option a0 kv = Ok a ->
  ta_sorted a = match def_elem "sorted" (defs kv) with Some (Some v) => comma_list v | _ => ta_sorted a0 end /\
  match def_elem "parallel_workers" (defs kv) with
  | Some (Some v) => exists n, parse_workers v = Ok n /\ ta_workers a = Some n
  | _ => ta_workers a = ta_workers a0
  end.
Proof.
  assert (forall nm kv, nm ∉ map fst kv -> def_elem nm (defs kv) = None) as Habs.
  { intros nm kv' Hn. pose proof (def_elem_defs nm kv') as Hd. destruct (def_elem nm (defs kv')) as [o|]; [|done].
    destruct Hd as (v & _ & Hin). destruct Hn. apply list_elem_of_fmap. by exists (nm, v). }
  induction kv as [|[k v] kv IH]; intros a0 a Hnd Hf; cbn [foldM] in Hf; [by simplify_eq|].
  cbn [map fst] in Hnd. apply NoDup_cons in Hnd as [Hk Hnd]. apply bind_Ok_inv in Hf as (a1 & H1 & Hf).
  apply table_option_gate in H1 as [Hs Hw]. destruct (IH _ _ Hnd Hf) as [IHs IHw].
  change (defs ((k, v) :: kv)) with ((k, Some v) :: defs kv). cbn [def_elem]. split.
  - rewrite IHs, Hs. destruct (str_eqb k "sorted") eqn:E; [|done]. apply str_eqb_eq in E as ->. by rewrite Habs.
  - destruct (str_eqb k "parallel_workers") eqn:E.
    + apply str_eqb_eq in E as ->. rewrite Habs in IHw by done. destruct Hw as (n & Hp & Hw). exists n. by rewrite IHw.
    + by rewrite Hw in IHw.
Qed.

(** For a table whose options are accepted, the planner callback adds a
    partial path exactly when the gate says the scan is parallel safe, with at
    least one worker, and then the statement is a SELECT, the table has no
    sort columns and its [parallel_workers] option is not 0. *)
Theorem parallel_gate_respects_options kv t catalog relid cap cmd rows considered :
  NoDup (map fst kv) -> catalog relid = catalog_of kv -> parse_table_options_from_slice kv = Ok t ->
  let paths := get_foreign_paths catalog cap cmd relid rows considered in
  let safe := is_foreign_scan_parallel_safe catalog cmd (Some relid) in
  match add_partial_path paths with
  | Some p => safe = true /\ 1 <= pp_workers p /\ cmd = Some CMD_SELECT /\ sorted t = [] /\ parallel_workers t <> Some 0 /\
              (forall n, parallel_workers t = Some n -> pp_workers p = n)
  | None => safe = false /\ (cmd = Some CMD_SELECT -> sorted t = [] ->
              (forall v, (lit "sorted", v) ∈ kv -> trim v = []) -> parallel_workers t = Some 0)
  end.
Proof.
  intros Hnd Hcat Hparse. unfold parse_table_options_from_slice in Hparse.
  apply bind_Ok_inv in Hparse as (a & Ha & Hparse). destruct (options_gate kv _ a Hnd Ha) as [Hs Hw].
  assert (sorted t = ta_sorted a /\ parallel_workers t = ta_workers a) as [Es Ew].
  { inv_ok. destruct v3 as [pc pk]. inv_ok. by simplify_eq. }
  rewrite Es, Ew. clear Hparse Es Ew. unfold get_foreign_paths, is_foreign_scan_parallel_safe. rewrite Hcat.
  unfold read_sorted_opt, read_parallel_workers_opt.
  unfold catalog_of. cbn [mbind option_bind]. pose proof (def_elem_defs "sorted" kv) as Hd.
  assert (match def_elem "parallel_workers" (defs kv) with Some (Some v) => parse_i32 v | _ => None end = ta_workers a /\
          forall n, ta_workers a = Some n -> 0 <= n) as [Ewk Hwk].
  { destruct (def_elem "parallel_workers" (defs kv)) as [[v|]|]; [|by rewrite Hw|by rewrite Hw].
    destruct Hw as (n & Hn & ->). pose proof (parse_workers_range _ _ Hn). unfold parse_workers in Hn. inv_ok.
    destruct (Z.ltb_spec v0 0); inv_ok. split; [done|]. intros m [= <-]. lia. }
  rewrite Ewk. destruct cmd as [[]|]; cbn [andb negb add_partial_path];
    try (rewrite !(bool_decide_false (_ = _)) by done; cbn; split; [done|discriminate]).
  rewrite (bool_decide_true (Some CMD_SELECT = _)), (bool_decide_true (CMD_SELECT = _)) by done. cbn [andb negb].
  destruct (def_elem "sorted" (defs kv)) as [o|] eqn:Ed; [destruct Hd as (v & -> & Hin); destruct (decide (trim v = [])) as [Ht|Ht]|].
  2: { rewrite (bool_decide_false _ Ht). cbn. split; [by case_bool_decide|]. intros _ _ Hall. by destruct (Ht (Hall v Hin)). }
  1: rewrite (bool_decide_true _ Ht); rewrite comma_list_blank in Hs by done.
  all: cbn [negb]; case_bool_decide as H0; cbn [negb add_partial_path partial_path pp_workers];
    (split; [done|]); [intros; done|]; split; [lia|]; do 3 (split; [done|]);
    intros n Hn; pose proof (Hwk n Hn); rewrite Hn in *; cbn; assert (n <> 0) by congruence; lia.
Qed.

Definition plain_table_options : list (str * str) :=
  [(lit "container", lit "data"); (lit "filename", lit "events/*.parquet"); (lit "parallel_workers", lit "4")].

Definition plain_table : TableOptions := mkTableOptions "data" "events/*.parquet" Snappy (Some 4) [] [] [] false.

Lemma parallel_gate_respects_options_witness :
  match add_partial_path (get_foreign_paths (fun _ => catalog_of plain_table_options) 2 (Some CMD_SELECT) 16400 (f64_of_Z 1000) false) with
  | Some p => pp_workers p = 4 /\ is_foreign_scan_parallel_safe (fun _ => catalog_of plain_table_options) (Some CMD_SELECT) (Some 16400) = true
  | None => False
  end.
Proof.
  destruct (parallel_gate_respects_options plain_table_options plain_table (fun _ => catalog_of plain_table_options) 16400 2
    (Some CMD_SELECT) (f64_of_Z 1000) false) as (Hsafe & _ & _ & _ & _ & Hw).
  - apply (bool_decide_unpack _). vm_compute. exact I.
  - reflexivity.
  - vm_compute. reflexivity.
  - split; [apply Hw; reflexivity | exact Hsafe].
Defined.

(** ** The projection list *)

Section Projection.
Context {PL : PlannerApi} {PLL : PlannerLaws PL}.

Abbreviation offset := FirstLowInvalidHeapAttributeNumber.

(** The attribute numbers the scan level of the query refers to. *)
Definition needs (rel : RelOptInfo) (a : Z) : Prop :=
  (exists e, reltarget_exprs rel = Some e /\ a ∈ vars_of e (rel_relid rel)) \/
  (exists clause, Some (Some clause) ∈ baserestrictinfo rel /\ a ∈ vars_of clause (rel_relid rel)).

Definition nonneg (b : Bitmapset) : Prop := forall m, m ∈ bms_members b -> 0 <= m.

Lemma pull_nonneg e r b : nonneg b -> nonneg (pull_varattnos e r b).
Proof.
  intros Hb m Hm. apply pull_varattnos_members in Hm as [Hm|Hm%vars_of_low]; [by apply Hb|lia].
Qed.

Lemma pull_all_members r cells : forall b, nonneg b ->
  nonneg (foldl (pull_restrict r) b cells) /\
  forall m, m ∈ bms_members (foldl (pull_restrict r) b cells) <->
    m ∈ bms_members b \/ exists clause, Some (Some clause) ∈ cells /\ m + offset ∈ vars_of clause r.
Proof.
  induction cells as [|cell cells IH]; intros b Hb; cbn [foldl].
  - split; [done|]. intros m. split; [by left|]. intros [|(cl & Hcl & _)]; [done|by apply not_elem_of_nil in Hcl].
  - assert (nonneg (pull_restrict r b cell)) as Hb' by (destruct cell as [[cl|]|]; [by apply pull_nonneg|done|done]).
    destruct (IH _ Hb') as [Hn Hm]. split; [done|]. intros m. rewrite Hm.
    assert (m ∈ bms_members (pull_restrict r b cell) <-> m ∈ bms_members b \/ exists cl, cell = Some (Some cl) /\ m + offset ∈ vars_of cl r) as ->.
    { destruct cell as [[cl|]|]; cbn [pull_restrict]; [rewrite pull_varattnos_members|..]; naive_solver. }
    setoid_rewrite elem_of_cons. naive_solver.
Qed.

Definition above (prev : Z) (b : Bitmapset) : gset Z := filter (fun m : Z => prev < m) (bms_members b).

(** The loop returns the members above [prev] that are user columns, in
    order; as much fuel as there are members plus one suffices. *)
Lemma collect_spec b (fuel : nat) : forall prev : Z, nonneg b -> -1 <= prev ->
  (size (above prev b) < fuel)%nat ->
  exists l, collect_attnums fuel b prev = Some l /\ StronglySorted Z.lt l /\
    forall a, a ∈ l <-> 1 <= a /\ prev < a - offset /\ a - offset ∈ bms_members b.
Proof.
  induction fuel as [|fuel IH]; intros prev Hb Hp Hsz; [lia|]. cbn [collect_attnums].
  destruct (bms_next_member_spec b prev Hp Hb) as [[Hneg Hnone]|(Hin & Hgt & Hleast)].
  - rewrite (proj2 (Z.ltb_lt _ _) Hneg). exists []. split; [done|]. split; [constructor|]. intros a. split; [by intros ?%not_elem_of_nil|].
    intros (_ & Hlt & Ha%Hnone). lia.
  - set (next := bms_next_member b prev) in *. rewrite (proj2 (Z.ltb_ge _ _)) by lia.
    destruct (IH next Hb ltac:(lia)) as (l & -> & Hs & Hl).
    { assert (above next b ⊂ above prev b) as Hsub%subset_size; [|lia]. unfold above.
      split; [intros m; rewrite !elem_of_filter; naive_solver lia|]. intros Hs. specialize (Hs next).
      rewrite !elem_of_filter in Hs. destruct Hs; [done|lia]. }
    cbn [mbind option_bind]. exists (if 1 <=? next + offset then next + offset :: l else l).
    assert (forall a, prev < a - offset /\ a - offset ∈ bms_members b <-> a = next + offset \/ (next < a - offset /\ a - offset ∈ bms_members b)) as Hnext.
    { intros a. split.
      - intros [Ha Hm]. specialize (Hleast _ Hm Ha). destruct (decide (a = next + offset)); [by left|right; split; [lia|done]].
      - intros [->|[Ha Hm]]; [|split; [lia|done]]. replace (next + offset - offset) with next by lia. split; [lia|done]. }
    split; [done|]. destruct (Z.leb_spec 1 (next + offset)) as [H1|H1].
    + split; [constructor; [done|]; apply Forall_forall; intros a Ha%Hl; lia|].
      intros a. rewrite elem_of_cons, Hl, Hnext. naive_solver.
    + split; [done|]. intros a. rewrite Hl, Hnext. naive_solver lia.
Qed.

Lemma ascending_NoDup l : StronglySorted Z.lt l -> NoDup l.
Proof.
  induction 1 as [|x l _ IH Hx]; constructor; [|done]. intros Hin. rewrite Forall_forall in Hx. specialize (Hx _ Hin). lia.
Qed.

Lemma intlist_spec rel e : reltarget_exprs rel = Some e ->
  exists N l, (forall F, (N <= F)%nat -> build_projection_intlist F (Some rel) = Some (Some (match l with [] => [1] | _ => l end))) /\
    StronglySorted Z.lt l /\ forall a, a ∈ l <-> 1 <= a /\ needs rel a.
Proof.
  intros He. set (b := foldl (pull_restrict (rel_relid rel)) (pull_varattnos e (rel_relid rel) bms_null) (baserestrictinfo rel)).
  assert (nonneg bms_null) as H0 by (intros m; rewrite bms_members_null; set_solver).
  destruct (pull_all_members (rel_relid rel) (baserestrictinfo rel) _ (pull_nonneg e (rel_relid rel) _ H0)) as [Hb Hm]. fold b in Hb, Hm.
  set (n := size (above (-1) b)).
  destruct (collect_spec b (S n) (-1) Hb ltac:(lia) ltac:(lia)) as (l & _ & Hs & Hl).
  exists (S n), l. split; [|split; [done|]].
  - intros F HF. destruct (collect_spec b F (-1) Hb ltac:(lia) ltac:(lia)) as (l' & Hc & Hs' & Hl').
    unfold build_projection_intlist. rewrite He. fold b. rewrite Hc. cbn [mbind option_bind].
    assert (l' = l) as ->; [|done]. apply (StronglySorted_unique_strong Z.lt); [lia|done|done|].
    apply NoDup_Permutation; [by apply ascending_NoDup|by apply ascending_NoDup|]. intros a. by rewrite Hl, Hl'.
  - intros a. rewrite Hl, Hm, pull_varattnos_members, bms_members_null. replace (a - offset + offset) with a by lia. unfold needs.
    split.
    + intros (H1 & _ & [[Hx|Hx]|Hx]); [set_solver|split; [done|left; eauto]|split; [done|by right]].
    + intros (H1 & [(e' & He' & Ha)|Ha]); (split; [done|]).
      * rewrite He in He'. injection He' as <-. pose proof (vars_of_low _ _ _ Ha). split; [lia|]. left. by right.
      * destruct Ha as (cl & Hcl & Ha). pose proof (vars_of_low _ _ _ Ha). split; [lia|]. right. eauto.
Qed.
Lemma project_attnum_ok natts a : 1 <= a <= Z.of_nat natts -> project_attnum natts a = Ok (Z.to_nat (a - 1)).
Proof. intros Ha. unfold project_attnum. by rewrite (proj2 (Z.leb_le _ _)), (proj2 (Z.ltb_lt _ _)) by lia. Qed.

Lemma decode_ok natts l :
  l <> [] -> (forall a, a ∈ l -> 1 <= a <= Z.of_nat natts) -> decode_projection natts (Some l) = Ok (map (fun a => Z.to_nat (a - 1)) l).
Proof.
  intros Hl Ha. unfold decode_projection. destruct l as [|a l]; [done|]. apply mapM_res_Ok.
  generalize dependent (a :: l). intros l' _ Ha. induction l' as [|x l' IH]; constructor.
  - apply project_attnum_ok, Ha. by left.
  - apply IH. intros y Hy. apply Ha. by right.
Qed.

(** C28: a SELECT reads, in ascending order and without repetition, every user
    column its target list and its quals refer to, and no other column except
    the first one when they refer to none; the plan's list is decoded by the
    scan without error. *)
Theorem projection_covers_query rel e natts :
  reltarget_exprs rel = Some e -> (1 <= natts)%nat -> (forall a, needs rel a -> a <= Z.of_nat natts) ->
  exists N l cols, (forall F, (N <= F)%nat -> get_foreign_plan F (Some CMD_SELECT) (Some rel) = Some (Some l)) /\
    decode_projection natts (Some l) = Ok cols /\ StronglySorted lt cols /\ cols <> [] /\
    (forall a, 1 <= a -> needs rel a -> Z.to_nat (a - 1) ∈ cols) /\
    (forall i, i ∈ cols -> needs rel (Z.of_nat i + 1) \/ cols = [0%nat]).
Proof.
  intros He Hn Hneeds. destruct (intlist_spec rel e He) as (N & l & Hrun & Hs & Hl).
  set (l' := match l with [] => [1] | _ => l end) in *. exists N, l', (map (fun a => Z.to_nat (a - 1)) l').
  assert (forall a, a ∈ l -> 1 <= a <= Z.of_nat natts) as Hrange by (intros a [Ha Hna]%Hl; auto).
  assert (StronglySorted lt (map (fun a => Z.to_nat (a - 1)) l)) as Hsorted.
  { clear -Hs Hrange. induction Hs as [|x l _ IH Hx]; cbn; constructor; [apply IH; intros; apply Hrange; by right|].
    rewrite Forall_forall in Hx. apply Forall_forall. intros i (a & -> & Ha)%list_elem_of_fmap. specialize (Hx a Ha).
    pose proof (Hrange x ltac:(by left)). lia. }
  split; [|split; [apply decode_ok|]].
  - intros F HF. unfold get_foreign_plan. rewrite bool_decide_true by done. by apply Hrun.
  - subst l'. by destruct l.
  - intros a Ha. subst l'. destruct l; [|by apply Hrange]. apply list_elem_of_singleton in Ha as ->. lia.
  - destruct l as [|x l]; subst l'.
    + cbn [map]. split; [repeat constructor|]. split; [done|]. split; [|by right]. intros a Ha Hna.
      assert (a ∈ @nil Z) as Hin by (by apply Hl). by apply not_elem_of_nil in Hin.
    + split; [exact Hsorted|]. split; [done|]. split.
      * intros a Ha Hna. apply list_elem_of_fmap. exists a. split; [done|]. by apply Hl.
      * intros i (a & -> & Ha)%list_elem_of_fmap. left. destruct (proj1 (Hl a) Ha) as [H1 Hna].
        by replace (Z.of_nat (Z.to_nat (a - 1)) + 1) with a by lia.
Qed.

(** A SELECT that refers to the row as a whole, and to no column by name,
    reads only the first column: every other column of the rows it is given
    is NULL. *)
Theorem whole_row_loses_columns rel e natts :
  reltarget_exprs rel = Some e -> (1 < natts)%nat -> needs rel 0 -> (forall a, needs rel a -> a <= 0) ->
  exists N, (forall F, (N <= F)%nat -> get_foreign_plan F (Some CMD_SELECT) (Some rel) = Some (Some [1])) /\
    decode_projection natts (Some [1]) = Ok [0%nat] /\
    forall (A : ArrowApi) (P : PgApi) c batch row old vals,
      length (sc_pg_oids c) = natts -> sc_attno_map c = [0%nat] -> sc_partition_attnums c = [] ->
      fill_slot c [] batch row old = Ok vals -> forall i, (1 <= i < natts)%nat -> vals !! i = Some None.
Proof.
  intros He Hn _ Hneeds. destruct (intlist_spec rel e He) as (N & l & Hrun & _ & Hl).
  assert (l = []) as ->.
  { destruct l as [|a l]; [done|]. destruct (proj1 (Hl a) ltac:(by left)) as [H1 Hna%Hneeds]. lia. }
  exists N. split; [intros F HF; unfold get_foreign_plan; rewrite bool_decide_true by done; by apply Hrun|].
  split; [apply (decode_ok natts [1]); [done|intros a Ha%list_elem_of_singleton; lia]|].
  intros A P c batch row old vals Hlen Hmap Hpart Hfill i Hi. unfold fill_slot in Hfill.
  rewrite Hmap, Hpart, Hlen in Hfill. cbn [length] in Hfill. rewrite (proj2 (Nat.ltb_lt _ _)) in Hfill by lia.
  cbn in Hfill. apply bind_Ok_inv in Hfill as (v & Hv & Hfill). apply bind_Ok_inv in Hv as (v0 & Hv & Hv').
  injection Hv' as <-. injection Hfill as <-. unfold fill_column in Hv. rewrite Hlen in Hv.
  destruct (natts <=? 0)%nat; [done|]. inv_ok. rewrite list_lookup_insert_ne by lia. apply lookup_replicate_2. lia.
Qed.
End Projection.

(** ** A reference walker: an expression is the set of its variables *)

Definition set_min (s : gset Z) : Z := match elements s with [] => -2 | x :: l => foldr Z.min x l end.

Definition ref_planner : PlannerApi :=
  {| PlanExpr := gset Z; Bitmapset := gset Z; bms_null := ∅; FirstLowInvalidHeapAttributeNumber := -7;
     pull_varattnos e _ b := b ∪ set_map (fun a => a + 7) (filter (fun a => -7 <= a) e);
     bms_next_member b prev := set_min (filter (fun m => prev < m) b) |}.

Lemma foldr_min x l : foldr Z.min x l ∈ x :: l /\ forall y, y ∈ x :: l -> foldr Z.min x l <= y.
Proof.
  induction l as [|z l [IH1 IH2]]; cbn [foldr].
  - split; [by left|]. intros y ->%list_elem_of_singleton. lia.
  - split.
    + destruct (Z.min_spec z (foldr Z.min x l)) as [[_ ->]|[_ ->]]; [right; by left|].
      apply elem_of_cons in IH1 as [->|IH1]; [by left|right; by right].
    + intros y [->|[->|Hy]%elem_of_cons]%elem_of_cons; [|lia|].
      * specialize (IH2 x ltac:(by left)). lia.
      * specialize (IH2 y ltac:(by right)). lia.
Qed.

#[refine] Definition ref_planner_laws : PlannerLaws ref_planner :=
  {| vars_of (e : PlanExpr (PlannerApi := ref_planner)) (_ : Z) := filter (fun a => -7 <= a) (e : gset Z);
     bms_members := fun b : Bitmapset (PlannerApi := ref_planner) => (b : gset Z) |}.
Proof.
  - done.
  - intros e _ a. cbn. rewrite elem_of_filter. tauto.
  - intros e r b m. cbn. rewrite elem_of_union, elem_of_map. split; (intros [Hm|Hm]; [by left|right]).
    + destruct Hm as (a & -> & Ha). by replace (a + 7 + -7) with a by lia.
    + exists (m + -7). split; [lia|done].
  - intros b prev Hp Hb. cbn in *. unfold set_min. set (s := filter _ _).
    destruct (elements s) as [|x l] eqn:E.
    + left. split; [lia|]. apply elements_empty_inv in E. intros m Hm. destruct (decide (prev < m)); [|lia].
      assert (m ∈ s) as Hms by (subst s; by apply elem_of_filter). set_solver.
    + right. destruct (foldr_min x l) as [H1 H2]. rewrite <- E in H1, H2.
      assert (foldr Z.min x l ∈ s) as Hin by (by apply elem_of_elements). subst s. apply elem_of_filter in Hin as [Hlt Hin].
      split; [done|]. split; [done|]. intros m Hm Hpm. apply H2, elem_of_elements, elem_of_filter. done.
Defined.

Definition demo_rel (target : list Z) (quals : list (list Z)) : RelOptInfo (PL := ref_planner) :=
  @mkRel ref_planner 1 (Some (list_to_set target : gset Z)) (map (fun q => Some (Some (list_to_set q : gset Z))) quals).

(** [SELECT b FROM t WHERE c = 1] over three columns. *)
Lemma projection_covers_query_witness :
  exists N l cols, (forall F, (N <= F)%nat -> get_foreign_plan F (Some CMD_SELECT) (Some (demo_rel [2] [[3]])) = Some (Some l)) /\
    decode_projection 3 (Some l) = Ok cols /\ 1%nat ∈ cols /\ 2%nat ∈ cols.
Proof.
  destruct (projection_covers_query (PLL := ref_planner_laws) (demo_rel [2] [[3]]) (list_to_set [2] : gset Z) 3)
    as (N & l & cols & Hrun & Hdec & _ & _ & Hall & _).
  - reflexivity.
  - lia.
  - intros a [(e & He & Ha)|(cl & Hcl & Ha)].
    + injection He as <-. cbn in Ha. set_solver by lia.
    + apply list_elem_of_singleton in Hcl. injection Hcl as ->. cbn in Ha. set_solver by lia.
  - exists N, l, cols. split; [exact Hrun|]. split; [exact Hdec|]. split.
    + apply (Hall 2); [lia|]. left. exists (list_to_set [2] : gset Z). split; [reflexivity|]. cbn. set_solver by lia.
    + apply (Hall 3); [lia|]. right. exists (list_to_set [3] : gset Z). split; [left|]. cbn. set_solver by lia.
Defined.

(** [SELECT t FROM t]. *)
Lemma whole_row_loses_columns_witness :
  exists N, forall F, (N <= F)%nat -> get_foreign_plan F (Some CMD_SELECT) (Some (demo_rel [0] [])) = Some (Some [1]).
Proof.
  destruct (whole_row_loses_columns (PLL := ref_planner_laws) (demo_rel [0] []) (list_to_set [0] : gset Z) 3) as (N & Hrun & _).
  - reflexivity.
  - lia.
  - left. exists (list_to_set [0] : gset Z). split; [reflexivity|]. cbn. set_solver by lia.
  - intros a [(e & He & Ha)|(cl & Hcl & Ha)].
    + injection He as <-. cbn in Ha. set_solver by lia.
    + by apply not_elem_of_nil in Hcl.
  - exists N. exact Hrun.
Defined.
