(* ===== verification/Insert.v ===== *)
(** * [src/fdw/modify/insert.rs] and [src/fdw/modify/mod.rs]: INSERT.

    Rows are routed to one group per tuple of partition values.  A group has
    column builders, and, once 8192 rows have accumulated, an in-memory
    parquet writer; at the end of the statement every group that got a row is
    uploaded as one blob.  [ModifyTable]'s state is either this or an UPDATE /
    DELETE plan.

    The [HashMap]s are finite maps; the order in which Rust visits their keys
    is the parameter [iter_order].  The clock and the uuid source are
    arguments of the calls that read them. *)

From S2P Require Import Prelude RustStr Redact Errors Options Externals Kernel Convert BlobService Store Handoff Coordinator ParquetIO Modify Pushdown Partition ScanPlan Parallel.
Local Open Scope Z_scope.

Definition BATCH_ROWS : nat := Z.to_nat 8192.

(** The two halves of [generate_blob_name]'s fresh part. *)
Record Fresh := mkFresh { fresh_ts : str; fresh_id : str }.

Section Insert.
Context {Y : BytesApi} {B : BlobApi} {A : ArrowApi} {R : RoaringApi} {Q : ParquetApi} {P : PgApi} {U : UuidApi}.
Context (iter_order : list PartitionTupleKey -> list PartitionTupleKey) (debug_strs : list str -> str).

Record InsertState := mkInsert {
  ins_schema : Schema;
  ins_oids : list Z;
  ins_client : AzureBlobClient;
  ins_compression : Compression;
  ins_partition_attnums : list nat;
  ins_decl : Declared;
  base_prefix : str;
  legacy_single_target : option str;
  builders : gmap PartitionTupleKey RecordBatchBuilders;
  writers : gmap PartitionTupleKey PqWriter;
  target_names : gmap PartitionTupleKey str;
  rows_in_current_batch : gmap PartitionTupleKey nat }.

Definition with_maps (st : InsertState) bs ws ns rs : InsertState :=
  mkInsert (ins_schema st) (ins_oids st) (ins_client st) (ins_compression st) (ins_partition_attnums st) (ins_decl st)
    (base_prefix st) (legacy_single_target st) bs ws ns rs.

(** ** Building the state *)

(** [filename]'s directory, and the name itself when it has no star. *)
Definition pick_target_layout (opts : TableOptions) : str * option str :=
  let fname := filename opts in
  match find_char (ascii_eqb "*") fname with
  | Some star => (trim_end_matches "/" (take star fname), None)
  | None => (match rfind_char "/" fname with Some idx => take idx fname | None => [] end, Some fname)
  end.

Definition collect_insert_attr (acc : list PgAttribute) (att : PgAttribute) : FdwResult (list PgAttribute) :=
  if attisdropped att then
    Err (SchemaMismatch ("dropped column at attnum " ++ show_Z (attnum att) ++ " not supported on write path"))
  else Ok (acc ++ [att]).

(** The attributes whose 0-based number is not a partition column's. *)
Definition storage_attrs (attrs : list PgAttribute) (attnums : list nat) : list PgAttribute :=
  omap (fun ia => if bool_decide (ia.1 ∈ attnums) then None else Some ia.2) (combine (seq 0 (length attrs)) attrs).

Definition insert_build_state (env : ClientEnv) (options : FdwResult (ServerOptions * UserMappingOptions * TableOptions))
    (tupdesc : list PgAttribute) : FdwResult InsertState :=
  '(server, um, table) ← options;
  _ ← validate_combo server um;
  client ← make_client env server um table;
  attrs ← foldM collect_insert_attr [] tupdesc;
  attnums ← mapM_res (resolve_partition_attno tupdesc) (partition_columns table);
  schema ← pg_attrs_to_arrow_schema (storage_attrs attrs attnums);
  let '(prefix, single) := pick_target_layout table in
  Ok (mkInsert schema (map atttypid attrs) client (compression table) attnums (partition_keys table) prefix single ∅ ∅ ∅ ∅).

(** ** Routing a row *)

(** A slot: [tts_values] with [tts_isnull]. *)
Abbreviation Slot := (list (Datum * bool)).

Definition slot_at (slot : Slot) (i : nat) : FdwResult (Datum * bool) :=
  ok_or (slot !! i) (RustPanic "slot shorter than the tuple descriptor").

Definition partition_string (st : InsertState) (slot : Slot) (attno : nat) : FdwResult str :=
  '(datum, is_null) ← slot_at slot attno;
  if is_null : bool then Err (SchemaMismatch ("partition column attno " ++ show_Z (Z.of_nat attno) ++ " cannot be NULL"))
  else oid ← ok_or (ins_oids st !! attno) (RustPanic "index out of bounds"); datum_to_partition_string datum oid.

Definition tuple_key (st : InsertState) (slot : Slot) : FdwResult PartitionTupleKey :=
  vals ← mapM_res (partition_string st slot) (ins_partition_attnums st); Ok (mkKey vals).

(** One [key=value] component of the path. *)
Definition push_segment (decl : Declared) (path : str) (iv : nat * str) : str :=
  let '(i, value) := iv in
  let path := if negb (str_eqb path []) && negb (ends_with "/" path) then path ++ "/" else path in
  path ++ default (lit "p") (fst <$> decl !! i) ++ "=" ++ value.

Definition compute_target_name (st : InsertState) (fresh : Fresh) (key : PartitionTupleKey) : str :=
  match values key with
  | [] =>
      match legacy_single_target st with
      | Some literal => literal
      | None => generate_blob_name (fresh_ts fresh) (fresh_id fresh) (base_prefix st)
      end
  | vals =>
      generate_blob_name (fresh_ts fresh) (fresh_id fresh)
        (foldl (push_segment (ins_decl st)) (base_prefix st) (combine (seq 0 (length vals)) vals))
  end.

(** The columns of a row that are stored, in order; the pair is the builders
    and [storage_col]. *)
Definition append_column (st : InsertState) (slot : Slot) (acc : RecordBatchBuilders * nat) (io : nat * Z)
    : FdwResult (RecordBatchBuilders * nat) :=
  let '(b, storage_col) := acc in
  let '(i, oid) := io in
  if bool_decide (i ∈ ins_partition_attnums st) then Ok acc
  else
    '(datum, is_null) ← slot_at slot i;
    b' ← append_one b storage_col oid datum is_null;
    Ok (b', S storage_col).

Definition expect_builders (r : FdwResult RecordBatchBuilders) : FdwResult RecordBatchBuilders :=
  match r with
  | Ok b => Ok b
  | Err e => Err (RustPanic ("RecordBatchBuilders::new should not fail for a validated schema: " ++ display e))
  end.

Definition append_slot (st : InsertState) (fresh : Fresh) (slot : Slot) : FdwResult InsertState :=
  key ← tuple_key st slot;
  b ← match builders st !! key with
      | Some b => Ok b
      | None => expect_builders (builders_new (ins_schema st))
      end;
  let names := match target_names st !! key with
               | Some _ => target_names st
               | None => <[key := compute_target_name st fresh key]> (target_names st)
               end in
  '(b', _) ← foldM (append_column st slot) (b, O) (combine (seq 0 (length (ins_oids st))) (ins_oids st));
  Ok (with_maps st (<[key := b']> (builders st)) (writers st) names
        (<[key := S (default O (rows_in_current_batch st !! key))]> (rows_in_current_batch st))).

(** ** Flushing *)

Definition too_big (written : Z) : FdwError :=
  Azure ("INSERT/COPY accumulator: group rendered " ++ show_Z written ++ " bytes — exceeds MAX_BLOB_BYTES="
    ++ show_Z MAX_BLOB_BYTES ++ "; split the load into multiple statements or smaller batches (per-partition groups are bounded independently)").

Definition flush_group (st : InsertState) (key : PartitionTupleKey) : FdwResult InsertState :=
  match default O (rows_in_current_batch st !! key) with
  | O => Ok st
  | _ =>
      fresh ← builders_new (ins_schema st);
      old ← ok_or (builders st !! key) (RustPanic "group's builders present (created in append_slot)");
      batch ← builders_finish old;
      w ← match writers st !! key with
          | Some w => Ok w
          | None => writer_new (ins_schema st) (ins_compression st)
          end;
      w' ← writer_write w batch;
      let written := as_u64 (arrow_writer_bytes_written w') in
      if MAX_BLOB_BYTES <? written then Err (too_big written)
      else Ok (with_maps st (<[key := fresh]> (builders st)) (<[key := w']> (writers st)) (target_names st)
                 (<[key := O]> (rows_in_current_batch st)))
  end.

Definition full_groups (st : InsertState) : list PartitionTupleKey :=
  List.filter (fun k => (BATCH_ROWS <=? default O (rows_in_current_batch st !! k))%nat)
    (iter_order (map fst (map_to_list (rows_in_current_batch st)))).

(** One row of [exec_foreign_insert]. *)
Definition insert_row (st : InsertState) (fresh : Fresh) (slot : Slot) : FdwResult InsertState :=
  st' ← append_slot st fresh slot; foldM flush_group st' (full_groups st').

(** ** The end of the statement *)

Definition key_le (a b : PartitionTupleKey * PqWriter) : Prop :=
  match lex_cmp str_compare (values a.1) (values b.1) with Gt => False | _ => True end.
#[export] Instance key_le_dec : RelDecision key_le.
Proof. intros a b. unfold key_le. destruct (lex_cmp _ _ _); apply _. Defined.

Definition tail_flush (st : InsertState) (key : PartitionTupleKey) : FdwResult InsertState :=
  if (0 <? default O (rows_in_current_batch st !! key))%nat then flush_group st key else Ok st.

Definition upload_group (names : gmap PartitionTupleKey str) (e : PartitionTupleKey * PqWriter) : SM Svc unit :=
  let '(key, writer) := e in
  target_name ← lift (ok_or (names !! key)
    (SchemaMismatch ("no target_name registered for partition tuple key " ++ debug_strs (values key))));
  bytes ← lift (writer_finish writer);
  writer_upload target_name bytes.

Definition finalize_and_upload (st : InsertState) : SM Svc unit :=
  st ← lift (foldM tail_flush st (iter_order (map fst (map_to_list (builders st)))));
  sm_iter (upload_group (target_names st)) (merge_sort key_le (map_to_list (writers st))).

(** ** The callbacks *)

(** [FdwModifyState]. *)
Inductive FdwModifyState := InsertVariant (s : InsertState) | UpdateVariant (p : ModifyPlan).

(** [begin_foreign_modify], after the EXPLAIN check; [build_insert] and
    [build_update is_delete] are the two state constructors. *)
Definition begin_foreign_modify (explain_only : bool) (op : CmdType) (cmd_text : str) (build_insert : FdwResult InsertState)
    (build_update : bool -> SM Handoff ModifyPlan) : SM (World B * Handoff) (option FdwModifyState) := fun '(w, h) =>
  if explain_only then ((w, h), Ok None)
  else
    let '(h, state) :=
      match op with
      | CMD_INSERT => (h, InsertVariant <$> build_insert)
      | CMD_UPDATE => let '(h, r) := build_update false h in (h, UpdateVariant <$> r)
      | CMD_DELETE => let '(h, r) := build_update true h in (h, UpdateVariant <$> r)
      | _ => (h, Err (SchemaMismatch ("unsupported CmdType " ++ cmd_text)))
      end in
    match state with
    | Err e => ((w, h), Err e)
    | Ok s =>
        let client := match s with InsertVariant i => ins_client i | UpdateVariant p => plan_client p end in
        ((open_statement client w, h), Ok (Some s))
    end.

Definition exec_foreign_insert (fdw_state : option FdwModifyState) (fresh : Fresh) (slot : Slot) : FdwResult FdwModifyState :=
  match fdw_state with
  | None => Err (SchemaMismatch "exec_foreign_insert called without initialised ri_FdwState")
  | Some (UpdateVariant _) => Err (SchemaMismatch "exec_foreign_insert on non-insert state")
  | Some (InsertVariant s) => InsertVariant <$> insert_row s fresh slot
  end.

(** The checks [exec_foreign_delete] and [exec_foreign_update] open with:
    [callback] is the function's name in the messages. *)
Definition update_state (callback : str) (fdw_state : option FdwModifyState) : FdwResult ModifyPlan :=
  match fdw_state with
  | None => Err (SchemaMismatch (callback ++ " called without initialised ri_FdwState"))
  | Some (UpdateVariant p) => Ok p
  | Some (InsertVariant _) => Err (SchemaMismatch (callback ++ " on non-update state"))
  end.

(** The two callbacks as the executor calls them; the bodies past the checks
    are [Modify.exec_foreign_delete] and [Modify.exec_foreign_update]. *)
Definition delete_callback (fdw_state : option FdwModifyState) (plan_slot : PlanSlot) : FdwResult FdwModifyState :=
  plan ← update_state "exec_foreign_delete" fdw_state; UpdateVariant <$> exec_foreign_delete plan plan_slot.

Definition update_callback (fdw_state : option FdwModifyState) (slot : list (Datum * bool)) (plan_slot : PlanSlot) : FdwResult FdwModifyState :=
  plan ← update_state "exec_foreign_update" fdw_state; UpdateVariant <$> exec_foreign_update plan slot plan_slot.

(** [take_state] leaves [None] in the slot; [aborted] is
    [IsAbortedTransactionBlockState]. *)
Definition end_foreign_modify (aborted : bool) (fdw_state : option FdwModifyState) : SM (World B) unit :=
  match fdw_state with
  | None => mret tt
  | Some s =>
      if aborted then mret tt
      else
        _ ← match s with
            | InsertVariant i => on_svc (finalize_and_upload i)
            | UpdateVariant p => commit_plan p
            end;
        modify_state close_statement_success
  end.
End Insert.
