(* ===== verification/InsertFacts.v ===== *)
(** * INSERT stores the rows it is given.

    Groups are followed through appends, batch flushes and the final upload by
    an invariant over the log of the rows inserted so far; the end result is
    that each group's blob decodes to columns whose cells convert back to the
    inserted datums, in order. *)

From S2P Require Import Prelude RustStr Redact Errors Options Externals Kernel Convert BlobService Store Handoff Coordinator ParquetIO Modify Pushdown Partition ScanPlan Parallel Insert.
Local Open Scope Z_scope.

(** A slot cell as SQL sees it. *)
Definition slot_value (x : Datum * bool) : option Datum := if x.2 then None else Some x.1.

(** The columns that are stored, of numbered column types. *)
Definition stored (attnums : list nat) (ios : list (nat * Z)) : list (nat * Z) :=
  List.filter (fun io => negb (bool_decide (io.1 ∈ attnums))) ios.

Lemma stored_cons attnums io ios :
  stored attnums (io :: ios) = if bool_decide (io.1 ∈ attnums) then stored attnums ios else io :: stored attnums ios.
Proof. unfold stored. cbn. by destruct (bool_decide _). Qed.

(** ** The row callbacks against the statement's state *)

Section RowCallbacks.
Context {Y : BytesApi} {B : BlobApi} {A : ArrowApi} {R : RoaringApi} {Q : ParquetApi} {P : PgApi} {U : UuidApi}.

(** On the state [begin_foreign_modify] leaves for UPDATE or DELETE, the
    callbacks run the plan of that state; the theorems on plans are theorems
    on the callbacks. *)
Lemma delete_callbacks slots plan :
  foldM (fun s ps => delete_callback (Some s) ps) (UpdateVariant plan) slots = UpdateVariant <$> foldM exec_foreign_delete plan slots.
Proof. by apply foldM_embed. Qed.

Lemma update_callbacks rows plan :
  foldM (fun s (r : list (Datum * bool) * PlanSlot) => update_callback (Some s) r.1 r.2) (UpdateVariant plan) rows
  = UpdateVariant <$> foldM (fun p r => exec_foreign_update p r.1 r.2) plan rows.
Proof. by apply foldM_embed. Qed.

(** A callback on the other statement kind's state raises before it reads the
    row. *)
Lemma callback_mismatch iter_order s (p : ModifyPlan) fresh row slot ps :
  update_callback (Some (InsertVariant s)) row ps = Err (SchemaMismatch "exec_foreign_update on non-update state") /\
  delete_callback (Some (InsertVariant s)) ps = Err (SchemaMismatch "exec_foreign_delete on non-update state") /\
  exec_foreign_insert iter_order (Some (UpdateVariant p)) fresh slot = Err (SchemaMismatch "exec_foreign_insert on non-insert state").
Proof. done. Qed.
End RowCallbacks.

Section Columns.
Context {Y : BytesApi} {B : BlobApi} {A : ArrowApi} {R : RoaringApi} {Q : ParquetApi} {P : PgApi} {U : UuidApi}.
Context (st : InsertState) (slot : list (Datum * bool)).

(** A column of the slot that can be written: NULL, or a datum of a writable
    type. *)
Definition insertable (io : nat * Z) : Prop :=
  exists x, slot !! io.1 = Some x /\ (x.2 = true \/ Convert.canonical io.2 x.1).

(** The cell written for it. *)
Definition cell_for (io : nat * Z) (c : cell) : Prop :=
  exists x t, slot !! io.1 = Some x /\ pg_oid_to_arrow_type io.2 = Ok t /\
    arrow_value_to_datum t c io.2 = Ok (slot_value x) /\ (c = None <-> x.2 = true).

Definition builder_for (io : nat * Z) (x : Builder) : Prop :=
  exists t, pg_oid_to_arrow_type io.2 = Ok t /\ make_builder t = Ok (mkBuilder (b_kind x) t []).

Definition push_opt (o : option cell) (x : Builder) : Builder :=
  match o with Some c => mkBuilder (b_kind x) (b_type x) (b_cells x ++ [c]) | None => x end.

Lemma append_stored b col io x :
  insertable io -> rb_builders b !! col = Some x -> builder_for io x ->
  exists c d n, slot !! io.1 = Some (d, n) /\ append_one b col io.2 d n = Ok (push_cell b col x c) /\ cell_for io c.
Proof.
  intros ([d n] & Hs & Hw) Hx (t & Ht & Hk). cbn [fst snd] in Hw. destruct n.
  - exists None, d, true. split; [done|]. unfold append_one, append_null. rewrite Hx. split; [done|]. by exists (d, true), t.
  - destruct Hw as [|Hc]; [done|]. destruct (append_one_cell b col x io.2 d t Hc Ht Hk Hx) as (v & Ha & Hr).
    exists (Some v), d, false. split; [done|]. split; [done|]. by exists (d, false), t.
Qed.

Lemma append_columns ios : forall b j,
  (forall k io, stored (ins_partition_attnums st) ios !! k = Some io ->
     exists x, rb_builders b !! (j + k)%nat = Some x /\ builder_for io x) ->
  Forall insertable (stored (ins_partition_attnums st) ios) ->
  exists cs b', foldM (append_column st slot) (b, j) ios = Ok (b', (j + length cs)%nat) /\
    Forall2 cell_for (stored (ins_partition_attnums st) ios) cs /\ rb_schema b' = rb_schema b /\
    forall i, rb_builders b' !! i = push_opt (if (j <=? i)%nat then cs !! (i - j)%nat else None) <$> rb_builders b !! i.
Proof.
  induction ios as [|[i oid] ios IH]; intros b j Hb Hok; cbn [foldM].
  - exists [], b. rewrite Nat.add_0_r. split; [done|]. split; [constructor|]. split; [done|]. intros i.
    assert ((if (j <=? i)%nat then @nil cell !! (i - j)%nat else None) = None) as -> by (by destruct (j <=? i)%nat).
    by destruct (rb_builders b !! i).
  - rewrite stored_cons in *. cbn [fst] in *. unfold append_column at 2.
    case_bool_decide as Hi; [by apply IH|].
    apply Forall_cons in Hok as [Hok1 Hok]. destruct (Hb 0%nat _ eq_refl) as (x & Hx & Hxb). rewrite Nat.add_0_r in Hx.
    destruct (append_stored b j (i, oid) x Hok1 Hx Hxb) as (c & d & n & Hs & Ha & Hc). cbn [fst snd] in Hs, Ha.
    unfold slot_at. rewrite Hs. cbn [ok_or mbind result_bind]. rewrite Ha. cbn [mbind result_bind].
    pose proof (lookup_lt_Some _ _ _ Hx) as Hj.
    destruct (IH (push_cell b j x c) (S j)) as (cs & b' & Hf & Hcs & Hsch & Hlk); [|done|].
    { intros k io Hk. destruct (Hb (S k) io Hk) as (x' & Hx' & Hb'). exists x'. split; [|done].
      unfold push_cell. cbn [rb_builders]. rewrite list_lookup_insert_ne by lia. rewrite <- Hx'. f_equal. lia. }
    exists (c :: cs), b'. split; [rewrite Hf; do 2 f_equal; cbn; lia|]. split; [by constructor|]. split; [by rewrite Hsch|].
    intros i'. rewrite Hlk. unfold push_cell. cbn [rb_builders]. destruct (decide (i' = j)) as [->|Hne].
    + rewrite list_lookup_insert_eq, Hx by done. rewrite (proj2 (Nat.leb_gt (S j) j)), (proj2 (Nat.leb_le j j)), Nat.sub_diag by lia. done.
    + rewrite list_lookup_insert_ne by done. destruct (Nat.leb_spec j i'), (Nat.leb_spec (S j) i'); try lia; [|done].
      by replace (i' - j)%nat with (S (i' - S j)) by lia.
Qed.
End Columns.

(** ** What builders hold *)

Section Groups.
Context {Y : BytesApi} {B : BlobApi} {L : BlobLaws B} {A : ArrowApi} {AL : ArrowLaws A} {R : RoaringApi} {Q : ParquetApi} {QL : ParquetLaws Q}.
Context {P : PgApi} {U : UuidApi}.
Context (iter_order : list PartitionTupleKey -> list PartitionTupleKey) (debug_strs : list str -> str).
Context (order_perm : forall l, iter_order l ≡ₚ l).

(** The state the statement starts with; only the four maps change. *)
Context (st0 : InsertState).

Abbreviation schema := (ins_schema st0).
Definition column_types (st : InsertState) : list (nat * Z) :=
  stored (ins_partition_attnums st) (combine (seq 0 (length (ins_oids st))) (ins_oids st)).

Context (schema_types : Forall2 (fun io f => pg_oid_to_arrow_type io.2 = Ok (field_type f)) (column_types st0) schema).
Context (schema_nonempty : schema <> []).

(** Column [j] of rows of cells. *)
Definition col_of (j : nat) (rows : list (list cell)) : list cell := map (fun cs => mjoin (cs !! j)) rows.

Definition holds (b : RecordBatchBuilders) (rows : list (list cell)) : Prop :=
  rb_schema b = schema /\
  Forall2 (fun f x => make_builder (field_type f) = Ok (mkBuilder (b_kind x) (field_type f) []) /\ b_type x = field_type f) schema (rb_builders b) /\
  forall j x, rb_builders b !! j = Some x -> b_cells x = col_of j rows.

(** No NULL in a non-nullable column. *)
Definition row_fits (cs : list cell) : Prop :=
  length cs = length schema /\ forall j f, schema !! j = Some f -> nullable f = false -> cs !! j <> Some None.

Lemma builders_new_ok ios sch :
  Forall2 (fun (io : nat * Z) f => pg_oid_to_arrow_type io.2 = Ok (field_type f)) ios sch ->
  exists xs, mapM_res (fun f => make_builder (field_type f)) sch = Ok xs /\
    Forall2 (fun f x => make_builder (field_type f) = Ok (mkBuilder (b_kind x) (field_type f) []) /\ b_type x = field_type f) sch xs /\
    Forall (fun x => b_cells x = []) xs.
Proof.
  induction 1 as [|io f ios sch Ht _ IH]; [by exists []|].
  destruct IH as (xs & Hm & HF & Hc). destruct (make_builder_pg _ _ Ht) as [k Hk]. cbn [mapM_res]. rewrite Hk, Hm. cbn [mbind result_bind].
  eexists. split; [done|]. split; constructor; done.
Qed.

Lemma fresh_holds : exists b, builders_new schema = Ok b /\ holds b [].
Proof.
  unfold builders_new, holds. destruct (builders_new_ok _ _ schema_types) as (xs & -> & HF & Hc).
  eexists. split; [done|]. split; [done|]. split; [done|]. intros j x Hj. cbn in Hj. rewrite Forall_lookup in Hc. by apply (Hc j).
Qed.

Lemma holds_append st slot b rows :
  ins_partition_attnums st = ins_partition_attnums st0 -> ins_oids st = ins_oids st0 ->
  holds b rows -> Forall (insertable slot) (column_types st0) ->
  exists cs b' n, foldM (append_column st slot) (b, O) (combine (seq 0 (length (ins_oids st))) (ins_oids st)) = Ok (b', n) /\
    holds b' (rows ++ [cs]) /\ Forall2 (cell_for slot) (column_types st0) cs.
Proof.
  intros Ea Eo (Hs & HF & Hc) Hins. unfold column_types in *. rewrite <- Ea, <- Eo in *.
  destruct (append_columns st slot (combine (seq 0 (length (ins_oids st))) (ins_oids st)) b 0) as (cs & b' & Hf & Hcs & Hsch & Hlk); [|done|].
  { intros k io Hk. destruct (Forall2_lookup_l _ _ _ _ _ schema_types Hk) as (f & Hfk & Ht).
    destruct (Forall2_lookup_l _ _ _ _ _ HF Hfk) as (x & Hx & Hk' & Htx). exists x. split; [done|]. by exists (field_type f). }
  exists cs, b', (0 + length cs)%nat. split; [exact Hf|]. split; [|exact Hcs].
  pose proof (Forall2_length _ _ _ Hcs) as Hl1. pose proof (Forall2_length _ _ _ schema_types) as Hl2. pose proof (Forall2_length _ _ _ HF) as Hl3.
  assert (rb_builders b' = imap (fun j x => push_opt (cs !! j) x) (rb_builders b)) as Hb'.
  { apply list_eq. intros j. rewrite Hlk, list_lookup_imap. cbn. by rewrite Nat.sub_0_r. }
  split; [by rewrite Hsch|]. rewrite Hb'. split.
  - apply Forall2_same_length_lookup_2; [by rewrite length_imap|]. intros j f x Hj Hx. rewrite list_lookup_imap in Hx.
    destruct (rb_builders b !! j) as [x0|] eqn:E; [|done]. cbn in Hx. injection Hx as <-.
    destruct (Forall2_lookup_lr _ _ _ _ _ _ HF Hj E) as [H1 H2]. unfold push_opt. by destruct (cs !! j).
  - intros j x Hx. rewrite list_lookup_imap in Hx. destruct (rb_builders b !! j) as [x0|] eqn:E; [|done]. cbn in Hx. injection Hx as <-.
    unfold col_of. rewrite map_app. cbn [map]. pose proof (lookup_lt_Some _ _ _ E) as Hj.
    destruct (cs !! j) as [c|] eqn:Ec; [|apply lookup_ge_None in Ec; lia]. cbn. by rewrite (Hc j x0 E).
Qed.

Lemma check_lengths_ok n xs : forall i, Forall (fun x => length (b_cells x) = n) xs -> check_lengths n i xs = Ok tt.
Proof.
  induction xs as [|x xs IH]; intros i HF; [done|]. apply Forall_cons in HF as [Hx HF]. cbn. rewrite Hx, Nat.eqb_refl. by apply IH.
Qed.

Lemma col_of_length j rows : length (col_of j rows) = length rows.
Proof. apply length_map. Qed.

(** A full column has a NULL only where a row has one. *)
Lemma col_of_no_null j f rows :
  Forall row_fits rows -> schema !! j = Some f -> nullable f = false -> None ∉ col_of j rows.
Proof.
  intros HF Hj Hn Hin. apply list_elem_of_fmap in Hin as (cs & Hcs & Hin). rewrite Forall_forall in HF.
  destruct (HF _ Hin) as [Hl Hnn]. specialize (Hnn j f Hj Hn). apply lookup_lt_Some in Hj. rewrite <- Hl in Hj.
  apply lookup_lt_is_Some in Hj as [c Hc]. rewrite Hc in *. cbn in Hcs. congruence.
Qed.

Lemma holds_finish b rows : holds b rows -> Forall row_fits rows ->
  exists rb, builders_finish b = Ok rb /\ conforms schema (batch_columns rb) (num_rows rb) /\ num_rows rb = length rows /\
    forall j, (j < length schema)%nat -> col_cells j rb = col_of j rows.
Proof.
  intros (Hs & HF & Hc) Hrows. unfold builders_finish. rewrite Hs.
  set (xs := rb_builders b) in *. pose proof (Forall2_length _ _ _ HF) as Hlen.
  assert (Forall (fun x => length (b_cells x) = length rows) xs) as Hl.
  { apply Forall_lookup. intros j x Hj. by rewrite (Hc j x Hj), col_of_length. }
  assert (match xs with [] => Ok tt | x :: bs => check_lengths (length (b_cells x)) 1 bs end = Ok tt) as ->.
  { destruct xs as [|x xs']; [done|]. apply Forall_cons in Hl as [-> Hl]. by apply check_lengths_ok. }
  cbn [mbind result_bind].
  assert (conforms schema (map (fun x => build_array (b_type x) (b_cells x)) xs) (length rows)) as Hconf.
  { split; [intros E; apply schema_nonempty; destruct xs; [|done]; by apply nil_length_inv|].
    apply Forall2_fmap_r. apply Forall2_same_length_lookup_2; [done|]. intros j f x Hj Hx.
    destruct (Forall2_lookup_lr _ _ _ _ _ _ HF Hj Hx) as [_ Ht]. cbn. rewrite build_type. unfold array_len. rewrite build_cells, (Hc j x Hx), col_of_length.
    split; [done|]. split; [done|]. by apply col_of_no_null. }
  destruct (try_new_ok _ _ _ Hconf) as (rb & -> & Hcols & Hn).
  exists rb. split; [done|]. rewrite Hcols, Hn. split; [done|]. split; [done|].
  intros j Hj. rewrite Hlen in Hj. apply lookup_lt_is_Some in Hj as [x Hx].
  rewrite (col_cells_some _ _ (build_array (b_type x) (b_cells x))); [by rewrite build_cells, (Hc j x Hx)|].
    rewrite Hcols. change (map ?f xs) with (f <$> xs). by rewrite list_lookup_fmap, Hx.
Qed.

(** ** Groups *)

Abbreviation codec := (to_pq gzip_default_level zstd_default_level (ins_compression st0)).

(** Only the maps change. *)
Definition consts (st : InsertState) : Prop :=
  st = with_maps st0 (builders st) (writers st) (target_names st) (rows_in_current_batch st).

(** A writer that has accepted exactly these rows. *)
Definition written (w : PqWriter) (rows : list (list cell)) : Prop :=
  exists bs, writer_holds w schema codec bs /\ Forall (fun b => (0 < num_rows b)%nat) bs /\
    total_rows bs = length rows /\ forall j, (j < length schema)%nat -> blob_column j bs = col_of j rows.

Definition group_none (st : InsertState) (k : PartitionTupleKey) : Prop :=
  builders st !! k = None /\ writers st !! k = None /\ target_names st !! k = None /\ rows_in_current_batch st !! k = None.

(** The group of [k] has been given [flushed ++ pending]. *)
Definition group_ok (st : InsertState) (k : PartitionTupleKey) (fr : Fresh) (flushed pending : list (list cell)) : Prop :=
  (exists b, builders st !! k = Some b /\ holds b pending) /\
  rows_in_current_batch st !! k = Some (length pending) /\
  target_names st !! k = Some (compute_target_name st0 fr k) /\
  match writers st !! k with None => flushed = [] | Some w => flushed <> [] /\ written w flushed end.

Definition same_at (st st' : InsertState) (k : PartitionTupleKey) : Prop :=
  builders st' !! k = builders st !! k /\ writers st' !! k = writers st !! k /\
  target_names st' !! k = target_names st !! k /\ rows_in_current_batch st' !! k = rows_in_current_batch st !! k.

Lemma group_ok_same st st' k fr f p : same_at st st' k -> group_ok st k fr f p -> group_ok st' k fr f p.
Proof. intros (Hb & Hw & Ht & Hr). unfold group_ok. by rewrite Hb, Hw, Ht, Hr. Qed.

Lemma group_none_same st st' k : same_at st st' k -> group_none st k -> group_none st' k.
Proof. intros (Hb & Hw & Ht & Hr). unfold group_none. by rewrite Hb, Hw, Ht, Hr. Qed.

(** No writer and no file with at most [n] rows is larger than the cap. *)
Definition fits (n : nat) : Prop :=
  forall w bs, writer_holds w schema codec bs -> Forall (fun b => (0 < num_rows b)%nat) bs -> (total_rows bs <= n)%nat ->
    0 <= arrow_writer_bytes_written w <= MAX_BLOB_BYTES /\
    forall body, arrow_writer_into_inner w = Ok body -> bytes_len body <= MAX_BLOB_BYTES.

Lemma col_of_app j r1 r2 : col_of j (r1 ++ r2) = col_of j r1 ++ col_of j r2.
Proof. apply map_app. Qed.

(** Writing a batch that holds [pending] after [flushed]. *)
Lemma write_batch w flushed pending rb n :
  written w flushed -> conforms schema (batch_columns rb) (num_rows rb) -> num_rows rb = length pending -> pending <> [] ->
  (forall j, (j < length schema)%nat -> col_cells j rb = col_of j pending) -> fits n -> (length (flushed ++ pending) <= n)%nat ->
  exists w', writer_write w rb = Ok w' /\ written w' (flushed ++ pending) /\ as_u64 (arrow_writer_bytes_written w') <= MAX_BLOB_BYTES.
Proof.
  intros (bs & Hh & Hpos & Htot & Hcol) Hconf Hn Hne Hcols Hfit Hlen.
  destruct (write_holds _ _ _ _ _ Hh Hconf) as (w' & Hw & Hh'). exists w'. unfold writer_write. rewrite Hw.
  assert (Forall (fun b => (0 < num_rows b)%nat) (bs ++ [rb])) as Hpos'.
  { apply Forall_app. split; [done|]. constructor; [|done]. rewrite Hn. destruct pending; [done|cbn; lia]. }
  assert (total_rows (bs ++ [rb]) = length (flushed ++ pending)) as Htot'.
  { rewrite total_rows_app, Htot, length_app. unfold total_rows. cbn. lia. }
  split; [done|]. split.
  - exists (bs ++ [rb]). split; [done|]. split; [done|]. split; [done|]. intros j Hj.
    rewrite blob_column_app, col_of_app, Hcol by done. f_equal. unfold blob_column. cbn. by rewrite app_nil_r, Hcols.
  - destruct (Hfit w' _ Hh' Hpos') as [[H1 H2] _]; [lia|]. rewrite as_u64_id; [done|].
    unfold MAX_BLOB_BYTES, is_u64, u64_max in *. lia.
Qed.

Lemma flush_ok st k fr flushed pending n :
  consts st -> group_ok st k fr flushed pending -> Forall row_fits pending -> fits n -> (length (flushed ++ pending) <= n)%nat ->
  exists st', flush_group st k = Ok st' /\ consts st' /\ group_ok st' k fr (flushed ++ pending) [] /\
    forall k', k' <> k -> same_at st st' k'.
Proof.
  intros Hst ((b & Hb & Hh) & Hr & Ht & Hw) Hrows Hfit Hlen. unfold flush_group. rewrite Hr. cbn [default from_option id].
  destruct pending as [|r0 pending'] eqn:Ep; cbn [length].
  { exists st. rewrite app_nil_r. split; [done|]. split; [done|]. split; [|done]. split; [by exists b|]. done. }
  rewrite <- Ep in *. assert (pending <> []) as Hne by (by rewrite Ep). clear Ep.
  assert (ins_schema st = schema /\ ins_compression st = ins_compression st0) as [-> ->] by (by rewrite Hst).
  destruct fresh_holds as (fb & -> & Hfb). rewrite Hb. cbn [ok_or mbind result_bind].
  destruct (holds_finish b pending Hh Hrows) as (rb & -> & Hconf & Hn & Hcols). cbn [mbind result_bind].
  assert (exists w, match writers st !! k with Some w => Ok w | None => writer_new schema (ins_compression st0) end = Ok w /\ written w flushed) as (w & -> & Hwr).
  { destruct (writers st !! k) as [w|]; [destruct Hw as [_ Hw]; by exists w|]. subst flushed. unfold writer_new.
    destruct (try_new_holds schema codec) as (w & -> & Hwh). exists w. split; [done|]. exists []. done. }
  cbn [mbind result_bind]. destruct (write_batch w flushed pending rb n Hwr Hconf Hn Hne Hcols Hfit Hlen) as (w' & -> & Hw' & Hsz).
  cbn [mbind result_bind]. rewrite (proj2 (Z.ltb_ge _ _) Hsz). eexists. split; [done|].
  split; [by rewrite Hst|]. split.
  - split; [exists fb; cbn; by rewrite lookup_insert_eq|]. cbn. rewrite !lookup_insert_eq. split; [done|]. split; [done|].
    split; [|done]. by destruct flushed, pending.
  - intros k' Hk'. unfold same_at. cbn. by rewrite !lookup_insert_ne by done.
Qed.

(** ** The whole state, against the log of rows *)

Abbreviation Entry := (Fresh * PartitionTupleKey * list cell)%type.

Definition group (k : PartitionTupleKey) (log : list Entry) : list Entry := List.filter (fun e => bool_decide (e.1.2 = k)) log.

Definition state_ok (st : InsertState) (log : list Entry) : Prop :=
  consts st /\ forall k,
    match group k log with
    | [] => group_none st k
    | e :: es => exists flushed pending, group_ok st k e.1.1 flushed pending /\ flushed ++ pending = map snd (e :: es)
    end.

Definition drained (st : InsertState) (k : PartitionTupleKey) : Prop := default O (rows_in_current_batch st !! k) = O.

Definition log_ok (n : nat) (log : list Entry) : Prop := Forall (fun e => row_fits e.2) log /\ (length log <= n)%nat.

Lemma group_sub k log : Forall (fun e => e ∈ log) (group k log).
Proof. apply Forall_forall. intros e He%list_elem_of_In. unfold group in He. apply filter_In in He as [He _]. by apply list_elem_of_In. Qed.

Lemma group_length k log : (length (group k log) <= length log)%nat.
Proof. unfold group. induction log as [|e log IH]; cbn; [lia|]. case_bool_decide; cbn; lia. Qed.

Lemma group_fits n k log : log_ok n log -> Forall row_fits (map snd (group k log)) /\ (length (map snd (group k log)) <= n)%nat.
Proof.
  intros [HF Hn]. split; [|rewrite length_map; pose proof (group_length k log); lia].
  apply Forall_forall. intros cs (e & -> & He)%list_elem_of_fmap. rewrite Forall_forall in HF. apply HF.
  pose proof (group_sub k log) as Hs. rewrite Forall_forall in Hs. by apply Hs.
Qed.

Lemma flush_state st log k n : state_ok st log -> log_ok n log -> fits n ->
  exists st', flush_group st k = Ok st' /\ state_ok st' log /\ drained st' k /\ forall k', k' <> k -> same_at st st' k'.
Proof.
  intros [Hst Hg] Hlog Hfit. destruct (group_fits n k log Hlog) as [Hrows Hlen]. pose proof (Hg k) as Hk.
  destruct (group k log) as [|e es] eqn:E.
  - exists st. destruct Hk as (_ & _ & _ & Hr). unfold flush_group, drained. rewrite Hr. by repeat split.
  - destruct Hk as (flushed & pending & Hok & Heq). rewrite <- Heq in Hrows, Hlen. apply Forall_app in Hrows as [_ Hp].
    destruct (flush_ok st k e.1.1 flushed pending n Hst Hok Hp Hfit Hlen) as (st' & Hf & Hst' & Hok' & Hsame).
    exists st'. split; [done|]. split; [|split; [|done]].
    + split; [done|]. intros k'. destruct (decide (k' = k)) as [->|Hne].
      * rewrite E. exists (flushed ++ pending), []. by rewrite app_nil_r.
      * specialize (Hg k'). specialize (Hsame k' Hne). destruct (group k' log) as [|e' es']; [by eapply group_none_same|].
        destruct Hg as (f & q & Hok2 & Heq2). exists f, q. split; [by eapply group_ok_same|done].
    + destruct Hok' as (_ & Hr & _). unfold drained. by rewrite Hr.
Qed.

Lemma flush_list log n ks : forall st, state_ok st log -> log_ok n log -> fits n ->
  exists st', foldM flush_group st ks = Ok st' /\ state_ok st' log /\ forall k, k ∈ ks \/ drained st k -> drained st' k.
Proof.
  induction ks as [|k ks IH]; intros st Hst Hlog Hfit; cbn [foldM].
  - exists st. split; [done|]. split; [done|]. intros k [Hk|]; [by apply not_elem_of_nil in Hk|done].
  - destruct (flush_state st log k n Hst Hlog Hfit) as (st1 & -> & Hst1 & Hd1 & Hsame). cbn [mbind result_bind].
    destruct (IH st1 Hst1 Hlog Hfit) as (st' & Hf & Hst' & Hd). exists st'. split; [done|]. split; [done|].
    intros k' Hk'. apply Hd. destruct (decide (k' = k)) as [->|Hne]; [by right|].
    destruct Hk' as [[->|Hk']%elem_of_cons|Hk']; [done|by left|right]. unfold drained. by rewrite (proj2 (proj2 (proj2 (Hsame k' Hne)))).
Qed.

(** ** One row *)

Lemma target_name_consts st fr k : consts st -> compute_target_name st fr k = compute_target_name st0 fr k.
Proof. intros ->. reflexivity. Qed.

Lemma group_snoc k log e : group k (log ++ [e]) = group k log ++ (if bool_decide (e.1.2 = k) then [e] else []).
Proof. unfold group. rewrite List.filter_app. cbn. by destruct (bool_decide _). Qed.

Lemma append_slot_ok st log fr slot key :
  state_ok st log -> tuple_key st0 slot = Ok key -> Forall (insertable slot) (column_types st0) ->
  exists cs st', append_slot st fr slot = Ok st' /\ state_ok st' (log ++ [(fr, key, cs)]) /\ Forall2 (cell_for slot) (column_types st0) cs.
Proof.
  intros [Hst Hg] Hkey Hins. unfold append_slot.
  assert (tuple_key st slot = Ok key) as -> by (by rewrite Hst).
  cbn [mbind result_bind]. pose proof (Hg key) as Hk.
  assert (exists b f p, match builders st !! key with Some b => Ok b | None => expect_builders (builders_new (ins_schema st)) end = Ok b /\ holds b p /\
    f ++ p = map snd (group key log) /\ default O (rows_in_current_batch st !! key) = length p /\
    match writers st !! key with None => f = [] | Some w => f <> [] /\ written w f end) as (b & f & p & -> & Hb & Hfp & Hr & Hw).
  { destruct (group key log) as [|e es].
    - destruct Hk as (-> & -> & _ & ->). replace (ins_schema st) with schema by (by rewrite Hst). destruct fresh_holds as (b & -> & Hb).
      by exists b, [], [].
    - destruct Hk as (f & p & ((b & -> & Hb) & -> & _ & Hw) & Heq). by exists b, f, p. }
  cbn [mbind result_bind].
  destruct (holds_append st slot b p) as (cs & b' & m & -> & Hb' & Hcs); try done; try (by rewrite Hst).
  cbn [mbind result_bind]. eexists cs, _. split; [done|]. split; [|done]. split; [by rewrite Hst|].
  intros k. rewrite group_snoc. cbn [fst snd]. case_bool_decide as Hkk; [subst k|].
  - assert (group_ok (with_maps st (<[key:=b']> (builders st)) (writers st)
        match target_names st !! key with Some _ => target_names st | None => <[key:=compute_target_name st fr key]> (target_names st) end
        (<[key:=S (default O (rows_in_current_batch st !! key))]> (rows_in_current_batch st)))
        key (match group key log with [] => fr | e :: _ => e.1.1 end) f (p ++ [cs])) as Hok.
    { split; [exists b'; cbn; by rewrite lookup_insert_eq|]. cbn. rewrite lookup_insert_eq. split; [rewrite Hr, length_app; cbn; f_equal; lia|].
      split; [|done]. destruct (group key log) as [|e es].
      - destruct Hk as (_ & _ & -> & _). by rewrite lookup_insert_eq, target_name_consts.
      - destruct Hk as (f' & p' & (_ & _ & Ht & _) & _). by rewrite Ht. }
    destruct (group key log) as [|e es]; cbn [app]; exists f, (p ++ [cs]); (split; [done|]).
    + by rewrite (assoc_L (++)), Hfp.
    + rewrite (assoc_L (++)), Hfp. cbn [map app]. by rewrite map_app.
  - rewrite app_nil_r. specialize (Hg k).
    assert (same_at st (with_maps st (<[key:=b']> (builders st)) (writers st)
        match target_names st !! key with Some _ => target_names st | None => <[key:=compute_target_name st fr key]> (target_names st) end
        (<[key:=S (default O (rows_in_current_batch st !! key))]> (rows_in_current_batch st))) k) as Hsame.
    { unfold same_at. cbn. rewrite !lookup_insert_ne by done. split; [done|]. split; [done|]. split; [|done].
      destruct (target_names st !! key); [done|]. by rewrite lookup_insert_ne. }
    destruct (group k log) as [|e es]; [by eapply group_none_same|]. destruct Hg as (f' & p' & Hok & Heq). exists f', p'. split; [by eapply group_ok_same|done].
Qed.

(** A slot the table accepts: every stored column writable, no NULL in a NOT
    NULL one, a partition key that can be rendered. *)
Definition slot_ok (slot : list (Datum * bool)) : Prop :=
  Forall (insertable slot) (column_types st0) /\ is_ok (tuple_key st0 slot) = true /\
  forall j io f x, column_types st0 !! j = Some io -> schema !! j = Some f -> nullable f = false -> slot !! io.1 = Some x -> x.2 = false.

Definition key_of (slot : list (Datum * bool)) : PartitionTupleKey :=
  match tuple_key st0 slot with Ok k => k | Err _ => mkKey [] end.

Lemma cells_fit slot cs : slot_ok slot -> Forall2 (cell_for slot) (column_types st0) cs -> row_fits cs.
Proof.
  intros (_ & _ & Hnn) HF. split; [by rewrite <- (Forall2_length _ _ _ HF), (Forall2_length _ _ _ schema_types)|].
  intros j f Hj Hn Hc. destruct (Forall2_lookup_r _ _ _ _ _ schema_types Hj) as (io & Hio & _).
  destruct (Forall2_lookup_lr _ _ _ _ _ _ HF Hio Hc) as (x & t & Hx & _ & _ & Hnull).
  specialize (Hnn j io f x Hio Hj Hn Hx). rewrite (proj1 Hnull eq_refl) in Hnn. done.
Qed.

Lemma insert_row_ok st log fr slot n :
  state_ok st log -> log_ok n log -> slot_ok slot -> fits n -> (S (length log) <= n)%nat ->
  exists cs st', insert_row iter_order st fr slot = Ok st' /\ state_ok st' (log ++ [(fr, key_of slot, cs)]) /\
    log_ok n (log ++ [(fr, key_of slot, cs)]) /\ Forall2 (cell_for slot) (column_types st0) cs.
Proof.
  intros Hst [Hrows Hlen] Hslot Hfit Hn. pose proof Hslot as (Hins & Hkey & _).
  assert (tuple_key st0 slot = Ok (key_of slot)) as Hk by (unfold key_of; by destruct (tuple_key st0 slot)).
  destruct (append_slot_ok st log fr slot _ Hst Hk Hins) as (cs & st1 & Ha & Hst1 & Hcs).
  assert (log_ok n (log ++ [(fr, key_of slot, cs)])) as Hlog.
  { split; [|rewrite length_app; cbn; lia]. apply Forall_app. split; [done|]. constructor; [by eapply cells_fit|done]. }
  unfold insert_row. rewrite Ha. cbn [mbind result_bind].
  destruct (flush_list _ n (full_groups iter_order st1) st1 Hst1 Hlog Hfit) as (st' & Hf & Hst' & _). by exists cs, st'.
Qed.

(** ** All rows, and the upload *)

Abbreviation Row := (Fresh * list (Datum * bool))%type.

Definition entry (r : Row) (cs : list cell) : Entry := (r.1, key_of r.2, cs).
Definition row_cells (r : Row) (cs : list cell) : Prop := Forall2 (cell_for r.2) (column_types st0) cs.

Lemma insert_rows_ok n rows : forall st log,
  state_ok st log -> log_ok n log -> Forall (fun r => slot_ok r.2) rows -> fits n -> (length log + length rows <= n)%nat ->
  exists css st', foldM (fun st (r : Row) => insert_row iter_order st r.1 r.2) st rows = Ok st' /\
    Forall2 row_cells rows css /\ state_ok st' (log ++ zip_with entry rows css) /\ log_ok n (log ++ zip_with entry rows css).
Proof.
  induction rows as [|r rows IH]; intros st log Hst Hlog HF Hfit Hn; cbn [foldM].
  - exists [], st. cbn. rewrite app_nil_r. by repeat split; try apply Hlog; try apply Hst.
  - apply Forall_cons in HF as [Hr HF]. cbn [length] in Hn.
    destruct (insert_row_ok st log r.1 r.2 n Hst Hlog Hr Hfit ltac:(lia)) as (cs & st1 & -> & Hst1 & Hlog1 & Hcs). cbn [mbind result_bind].
    destruct (IH st1 _ Hst1 Hlog1 HF Hfit) as (css & st' & Hf & Hcss & Hst' & Hlog'); [rewrite length_app; cbn; lia|].
    exists (cs :: css), st'. split; [done|]. split; [by constructor|]. cbn [zip_with]. rewrite <- !(assoc_L (++)) in Hst', Hlog'. done.
Qed.

Definition stored_as (c : Container) (nm : str) (rows : list (list cell)) : Prop :=
  exists e body bs, c !! nm = Some (e, body) /\ decodes body (Some codec) bs /\
    Forall (fun b => conforms schema (batch_columns b) (num_rows b)) bs /\ total_rows bs = length rows /\
    forall j, (j < length schema)%nat -> blob_column j bs = col_of j rows.

Lemma upload_one names k w rows n s nm :
  written w rows -> rows <> [] -> (length rows <= n)%nat -> fits n -> names !! k = Some nm ->
  exists s', upload_group debug_strs names (k, w) s = (s', Ok tt) /\ stored_as (blobs s') nm rows /\
    forall nm', nm' <> nm -> blobs s' !! nm' = blobs s !! nm'.
Proof.
  intros (bs & Hh & Hpos & Htot & Hcol) Hne Hlen Hfit Hnm. unfold upload_group. rewrite Hnm.
  erewrite sm_bind_Ok by reflexivity.
  destruct (into_inner_holds _ _ _ _ Hh) as (body & bs' & Hbody & Hdec & Hconf & [Hrows Hcols]).
  { rewrite Htot. destruct rows; [done|cbn; lia]. }
  erewrite sm_bind_Ok; [|unfold lift, writer_finish; by rewrite Hbody].
  unfold writer_upload. erewrite sm_bind_Ok; [|unfold lift; rewrite check_upload_small; [done|]].
  2: { destruct (Hfit w bs Hh Hpos ltac:(lia)) as [_ Hb]. by apply Hb. }
  destruct (upload_law nm body no_cond s) as (s' & e & Hu & Hs & _); [by split|].
  exists s'. split; [erewrite sm_bind_Ok; [|unfold call; by rewrite Hu]; done|]. rewrite Hs. split.
  - exists e, body, bs'. rewrite lookup_insert_eq. split; [done|]. split; [done|]. split; [done|]. split; [by rewrite <- Hrows|].
    intros j Hj. by rewrite <- Hcols, Hcol.
  - intros nm' Hne'. by rewrite lookup_insert_ne.
Qed.

Lemma upload_all n names (rows_of : PartitionTupleKey -> list (list cell)) (name_of : PartitionTupleKey -> str) es : forall s,
  Forall (fun kw => written kw.2 (rows_of kw.1) /\ rows_of kw.1 <> [] /\ (length (rows_of kw.1) <= n)%nat /\
                    names !! kw.1 = Some (name_of kw.1)) es ->
  NoDup (map (fun kw => name_of kw.1) es) -> fits n ->
  exists s', sm_iter (upload_group debug_strs names) es s = (s', Ok tt) /\
    (forall k w, (k, w) ∈ es -> stored_as (blobs s') (name_of k) (rows_of k)) /\
    forall nm, nm ∉ map (fun kw => name_of kw.1) es -> blobs s' !! nm = blobs s !! nm.
Proof.
  induction es as [|[k w] es IH]; intros s HF Hnd Hfit; cbn [sm_iter].
  - exists s. split; [done|]. split; [by intros ? ? ?%not_elem_of_nil|done].
  - apply Forall_cons in HF as [(Hw & Hne & Hlen & Hnm) HF]. cbn [map fst snd] in *. apply NoDup_cons in Hnd as [Hk Hnd].
    destruct (upload_one names k w _ n s _ Hw Hne Hlen Hfit Hnm) as (s1 & Hu & Hst & Hfr).
    destruct (IH s1 HF Hnd Hfit) as (s' & Hi & Hall & Hfr'). exists s'.
    split; [erewrite sm_bind_Ok by exact Hu; exact Hi|]. split.
    + intros k' w' [[= -> ->]|Hin]%elem_of_cons; [|by eapply Hall].
      destruct Hst as (e & body & bs & Hb & Hrest). exists e, body, bs. split; [|done]. by rewrite Hfr'.
    + intros nm Hn. apply not_elem_of_cons in Hn as [Hn1 Hn2]. rewrite Hfr' by done. by apply Hfr.
Qed.

Lemma tail_flush_eq st k : tail_flush st k = flush_group st k.
Proof. unfold tail_flush. destruct (Nat.ltb_spec 0 (default O (rows_in_current_batch st !! k))) as [|H0]; [done|].
  unfold flush_group. by destruct (default O (rows_in_current_batch st !! k)); [|lia]. Qed.

(** The name the group's first row fixes. *)
Definition target_of (log : list Entry) (k : PartitionTupleKey) : str :=
  match group k log with [] => [] | e :: _ => compute_target_name st0 e.1.1 k end.

Lemma finalize_ok st log n s :
  state_ok st log -> log_ok n log -> fits n ->
  (forall k1 k2, group k1 log <> [] -> group k2 log <> [] -> target_of log k1 = target_of log k2 -> k1 = k2) ->
  exists s', finalize_and_upload iter_order debug_strs st s = (s', Ok tt) /\
    (forall k, group k log <> [] -> stored_as (blobs s') (target_of log k) (map snd (group k log))) /\
    forall nm, (forall k, group k log <> [] -> target_of log k <> nm) -> blobs s' !! nm = blobs s !! nm.
Proof.
  intros Hst Hlog Hfit Hinj. unfold finalize_and_upload.
  set (ks := iter_order (map fst (map_to_list (builders st)))).
  destruct (flush_list log n ks st Hst Hlog Hfit) as (st' & Hf & Hst' & Hdr).
  assert (foldM tail_flush st ks = Ok st') as Hf'.
  { rewrite <- Hf. apply foldM_ext, tail_flush_eq. }
  erewrite sm_bind_Ok; [|unfold lift; by rewrite Hf'].
  assert (forall k, match writers st' !! k with
                    | Some w => group k log <> [] /\ written w (map snd (group k log)) /\ target_names st' !! k = Some (target_of log k)
                    | None => group k log = [] end) as Hwr.
  { intros k. assert (drained st' k) as Hd.
    { apply Hdr. destruct Hst as [_ Hg]. specialize (Hg k). destruct (group k log) as [|e es].
      - right. destruct Hg as (_ & _ & _ & Hr). unfold drained. by rewrite Hr.
      - left. destruct Hg as (f & p & ((b & Hb & _) & _) & _). subst ks. rewrite order_perm. apply list_elem_of_fmap. exists (k, b). split; [done|].
        by apply elem_of_map_to_list. }
    destruct Hst' as [_ Hg]. specialize (Hg k). unfold target_of. destruct (group k log) as [|e es].
    - by destruct Hg as (_ & -> & _).
    - destruct Hg as (f & p & (_ & Hr & Ht & Hw) & Heq). unfold drained in Hd. rewrite Hr in Hd. cbn in Hd.
      apply nil_length_inv in Hd as ->. rewrite app_nil_r in Heq. subst f.
      destruct (writers st' !! k) as [w|]; [by destruct Hw|done]. }
  destruct (upload_all n (target_names st') (fun k => map snd (group k log)) (target_of log) (merge_sort key_le (map_to_list (writers st'))) s)
    as (s' & Hu & Hall & Hfr); try done.
  - apply Forall_forall. intros [k w] Hin. rewrite merge_sort_Permutation in Hin. apply elem_of_map_to_list in Hin. specialize (Hwr k). rewrite Hin in Hwr.
    destruct Hwr as (Hne & Hw & Ht). cbn. split; [done|]. split; [by destruct (group k log)|]. split; [|done]. by apply group_fits.
  - rewrite <- (map_map fst (target_of log)). rewrite merge_sort_Permutation.
    apply NoDup_fmap_2_strong; [|apply NoDup_fst_map_to_list].
    intros k1 k2 ([p w1] & -> & H1%elem_of_map_to_list)%list_elem_of_fmap ([p0 w2] & -> & H2%elem_of_map_to_list)%list_elem_of_fmap Heq.
    cbn in *. pose proof (Hwr p) as Hp1. pose proof (Hwr p0) as Hp2. rewrite H1 in Hp1. rewrite H2 in Hp2. apply Hinj; [apply Hp1|apply Hp2|done].
  - exists s'. split; [exact Hu|]. split.
    + intros k Hk. specialize (Hwr k). destruct (writers st' !! k) as [w|] eqn:Ew; [|done].
      apply (Hall k w). rewrite merge_sort_Permutation. by apply elem_of_map_to_list.
    + intros nm Hnm. apply Hfr. intros ([k w] & -> & Hin)%list_elem_of_fmap. rewrite merge_sort_Permutation in Hin.
      apply elem_of_map_to_list in Hin. specialize (Hwr k). rewrite Hin in Hwr. by apply (Hnm k); [apply Hwr|].
Qed.
End Groups.
