(* ===== verification/InsertClaims.v ===== *)
(** * What an INSERT statement leaves in the container.

    The invariants of [InsertFacts] are put together for a whole statement:
    [begin_foreign_modify]'s state, one [exec_foreign_insert] per row,
    [end_foreign_modify].  Groups of distinct keys get distinct blob names
    because the fresh ids are distinct. *)

From S2P Require Import Prelude RustStr Redact Errors Options Externals Kernel Convert BlobService Store Handoff Coordinator ParquetIO Modify Pushdown Partition Glob ScanPlan Parallel Insert InsertFacts.
Local Open Scope Z_scope.

(** ** The state a statement starts with *)

Lemma storage_types attnums attrs : forall i,
  Forall2 (fun io a => io.2 = atttypid a) (stored attnums (combine (seq i (length attrs)) (map atttypid attrs)))
    (omap (fun ia => if bool_decide (ia.1 ∈ attnums) then None else Some ia.2) (combine (seq i (length attrs)) attrs)).
Proof.
  induction attrs as [|a attrs IH]; intros i; cbn [length seq combine map omap list_omap]; [constructor|].
  rewrite stored_cons. cbn [fst snd]. case_bool_decide; [apply IH|]. constructor; [done|apply IH].
Qed.

Lemma attr_fields_types attrs : forall acc sch, foldM attr_field acc attrs = Ok sch ->
  exists fs, sch = acc ++ fs /\ Forall2 (fun a f => pg_oid_to_arrow_type (atttypid a) = Ok (field_type f)) attrs fs.
Proof.
  induction attrs as [|a attrs IH]; intros acc sch Hf; cbn [foldM] in Hf.
  - injection Hf as <-. exists []. by rewrite app_nil_r.
  - apply bind_Ok_inv in Hf as (acc' & Ha & Hf). unfold attr_field in Ha. apply bind_Ok_inv in Ha as (t & Ht & Ha). injection Ha as <-.
    destruct (IH _ _ Hf) as (fs & -> & HF). eexists (_ :: fs). rewrite <- (assoc_L (++)). split; [done|]. by constructor.
Qed.

Section Claims.
Context {Y : BytesApi} {B : BlobApi} {L : BlobLaws B} {A : ArrowApi} {AL : ArrowLaws A} {R : RoaringApi} {Q : ParquetApi} {QL : ParquetLaws Q}.
Context {P : PgApi} {U : UuidApi}.
Context (iter_order : list PartitionTupleKey -> list PartitionTupleKey) (debug_strs : list str -> str).
Context (order_perm : forall l, iter_order l ≡ₚ l).

Lemma built_state env options tupdesc st :
  insert_build_state env options tupdesc = Ok st ->
  Forall2 (fun io f => pg_oid_to_arrow_type io.2 = Ok (field_type f)) (column_types st) (ins_schema st) /\
  builders st = ∅ /\ writers st = ∅ /\ target_names st = ∅ /\ rows_in_current_batch st = ∅.
Proof.
  unfold insert_build_state. intros Hb. apply bind_Ok_inv in Hb as ([[server um] table] & _ & Hb). inv_ok.
  destruct (pick_target_layout table) as [prefix single]. injection Hb as <-. split; [|done].
  match goal with Hs : pg_attrs_to_arrow_schema _ = Ok _ |- _ => unfold pg_attrs_to_arrow_schema in Hs; apply attr_fields_types in Hs as (fs & -> & HF) end.
  unfold column_types. cbn [ins_partition_attnums ins_oids ins_schema app] in *. unfold storage_attrs in HF. rewrite length_map.
  eapply Forall2_trans; [|apply storage_types|exact HF]. intros io a f -> Ha. exact Ha.
Qed.

(** ** Distinct groups get distinct blobs *)

Lemma generate_blob_name_id ts ts' id id' p p' :
  length id = length id' -> generate_blob_name ts id p = generate_blob_name ts' id' p' -> id = id'.
Proof.
  intros Hl Hg.
  assert (forall ts id p, exists pre, generate_blob_name ts id p = pre ++ id ++ ".parquet") as Hform.
  { intros ts2 id2 p2. unfold generate_blob_name. destruct (str_eqb _ _); [by exists (ts2 ++ "-"); rewrite <- !(assoc_L (++))|].
    by exists (trim_end_matches "/" p2 ++ "/" ++ ts2 ++ "-"); rewrite <- !(assoc_L (++)). }
  destruct (Hform ts id p) as [pre E], (Hform ts' id' p') as [pre' E']. rewrite E, E' in Hg.
  apply app_inj_2 in Hg as [_ Hg]; [|rewrite !length_app; lia]. by apply app_inj_1 in Hg as [Hg _].
Qed.

Section Statement.
Context (st0 : InsertState).

(** The rows of a group, in order. *)
Definition rows_for (k : PartitionTupleKey) (rows : list (Fresh * list (Datum * bool))) :=
  List.filter (fun r => bool_decide (key_of st0 r.2 = k)) rows.

Definition target (k : PartitionTupleKey) (rows : list (Fresh * list (Datum * bool))) : str :=
  match rows_for k rows with [] => [] | r :: _ => compute_target_name st0 r.1 k end.

Lemma group_rows (Rel : Fresh * list (Datum * bool) -> list cell -> Prop) k rows css : Forall2 Rel rows css ->
  Forall2 (fun r e => e.1.1 = r.1 /\ Rel r e.2) (rows_for k rows) (group k (zip_with (entry st0) rows css)).
Proof.
  induction 1 as [|r cs rows css Hr _ IH]; [constructor|]. cbn [zip_with]. unfold rows_for, group. cbn [List.filter entry fst snd].
  case_bool_decide; [|exact IH]. constructor; [done|exact IH].
Qed.

Lemma target_group (Rel : Fresh * list (Datum * bool) -> list cell -> Prop) k rows css : Forall2 Rel rows css ->
  target_of st0 (zip_with (entry st0) rows css) k = target k rows /\
  (group k (zip_with (entry st0) rows css) <> [] <-> rows_for k rows <> []).
Proof.
  intros HF. pose proof (group_rows Rel k rows css HF) as Hg. unfold target_of, target.
  destruct Hg as [|r e rs es [Hfr _] _]; [done|]. by rewrite Hfr.
Qed.

Lemma rows_for_elem k rows r : r ∈ rows_for k rows -> r ∈ rows /\ key_of st0 r.2 = k.
Proof.
  intros Hr%list_elem_of_In. unfold rows_for in Hr. apply filter_In in Hr as [Hr Hk]. apply bool_decide_eq_true in Hk.
  split; [by apply list_elem_of_In|done].
Qed.

Lemma key_length slot : slot_ok st0 slot -> length (values (key_of st0 slot)) = length (ins_partition_attnums st0).
Proof.
  intros (_ & Hk & _). unfold key_of. unfold tuple_key in *. destruct (mapM_res _ _) as [vals|] eqn:E; [|done]. cbn.
  apply mapM_res_Ok in E. symmetry. by eapply Forall2_length.
Qed.

(** Groups of distinct keys have distinct targets when the ids are fresh. *)
Lemma target_inj rows k1 k2 :
  Forall (fun r => slot_ok st0 r.2) rows -> NoDup (map (fun r => fresh_id r.1) rows) ->
  (forall r r', r ∈ rows -> r' ∈ rows -> length (fresh_id r.1) = length (fresh_id r'.1)) ->
  rows_for k1 rows <> [] -> rows_for k2 rows <> [] -> target k1 rows = target k2 rows -> k1 = k2.
Proof.
  intros HF Hnd Hlen H1 H2 Ht. unfold target in Ht.
  destruct (rows_for k1 rows) as [|r1 rs1] eqn:E1; [done|]. destruct (rows_for k2 rows) as [|r2 rs2] eqn:E2; [done|].
  destruct (rows_for_elem k1 rows r1) as [Hr1 Hk1]; [rewrite E1; by left|]. destruct (rows_for_elem k2 rows r2) as [Hr2 Hk2]; [rewrite E2; by left|].
  rewrite Forall_forall in HF. pose proof (key_length _ (HF _ Hr1)) as Hl1. pose proof (key_length _ (HF _ Hr2)) as Hl2. rewrite Hk1 in Hl1. rewrite Hk2 in Hl2.
  unfold compute_target_name in Ht. destruct k1 as [[|v1 vs1]], k2 as [[|v2 vs2]]; cbn [values length] in *; try done; try lia.
  apply generate_blob_name_id in Ht; [|by apply Hlen].
  assert (r1 = r2) as Er.
  { apply list_elem_of_lookup in Hr1 as [i Hi], Hr2 as [j Hj].
    assert (i = j) as ->; [|congruence]. eapply (NoDup_lookup (map (fun r => fresh_id r.1) rows)); [done| |].
    - change (map ?f rows) with (f <$> rows). by rewrite list_lookup_fmap, Hi.
    - change (map ?f rows) with (f <$> rows). by rewrite list_lookup_fmap, Hj, Ht. }
  subst r2. congruence.
Qed.

Lemma exec_rows rs : forall s1,
  foldM (fun s (r : Fresh * list (Datum * bool)) => exec_foreign_insert iter_order (Some s) r.1 r.2) (InsertVariant s1) rs
  = InsertVariant <$> foldM (fun s (r : Fresh * list (Datum * bool)) => insert_row iter_order s r.1 r.2) s1 rs.
Proof. by apply foldM_embed. Qed.

Lemma close_svc (w : World B) : w_svc (close_statement_success w) = w_svc w /\ w_active (close_statement_success w) = None.
Proof. unfold close_statement_success. destruct (w_active w) eqn:E; [|done]. by destruct (coordinator_is_empty _). Qed.

Lemma rows_for_self rows r : r ∈ rows -> rows_for (key_of st0 r.2) rows <> [].
Proof.
  intros Hin E. assert (r ∈ rows_for (key_of st0 r.2) rows) as Hin2; [|rewrite E in Hin2; by apply not_elem_of_nil in Hin2].
  apply list_elem_of_In, filter_In. split; [by apply list_elem_of_In|by apply bool_decide_eq_true].
Qed.

(** The blob stored for a group reads back as its rows. *)
Lemma stored_reads_back rows css k c nm :
  Forall2 (fun io f => pg_oid_to_arrow_type io.2 = Ok (field_type f)) (column_types st0) (ins_schema st0) ->
  Forall2 (row_cells st0) rows css -> stored_as st0 c nm (map snd (group k (zip_with (entry st0) rows css))) ->
  exists e body bs, c !! nm = Some (e, body) /\
    decodes body (Some (to_pq gzip_default_level zstd_default_level (ins_compression st0))) bs /\
    Forall (fun b => conforms (ins_schema st0) (batch_columns b) (num_rows b)) bs /\
    total_rows bs = length (rows_for k rows) /\
    forall j io, column_types st0 !! j = Some io ->
      Forall2 (fun c r' => exists x t, r'.2 !! io.1 = Some x /\ pg_oid_to_arrow_type io.2 = Ok t /\
                 arrow_value_to_datum t c io.2 = Ok (slot_value x)) (blob_column j bs) (rows_for k rows).
Proof.
  intros Htypes Hcss (e & body & bs & Hbl & Hdec & Hconf & Htot & Hcols). pose proof (group_rows (row_cells st0) k rows css Hcss) as Hg.
  exists e, body, bs. split; [done|]. split; [done|]. split; [done|]. split.
  { rewrite Htot, length_map. symmetry. by eapply Forall2_length. }
  intros j io Hio. pose proof (Forall2_lookup_l _ _ _ _ _ Htypes Hio) as (f & Hj & _). rewrite Hcols by (by eapply lookup_lt_Some).
  unfold col_of. rewrite map_map. apply Forall2_fmap_l, Forall2_flip. eapply Forall2_impl; [exact Hg|]. intros r' e' [_ Hrow]. cbn.
  destruct (Forall2_lookup_l _ _ _ _ _ Hrow Hio) as (c' & Hc & x & t & Hx & Ht' & Hv & _). rewrite Hc. by exists x, t.
Qed.

Lemma insert_runs env options tupdesc rows (w : World B) :
  insert_build_state env options tupdesc = Ok st0 -> ins_schema st0 <> [] ->
  Forall (fun r => slot_ok st0 r.2) rows -> fits st0 (length rows) ->
  NoDup (map (fun r => fresh_id r.1) rows) ->
  (forall r r', r ∈ rows -> r' ∈ rows -> length (fresh_id r.1) = length (fresh_id r'.1)) ->
  exists s w',
    foldM (fun s r => exec_foreign_insert iter_order (Some s) r.1 r.2) (InsertVariant st0) rows = Ok s /\
    end_foreign_modify iter_order debug_strs false (Some s) w = (w', Ok tt) /\ w_active w' = None /\
    (forall nm, (forall r, r ∈ rows -> target (key_of st0 r.2) rows <> nm) -> blobs (w_svc w') !! nm = blobs (w_svc w) !! nm) /\
    forall r, r ∈ rows -> exists e body bs,
      let mine := rows_for (key_of st0 r.2) rows in
      blobs (w_svc w') !! target (key_of st0 r.2) rows = Some (e, body) /\
      decodes body (Some (to_pq gzip_default_level zstd_default_level (ins_compression st0))) bs /\
      Forall (fun b => conforms (ins_schema st0) (batch_columns b) (num_rows b)) bs /\
      total_rows bs = length mine /\
      forall j io, column_types st0 !! j = Some io ->
        Forall2 (fun c r' => exists x t, r'.2 !! io.1 = Some x /\ pg_oid_to_arrow_type io.2 = Ok t /\
                   arrow_value_to_datum t c io.2 = Ok (slot_value x)) (blob_column j bs) mine.
Proof.
  intros Hbuild Hne HF Hfit Hnd Hlen. destruct (built_state _ _ _ _ Hbuild) as (Htypes & Hb & Hw & Ht & Hr).
  assert (state_ok st0 st0 []) as Hst.
  { split; [unfold consts, with_maps; by destruct st0|]. intros k. cbn. unfold group_none. by rewrite Hb, Hw, Ht, Hr, !lookup_empty. }
  destruct (insert_rows_ok iter_order st0 Htypes Hne (length rows) rows st0 [] Hst) as (css & st & Hrun & Hcss & Hst' & Hlog); try done;
    [by split; cbn; [constructor|lia]|].
  cbn [app] in Hst', Hlog. set (log := zip_with (entry st0) rows css) in *.
  pose proof (fun k => target_group (row_cells st0) k rows css Hcss) as Htg. fold log in Htg.
  destruct (finalize_ok iter_order debug_strs order_perm st0 Htypes Hne st log (length rows) (w_svc w) Hst' Hlog Hfit) as (s' & Hfin & Hall & Hframe).
  { intros k1 k2 H1 H2. rewrite (proj1 (Htg k1)), (proj1 (Htg k2)). apply target_inj; try done; by apply Htg. }
  exists (InsertVariant st), (close_statement_success (mkWorld s' (w_active w) (w_uuids w) (w_notices w))).
  destruct (close_svc (mkWorld s' (w_active w) (w_uuids w) (w_notices w))) as [-> ->]. cbn [w_svc].
  split; [by rewrite exec_rows, Hrun|]. split; [|split; [done|split]].
  - cbn [end_foreign_modify]. erewrite sm_bind_Ok; [|unfold on_svc; by rewrite Hfin]. done.
  - intros nm Hnm. apply Hframe. intros k Hk. rewrite (proj1 (Htg k)). apply Htg in Hk.
    destruct (rows_for k rows) as [|r rs] eqn:E; [done|]. destruct (rows_for_elem k rows r) as [Hin <-]; [rewrite E; by left|]. by apply Hnm.
  - intros r Hin. cbn zeta. rewrite <- (proj1 (Htg _)). apply (stored_reads_back _ css); [done|done|]. apply Hall, Htg. by apply rows_for_self.
Qed.

(** C14: an INSERT of acceptable rows succeeds and leaves the coordinator slot
    empty.  For every partition tuple among the rows exactly one blob is
    written, and it decodes, in the table's codec, to those rows in the order
    inserted, each stored column reading back as the inserted datum.  No other
    blob changes. *)
Theorem insert_statement env options tupdesc rows (w : World B) :
  insert_build_state env options tupdesc = Ok st0 -> ins_schema st0 <> [] ->
  Forall (fun r => slot_ok st0 r.2) rows -> fits st0 (length rows) ->
  NoDup (map (fun r => fresh_id r.1) rows) ->
  (forall r r', r ∈ rows -> r' ∈ rows -> length (fresh_id r.1) = length (fresh_id r'.1)) ->
  exists s w',
    foldM (fun s r => exec_foreign_insert iter_order (Some s) r.1 r.2) (InsertVariant st0) rows = Ok s /\
    end_foreign_modify iter_order debug_strs false (Some s) w = (w', Ok tt) /\ w_active w' = None /\
    (forall nm, (forall r, r ∈ rows -> target (key_of st0 r.2) rows <> nm) -> blobs (w_svc w') !! nm = blobs (w_svc w) !! nm) /\
    forall r, r ∈ rows -> exists e body bs,
      let mine := rows_for (key_of st0 r.2) rows in
      blobs (w_svc w') !! target (key_of st0 r.2) rows = Some (e, body) /\
      decodes body (Some (to_pq gzip_default_level zstd_default_level (ins_compression st0))) bs /\
      total_rows bs = length mine /\
      forall j io, column_types st0 !! j = Some io ->
        Forall2 (fun c r' => exists x t, r'.2 !! io.1 = Some x /\ pg_oid_to_arrow_type io.2 = Ok t /\
                   arrow_value_to_datum t c io.2 = Ok (slot_value x)) (blob_column j bs) mine.
Proof.
  intros Hbuild Hne HF Hfit Hnd Hlen.
  destruct (insert_runs env options tupdesc rows w Hbuild Hne HF Hfit Hnd Hlen) as (s & w' & ? & ? & ? & ? & Hall).
  exists s, w'. split; [done|]. split; [done|]. split; [done|]. split; [done|]. intros r Hr.
  destruct (Hall r Hr) as (e & body & bs & ? & ? & _ & ? & ?). by exists e, body, bs.
Qed.
End Statement.
End Claims.

(** ** A concrete statement: three rows into two partitions *)

Definition demo_insert_env : ClientEnv := mkClientEnv (fun _ => None) (Ok tt) (fun _ _ _ => Ok tt) (fun _ => Ok tt) (fun _ _ => Ok tt).

Definition demo_insert_options : FdwResult (ServerOptions * UserMappingOptions * TableOptions) :=
  Ok (mkServerOptions "acct1" DEFAULT_ENDPOINT ManagedIdentity true, mkUserMapping None,
      mkTableOptions "data" "sales/*/*" Snappy None [lit "year"] [(lit "year", PInt4)] [] false).

Definition demo_columns : list PgAttribute :=
  [mkAttr (Some (lit "id")) INT8OID false false 1; mkAttr (Some (lit "year")) INT4OID false false 2].

Definition demo_insert : InsertState (A := ref_arrow) (Y := ref_bytes) :=
  mkInsert [mkField "id" Int64 true] [INT8OID; INT4OID] (mkClient "https://acct1.blob.core.windows.net/data" "acct1" "data") Snappy
    [1%nat] [(lit "year", PInt4)] "sales" None ∅ ∅ ∅ ∅.

Definition demo_insert_rows : list (Fresh * list (Datum * bool)) :=
  [(mkFresh "t1" "aaaa", [(DWord 1, false); (DWord 2024, false)]);
   (mkFresh "t2" "bbbb", [(DWord 2, false); (DWord 2025, false)]);
   (mkFresh "t3" "cccc", [(DWord 3, true); (DWord 2024, false)])].

Lemma rows_bound (bs : list (list RefArray)) :
  Forall (fun b => (0 < ref_rows b)%nat) bs -> (length bs <= total_rows (A := ref_arrow) bs)%nat.
Proof.
  induction 1 as [|b bs Hb _ IH]; [cbn; lia|]. change (total_rows (A := ref_arrow) (b :: bs)) with (ref_rows b + total_rows (A := ref_arrow) bs)%nat. cbn [length]. lia.
Qed.

Lemma demo_fits : fits (Q := ref_parquet) demo_insert 3.
Proof.
  intros w bs [-> _] Hpos Hn. pose proof (rows_bound bs Hpos) as Hb. cbn. unfold MAX_BLOB_BYTES.
  split; [lia|]. intros body [= <-]. cbn. lia.
Qed.

Lemma demo_slot_ok : Forall (fun r => slot_ok demo_insert r.2) demo_insert_rows.
Proof.
  repeat (apply Forall_cons; split); [..|apply Forall_nil; exact I]; (split; [|split; [reflexivity|]]).
  all: try (intros [|[|j]] io f x Hio Hf Hn; cbn in Hf; simplify_eq; done).
  all: apply Forall_cons; split; [|apply Forall_nil; exact I].
  - exists (DWord 1, false). split; [reflexivity|]. right. do 3 right. left. split; [reflexivity|]. exists 1. split; [unfold in_i64; lia|reflexivity].
  - exists (DWord 2, false). split; [reflexivity|]. right. do 3 right. left. split; [reflexivity|]. exists 2. split; [unfold in_i64; lia|reflexivity].
  - exists (DWord 3, true). split; [reflexivity|]. by left.
Qed.

Definition demo_empty_world : World (Y := ref_bytes) (ref_blob (Y := ref_bytes)) :=
  mkWorld (B := ref_blob (Y := ref_bytes)) ∅ None 0 [].

Lemma insert_statement_witness :
  exists s w', foldM (fun s r => exec_foreign_insert (Y := ref_bytes) id (Some s) r.1 r.2) (InsertVariant demo_insert) demo_insert_rows = Ok s /\
    end_foreign_modify (Y := ref_bytes) (B := ref_blob (Y := ref_bytes)) id (fun _ => []) false (Some s) demo_empty_world = (w', Ok tt) /\
    exists e body, w_svc w' !! lit "sales/year=2024/t1-aaaa.parquet" = Some (e, body).
Proof.
  destruct (insert_statement (Y := ref_bytes) (B := ref_blob (Y := ref_bytes)) id (fun _ => []) (fun l => Permutation_refl l)
    demo_insert demo_insert_env demo_insert_options demo_columns demo_insert_rows demo_empty_world)
    as (s & w' & Hrun & Hend & _ & _ & Hall).
  - vm_compute. reflexivity.
  - discriminate.
  - exact demo_slot_ok.
  - exact demo_fits.
  - apply (bool_decide_unpack _). vm_compute. exact I.
  - intros r r'. unfold demo_insert_rows. intros Hr Hr'. rewrite !elem_of_cons in Hr, Hr'.
    destruct Hr as [->|[->|[->|Hr]]], Hr' as [->|[->|[->|Hr']]]; try reflexivity; by apply not_elem_of_nil in Hr || by apply not_elem_of_nil in Hr'.
  - exists s, w'. split; [exact Hrun|]. split; [exact Hend|].
    destruct (Hall (mkFresh "t1" "aaaa", [(DWord 1, false); (DWord 2024, false)])) as (e & body & bs & Hb & _); [left|].
    exists e, body. exact Hb.
Defined.
