(* ===== verification/InsertSelect.v ===== *)
(** * INSERT, then SELECT.

    On a table without partition columns whose file name is a plain blob
    name, an INSERT statement overwrites the blob and a following scan of the
    table, set up from the same options, finds it by a HEAD request and emits
    the inserted tuples.  The writing and the reading side of the parquet
    crate are two classes; [reads_file] says that they are about the same
    file. *)

From S2P Require Import Prelude RustStr Redact Errors Options Externals Kernel Convert BlobService Store Handoff Coordinator ParquetIO Modify PlanFacts Pushdown PushdownFacts RowFilter PushdownWalk Partition Glob MultiFile MergeFacts Scan ScanFacts ScanClaims ScanPlan ScanSetup SelectFilter SelectWhere SelectDemo Parallel Insert InsertFacts InsertClaims.
Local Open Scope Z_scope.

Section InsertSelect.
Context {Y : BytesApi} {B : BlobApi} {L : BlobLaws B} {A : ArrowApi} {AL : ArrowLaws A} {R : RoaringApi} {Q : ParquetApi} {QL : ParquetLaws Q}.
Context {P : PgApi} {U : UuidApi} {C : ComputeApi} {CL : ComputeLaws C} {SA : ParquetScanApi} {SL : ParquetScanLaws SA} {H : BinaryHeapApi} {X : RegexApi}.
Context (iter_order : list PartitionTupleKey -> list PartitionTupleKey) (debug_strs : list str -> str).
Context (order_perm : forall l, iter_order l ≡ₚ l).

Abbreviation cont w := (blobs (w_svc w)).

(** The blob [nm] of the container is, for the scan's reader, the file that
    its body decodes to: same columns, same rows. *)
Definition reads_file (c : Container) (nm : str) : Prop :=
  forall e body codec bs types, c !! nm = Some (e, body) -> decodes body codec bs ->
    Forall (fun g => map array_type (batch_columns g) = types) bs ->
    exists b gs, builder_new nm = Ok b /\ holds_file b types gs /\ ParquetIO.same_rows (length types) bs gs.

(** ** The state of the INSERT and the core of the scan *)

Lemma collect_all tupdesc : forall acc attrs, foldM collect_insert_attr acc tupdesc = Ok attrs ->
  attrs = acc ++ tupdesc /\ Forall (fun a => attisdropped a = false) tupdesc.
Proof.
  induction tupdesc as [|a tupdesc IH]; intros acc attrs Hf; cbn [foldM] in Hf.
  - injection Hf as <-. by rewrite app_nil_r.
  - apply bind_Ok_inv in Hf as (acc' & Ha & Hf). unfold collect_insert_attr in Ha. destruct (attisdropped a) eqn:Ea; [done|].
    injection Ha as <-. apply IH in Hf as [-> HF]. rewrite <- (assoc_L (++)). split; [done|]. by constructor.
Qed.

Lemma scan_oids tupdesc : forall acc, Forall (fun a => attisdropped a = false) tupdesc ->
  foldM scan_oid acc tupdesc = Ok (acc ++ map atttypid tupdesc).
Proof.
  induction tupdesc as [|a tupdesc IH]; intros acc HF; cbn [foldM map]; [by rewrite app_nil_r|].
  apply Forall_cons in HF as [Ha HF]. assert (scan_oid acc a = Ok (acc ++ [atttypid a])) as -> by (unfold scan_oid; by rewrite Ha).
  cbn [mbind result_bind]. rewrite IH by done. by rewrite <- (assoc_L (++)).
Qed.

Lemma no_star name : contains_char "*" name = false -> find_char (ascii_eqb "*") name = None.
Proof.
  unfold contains_char. induction name as [|a name IH]; [done|]. cbn. intros [Ha Hn]%orb_false_iff. by rewrite Ha, IH.
Qed.

Lemma stored_all {T} (l : list T) : forall i, List.filter (fun io : nat * T => negb (bool_decide (io.1 ∈ @nil nat))) (combine (seq i (length l)) l) = combine (seq i (length l)) l.
Proof.
  induction l as [|x l IH]; intros i; cbn [length seq combine List.filter]; [done|].
  rewrite bool_decide_eq_false_2 by apply not_elem_of_nil. cbn [negb]. by rewrite IH.
Qed.

Record plain_insert (server : ServerOptions) (um : UserMappingOptions) (table : TableOptions) (env : ClientEnv)
    (tupdesc : list PgAttribute) (st0 : InsertState) : Prop := {
  pi_attnums : ins_partition_attnums st0 = [];
  pi_target : legacy_single_target st0 = Some (filename table);
  pi_oids : ins_oids st0 = map atttypid tupdesc;
  pi_types : column_types st0 = combine (seq 0 (length tupdesc)) (map atttypid tupdesc);
  pi_combo : validate_combo server um = Ok tt;
  pi_client : exists client, make_client env server um table = Ok client;
  pi_dropped : Forall (fun a => attisdropped a = false) tupdesc;
}.

Lemma plain_state env server um table tupdesc st0 :
  insert_build_state env (Ok (server, um, table)) tupdesc = Ok st0 -> partition_columns table = [] ->
  contains_char "*" (filename table) = false -> plain_insert server um table env tupdesc st0.
Proof.
  intros Hb Hpc Hst. unfold insert_build_state in Hb. cbn [mbind result_bind] in Hb.
  apply bind_Ok_inv in Hb as ([] & Hv & Hb). apply bind_Ok_inv in Hb as (client & Hc & Hb).
  apply bind_Ok_inv in Hb as (attrs & Ha & Hb). apply collect_all in Ha as [-> Hd]. rewrite Hpc in Hb.
  cbn [mapM_res mbind result_bind app] in Hb. apply bind_Ok_inv in Hb as (schema & Hs & Hb).
  unfold pick_target_layout in Hb. rewrite (no_star _ Hst) in Hb. injection Hb as <-.
  split; try done; [|by exists client]. unfold column_types, stored. cbn [ins_partition_attnums ins_oids].
  rewrite stored_all. by rewrite length_map.
Qed.

Lemma head_etag_ok name e body (s : Svc) : blobs s !! name = Some (e, body) ->
  exists s', head_etag name s = (s', Ok e) /\ blobs s' = blobs s.
Proof.
  intros Hb. destruct (props_law name s) as (s' & r & Hp & Hs & Hr). rewrite Hb in Hr. subst r.
  exists s'. split; [|done]. unfold head_etag. erewrite sm_bind_Ok by (unfold call; by rewrite Hp).
  by erewrite sm_bind_Ok by done.
Qed.

(** The scan of the whole table. *)
Definition whole_table (server : ServerOptions) (um : UserMappingOptions) (table : TableOptions) (tupdesc : list PgAttribute) (node : ScanNode) : Prop :=
  scan_options node = Ok (server, um, table) /\ scan_tupdesc node = tupdesc /\ fdw_private node = None /\ plan_qual node = None.

Lemma plain_core_built env server um table tupdesc st0 node (s : Svc) e body :
  plain_insert server um table env tupdesc st0 -> whole_table server um table tupdesc node ->
  partition_columns table = [] -> partition_keys table = [] ->
  contains_char "*" (filename table) = false -> contains_char "?" (filename table) = false ->
  blobs s !! filename table = Some (e, body) ->
  exists s' c, build_scan_state_core env node s = (s', Ok c) /\ blobs s' = blobs s /\
    sc_blobs c = [(filename table, e)] /\ sc_pg_oids c = map atttypid tupdesc /\ sc_qual_filter c = None /\
    sc_attno_map c = seq 0 (length tupdesc) /\ sc_projection c = Some (seq 0 (length tupdesc)) /\
    sc_partition_attnums c = [] /\ sc_partition_keys_decl c = [].
Proof.
  intros [_ _ _ _ Hv [client Hc] Hd] (Ho & Ht & Hf & Hq) Hpc Hpk Hs1 Hs2 Hb.
  destruct (head_etag_ok _ _ _ _ Hb) as (s' & Hh & Hs'). exists s'. eexists. split.
  { unfold build_scan_state_core. rewrite Ho. erewrite sm_bind_Ok by done. cbn beta iota. rewrite Hv. erewrite sm_bind_Ok by done.
    rewrite Hc. erewrite sm_bind_Ok by done. unfold plan_source. rewrite Hs1, Hs2. cbn [negb andb].
    erewrite sm_bind_Ok by done. erewrite sm_bind_Ok by (cbn [plan_source_list]; by erewrite sm_bind_Ok by exact Hh).
    rewrite Ht, (scan_oids _ [] Hd). erewrite sm_bind_Ok by done. rewrite Hpc. erewrite sm_bind_Ok by done.
    rewrite Hf. erewrite sm_bind_Ok by done. rewrite Hq.
    assert ((if enable_pushdown server then walk_quals None else []) = []) as -> by by destruct (enable_pushdown server).
    cbn [split_quals_by_target prune_blobs]. erewrite sm_bind_Ok by done. reflexivity. }
  cbn [sc_blobs sc_pg_oids sc_qual_filter sc_attno_map sc_projection sc_partition_attnums sc_partition_keys_decl app].
  by rewrite length_map, Hpk.
Qed.

(** ** The rows read back *)

Section Rows.
Context (st0 : InsertState) (c : ScanStateCore) (natts : nat) (oids : list Z) (rows : list (Fresh * list (Datum * bool))).
Context (Htypes : Forall2 (fun io f => pg_oid_to_arrow_type io.2 = Ok (field_type f)) (column_types st0) (ins_schema st0)).
Context (Hcols : column_types st0 = combine (seq 0 natts) oids) (Hnatts : length oids = natts).
Context (Hoids : sc_pg_oids c = oids) (Hmap : sc_attno_map c = seq 0 natts).

Abbreviation types := (map field_type (ins_schema st0)).

Lemma column_at j : (j < natts)%nat -> exists oid ty, oids !! j = Some oid /\ column_types st0 !! j = Some (j, oid) /\
  types !! j = Some ty /\ pg_oid_to_arrow_type oid = Ok ty.
Proof.
  intros Hj. destruct (lookup_lt_is_Some_2 oids j) as [oid Ho]; [lia|].
  assert (column_types st0 !! j = Some (j, oid)) as Hc.
  { rewrite Hcols. change (combine ?a ?b) with (zip a b). apply lookup_zip_with_Some. exists j, oid. split; [done|]. split; [|done].
    by rewrite lookup_seq_lt. }
  destruct (Forall2_lookup_l _ _ _ _ _ Htypes Hc) as (f & Hf & Ht). exists oid, (field_type f).
  split; [done|]. split; [done|]. split; [|done]. by rewrite (list_lookup_fmap field_type), Hf.
Qed.

Lemma types_length : length types = natts.
Proof.
  rewrite length_map, <- (Forall2_length _ _ _ Htypes), Hcols. change (combine ?a ?b) with (zip a b).
  rewrite length_zip_with, length_seq. lia.
Qed.

(** Column by column, the file's rows hold the datums of the tuples. *)
Definition tuple_row (r : Fresh * list (Datum * bool)) (row : Row) : Prop :=
  forall j oid ty, column_types st0 !! j = Some (j, oid) -> types !! j = Some ty ->
    exists x, r.2 !! j = Some x /\ arrow_value_to_datum ty (row j) oid = Ok (slot_value x).

Lemma tuple_rows gs :
  Forall (fun g => map array_type (batch_columns g) = types) gs -> total_rows gs = length rows ->
  (forall j io, column_types st0 !! j = Some io ->
     Forall2 (fun c r' => exists x t, r'.2 !! io.1 = Some x /\ pg_oid_to_arrow_type io.2 = Ok t /\
                arrow_value_to_datum t c io.2 = Ok (slot_value x)) (blob_column j gs) rows) ->
  Forall2 tuple_row rows (file_rows gs).
Proof.
  intros HF Htot Hj. apply Forall2_same_length_lookup_2; [by rewrite file_rows_length|].
  intros i r row Hr Hrow j oid ty Hc Hty. specialize (Hj j (j, oid) Hc).
  assert (j < length types)%nat as Hlt by by eapply lookup_lt_Some.
  rewrite <- (file_rows_column types gs j HF Hlt) in Hj.
  assert (map (fun row : Row => row j) (file_rows gs) !! i = Some (row j)) as Hcell.
  { rewrite (list_lookup_fmap (fun row : Row => row j)), Hrow. done. }
  destruct (Forall2_lookup_lr _ _ _ _ _ _ Hj Hcell Hr) as (x & t & Hx & Ht & Hd). exists x. split; [done|].
  destruct (Forall2_lookup_l _ _ _ _ _ Htypes Hc) as (f & Hf & Ht'). rewrite (list_lookup_fmap field_type), Hf in Hty.
  injection Hty as <-. cbn [fst snd] in *. congruence.
Qed.

Lemma tuple_convertible r row : tuple_row r row -> convertible c types row.
Proof.
  intros Hr att Ha. rewrite Hmap in Ha. apply elem_of_seq in Ha as [_ Ha].
  destruct (column_at att Ha) as (oid & ty & Ho & Hc & Hty & _). destruct (Hr att oid ty Hc Hty) as (x & _ & Hd).
  exists (slot_value x), ty, oid. by rewrite Hoids.
Qed.

Lemma tuple_slot r row vals : tuple_row r row -> length r.2 = natts -> slot_shows c types row vals -> vals = map slot_value r.2.
Proof.
  intros Hr Hlen (Hl & Hv & _). rewrite Hoids, Hnatts in Hl. apply list_eq_same_length with (n := natts); [by rewrite length_map|done|].
  intros j v v' Hj Hvj Hv'j. destruct (column_at j Hj) as (oid & ty & Ho & Hc & Hty & _).
  destruct (Hr j oid ty Hc Hty) as (x & Hx & Hd). destruct (Hv j) as (d & (ty' & oid' & Hty' & Ho' & Hd') & Hvd).
  { rewrite Hmap. apply elem_of_seq. lia. }
  rewrite Hoids in Ho'. rewrite (list_lookup_fmap slot_value), Hx in Hv'j. cbn in Hv'j. congruence.
Qed.
End Rows.

(** C6: an INSERT into an unpartitioned table of one blob of tuples whose
    values the write path has a conversion for (booleans, integers, floats,
    text and varchar, and NULLs: [slot_ok]; a non-NULL date, timestamp,
    numeric, bytea or jsonb makes the INSERT fail, see
    [Convert.append_one_unsupported]), then a SELECT of the whole table set up
    from the same options: both succeed, the scan reads the one blob under its
    new etag, and emits exactly the inserted tuples in the order inserted,
    NULLs included, whatever the blob held before. *)
Theorem insert_then_select debug_key env server um table tupdesc st0 node rows (w : World B) sh :
  insert_build_state env (Ok (server, um, table)) tupdesc = Ok st0 -> ins_schema st0 <> [] ->
  partition_columns table = [] -> partition_keys table = [] ->
  contains_char "*" (filename table) = false -> contains_char "?" (filename table) = false ->
  whole_table server um table tupdesc node ->
  rows <> [] -> Forall (fun r => slot_ok st0 r.2 /\ length r.2 = length tupdesc) rows -> fits st0 (length rows) ->
  NoDup (map (fun r => fresh_id r.1) rows) ->
  (forall r r', r ∈ rows -> r' ∈ rows -> length (fresh_id r.1) = length (fresh_id r'.1)) ->
  Z.of_nat (length rows) < u32_max ->
  exists s w',
    foldM (fun s r => exec_foreign_insert iter_order (Some s) r.1 r.2) (InsertVariant st0) rows = Ok s /\
    end_foreign_modify iter_order debug_strs false (Some s) w = (w', Ok tt) /\
    (reads_file (cont w') (filename table) -> exists svc c e body,
      build_scan_state_core env node (w_svc w') = (svc, Ok c) /\
      cont w' !! filename table = Some (e, body) /\ sc_blobs c = [(filename table, e)] /\
      exists N s' slots, (forall F, (N <= F)%nat ->
          scan_all debug_key F (assemble_scan_state c (SequentialRanges (sc_blobs c) 0)) sh (replicate (length tupdesc) None)
            = Some (Ok (s', sh, slots))) /\
        map tts_values slots = map (fun r => map slot_value r.2) rows).
Proof.
  intros Hbuild Hne Hpc Hpk Hs1 Hs2 Hnode Hrows Hok Hfit Hnd Hlen Hmax.
  destruct (built_state _ _ _ _ Hbuild) as (Htypes & _). pose proof (plain_state _ _ _ _ _ _ Hbuild Hpc Hs1) as Hpi.
  pose proof Hpi as [Hattnums Htarget Hoids Hcols _ _ _].
  assert (Forall (fun r => slot_ok st0 r.2) rows) as Hslots by (eapply Forall_impl; [exact Hok|]; by intros r [? _]).
  destruct (insert_runs iter_order debug_strs order_perm st0 env (Ok (server, um, table)) tupdesc rows w Hbuild Hne Hslots Hfit Hnd Hlen)
    as (s & w' & Hrun & Hend & _ & _ & Hall).
  exists s, w'. split; [done|]. split; [done|]. intros Hread.
  destruct rows as [|r0 rows'] eqn:Erows; [done|]. rewrite <- Erows in *.
  assert (forall r : Fresh * list (Datum * bool), key_of st0 r.2 = mkKey []) as Hkey.
  { intros r. unfold key_of, tuple_key. by rewrite Hattnums. }
  assert (rows_for st0 (mkKey []) rows = rows) as Hfor.
  { unfold rows_for. clear -Hkey. induction rows as [|r l IH]; [done|]. cbn. rewrite Hkey, bool_decide_eq_true_2 by done. by rewrite IH. }
  assert (r0 ∈ rows) as Hr0 by (rewrite Erows; left).
  destruct (Hall r0 Hr0) as (e & body & bs & Hb & Hdec & Hconf & Htot & Hbs). rewrite Hkey, Hfor in *.
  assert (target st0 (mkKey []) rows = filename table) as Ht.
  { unfold target. rewrite Hfor, Erows. cbn. by rewrite Htarget. }
  rewrite Ht in Hb. set (types := map field_type (ins_schema st0)).
  assert (Forall (fun g => map array_type (batch_columns g) = types) bs) as Hbt.
  { eapply Forall_impl; [exact Hconf|]. intros g [_ HF]. unfold types. clear -HF. induction HF as [|f a fs cs [Hf _] _ IH]; [done|]. cbn. by rewrite Hf, IH. }
  destruct (Hread e body _ bs types Hb Hdec Hbt) as (builder & gs & Hnew & Hgs & Hsame & Hsc).
  destruct (plain_core_built env server um table tupdesc st0 node (w_svc w') e body Hpi Hnode Hpc Hpk Hs1 Hs2 Hb)
    as (svc & c & Hcore & _ & Hbl & Hco & Hqf & Hmap & Hproj & Hpa & Hpd).
  exists svc, c, e, body. split; [done|]. split; [done|]. split; [done|]. rewrite Hbl.
  pose proof (types_law builder types gs Hgs) as Hgt.
  assert (length types = length tupdesc) as Htl by (by apply (types_length st0 (length tupdesc) (map atttypid tupdesc) Htypes Hcols), length_map).
  assert (Forall2 (tuple_row st0) rows (file_rows gs)) as Htr.
  { apply tuple_rows; [done|done|congruence|]. intros j io Hio. rewrite <- Hsc; [by apply Hbs|].
    rewrite Htl. rewrite Hcols in Hio. apply lookup_lt_Some in Hio. by rewrite length_combine, length_seq, length_map, Nat.min_id in Hio. }
  destruct (scan_shows debug_key (replicate (length tupdesc) None) c types (fun _ => gs) [(filename table, e)] sh)
    as (N & s' & slots & Hscan & HF).
  - split; [by split|by rewrite Hproj, Hmap| | | |].
    + rewrite Hmap. apply projection_sorted with (natts := length tupdesc) (private := None); done.
    + rewrite Hmap, Hco, length_map. apply Forall_forall. intros i Hi%elem_of_seq. lia.
    + rewrite Hmap, Htl. split; [|apply Forall_forall; intros i Hi%elem_of_seq; lia].
      destruct (length tupdesc); [|done]. unfold types in Htl. rewrite length_map in Htl. by destruct (ins_schema st0).
    + by rewrite length_replicate, Hco, length_map.
  - constructor; [|constructor]. split; [by exists builder|]. rewrite Hqf. split; [constructor|].
    apply Forall_forall. intros row Hrow. apply list_elem_of_lookup in Hrow as [i Hi].
    destruct (Forall2_lookup_r _ _ _ _ _ Htr Hi) as (r & _ & Hrr).
    eapply (tuple_convertible st0 c (length tupdesc) (map atttypid tupdesc)); try done; by rewrite length_map.
  - unfold listed_rows. cbn [map concat length]. rewrite app_nil_r, <- (Forall2_length _ _ _ Htr). lia.
  - exists N, s', slots. split; [done|]. rewrite Hqf in HF. unfold listed_rows in HF. cbn [map concat default from_option id] in HF.
    rewrite app_nil_r in HF. assert (List.filter (satisfies []) (file_rows gs) = file_rows gs) as E by (unfold satisfies; apply filter_true).
    rewrite E in HF. clear E. assert (Forall (fun r : Fresh * list (Datum * bool) => length r.2 = length tupdesc) rows) as Hlens
      by (eapply Forall_impl; [exact Hok|]; by intros r [_ ?]).
    clear -Htr HF Htypes Hcols Hco Hmap Hlens. revert slots HF. induction Htr as [|r row l rl Hr _ IH]; intros slots HF; inversion HF; subst; [done|].
    apply Forall_cons in Hlens as [Hl Hlens]. cbn [map]. f_equal; [|by apply IH].
    eapply (tuple_slot st0 c (length tupdesc) (map atttypid tupdesc)); try done; by rewrite length_map.
Qed.
End InsertSelect.

(** ** A reader of a container of reference files *)

Definition ref_store (c : gmap str (str * RefFile)) (nm : str) : option (list RowGroup * list RBatch) :=
  '(_, (_, bs)) ← c !! nm; Some (map (fun _ => []) bs, bs).

Lemma ref_store_reads (c : gmap str (str * RefFile)) nm :
  reads_file (Y := ref_bytes) (SA := ref_files (ref_store c)) c nm.
Proof.
  intros e [codec0 bs0] codec bs types Hc (f & Hf & Hbuild & _) HF. cbn in Hf. injection Hf as <-. cbn in Hbuild.
  assert (bs0 = bs) as ->.
  { injection Hbuild as Hbuild. revert bs Hbuild HF. clear. induction bs0 as [|b bs0 IH]; intros [|b' bs] Hm HF; try done.
    cbn in Hm. injection Hm as -> Hm. f_equal. apply IH; [done|]. by apply Forall_cons in HF as [_ ?]. }
  exists (map (fun _ => []) bs, bs), bs. split.
  - change (ok_or (ref_store c nm) (lit "not found") = Ok (map (fun _ => []) bs, bs)). unfold ref_store.
    change (lookup (M := gmap str (str * RefFile)) nm c = Some (e, (codec0, bs))) in Hc. by rewrite Hc.
  - split; [|split; done]. split; [done|]. split; [exact HF|]. cbn [fst]. apply Forall2_fmap_l. apply Forall_Forall2_diag, Forall_forall.
    intros g _ i ch Hi. done.
Qed.

(** Two tuples into a blob that held something else. *)
Definition plain_table : TableOptions := mkTableOptions "data" "t.parquet" Snappy None [] [] [] false.

Definition plain_insert_state : InsertState (A := ref_arrow) (Y := ref_bytes) :=
  mkInsert [mkField "id" Int64 true; mkField "year" Int32 true] [INT8OID; INT4OID] (mkClient "https://acct1.blob.core.windows.net/data" "acct1" "data")
    Snappy [] [] [] (Some (lit "t.parquet")) ∅ ∅ ∅ ∅.

Definition plain_rows : list (Fresh * list (Datum * bool)) :=
  [(mkFresh "t1" "aaaa", [(DWord 1, false); (DWord 2024, false)]); (mkFresh "t2" "bbbb", [(DWord 2, false); (DWord 0, true)])].

Definition plain_world : World (Y := ref_bytes) (ref_blob (Y := ref_bytes)) :=
  mkWorld (B := ref_blob (Y := ref_bytes)) {[lit "t.parquet" := (lit "e1", (SNAPPY, []))]} None 0 [].

Definition plain_node : ScanNode :=
  mkNode (Ok (mkServerOptions "acct1" DEFAULT_ENDPOINT ManagedIdentity true, mkUserMapping None, plain_table)) demo_columns None None true true.

Lemma plain_slots_ok : Forall (fun r => slot_ok plain_insert_state r.2 /\ length r.2 = length demo_columns) plain_rows.
Proof.
  repeat (apply Forall_cons; split); [..|apply Forall_nil; exact I]; (split; [|reflexivity]); (split; [|split; [reflexivity|]]).
  all: try (intros [|[|[|j]]] io f x Hio Hf Hn; cbn in Hf; simplify_eq; done).
  all: apply Forall_cons; split; [|apply Forall_cons; split; [|apply Forall_nil; exact I]].
  - exists (DWord 1, false). split; [reflexivity|]. right. do 3 right. left. split; [reflexivity|]. exists 1. split; [unfold in_i64; lia|reflexivity].
  - exists (DWord 2024, false). split; [reflexivity|]. right. do 2 right. left. split; [reflexivity|]. exists 2024. split; [unfold in_i32; lia|reflexivity].
  - exists (DWord 2, false). split; [reflexivity|]. right. do 3 right. left. split; [reflexivity|]. exists 2. split; [unfold in_i64; lia|reflexivity].
  - exists (DWord 0, true). split; [reflexivity|]. by left.
Qed.

Lemma plain_fits : fits (Q := ref_parquet) plain_insert_state 2.
Proof.
  intros w bs [-> _] Hpos Hn. pose proof (rows_bound bs Hpos) as Hb. cbn. unfold MAX_BLOB_BYTES.
  split; [lia|]. intros body [= <-]. cbn. lia.
Qed.

Definition plain_result : World (Y := ref_bytes) (ref_blob (Y := ref_bytes)) :=
  match foldM (fun s r => exec_foreign_insert (Y := ref_bytes) id (Some s) r.1 r.2) (InsertVariant plain_insert_state) plain_rows with
  | Ok s => fst (end_foreign_modify (Y := ref_bytes) (B := ref_blob (Y := ref_bytes)) id (fun _ => []) false (Some s) plain_world)
  | Err _ => plain_world
  end.

Definition plain_files : ParquetScanApi (A := ref_arrow) := ref_files (ref_store (w_svc plain_result)).

Lemma insert_then_select_witness :
  exists svc c, build_scan_state_core (B := ref_blob (Y := ref_bytes)) (X := ref_regex) (P := ref_pg) demo_insert_env plain_node (w_svc plain_result)
      = (svc, Ok c) /\
    exists N s' slots, (forall F, (N <= F)%nat ->
      scan_all (P := ref_pg) (K := ref_compute) (SA := plain_files) no_debug F (assemble_scan_state c (SequentialRanges (sc_blobs c) 0)) 0 [None; None]
        = Some (Ok (s', 0, slots))) /\
    map tts_values slots = [[Some (DWord 1); Some (DWord 2024)]; [Some (DWord 2); None]].
Proof.
  destruct (insert_then_select (Y := ref_bytes) (B := ref_blob (Y := ref_bytes)) (SA := plain_files) (X := ref_regex) id (fun _ => [])
    (fun l => Permutation_refl l) no_debug demo_insert_env
    (mkServerOptions "acct1" DEFAULT_ENDPOINT ManagedIdentity true) (mkUserMapping None) plain_table demo_columns plain_insert_state
    plain_node plain_rows plain_world 0) as (s & w' & Hrun & Hend & Hsel).
  - vm_compute. reflexivity.
  - discriminate.
  - reflexivity.
  - reflexivity.
  - reflexivity.
  - reflexivity.
  - repeat split.
  - discriminate.
  - exact plain_slots_ok.
  - exact plain_fits.
  - apply (bool_decide_unpack _). vm_compute. exact I.
  - intros r r'. unfold plain_rows. intros Hr Hr'. rewrite !elem_of_cons in Hr, Hr'.
    destruct Hr as [->|[->|Hr]], Hr' as [->|[->|Hr']]; try reflexivity; by apply not_elem_of_nil in Hr || by apply not_elem_of_nil in Hr'.
  - vm_compute. reflexivity.
  - assert (w' = plain_result) as ->.
    { unfold plain_result. rewrite Hrun, Hend. reflexivity. }
    destruct (Hsel (ref_store_reads _ _)) as (svc & c & e & body & Hc & _ & _ & N & s' & slots & Hscan & Hv).
    exists svc, c. split; [exact Hc|]. exists N, s', slots. split; [exact Hscan|]. rewrite Hv. reflexivity.
Defined.
