(* ===== verification/ModifySelect.v ===== *)
(** * DELETE or UPDATE, then SELECT.

    The values a scan shows are followed from the stored bodies through a
    modify statement to the next scan.  [holds_values] says which values a
    stored blob shows; [becomes] says that a statement turns the values of a
    blob into others, or removes the blob when none is left.  As in
    [InsertSelect], [reads_file] ties the reader of the scan to the container;
    the scan before the statement and the one after it each have a reader. *)

From S2P Require Import Prelude RustStr Redact Errors RowId Options Externals Kernel Convert BlobService Store Handoff Coordinator ParquetIO Modify PlanFacts CommitFacts ModifyStatement ModifyClaims Pushdown PushdownFacts RowFilter PushdownWalk Partition Glob MultiFile MergeFacts Scan ScanFacts ScanClaims EndToEnd ScanPlan ScanSetup SelectFilter SelectWhere SelectDemo Parallel Insert InsertFacts InsertClaims InsertSelect.
Local Open Scope Z_scope.

Abbreviation Values := (list (option Datum)).

(** ** The values of stored blobs *)

Section Values.
Context {Y : BytesApi} {A : ArrowApi} {AL : ArrowLaws A} {Q : ParquetApi} {P : PgApi}.
Context (c : ScanStateCore) (types : list DataType).

Definition typed (gs : list RecordBatch) : Prop := Forall (fun g => map array_type (batch_columns g) = types) gs.

(** The file shows the values [vs], row by row. *)
Definition file_shows (gs : list RecordBatch) (vs : list Values) : Prop := Forall2 (slot_shows c types) (file_rows gs) vs.

(** The blob is stored under the listed etag and its rows show [vs]. *)
Definition holds_values (ct : Container) (b : str * str) (vs : list Values) : Prop :=
  exists body codec gs, ct !! b.1 = Some (b.2, body) /\ decodes body codec gs /\ typed gs /\ file_shows gs vs.

(** After a statement the blob [b] shows [vs], or is gone and [vs] is empty. *)
Definition becomes (ct : Container) (b : str * str) (vs : list Values) : Prop :=
  match ct !! b.1 with
  | None => vs = []
  | Some (e, _) => holds_values ct (b.1, e) vs
  end.

Lemma relist_holds ct bl vss : Forall2 (becomes ct) bl vss ->
  exists vss', Forall2 (holds_values ct) (relist ct bl) vss' /\ concat vss' = concat vss /\ (length (relist ct bl) <= length bl)%nat.
Proof.
  induction 1 as [|b vs bl vss Hb _ (vss' & HF & Hc & Hl)]; [exists []; repeat split; constructor|].
  unfold becomes in Hb. unfold relist in *. cbn [omap list_omap length concat]. destruct (ct !! b.1) as [[e body]|].
  - exists (vs :: vss'). split; [by constructor|]. cbn [concat length]. rewrite Hc. split; [done|lia].
  - subst vs. exists vss'. split; [done|]. split; [done|lia].
Qed.

Lemma relist_all (ct : Container) bl : Forall (fun b : str * str => is_Some (ct !! b.1)) bl -> map fst (relist ct bl) = map fst bl.
Proof.
  induction 1 as [|b bl [[e body] Hb] _ IH]; [done|]. unfold relist in *. cbn [omap list_omap]. rewrite Hb. cbn [map]. by rewrite IH.
Qed.

Lemma slot_shows_det row v v' : slot_shows c types row v -> slot_shows c types row v' -> v = v'.
Proof.
  intros (Hl & Hin & Hout) (Hl' & Hin' & Hout'). apply list_eq_same_length with (n := length (sc_pg_oids c)); [done|done|].
  intros att x x' Ha Hx Hx'. destruct (decide (att ∈ sc_attno_map c)) as [Hm|Hm].
  - destruct (Hin att Hm) as (d & (ty & oid & Ht & Ho & Hd) & Hv), (Hin' att Hm) as (d' & (ty' & oid' & Ht' & Ho' & Hd') & Hv'). congruence.
  - rewrite (Hout att Ha Hm) in Hx. rewrite (Hout' att Ha Hm) in Hx'. congruence.
Qed.

Lemma shows_det rows vs vs' : Forall2 (slot_shows c types) rows vs -> Forall2 (slot_shows c types) rows vs' -> vs = vs'.
Proof.
  intros HF. revert vs'. induction HF as [|row v rows vs Hv _ IH]; intros vs' HF'; inversion HF'; subst; [done|].
  f_equal; [by eapply slot_shows_det|by apply IH].
Qed.

Lemma slot_shows_ext row row' v : (forall att, att ∈ sc_attno_map c -> row' att = row att) -> slot_shows c types row v -> slot_shows c types row' v.
Proof.
  intros E (Hl & Hin & Hout). split; [done|]. split; [|done]. intros att Ha. destruct (Hin att Ha) as (d & (ty & oid & Ht & Ho & Hd) & Hv).
  exists d. split; [|done]. exists ty, oid. by rewrite E.
Qed.

Context (attnos : sc_attno_map c <> [] /\ Forall (fun i => (i < length types)%nat) (sc_attno_map c)).

Lemma attno_lt att : att ∈ sc_attno_map c -> (att < length types)%nat.
Proof. pose proof attnos as [_ HF]. rewrite Forall_forall in HF. apply HF. Qed.

(** Rows with the same columns show the same values. *)
Lemma columns_show (rows rows' : list Row) vs :
  (forall i, (i < length types)%nat -> map (fun row : Row => row i) rows' = map (fun row : Row => row i) rows) ->
  Forall2 (slot_shows c types) rows vs -> Forall2 (slot_shows c types) rows' vs.
Proof.
  intros Hcol HF. assert (length rows' = length rows) as Hlen.
  { assert (exists a, a ∈ sc_attno_map c) as [a Ha].
    { pose proof (proj1 attnos) as Hne. clear -Hne. destruct (sc_attno_map c) as [|a l]; [done|]. exists a. left. }
    specialize (Hcol a (attno_lt a Ha)). by rewrite <- (length_map (fun row : Row => row a)), Hcol, length_map. }
  apply Forall2_same_length_lookup_2; [by rewrite Hlen, (Forall2_length _ _ _ HF)|]. intros k row' v Hr' Hv.
  destruct (Forall2_lookup_r _ _ _ _ _ HF Hv) as (row & Hr & Hs). eapply slot_shows_ext; [|exact Hs].
  intros att Ha. specialize (Hcol att (attno_lt att Ha)). apply (f_equal (fun l => l !! k)) in Hcol.
  rewrite !(list_lookup_fmap (fun row : Row => row att)), Hr, Hr' in Hcol. by injection Hcol.
Qed.

Lemma same_rows_show gs gs' vs : typed gs -> typed gs' -> ParquetIO.same_rows (length types) gs gs' -> file_shows gs vs -> file_shows gs' vs.
Proof.
  intros Ht Ht' [_ Hs]. apply columns_show. intros i Hi. by rewrite !(file_rows_column types), Hs.
Qed.

(** Reading the column cells of a file row by row. *)
Lemma file_cell gs i k row : typed gs -> (i < length types)%nat -> file_rows gs !! k = Some row -> blob_column i gs !! k = Some (row i).
Proof. intros Ht Hi Hr. by rewrite <- (file_rows_column types), (list_lookup_fmap (fun row : Row => row i)), Hr. Qed.

(** A file whose columns are those of another filtered by a mask shows the
    values of the kept rows. *)
Lemma mask_shows m gs gs' vs : typed gs -> typed gs' ->
  (forall i, (i < length types)%nat -> blob_column i gs' = mask_filter m (blob_column i gs)) ->
  file_shows gs vs -> file_shows gs' (mask_filter m vs).
Proof.
  intros Ht Ht' Hcol HF. apply columns_show with (rows := mask_filter m (file_rows gs)).
  - intros i Hi. by rewrite (file_rows_column types), Hcol, <- mask_filter_map, (file_rows_column types).
  - unfold file_shows in HF. clear -HF. revert m. induction HF as [|row v rows vs Hr _ IH]; intros [|[] m]; cbn; try constructor; auto.
Qed.
End Values.

(** ** A scan shows the values of the blobs it lists *)

Section Reader.
Context {Y : BytesApi} {A : ArrowApi} {AL : ArrowLaws A} {Q : ParquetApi} {P : PgApi} {C : ComputeApi} {CL : ComputeLaws C}.
Context {SA : ParquetScanApi} {SL : ParquetScanLaws SA} {H : BinaryHeapApi}.
Context (debug_key : Key -> str) (old : Values) (c : ScanStateCore) (types : list DataType).
Context (plain : plain_core old c types) (unfiltered : sc_qual_filter c = None).

(** The outcome of opening a blob that shows [vs]. *)
Definition scanned_as (o : (str * str) * BlobScan) (vs : list Values) : Prop :=
  exists bs, o.2 = Scanned [] bs /\ map (slot_values old c []) (stream_rows bs) = vs.

Lemma blob_scanned ct b vs : holds_values c types ct b vs -> reads_file ct b.1 -> Z.of_nat (length vs) <= u32_max ->
  exists o, o.1 = b /\ blob_scan_ok old c o /\ scanned_as o vs.
Proof.
  intros (body & codec & gs0 & Hb & Hdec & Ht0 & Hv0) Hread Hmax.
  destruct (Hread _ _ _ _ types Hb Hdec Ht0) as (builder & gs & Hnew & Hgs & Hsame). pose proof (types_law builder types gs Hgs) as Ht.
  assert (file_shows c types gs vs) as Hv by (eapply same_rows_show; [exact (pc_types _ _ _ plain)|exact Ht0|exact Ht|done|done]).
  pose proof (Forall2_length _ _ _ Hv) as Hlen.
  destruct (blob_shown old c types (fun _ => gs) b plain) as (o & [Ho (bs & Hbs & HF)] & Hok); [|by rewrite Hlen|].
  - split; [by exists builder|]. rewrite unfiltered. split; [constructor|]. apply Forall_forall. intros row Hrow.
    apply list_elem_of_lookup in Hrow as [k Hk]. destruct (Forall2_lookup_l _ _ _ _ _ Hv Hk) as (v & _ & _ & Hin & _).
    intros att Ha. destruct (Hin att Ha) as (d & Hd & _). by exists d.
  - exists o. split; [done|]. split; [done|]. exists bs. split; [done|]. rewrite unfiltered in HF. cbn [default from_option id] in HF.
    change (satisfies []) with (fun _ : Row => true) in HF. rewrite filter_true in HF.
    apply (shows_det c types (file_rows gs)); [|done]. clear -HF. induction HF; cbn; by constructor.
Qed.

Lemma blobs_scanned ct bl vss : Forall2 (holds_values c types ct) bl vss -> Forall (fun b : str * str => reads_file ct b.1) bl ->
  Z.of_nat (length (concat vss)) <= u32_max -> exists l, map fst l = bl /\ Forall (blob_scan_ok old c) l /\ Forall2 scanned_as l vss.
Proof.
  induction 1 as [|b vs bl vss Hb _ IH]; intros Hread Hmax; [by exists []|]. apply Forall_cons in Hread as [Hr Hread].
  cbn [concat] in Hmax. rewrite length_app in Hmax. destruct (blob_scanned ct b vs Hb Hr) as (o & Ho & Hok & Hs); [lia|].
  destruct IH as (l & Hl & HF & Hv); [done|lia|]. exists (o :: l). cbn. rewrite Ho, Hl. split; [done|]. split; by constructor.
Qed.

Lemma slots_from_values ds base rows : forall k, map tts_values (slots_from old c ds base k rows) = map (slot_values old c ds) rows.
Proof. induction rows as [|x rows IH]; intros k; cbn [slots_from map tts_values]; [done|]. by rewrite IH. Qed.

Lemma scanned_spec_values l vss : Forall2 scanned_as l vss -> forall table,
  map tts_values (scan_spec old c table l).1 = concat vss /\
  Z.of_nat (length (scan_spec old c table l).2) <= Z.of_nat (length table) + Z.of_nat (length (concat vss)) + Z.of_nat (length l).
Proof.
  induction 1 as [|[[nm et] o] vs l vss (bs & Ho & Hv) _ IH]; intros table; [cbn; split; [done|lia]|]. cbn [snd] in Ho. subst o. cbn [scan_spec].
  destruct (IH (table ++ blob_chunks nm et (Z.of_nat (length (stream_rows bs))))) as [Hs Hl]. destruct (scan_spec old c _ l) as [slots table'].
  cbn [fst snd concat length] in *. split; [by rewrite map_app, slots_from_values, Hv, Hs|].
  pose proof (chunk_count_le (Z.of_nat (length (stream_rows bs))) ltac:(lia)). rewrite length_app in *.
  pose proof (blob_chunks_length nm et (Z.of_nat (length (stream_rows bs)))). apply (f_equal length) in Hv. rewrite length_map in Hv. lia.
Qed.

Lemma scan_values ct bl vss sh : Forall2 (holds_values c types ct) bl vss -> Forall (fun b : str * str => reads_file ct b.1) bl ->
  Z.of_nat (length (concat vss) + length bl) <= u32_max ->
  exists N s' slots, (forall F, (N <= F)%nat ->
      scan_all debug_key F (assemble_scan_state c (SequentialRanges bl 0)) sh old = Some (Ok (s', sh, slots))) /\
    map tts_values slots = concat vss.
Proof.
  intros Hv Hread Hmax. destruct (blobs_scanned ct bl vss Hv Hread) as (l & <- & Hok & Hs); [lia|].
  destruct (scanned_spec_values l vss Hs []) as [Hval Hlen]. cbn [length] in Hlen. rewrite length_map in Hmax.
  destruct (scan_runs debug_key old c l sh Hok) as (N & s' & _ & Hall); [lia|]. by exists N, s', (scan_spec old c [] l).1.
Qed.
End Reader.

(** ** What a modify statement makes of the values *)

Section Statement.
Context {Y : BytesApi} {B : BlobApi} {L : BlobLaws B} {A : ArrowApi} {AL : ArrowLaws A} {R : RoaringApi} {RL : RoaringLaws R}.
Context {Q : ParquetApi} {QL : ParquetLaws Q} {P : PgApi} {PL : PgLaws P} {U : UuidApi} {UL : UuidLaws U} {C : ComputeApi} {CL : ComputeLaws C}.
Context {SA : ParquetScanApi} {SL : ParquetScanLaws SA} {H : BinaryHeapApi}.
Context (debug_key : Key -> str) (old : Values) (c : ScanStateCore) (types : list DataType).
Context (nr : str -> FdwResult Z) (plan : ModifyPlan) (bl : BlobList) (srcs : list Source) (vss : list (list Values)).
Context (plain : plain_core old c types) (unfiltered : sc_qual_filter c = None).
Context (schema_types : types = map field_type (plan_schema plan)).
Context (srcs_show : Forall2 (fun s vs => file_shows c types (src_ins s) vs) srcs vss).
Context (accepts : Values -> bool).

Abbreviation cont w := (blobs (w_svc w)).

Lemma conforms_typed (gs : list RecordBatch) : Forall (fun g => conforms (plan_schema plan) (batch_columns g) (num_rows g)) gs -> typed types gs.
Proof.
  intros HF. eapply Forall_impl; [exact HF|]. intros g [_ Hg]. rewrite schema_types. clear -Hg.
  induction Hg as [|f a fs cs [Hf _] _ IH]; [done|]. cbn. by rewrite Hf, IH.
Qed.

Lemma source_values (w : World B) n j b s vs : statement_ok nr plan bl srcs w n -> bl !! j = Some b -> srcs !! j = Some s -> vss !! j = Some vs ->
  holds_values c types (cont w) b vs /\ length vs = total_rows (src_ins s) /\ blob_row_count nr b.1 = Ok (Z.of_nat (length vs)).
Proof.
  intros (_ & _ & _ & _ & _ & _ & Hsrc & _) Hb Hs Hv. destruct (Forall2_lookup_lr _ _ _ _ _ _ Hsrc Hb Hs) as (Hc & _ & Hd & Hcf & _ & Hn).
  pose proof (Forall2_lookup_lr _ _ _ _ _ _ srcs_show Hs Hv) as Hsh. pose proof (Forall2_length _ _ _ Hsh) as Hl. rewrite file_rows_length in Hl.
  split; [|split; [done|by rewrite Hn, Hl]]. exists (src_body s), (src_codec s), (src_ins s). split; [done|]. split; [done|]. split; [by apply conforms_typed|done].
Qed.

(** The lists of blobs, sources and values go together. *)
Lemma listed_at (w : World B) n j b : statement_ok nr plan bl srcs w n -> bl !! j = Some b -> exists s vs, srcs !! j = Some s /\ vss !! j = Some vs.
Proof.
  intros (_ & _ & _ & _ & _ & _ & Hsrc & _) Hb. destruct (Forall2_lookup_l _ _ _ _ _ Hsrc Hb) as (s & Hs & _).
  destruct (Forall2_lookup_l _ _ _ _ _ srcs_show Hs) as (vs & Hv & _). by exists s, vs.
Qed.

Lemma list_lengths (w : World B) n : statement_ok nr plan bl srcs w n -> length bl = length vss.
Proof. intros (_ & _ & _ & _ & _ & _ & Hsrc & _). by rewrite (Forall2_length _ _ _ Hsrc), (Forall2_length _ _ _ srcs_show). Qed.

Lemma blobs_hold (w : World B) n : statement_ok nr plan bl srcs w n -> Forall2 (holds_values c types (cont w)) bl vss.
Proof.
  intros Hok. apply Forall2_same_length_lookup_2; [by eapply list_lengths|]. intros j b vs Hb Hv.
  destruct (listed_at w n j b Hok Hb) as (s & vs' & Hs & Hv'). by destruct (source_values w n j b s vs Hok Hb Hs Hv).
Qed.

(** The scan of the statement. *)
Lemma statement_listed (w : World B) n : statement_ok nr plan bl srcs w n -> Forall (fun b : str * str => reads_file (cont w) b.1) bl ->
  Z.of_nat (length (concat vss)) <= u32_max ->
  exists l, map fst l = bl /\ Forall (blob_scan_ok old c) l /\ Forall2 (scanned_as old c) l vss /\ Forall (full_scan nr) l.
Proof.
  intros Hok Hread Hmax. destruct (blobs_scanned old c types plain unfiltered (cont w) bl vss (blobs_hold w n Hok) Hread Hmax) as (l & Hl & Hscan & Hv).
  exists l. repeat (split; [done|]). apply Forall_forall. intros o Ho. apply list_elem_of_lookup in Ho as [j Hj].
  assert (bl !! j = Some o.1) as Hb by (by rewrite <- Hl, (list_lookup_fmap fst), Hj). destruct (listed_at w n j _ Hok Hb) as (s & vs & Hs & Hvs).
  destruct (source_values w n j _ s vs Hok Hb Hs Hvs) as (_ & _ & Hn). destruct (Forall2_lookup_lr _ _ _ _ _ _ Hv Hj Hvs) as (bs & Ho & Hm).
  unfold full_scan. rewrite Ho, Hn, <- Hm. by rewrite length_map.
Qed.

Section Rows.
Context (l : list ((str * str) * BlobScan)) (shown : Forall2 (scanned_as old c) l vss).

Lemma row_values_at j k vs v : vss !! j = Some vs -> vs !! k = Some v -> row_values old c l (j, k) = v.
Proof.
  intros Hj Hk. destruct (Forall2_lookup_r _ _ _ _ _ shown Hj) as ([nt o] & Ho & bs & Hbs & <-). cbn [snd] in Hbs. subst o.
  change (map ?f ?s) with (f <$> s) in Hk. rewrite list_lookup_fmap in Hk. unfold row_values. cbn [fst snd]. rewrite Ho.
  destruct (stream_rows bs !! k); [by injection Hk|done].
Qed.

Lemma hits_values j vs : vss !! j = Some vs -> hits old c l accepts j (length vs) = map accepts vs.
Proof.
  intros Hj. apply list_eq. intros k. unfold hits. change (map ?f (seq 0 (length vs))) with (f <$> seq 0 (length vs)). change (map accepts vs) with (accepts <$> vs).
  rewrite !list_lookup_fmap. destruct (vs !! k) as [v|] eqn:E.
  - rewrite lookup_seq_lt by (by eapply lookup_lt_Some). cbn. by rewrite (row_values_at j k vs v Hj E).
  - apply lookup_ge_None_1 in E. by rewrite (proj2 (lookup_ge_None _ _)) by (rewrite length_seq; lia).
Qed.

(** An accepted row of the listing, with its values. *)
Lemma hit_values t : t ∈ hit_rows old c l accepts -> accepts (row_values old c l t) = true /\ row_values old c l t ∈ concat vss.
Proof.
  destruct t as [j k]. intros ((b & Hb & Hk) & Ha)%hit_elem. split; [done|]. destruct (Forall2_lookup_l _ _ _ _ _ shown Hb) as (vs & Hvs & bs & Hbs & Hm).
  unfold scanned_rows in Hk. rewrite Hbs in Hk. assert (k < length vs)%nat as Hlt by (by rewrite <- Hm, length_map).
  apply lookup_lt_is_Some in Hlt as [v Hv]. rewrite (row_values_at j k vs v Hvs Hv).
  apply list_elem_of_In, in_concat. exists vs. split; apply list_elem_of_In; by eapply list_elem_of_lookup_2.
Qed.
End Rows.

Lemma filter_none_hit (vs : list Values) : existsb id (map accepts vs) = false -> List.filter (fun v => negb (accepts v)) vs = vs.
Proof. induction vs as [|v vs IH]; cbn; [done|]. intros [Ha Hr]%orb_false_iff. unfold id in Ha. rewrite Ha. cbn. by rewrite IH. Qed.

Lemma filter_all_hit (vs : list Values) : forallb id (map accepts vs) = true -> List.filter (fun v => negb (accepts v)) vs = [].
Proof. induction vs as [|v vs IH]; cbn; [done|]. intros [Ha Hr]%andb_true_iff. unfold id in Ha. rewrite Ha. cbn. by rewrite IH. Qed.

Lemma holds_becomes (ct ct' : Container) b vs : ct' !! b.1 = ct !! b.1 -> holds_values c types ct b vs -> becomes c types ct' b vs.
Proof.
  intros E (body & codec & gs & Hb & Hh). unfold becomes. rewrite E, Hb. exists body, codec, gs. cbn [fst snd]. by rewrite E.
Qed.

(** After DELETE a blob shows the values the clause refuses. *)
Lemma delete_becomes (w w' : World B) n l j b s vs : statement_ok nr plan bl srcs w n -> Forall2 (scanned_as old c) l vss ->
  bl !! j = Some b -> srcs !! j = Some s -> vss !! j = Some vs ->
  (let gone := hits old c l accepts j (total_rows (src_ins s)) in
   if negb (existsb id gone) then cont w' !! b.1 = cont w !! b.1
   else if forallb id gone then cont w' !! b.1 = None
   else exists et bytes outs, cont w' !! b.1 = Some (et, bytes) /\ et <> b.2 /\
     decodes bytes (Some (rewrite_codec plan (src_codec s))) outs /\
     Forall (fun g => conforms (plan_schema plan) (batch_columns g) (num_rows g)) outs /\
     forall i, (i < length (plan_schema plan))%nat -> blob_column i outs = mask_filter (map negb gone) (blob_column i (src_ins s))) ->
  becomes c types (cont w') b (List.filter (fun v => negb (accepts v)) vs).
Proof.
  intros Hok Hl Hb Hs Hv. destruct (source_values w n j b s vs Hok Hb Hs Hv) as (Hh & Hlen & _). rewrite <- Hlen, (hits_values l Hl j vs Hv). cbn zeta.
  destruct (existsb id (map accepts vs)) eqn:Eex; cbn [negb]; [|intros E; rewrite filter_none_hit by done; by eapply holds_becomes].
  destruct (forallb id (map accepts vs)) eqn:Eall; [intros E; unfold becomes; rewrite E; by apply filter_all_hit|].
  intros (et & bytes & outs & Hc & _ & Hdec & Hcf & Hcol). unfold becomes. rewrite Hc. exists bytes, (Some (rewrite_codec plan (src_codec s))), outs.
  split; [done|]. split; [done|]. split; [by apply conforms_typed|].
  pose proof Hok as (_ & _ & _ & _ & _ & _ & Hsrc & _). destruct (Forall2_lookup_lr _ _ _ _ _ _ Hsrc Hb Hs) as (_ & _ & _ & Hins & _).
  rewrite <- mask_filter_by, <- (map_map accepts negb). eapply mask_shows; [exact (pc_types _ _ _ plain)|apply conforms_typed; exact Hins|by apply conforms_typed| |].
  - intros i Hi. apply Hcol. by rewrite schema_types, length_map in Hi.
  - exact (Forall2_lookup_lr _ _ _ _ _ _ srcs_show Hs Hv).
Qed.

(** ** The values UPDATE leaves *)

(** The tuple [v] as the scan shows it once its SET columns hold the values of
    the new tuple [t]. *)
Definition overwrite (v : Values) (t : list (Datum * bool)) : Values :=
  imap (fun i x => if bool_decide (i ∈ update_attnums plan) && bool_decide (i ∈ sc_attno_map c)
                   then default None (slot_value <$> t !! i) else x) v.

Context (new_tuple : Values -> list (Datum * bool)) (same_oids : sc_pg_oids c = pg_oids plan).

Definition updated (v : Values) : Values := if accepts v then overwrite v (new_tuple v) else v.

Lemma updated_none_hit (vs : list Values) : existsb id (map accepts vs) = false -> map updated vs = vs.
Proof. induction vs as [|v vs IH]; cbn; [done|]. intros [Ha Hr]%orb_false_iff. unfold id in Ha. unfold updated at 1. by rewrite Ha, IH. Qed.

(** A row whose SET cells read back as the new values shows the updated
    tuple. *)
Lemma overwrite_shows (row row' : Row) v t : slot_shows c types row v ->
  (forall att, att ∈ sc_attno_map c -> if bool_decide (att ∈ update_attnums plan) then reads_as plan t att (row' att) else row' att = row att) ->
  slot_shows c types row' (overwrite v t).
Proof.
  intros (Hl & Hin & Hout) Hcell. split; [unfold overwrite; by rewrite length_imap|]. split.
  - intros att Ha. destruct (Hin att Ha) as (d & (ty & oid & Ht & Ho & Hd) & Hv). specialize (Hcell att Ha). unfold overwrite. rewrite list_lookup_imap, Hv.
    rewrite (bool_decide_eq_true_2 _ Ha), andb_true_r. cbn [fmap option_fmap option_map]. case_bool_decide as Hset.
    + destruct Hcell as (f & oid' & x & isnull & Hf & Ho' & Hx & Hr). rewrite same_oids, Ho' in Ho. injection Ho as <-.
      rewrite schema_types, (list_lookup_fmap field_type), Hf in Ht. injection Ht as <-.
      exists (slot_value (x, isnull)). rewrite Hx. split; [|done]. exists (field_type f), oid'. rewrite schema_types, (list_lookup_fmap field_type), Hf.
      split; [done|]. split; [by rewrite same_oids|]. exact Hr.
    + exists d. split; [|done]. exists ty, oid. by rewrite Hcell.
  - intros att Ha Hn. unfold overwrite. rewrite list_lookup_imap, (Hout att Ha Hn). cbn. by rewrite (bool_decide_eq_false_2 _ Hn), andb_false_r.
Qed.

(** After UPDATE a blob shows its values with the accepted ones updated. *)
Lemma update_becomes (w w' : World B) n l j b s vs : statement_ok nr plan bl srcs w n -> Forall2 (scanned_as old c) l vss ->
  bl !! j = Some b -> srcs !! j = Some s -> vss !! j = Some vs ->
  (if negb (existsb id (hits old c l accepts j (total_rows (src_ins s)))) then cont w' !! b.1 = cont w !! b.1
   else exists et bytes outs, cont w' !! b.1 = Some (et, bytes) /\ et <> b.2 /\
     decodes bytes (Some (rewrite_codec plan (src_codec s))) outs /\
     Forall (fun g => conforms (plan_schema plan) (batch_columns g) (num_rows g)) outs /\ total_rows outs = total_rows (src_ins s) /\
     forall i k, (i < length (plan_schema plan))%nat -> (k < total_rows (src_ins s))%nat ->
       if accepts (row_values old c l (j, k)) && bool_decide (i ∈ update_attnums plan)
       then exists x, blob_column i outs !! k = Some x /\ reads_as plan (new_tuple (row_values old c l (j, k))) i x
       else blob_column i outs !! k = blob_column i (src_ins s) !! k) ->
  becomes c types (cont w') b (map updated vs).
Proof.
  intros Hok Hl Hb Hs Hv. destruct (source_values w n j b s vs Hok Hb Hs Hv) as (Hh & Hlen & _). rewrite <- Hlen, (hits_values l Hl j vs Hv).
  destruct (existsb id (map accepts vs)) eqn:Eex; cbn [negb]; [|intros E; rewrite updated_none_hit by done; by eapply holds_becomes].
  intros (et & bytes & outs & Hc & _ & Hdec & Hcf & Htot & Hcell). unfold becomes. rewrite Hc. exists bytes, (Some (rewrite_codec plan (src_codec s))), outs.
  pose proof (conforms_typed outs Hcf) as Hto. split; [done|]. split; [done|]. split; [done|].
  pose proof Hok as (_ & _ & _ & _ & _ & _ & Hsrc & _). destruct (Forall2_lookup_lr _ _ _ _ _ _ Hsrc Hb Hs) as (_ & _ & _ & Hins & _).
  pose proof (conforms_typed _ Hins) as Hti. pose proof (Forall2_lookup_lr _ _ _ _ _ _ srcs_show Hs Hv) as Hsh.
  apply Forall2_same_length_lookup_2; [by rewrite file_rows_length, length_map, Htot, Hlen|]. intros k row' v' Hr' Hv'.
  change (map updated vs) with (updated <$> vs) in Hv'. rewrite list_lookup_fmap in Hv'. destruct (vs !! k) as [v|] eqn:Ev; [|done]. injection Hv' as <-.
  destruct (Forall2_lookup_r _ _ _ _ _ Hsh Ev) as (row & Hr & Hrow). pose proof (lookup_lt_Some _ _ _ Ev) as Hk.
  assert (forall att, att ∈ sc_attno_map c -> if accepts v && bool_decide (att ∈ update_attnums plan) then reads_as plan (new_tuple v) att (row' att) else row' att = row att) as Hatt.
  { intros att Ha. pose proof (attno_lt c types (pc_types _ _ _ plain) att Ha) as Hlt.
    specialize (Hcell att k). rewrite (row_values_at l Hl j k vs v Hv Ev), (file_cell types outs att k row'), (file_cell types (src_ins s) att k row) in Hcell by done.
    specialize (Hcell ltac:(by rewrite schema_types, length_map in Hlt) Hk). destruct (_ && _); [|by injection Hcell].
    by destruct Hcell as (x & [= <-] & Hx). }
  unfold updated. destruct (accepts v); [by eapply overwrite_shows|]. eapply slot_shows_ext; [exact Hatt|exact Hrow].
Qed.
End Statement.

(** ** Setting the scan up, and setting it up again *)

Section Setup.
Context {Y : BytesApi} {B : BlobApi} {L : BlobLaws B} {X : RegexApi} {XL : RegexLaws X} {A : ArrowApi} {P : PgApi} {C : ComputeApi}.
Context {SA : ParquetScanApi} {H : BinaryHeapApi}.

(** A scan of a table with a pattern and no partition columns, to which
    nothing of the clause is pushed. *)
Record unpushed_scan (server : ServerOptions) (um : UserMappingOptions) (table : TableOptions) (g : GlobPattern) (node : ScanNode) : Prop := {
  us_options : scan_options node = Ok (server, um, table);
  us_pattern : plan_source (filename table) = Ok (GlobSource g);
  us_partitions : partition_columns table = [] /\ partition_keys table = [];
  us_private : match fdw_private node with None => True | Some attnums => StronglySorted Z.lt attnums end;
  us_pushed : (if enable_pushdown server then walk_quals (plan_qual node) else []) = [];
}.

(** What a listing needs: the cap is not reached and names are UTF-8. *)
Definition listable (ct : Container) : Prop :=
  Z.of_nat (size ct) <= MAX_LIST_RESULTS /\ map_Forall (fun n _ => utf8_valid n = true) ct.

Definition with_blobs (c : ScanStateCore) (l : BlobList) : ScanStateCore :=
  mkCore (sc_client c) l (sc_pg_oids c) (sc_projection c) (sc_attno_map c) (sc_qual_filter c) (sc_table_opts c)
    (sc_partition_attnums c) (sc_partition_keys_decl c) (sc_storage_attno_to_parquet_idx c).

Lemma glob_source_parsed pattern g : plan_source pattern = Ok (GlobSource g) -> parse_glob pattern = Ok g.
Proof. unfold plan_source. destruct (_ && _); [done|]. intros (g' & Hg & E)%bind_Ok_inv. by injection E as <-. Qed.

Section Table.
Context (env : ClientEnv) (server : ServerOptions) (um : UserMappingOptions) (table : TableOptions) (g : GlobPattern).

Lemma unpushed_core node (svc svc' : Svc) c types old :
  unpushed_scan server um table g node -> build_scan_state_core env node svc = (svc', Ok c) ->
  sc_attno_map c <> [] -> Forall (fun i => (i < length types)%nat) (sc_attno_map c) -> length old = length (sc_pg_oids c) ->
  plain_core old c types /\ sc_qual_filter c = None.
Proof.
  intros [Ho Hsrc [Hpc Hpk] Hpriv Hpush] Hrun Hne Hty Hold. split.
  { by destruct (core_setup env node server um table svc svc' c types old Ho Hpc Hpk Hpriv Hrun Hne Hty Hold). }
  unfold build_scan_state_core in Hrun. rewrite Ho in Hrun.
  erewrite sm_bind_Ok in Hrun; [|done]. cbn beta iota in Hrun. rewrite Hpush in Hrun.
  do 7 (apply sm_bind_inv in Hrun as (? & ? & _ & Hrun)). cbn [split_quals_by_target] in Hrun.
  apply sm_bind_inv in Hrun as (? & ? & _ & Hrun). by injection Hrun as <- <-.
Qed.

(** With the same columns on a container that differs only in what the listed
    blobs hold, and lost some of them, the set-up succeeds again: with the
    listed blobs that are left, under their new etags. *)
Lemma setup_again node node' (svc0 svc0' svc1 : Svc) c :
  unpushed_scan server um table g node -> unpushed_scan server um table g node' ->
  scan_tupdesc node' = scan_tupdesc node -> fdw_private node' = fdw_private node ->
  listable (blobs svc0) -> build_scan_state_core env node svc0 = (svc0', Ok c) ->
  (forall n, n ∉ map fst (sc_blobs c) -> blobs svc1 !! n = blobs svc0 !! n) ->
  exists svc1', build_scan_state_core env node' svc1 = (svc1', Ok (with_blobs c (relist (blobs svc1) (sc_blobs c)))) /\ blobs svc1' = blobs svc1.
Proof.
  intros [Ho Hsrc [Hpc Hpk] _ Hpush] [Ho' _ _ _ Hpush'] Htd Hfp [Hsz Hutf] Hrun Hfr.
  pose proof (glob_source_parsed _ _ Hsrc) as Hg.
  destruct (core_lists env node server um table g svc0 svc0' c Ho Hsrc Hg Hsz Hutf Hrun) as (_ & _ & _ & Hin).
  assert (forall n, is_Some (blobs svc1 !! n) -> is_Some (blobs svc0 !! n)) as Hdom.
  { intros n Hn. destruct (decide (n ∈ map fst (sc_blobs c))) as [Hl|Hl]; [|by rewrite <- Hfr].
    change (map fst ?l) with (fst <$> l) in Hl. apply list_elem_of_fmap in Hl as ([n' e] & -> & Hl).
    apply Hin in Hl as ((body & Hb) & _). cbn [fst]. rewrite Hb. by eexists. }
  assert (listable (blobs svc1)) as [Hsz1 Hutf1].
  { split.
    - rewrite <- size_dom in Hsz |- *. etrans; [|exact Hsz]. apply inj_le, subseteq_size. intros n. rewrite !elem_of_dom. apply Hdom.
    - intros n x Hx. destruct (Hdom n) as [y Hy]; [by eexists|]. by apply (Hutf n y). }
  assert (exists svc1' c1, build_scan_state_core env node' svc1 = (svc1', Ok c1) /\ c1 = with_blobs c (sc_blobs c1)) as (svc1' & c1 & Hrun' & Ec).
  { unfold build_scan_state_core in Hrun |- *. rewrite Ho in Hrun. rewrite Ho', Htd, Hfp. erewrite sm_bind_Ok by done. cbn beta iota. rewrite Hpush'.
    erewrite sm_bind_Ok in Hrun; [|done]. cbn beta iota in Hrun. rewrite Hpush in Hrun.
    apply sm_bind_inv in Hrun as (s1 & [] & Hv & Hrun). injection Hv as <- Hv. rewrite Hv. erewrite sm_bind_Ok by done.
    apply sm_bind_inv in Hrun as (s1 & client & Hc & Hrun). injection Hc as <- Hc. rewrite Hc. erewrite sm_bind_Ok by done.
    rewrite Hsrc in Hrun |- *. erewrite sm_bind_Ok in Hrun; [|done]. erewrite sm_bind_Ok by done.
    apply sm_bind_inv in Hrun as (s1 & bl & _ & Hrun). destruct (list_visible (Glob.prefix g) svc1 Hsz1) as (s2 & Hl & _).
    erewrite sm_bind_Ok by (cbn [plan_source_list]; by erewrite sm_bind_Ok by exact Hl).
    apply sm_bind_inv in Hrun as (s3 & oids & Hoid & Hrun). injection Hoid as <- Hoid. rewrite Hoid. erewrite sm_bind_Ok by done.
    rewrite Hpc in Hrun |- *. apply sm_bind_inv in Hrun as (s3 & attnums & Ha & Hrun). injection Ha as <- <-. erewrite sm_bind_Ok by done.
    apply sm_bind_inv in Hrun as (s3 & proj & Hp & Hrun). injection Hp as <- Hp. rewrite Hp. erewrite sm_bind_Ok by done.
    cbn [split_quals_by_target prune_blobs] in Hrun |- *. apply sm_bind_inv in Hrun as (s3 & pruned & Hpr & Hrun). injection Hpr as <- <-.
    injection Hrun as _ <-. erewrite sm_bind_Ok by done. by eexists _, _. }
  exists svc1'. destruct (core_lists env node' server um table g svc1 svc1' c1 Ho' Hsrc Hg Hsz1 Hutf1 Hrun') as (Hb1 & _).
  split; [|done]. rewrite Hrun', Ec. cbn [sc_blobs with_blobs]. do 3 f_equal.
  exact (select_relists env env node node' server um table g svc0 svc0' c svc1 svc1' c1 Ho Ho' Hsrc Hg Hpk Hsz Hutf Hsz1 Hutf1 Hrun Hrun' Hfr).
Qed.
End Table.

Lemma plain_with_blobs (c : ScanStateCore) l old types : plain_core old c types -> plain_core old (with_blobs c l) types.
Proof. by intros [? ? ? ? ? ?]. Qed.
End Setup.

(** ** The two statements *)

Section TwoStatements.
Context {Y : BytesApi} {B : BlobApi} {L : BlobLaws B} {A : ArrowApi} {AL : ArrowLaws A} {R : RoaringApi} {RL : RoaringLaws R}.
Context {Q : ParquetApi} {QL : ParquetLaws Q} {P : PgApi} {PL : PgLaws P} {U : UuidApi} {UL : UuidLaws U} {C : ComputeApi} {CL : ComputeLaws C}.
Context {H : BinaryHeapApi} {X : RegexApi} {XL : RegexLaws X} (SA0 SA1 : ParquetScanApi) {SL0 : ParquetScanLaws SA0} {SL1 : ParquetScanLaws SA1}.
Context (debug_key : Key -> str).

Abbreviation cont w := (blobs (w_svc w)).

(** The reader sees the listed blobs of the container. *)
Abbreviation reads_all S ct bl := (Forall (fun b : str * str => reads_file (SA := S) ct b.1) bl).

(** The scan [S] of the blob list runs and shows [vs]. *)
Definition scan_returns (S : ParquetScanApi) (c : ScanStateCore) (bl : BlobList) (old : Values) (sh : Z) (slots : list Slot) : Prop :=
  exists N s', forall F, (N <= F)%nat ->
    scan_all (SA := S) debug_key F (assemble_scan_state c (SequentialRanges bl 0)) sh old = Some (Ok (s', sh, slots)).

(** What the two statements share: the blobs, their sources and their values. *)
Record modify_setup (old : Values) (c : ScanStateCore) (nr : str -> FdwResult Z) (plan : ModifyPlan) (bl : BlobList) (srcs : list Source)
    (vss : list (list Values)) (w : World B) (n : nat) (carry : Slot -> PlanSlot) : Prop := {
  ms_plain : plain_core old c (map field_type (plan_schema plan));
  ms_unfiltered : sc_qual_filter c = None;
  ms_ok : statement_ok nr plan bl srcs w n;
  ms_values : Forall2 (fun s vs => file_shows c (map field_type (plan_schema plan)) (src_ins s) vs) srcs vss;
  ms_carries : carries_ctid plan carry;
  ms_reads : reads_all SA0 (cont w) bl;
  ms_small : Z.of_nat (length (concat vss) + length bl) <= u32_max;
}.

Lemma filter_concat {T} (p : T -> bool) (ls : list (list T)) : concat (map (List.filter p) ls) = List.filter p (concat ls).
Proof. induction ls as [|l ls IH]; cbn; [done|]. by rewrite List.filter_app, IH. Qed.

Lemma Forall2_map_r {S T V} (Rel : S -> V -> Prop) (f : T -> V) l1 l2 : Forall2 (fun x y => Rel x (f y)) l1 l2 -> Forall2 Rel l1 (map f l2).
Proof. induction 1; cbn; by constructor. Qed.

(** The accepted slots are as many as the accepted values. *)
Lemma accepted_values accepts slots : map tts_values (accepted accepts slots) = List.filter accepts (map tts_values slots).
Proof. unfold accepted. induction slots as [|s slots IH]; cbn; [done|]. destruct (accepts (tts_values s)); cbn; by rewrite IH. Qed.

(** A scan of what is left after a statement. *)
Lemma select_after (old : Values) (c : ScanStateCore) (types : list DataType) (ct : Container) (bl : BlobList) (vss : list (list Values)) sh :
  plain_core old c types -> sc_qual_filter c = None -> Forall2 (becomes c types ct) bl vss ->
  Z.of_nat (length (concat vss) + length bl) <= u32_max -> reads_all SA1 ct (relist ct bl) ->
  exists slots, scan_returns SA1 c (relist ct bl) old sh slots /\ map tts_values slots = concat vss.
Proof.
  intros Hp Hf Hb Hmax Hread. destruct (relist_holds c types ct bl vss Hb) as (vss' & HF & Hc & Hl).
  destruct (scan_values (SA := SA1) debug_key old c types Hp Hf ct (relist ct bl) vss' sh HF Hread) as (N & s' & slots & Hall & Hv); [rewrite Hc; lia|].
  exists slots. split; [by exists N, s'|]. by rewrite Hv.
Qed.

Lemma scan_returns_det S (c : ScanStateCore) bl (old : Values) sh slots slots' :
  scan_returns S c bl old sh slots -> scan_returns S c bl old sh slots' -> slots = slots'.
Proof.
  intros (N & s & H1) (N' & s' & H2). specialize (H1 (max N N') ltac:(lia)). specialize (H2 (max N N') ltac:(lia)). congruence.
Qed.

(** The scan that feeds the statement. *)
Lemma modify_scan (old : Values) (c : ScanStateCore) nr plan bl (srcs : list Source) (vss : list (list Values)) (w : World B) n carry sh :
  modify_setup old c nr plan bl srcs vss w n carry ->
  exists l, map fst l = bl /\ Forall (blob_scan_ok (SA := SA0) old c) l /\ Forall2 (scanned_as old c) l vss /\ Forall (full_scan nr) l /\
    map tts_values (scan_spec old c [] l).1 = concat vss /\ scan_returns SA0 c bl old sh (scan_spec old c [] l).1.
Proof.
  intros [Hp Hf Hok Hv Hcar Hread Hmax].
  destruct (statement_listed (SA := SA0) old c _ nr plan bl srcs vss Hp Hf eq_refl Hv w _ Hok Hread) as (l & Hl & Hscan & Hshown & Hfull); [lia|].
  destruct (scanned_spec_values old c l vss Hshown []) as [Hvals Hlen]. exists l. do 5 (split; [done|]). cbn [length] in Hlen. rewrite <- Hl, length_map in Hmax.
  destruct (scan_runs (SA := SA0) debug_key old c l sh Hscan) as (N & s' & _ & Hall); [lia|]. rewrite Hl in Hall. by exists N, s'.
Qed.

(** The blob, source and values at a position of the list. *)
Lemma modify_at (old : Values) (c : ScanStateCore) nr plan bl (srcs : list Source) (vss : list (list Values)) (w : World B) n carry (Rel : str * str -> list Values -> Prop) :
  modify_setup old c nr plan bl srcs vss w n carry ->
  (forall j b s vs, bl !! j = Some b -> srcs !! j = Some s -> vss !! j = Some vs -> Rel b vs) -> Forall2 Rel bl vss.
Proof.
  intros [_ _ Hok Hv _ _ _] Hall. apply Forall2_same_length_lookup_2; [by eapply list_lengths|]. intros j b vs Hb Hvs.
  destruct (listed_at c _ nr plan bl srcs vss Hv w _ j b Hok Hb) as (s & vs' & Hsj & Hvs'). by apply (Hall j b s vs).
Qed.

Lemma listed_blob (l : list ((str * str) * BlobScan)) j b : map fst l !! j = Some b -> exists o, l !! j = Some o /\ o.1 = b.
Proof. rewrite (list_lookup_fmap fst). destruct (l !! j) as [o|]; [|done]. intros [= <-]. by exists o. Qed.

(** What a statement starts from once its scan is set up: the plan is built
    from the list of the scan, whose blobs show the values [vss]. *)
Record modify_world (old : Values) (c : ScanStateCore) (nr : str -> FdwResult Z) (plan : ModifyPlan) (srcs : list Source)
    (vss : list (list Values)) (w : World B) (n : nat) (carry : Slot -> PlanSlot) : Prop := {
  mw_ok : statement_ok nr plan (sc_blobs c) srcs w n;
  mw_values : Forall2 (fun s vs => file_shows c (map field_type (plan_schema plan)) (src_ins s) vs) srcs vss;
  mw_carries : carries_ctid plan carry;
  mw_reads : reads_all SA0 (cont w) (sc_blobs c);
  mw_small : Z.of_nat (length (concat vss) + length (sc_blobs c)) <= u32_max;
  mw_columns : sc_attno_map c <> [] /\ Forall (fun i => (i < length (plan_schema plan))%nat) (sc_attno_map c);
  mw_tuple : length old = length (sc_pg_oids c);
}.

Section Repeat.
Context (env : ClientEnv) (server : ServerOptions) (um : UserMappingOptions) (table : TableOptions) (g : GlobPattern).
Context (node node' : ScanNode) (svc0 svc0' : Svc) (c : ScanStateCore).
Context (first : unpushed_scan server um table g node) (second : unpushed_scan server um table g node').
Context (same_tupdesc : scan_tupdesc node' = scan_tupdesc node) (same_private : fdw_private node' = fdw_private node).
Context (list_ok : listable (blobs svc0)) (built : build_scan_state_core env node svc0 = (svc0', Ok c)).

Lemma world_setup (old : Values) nr plan (srcs : list Source) (vss : list (list Values)) (w : World B) n carry :
  modify_world old c nr plan srcs vss w n carry -> modify_setup old c nr plan (sc_blobs c) srcs vss w n carry.
Proof.
  intros [Hok Hv Hcar Hread Hmax [Hne Hty] Hold].
  destruct (unpushed_core env server um table g node svc0 svc0' c (map field_type (plan_schema plan)) old first built Hne) as [Hp Hf];
    [by rewrite length_map|done|]. by split.
Qed.

(** The second scan, when the statement touched listed blobs only. *)
Lemma select_again (old : Values) (types : list DataType) (vss : list (list Values)) (ct : Container) (svc1 : Svc) sh :
  plain_core old c types -> sc_qual_filter c = None -> blobs svc1 = ct ->
  (forall n, n ∉ map fst (sc_blobs c) -> ct !! n = blobs svc0 !! n) ->
  Forall2 (becomes c types ct) (sc_blobs c) vss -> Z.of_nat (length (concat vss) + length (sc_blobs c)) <= u32_max ->
  exists svc1' c', build_scan_state_core env node' svc1 = (svc1', Ok c') /\ sc_blobs c' = relist ct (sc_blobs c) /\
    (reads_all SA1 ct (sc_blobs c') -> exists slots, scan_returns SA1 c' (sc_blobs c') old sh slots /\ map tts_values slots = concat vss).
Proof.
  intros Hp Hf <- Hfr Hb Hmax.
  destruct (setup_again env server um table g node node' svc0 svc0' svc1 c first second same_tupdesc same_private list_ok built Hfr) as (svc1' & Hrun & _).
  exists svc1', (with_blobs c (relist (blobs svc1) (sc_blobs c))). split; [done|]. split; [done|]. intros Hread.
  exact (select_after old (with_blobs c (relist (blobs svc1) (sc_blobs c))) types (blobs svc1) (sc_blobs c) vss sh (plain_with_blobs c _ old types Hp) Hf Hb Hmax Hread).
Qed.

(** C3: DELETE with a WHERE clause, then SELECT, of a table with a pattern
    and no partition columns, when nothing of the clauses is pushed.  The scan
    of the DELETE is set up on the container and shows the values
    [concat vss]; the callbacks of the tuples the clause accepts and the
    commit succeed.  The scan of the SELECT, set up again from the same
    options on the container that leaves, succeeds; it lists the blobs that
    are left, under their new etags, and shows exactly the tuples the clause
    refuses, in the same order. *)
Theorem delete_then_select (old : Values) nr plan (srcs : list Source) (vss : list (list Values)) accepts carry (w : World B) sh sh' :
  blobs svc0 = cont w -> modify_world old c nr plan srcs vss w (length (List.filter accepts (concat vss))) carry ->
  (forall slots p, scan_returns SA0 c (sc_blobs c) old sh slots -> foldM exec_foreign_delete plan (map carry (accepted accepts slots)) = Ok p -> uploads_fit nr (sc_blobs c) srcs p) ->
  exists slots plan' w' svc1 c',
    scan_returns SA0 c (sc_blobs c) old sh slots /\ map tts_values slots = concat vss /\
    foldM exec_foreign_delete plan (map carry (accepted accepts slots)) = Ok plan' /\ commit_plan plan' w = (w', Ok tt) /\ flight w' = ∅ /\
    build_scan_state_core env node' (w_svc w') = (svc1, Ok c') /\ sc_blobs c' = relist (cont w') (sc_blobs c) /\
    (reads_all SA1 (cont w') (sc_blobs c') -> exists slots',
      scan_returns SA1 c' (sc_blobs c') old sh' slots' /\
      map tts_values slots' = List.filter (fun v => negb (accepts v)) (map tts_values slots)).
Proof.
  intros Hw Hworld Hfit. pose proof (world_setup _ _ _ _ _ _ _ _ Hworld) as Hset. set (bl := sc_blobs c) in *.
  pose proof Hset as [Hp Hf Hok Hv Hcar _ Hmax].
  destruct (modify_scan old c nr plan bl srcs vss w _ carry sh Hset) as (l & Hl & Hscan & Hshown & Hfull & Hvals & Hret).
  destruct (delete_where_runs (SA := SA0) debug_key old c nr plan l srcs accepts carry Hscan Hfull Hcar w sh) as (N & s' & slots & plan' & w' & Hall & Hrun & Hcm & Hfl & Hout & Hfr);
    [by rewrite Hl, <- (length_map tts_values), accepted_values, Hvals|intros p; rewrite Hl; by apply Hfit|]. rewrite Hl in Hall. rewrite <- (map_map fst fst), Hl in Hfr.
  assert (scan_returns SA0 c bl old sh slots) as Hr by (by exists N, s'). assert (map tts_values slots = concat vss) as Hs by (by rewrite (scan_returns_det SA0 c bl old sh _ _ Hr Hret)).
  destruct (select_again old (map field_type (plan_schema plan)) (map (List.filter (fun v => negb (accepts v))) vss) (cont w') (w_svc w') sh') as (svc1 & c' & Hb1 & Hl1 & Hsel); [done|done|done|by rewrite Hw| | |].
  - apply Forall2_map_r, (modify_at old c nr plan bl srcs vss w _ carry _ Hset). intros j b s vs Hb Hsj Hvs.
    eapply (delete_becomes old c _ nr plan bl srcs vss Hp eq_refl Hv accepts w w' _ l j b s vs Hok Hshown Hb Hsj Hvs).
    rewrite <- Hl in Hb. apply listed_blob in Hb as (o & Ho & <-). exact (Hout j o s Ho Hsj).
  - rewrite filter_concat. pose proof (sublist_length _ _ (bool_filter_sublist (fun v => negb (accepts v)) (concat vss))). unfold bl in Hmax. lia.
  - exists slots, plan', w', svc1, c'. do 7 (split; [done|]). intros Hread. destruct (Hsel Hread) as (slots' & Hret' & Hs').
    exists slots'. split; [done|]. by rewrite Hs', filter_concat, Hs.
Qed.

End Repeat.
End TwoStatements.
