(* ===== verification/ModifySelectDemo.v ===== *)
(** * DELETE or UPDATE, then SELECT, on the container of [ModifyDemo]. *)

From S2P Require Import Prelude RustStr Redact Errors RowId Options Externals Kernel Convert BlobService Store Handoff Coordinator ParquetIO Modify PlanFacts CommitFacts CommitDemo ModifyStatement ModifyClaims ModifyDemo Pushdown PushdownFacts RowFilter PushdownWalk Partition Glob MultiFile MergeFacts Scan ScanFacts ScanClaims EndToEnd EndToEndDemo ScanPlan ScanSetup SelectFilter SelectWhere SelectDemo Parallel Insert InsertSelect ModifySelect.
Local Open Scope Z_scope.

Definition batches_held (st : Rewrite (A := ref_arrow) (Q := ref_parquet)) : nat := length (snd (rw_writer st : RefWriter)).

(** A reference writer holds at most a batch per batch it was offered. *)
Lemma ref_rewrite_small blob schema e items : forall (st st' : Rewrite (A := ref_arrow) (Q := ref_parquet)),
  foldM (rewrite_batch (Y := ref_bytes) (R := ref_roaring) blob schema e) st items = Ok st' ->
  (batches_held st' <= batches_held st + length items)%nat.
Proof.
  induction items as [|i items IH]; intros st st' Hf; cbn [foldM] in Hf; [injection Hf as <-; lia|].
  apply bind_Ok_inv in Hf as (st1 & Hb & Hf). apply IH in Hf. assert (batches_held st1 <= S (batches_held st))%nat; [|cbn [length]; lia].
  clear -Hb. unfold rewrite_batch in Hb. apply bind_Ok_inv in Hb as (b & _ & Hb). destruct (_ <? _); [done|].
  apply bind_Ok_inv in Hb as (out & _ & Hb). apply bind_Ok_inv in Hb as (w & Hw & Hb). injection Hb as <-. unfold batches_held. cbn [rw_writer].
  destruct (_ <? _)%nat; [|injection Hw as <-; lia]. unfold writer_write, arrow_writer_write in Hw. cbn in Hw. unfold ref_write in Hw.
  destruct (rw_writer st) as [[sc co] bs]. destruct (ref_conforms _ _); [|done]. injection Hw as <-. cbn. rewrite length_app. cbn. lia.
Qed.

Lemma ref_uploads_fit p : uploads_fit stmt_rows stmt_list stmt_sources p.
Proof.
  intros j b s bytes Hb Hs Hr. assert (length (snd bytes) <= length (snd (src_body s)))%nat as Hl.
  { unfold rewrite_body in Hr. apply bind_Ok_inv in Hr as (f & Hf & Hr). injection Hf as <-. apply bind_Ok_inv in Hr as (items & Hi & Hr).
    injection Hi as <-. apply bind_Ok_inv in Hr as (w & Hw & Hr). injection Hw as <-. apply bind_Ok_inv in Hr as (st & Hst & Hr).
    apply ref_rewrite_small in Hst. unfold batches_held in Hst. cbn [rw_writer snd length] in Hst. rewrite length_map in Hst.
    apply bind_Ok_inv in Hr as ([] & _ & Hr). destruct (_ =? _); [done|]. apply bind_Ok_inv in Hr as (by' & Hby & Hr). injection Hr as <-.
    injection Hby as <-. exact Hst. }
  unfold bytes_len. cbn. assert (length (snd (src_body s)) <= 2)%nat; [|unfold MAX_BLOB_BYTES; lia].
  destruct j as [|[|[|j]]]; cbn in Hs; [injection Hs as <-; cbn; lia..|done].
Qed.

(** The values of the three files. *)
Definition demo_values : list (list Values) :=
  [[[Some (DWord 1); Some (DText "a")]; [Some (DWord 2); Some (DText "b")]; [Some (DWord 3); Some (DText "c")]; [Some (DWord 4); Some (DText "d")]];
   [[Some (DWord 5); Some (DText "e")]; [Some (DWord 6); Some (DText "f")]];
   [[Some (DWord 7); Some (DText "g")]]].

Lemma where_shows (row : Row) d e :
  arrow_value_to_datum (P := ref_pg) Int64 (row 0%nat) INT8OID = Ok d -> arrow_value_to_datum (P := ref_pg) Utf8 (row 1%nat) TEXTOID = Ok e ->
  slot_shows (P := ref_pg) where_core [Int64; Utf8] row [d; e].
Proof.
  intros Hd He. split; [done|]. split.
  - intros att Ha. cbn in Ha. rewrite !elem_of_cons, elem_of_nil in Ha. destruct Ha as [->|[->|[]]];
      [exists d; split; [by exists Int64, INT8OID|done]|exists e; split; [by exists Utf8, TEXTOID|done]].
  - intros [|[|att]] Hlt Hn; cbn in *; [set_solver|set_solver|lia].
Qed.

Lemma demo_show is_delete : Forall2 (fun s vs => file_shows (P := ref_pg) where_core (map field_type (plan_schema (stmt_plan is_delete))) (src_ins s) vs) stmt_sources demo_values.
Proof. repeat apply Forall2_cons_2; try apply Forall2_nil_2; apply where_shows; reflexivity. Qed.

Definition demo_files_api : ParquetScanApi (A := ref_arrow) := ref_files (ref_store demo_files).

(** The scans of both statements: [*.parquet], every column, no clause
    pushed. *)
Definition where_server : ServerOptions := mkServerOptions "acct1" DEFAULT_ENDPOINT ManagedIdentity true.
Definition where_table : TableOptions := mkTableOptions "data" "*.parquet" Snappy None [] [] [] false.
Definition where_node : ScanNode :=
  mkNode (Ok (where_server, mkUserMapping None, where_table))
    [mkAttr (Some (lit "id")) INT8OID false false 1; mkAttr (Some (lit "name")) TEXTOID false false 2] None None true false.
Definition where_glob : GlobPattern (R := ref_regex) := mkGlob (R := ref_regex) [] (map glob_atom "*.parquet").

Lemma where_unpushed : unpushed_scan (X := ref_regex) where_server (mkUserMapping None) where_table where_glob where_node.
Proof.
  split.
  - reflexivity.
  - vm_compute. reflexivity.
  - split; reflexivity.
  - exact I.
  - reflexivity.
Qed.

Lemma where_listable : listable (Y := ref_bytes) demo_files.
Proof.
  split; [vm_compute; discriminate|]. unfold demo_files.
  apply map_Forall_insert_2; [vm_compute; reflexivity|]. apply map_Forall_insert_2; [vm_compute; reflexivity|].
  apply map_Forall_singleton. vm_compute. reflexivity.
Qed.

Abbreviation where_build := (build_scan_state_core (B := ref_blob (Y := ref_bytes)) (X := ref_regex) (P := ref_pg) demo_setup_env where_node).

(** The set-up of the first scan lists the three blobs. *)
Lemma where_built : where_build demo_files = (demo_files, Ok where_core).
Proof. vm_compute. reflexivity. Qed.

Lemma demo_modify_world is_delete n : (n <= 3)%nat ->
  modify_world (Y := ref_bytes) (B := ref_blob (Y := ref_bytes)) (P := ref_pg) demo_files_api old_tuple where_core stmt_rows (stmt_plan is_delete) stmt_sources demo_values
    (demo_world demo_files) n where_carry.
Proof.
  intros Hn. split.
  - by apply stmt_ok.
  - apply demo_show.
  - by intros ? ?.
  - apply Forall_forall. intros b _. apply ref_store_reads.
  - vm_compute. discriminate.
  - split; [discriminate|repeat constructor; cbn; lia].
  - reflexivity.
Qed.

Lemma demo_fit p : uploads_fit stmt_rows (sc_blobs where_core) stmt_sources p.
Proof. exact (ref_uploads_fit p). Qed.

Lemma demo_start : blobs (B := ref_blob (Y := ref_bytes)) demo_files = blobs (w_svc (demo_world demo_files)).
Proof. reflexivity. Qed.

(** Of the seven rows the clause accepts ids 1, 5 and 6. *)
Lemma delete_then_select_witness :
  exists (w' : World (Y := ref_bytes) (ref_blob (Y := ref_bytes))) svc1 c' slots',
    where_build (w_svc w') = (svc1, Ok c') /\
    scan_returns (P := ref_pg) no_debug (ref_files (ref_store (w_svc w'))) c' (sc_blobs c') old_tuple 0 slots' /\
    map tts_values slots' = [[Some (DWord 2); Some (DText "b")]; [Some (DWord 3); Some (DText "c")]; [Some (DWord 4); Some (DText "d")]; [Some (DWord 7); Some (DText "g")]].
Proof.
  pose proof (fun SA1 SL1 => delete_then_select (Y := ref_bytes) (B := ref_blob (Y := ref_bytes)) (X := ref_regex) (P := ref_pg) demo_files_api SA1 (SL1 := SL1) no_debug
    demo_setup_env where_server (mkUserMapping None) where_table where_glob where_node where_node demo_files demo_files where_core where_unpushed where_unpushed) as Hsetup.
  pose proof (fun SA1 SL1 => Hsetup SA1 SL1 eq_refl eq_refl where_listable where_built old_tuple stmt_rows (stmt_plan true) stmt_sources demo_values where_id where_carry (demo_world demo_files) 0 0 demo_start (demo_modify_world true 3 ltac:(lia))
    (fun _ p _ _ => demo_fit p)) as Hds.
  destruct (Hds demo_files_api _) as (slots & plan' & w' & _ & _ & Hs & Hv & Hrun & Hcm & _).
  destruct (Hds (ref_files (ref_store (w_svc w'))) _) as (slots2 & plan2 & w2 & svc1 & c' & Hs2 & _ & Hrun2 & Hcm2 & _ & Hbuilt & _ & Hsel). clear Hds.
  pose proof (scan_returns_det _ _ _ _ _ _ _ _ Hs2 Hs) as ->. assert (plan2 = plan') as -> by congruence. assert (w2 = w') as -> by congruence.
  destruct Hsel as (slots' & Hret & Hv'); [apply Forall_forall; intros b _; apply ref_store_reads|].
  exists w', svc1, c', slots'. split; [exact Hbuilt|]. split; [exact Hret|]. rewrite Hv', Hv. vm_compute. reflexivity.
Defined.

