(* ===== verification/Session.v ===== *)
(** * A backend's statements and transactions.

    The executor's calls as a state machine: statements that open a modify
    state, feed rows and end, and the transaction callback.  An error aborts
    the transaction: nothing but its end follows.  [allowed] is the order
    Postgres keeps for statements with one modify target and without
    savepoints; [session_clean] and [writes_only_at_end] are about every such
    run.  With two targets in one query, or an error caught by a savepoint,
    staging blobs are left behind ([two_targets_leak], [savepoint_leak] in
    [SessionDemo]). *)

From S2P Require Import Prelude RustStr Redact Errors RowId Options Externals Kernel Convert BlobService Store Handoff Coordinator ParquetIO Modify PlanFacts CommitFacts CommitDemo Partition ScanPlan Parallel Insert.
Local Open Scope Z_scope.

(** ** A request changes at most the name it is for *)

Section Frames.
Context {Y : BytesApi} {B : BlobApi} {L : BlobLaws B}.

Lemma upload_frame nm body c (s s' : Svc) r k : sdk_upload nm body c s = (s', r) -> k <> nm -> blobs s' !! k = blobs s !! k.
Proof.
  intros H Hk. destruct (cond_ok c (blobs s !! nm)) eqn:E.
  - apply cond_ok_holds in E. destruct (upload_law nm body c s E) as (s1 & e & Hu & Hs & _). rewrite H in Hu. injection Hu as <- _.
    by rewrite Hs, lookup_insert_ne.
  - assert (~ cond_holds c (blobs s !! nm)) as Hn by (intros Hc%cond_ok_holds; congruence).
    destruct (upload_fails nm body c s Hn) as (s1 & er & Hu & Hs & _). rewrite H in Hu. injection Hu as <- _. by rewrite Hs.
Qed.

Lemma delete_frame nm c (s s' : Svc) r k : sdk_delete nm c s = (s', r) -> k <> nm -> blobs s' !! k = blobs s !! k.
Proof.
  intros H Hk. destruct (blobs s !! nm) eqn:Eb; [destruct (cond_ok c (blobs s !! nm)) eqn:E|].
  - apply cond_ok_holds in E. destruct (delete_law nm c s) as (s1 & Hd & Hs); [by rewrite Eb|done|]. rewrite H in Hd. injection Hd as <- _.
    by rewrite Hs, lookup_delete_ne.
  - destruct (delete_fails nm c s) as (s1 & er & Hd & Hs & _); [intros [_ Hc%cond_ok_holds]; congruence|]. rewrite H in Hd. injection Hd as <- _. by rewrite Hs.
  - destruct (delete_fails nm c s) as (s1 & er & Hd & Hs & _); [rewrite Eb; by intros [[] _]|]. rewrite H in Hd. injection Hd as <- _. by rewrite Hs.
Qed.

(** [m] changes no name but [nm]. *)
Definition only_at {T} (nm : str) (m : SM Svc T) : Prop := forall s s' r k, m s = (s', r) -> k <> nm -> blobs s' !! k = blobs s !! k.

Lemma only_at_lift {S T} nm (x : FdwResult S) (f : S -> SM Svc T) : (forall a, only_at nm (f a)) -> only_at nm (lift x ≫= f).
Proof.
  intros Hf s s' r k H Hk. destruct x as [a|e]; [by apply (Hf a s s' r k)|]. by injection H as <- _.
Qed.

Lemma only_at_call {S T} nm (op : Svc -> Svc * Result SdkError S) g (f : S -> SM Svc T) :
  (forall s s' r k, op s = (s', r) -> k <> nm -> blobs s' !! k = blobs s !! k) -> (forall a s s' r, f a s = (s', r) -> s' = s) ->
  only_at nm (call op g ≫= f).
Proof.
  intros Hop Hf s s' r k H Hk. unfold mbind, sm_bind, call in H. destruct (op s) as [s1 r1] eqn:E. cbn in H.
  destruct (map_err g r1); [apply Hf in H as ->|injection H as <- _]; by eapply Hop.
Qed.

Lemma put_if_match_frame nm body e : only_at nm (put_if_match nm body e).
Proof. apply only_at_lift. intros []. apply only_at_call; [intros; by eapply upload_frame|by intros a s s' r [= <- _]]. Qed.

Lemma delete_if_match_frame nm e : only_at nm (delete_if_match nm e).
Proof.
  intros s s' r k H Hk. unfold delete_if_match, call in H. destruct (sdk_delete nm (mkCond (Some e) None) s) as [s1 r1] eqn:E.
  injection H as <- _. by eapply delete_frame.
Qed.

Lemma writer_upload_frame nm body : only_at nm (writer_upload nm body).
Proof. apply only_at_lift. intros []. apply only_at_call; [intros; by eapply upload_frame|by intros a s s' r [= <- _]]. Qed.
End Frames.

(** ** What a commit may leave behind *)

Section Commit.
Context {Y : BytesApi} {B : BlobApi} {L : BlobLaws B} {A : ArrowApi} {R : RoaringApi} {Q : ParquetApi} {P : PgApi} {U : UuidApi}.

Abbreviation cont w := (blobs (w_svc w)).

(** Outside of [ns] and the names in flight the container is [c0], and what is
    in flight are staging names [c0] does not have. *)
Definition tracked (c0 : Container) (ns : list str) (w : World B) : Prop :=
  (forall k, k ∉ ns -> k ∉ flight w -> cont w !! k = c0 !! k) /\ (forall k, k ∈ flight w -> c0 !! k = None /\ is_staging_name k = true).

(** The staged blobs so far account for everything in flight. *)
Definition staged_rel (plan : ModifyPlan) (c0 : Container) (st : list Staged) (w : World B) : Prop :=
  only_staging c0 w /\ flight w ⊆ list_to_set (stagings st) /\
  Forall (fun s => original_name s ∈ map name (blob_table plan) /\ (empty_delete s = false -> c0 !! staging_name s = None)) st.

Lemma triple_fold_rel {S T} (Rel : T -> World B -> Prop) (Inv : World B -> Prop) (f : T -> S -> SM (World B) T) b l :
  (forall b w, Rel b w -> Inv w) -> (forall b x, x ∈ l -> triple (Rel b) (f b x) Rel Inv) -> triple (Rel b) (sm_fold f b l) Rel Inv.
Proof.
  intros Hi. revert b. induction l as [|x l IH]; intros b Hf; cbn [sm_fold].
  - intros w w' r Hb [= <- <-]. split; [by eapply Hi|]. by intros a [= <-].
  - eapply triple_bind; [apply Hf; left|]. intros b'. apply IH. intros. apply Hf. by right.
Qed.

Lemma new_staging_rel plan c0 st e : staging_unused plan c0 -> e ∈ blob_table plan ->
  triple (staged_rel plan c0 st) (new_staging_name (name e))
    (fun sn w => only_staging c0 w /\ c0 !! sn = None /\ flight w ⊆ {[sn]} ∪ list_to_set (stagings st)) (only_staging c0).
Proof.
  intros Hun He w w' r (Ho & Hf & _) H. destruct (new_staging_name_ok plan c0 e Hun He w w' r Ho H) as [Hi Hp]. split; [done|].
  intros sn ->. destruct (Hp sn eq_refl) as [_ Hsn]. split; [done|]. split; [by apply (proj2 (proj2 Hi))|]. injection H as <- <-.
  rewrite flight_register by apply Ho. change (flight (mkWorld _ _ _ _)) with (flight w). set_solver.
Qed.

Lemma stage_blob_rel plan c0 st k : staging_unused plan c0 ->
  triple (staged_rel plan c0 st) (stage_blob plan st k) (staged_rel plan c0) (only_staging c0).
Proof.
  intros Hun w w' r Hpre H. split; [by destruct (stage_blob_only_staging plan c0 st k Hun w w' r (proj1 Hpre) H)|].
  intros st' ->. unfold stage_blob in H. apply sm_bind_inv in H as (w1 & e & [= <- He] & H). apply ok_or_Ok_inv, list_elem_of_lookup_2 in He.
  apply sm_bind_inv in H as (w2 & ed & [= <- _] & H). apply sm_bind_inv in H as (w3 & body & Hg & H).
  apply on_svc_frame in Hg as (Hg & Hact & _). apply get_body_frame in Hg. destruct Hpre as (Ho & Hfl & Hgood).
  assert (staged_rel plan c0 st w3) as H3.
  { split; [by eapply only_staging_ext|]. split; [|done]. unfold flight in *. by rewrite Hact. }
  apply sm_bind_inv in H as (w4 & res & [= <- _] & H). assert (name e ∈ map name (blob_table plan)) as Hn.
  { change (map name ?l) with (name <$> l). apply list_elem_of_fmap. by exists e. }
  destruct res as [bytes|]; cbn [stage_result] in H.
  - apply sm_bind_inv in H as (w5 & sn & Hsn & H). destruct (new_staging_rel plan c0 st e Hun He _ _ _ H3 Hsn) as [_ Hp].
    destruct (Hp sn eq_refl) as (Ho5 & Hc & Hf5). apply sm_bind_inv in H as (w6 & et & Hput & [= <- <-]).
    assert (sn ∈ flight w5) as Hin by (by destruct (new_staging_name_ok plan c0 e Hun He _ _ _ (proj1 H3) Hsn) as [_ Hp']; destruct (Hp' sn eq_refl)).
    destruct (stage_put_ok c0 sn bytes w5 w6 (Ok et) (conj Ho5 Hin) Hput) as [Ho6 _]. split; [exact Ho6|]. split.
    + apply on_svc_frame in Hput as (_ & Ha & _). unfold flight in *. rewrite Ha, stagings_app, list_to_set_app_L. cbn. set_solver.
    + apply Forall_app. split; [done|]. apply Forall_singleton. by split.
  - injection H as <- <-. destruct H3 as (Ho3 & Hf3 & _). split; [done|]. split.
    + rewrite stagings_app, list_to_set_app_L. set_solver.
    + apply Forall_app. split; [done|]. apply Forall_singleton. by split.
Qed.

(** Phase 2 with the blobs [rest] still to swap. *)
Definition swap_rel (c0 : Container) (ns : list str) (rest : list Staged) (w : World B) : Prop :=
  tracked c0 ns w /\ flight w ⊆ list_to_set (stagings rest).

Lemma tracked_frame {T} c0 ns nm (m : SM Svc T) (w w' : World B) r : only_at nm m -> nm ∈ ns -> on_svc m w = (w', r) -> tracked c0 ns w ->
  tracked c0 ns w' /\ flight w' = flight w.
Proof.
  intros Hm Hn H [Hc Hf]. apply on_svc_frame in H as (H & Ha & _). assert (flight w' = flight w) as E by (unfold flight; by rewrite Ha).
  split; [|done]. unfold tracked. rewrite E. split; [|done]. intros k Hk Hkf. rewrite <- (Hc k Hk Hkf). eapply Hm; [exact H|]. by intros ->.
Qed.

Lemma drop_rel c0 ns s rest (w : World B) : empty_delete s = false -> c0 !! staging_name s = None -> swap_rel c0 ns (s :: rest) w ->
  exists w', drop_staging (staging_name s) w = (w', Ok tt) /\ swap_rel c0 ns rest w'.
Proof.
  intros He Hs [[Hc Hf] Hsub]. unfold drop_staging. destruct (delete_unconditional_ok (staging_name s) (w_svc w)) as (s1 & Hd & Hs1).
  rewrite (on_svc_Ok _ _ _ _ Hd). eexists. split; [reflexivity|]. set (w1 := mkWorld s1 _ _ _).
  assert (flight (with_active (mark_committed (staging_name s)) w1) = flight w ∖ {[staging_name s]}) as E.
  { unfold flight, with_active. cbn [w1 w_active]. destruct (w_active w) as [a|]; cbn; [done|set_solver]. }
  split; [split|].
  - intros k Hk Hkf. rewrite E in Hkf. rewrite with_active_svc. cbn [w1 w_svc]. rewrite Hs1. destruct (decide (k = staging_name s)) as [->|Hne].
    + by rewrite lookup_delete_eq.
    + rewrite lookup_delete_ne by done. apply Hc; [done|]. set_solver.
  - intros k Hk. rewrite E in Hk. apply Hf. set_solver.
  - rewrite E. unfold stagings in Hsub. cbn [List.filter map] in Hsub. rewrite He in Hsub. cbn in Hsub. unfold stagings. set_solver.
Qed.

Lemma swap_blob_rel c0 ns s rest : original_name s ∈ ns -> (empty_delete s = false -> c0 !! staging_name s = None) ->
  triple (swap_rel c0 ns (s :: rest)) (swap_blob s) (fun _ => swap_rel c0 ns rest) (tracked c0 ns).
Proof.
  intros Hn Hs w w' r Hpre H. unfold swap_blob in H. destruct (empty_delete s) eqn:He.
  - destruct (tracked_frame c0 ns _ _ w w' r (delete_if_match_frame _ _) Hn H (proj1 Hpre)) as [Ht Hf]. split; [done|].
    intros a _. split; [done|]. rewrite Hf. destruct Hpre as [_ Hsub]. unfold stagings in *. cbn [List.filter] in Hsub. by rewrite He in Hsub.
  - destruct (sm_bind_cases (on_svc (put_if_match (original_name s) (new_bytes_for_swap s) (scan_etag s))) (fun _ => drop_staging (staging_name s)) w)
      as [(w1 & e & H1 & H2)|(w1 & a & H1 & H2)]; rewrite H2 in H;
      destruct (tracked_frame c0 ns _ _ w w1 _ (put_if_match_frame _ _ _) Hn H1 (proj1 Hpre)) as [Ht Hf].
    + injection H as <- <-. by split.
    + destruct (drop_rel c0 ns s rest w1 He (Hs eq_refl)) as (w2 & Hd & Hr); [split; [done|rewrite Hf; apply Hpre]|].
      rewrite Hd in H. injection H as <- <-. split; [apply Hr|]. by intros _ _.
Qed.

Lemma swap_all_rel c0 ns st : Forall (fun s => original_name s ∈ ns /\ (empty_delete s = false -> c0 !! staging_name s = None)) st ->
  triple (swap_rel c0 ns st) (sm_iter swap_blob st) (fun _ => swap_rel c0 ns []) (tracked c0 ns).
Proof.
  induction 1 as [|s st [Hn Hs] _ IH]; cbn [sm_iter].
  - intros w w' r Hp [= <- <-]. split; [apply Hp|]. by intros _ _.
  - eapply triple_bind; [by apply swap_blob_rel|]. intros []. exact IH.
Qed.

(** Whatever the outcome of a commit: only blobs of the plan's table change,
    all else it wrote is in flight; nothing is in flight when it succeeds. *)
Lemma commit_tracked plan (w w' : World B) a r : w_active w = Some a -> in_flight (active_coord a) = ∅ -> staging_unused plan (cont w) ->
  commit_plan plan w = (w', r) -> tracked (cont w) (map name (blob_table plan)) w' /\ (r = Ok tt -> flight w' = ∅).
Proof.
  intros Ha Hempty Hun H. destruct (stage_all_only_staging plan w a Ha Hempty Hun) as [H0 _].
  assert (forall w1, only_staging (cont w) w1 -> tracked (cont w) (map name (blob_table plan)) w1) as Ht.
  { intros w1 (_ & Hc & Hf). split; [|done]. intros k _. apply Hc. }
  unfold commit_plan in H. assert (triple (staged_rel plan (cont w) []) (stage_all plan) (staged_rel plan (cont w)) (only_staging (cont w))) as Hst.
  { apply triple_fold_rel; [by intros ? ? [? _]|]. intros. by apply stage_blob_rel. }
  assert (staged_rel plan (cont w) [] w) as Hpre. { split; [done|]. split; [|constructor]. unfold flight. rewrite Ha, Hempty. set_solver. }
  destruct (sm_bind_cases (stage_all plan) (fun st => sm_iter swap_blob st) w) as [(w1 & e & H1 & H2)|(w1 & st & H1 & H2)]; rewrite H2 in H;
    destruct (Hst w w1 _ Hpre H1) as [Ho Hp].
  - injection H as <- <-. split; [by apply Ht|done].
  - destruct (Hp st eq_refl) as (Ho1 & Hf1 & Hg). destruct (swap_all_rel (cont w) (map name (blob_table plan)) st Hg w1 w' r) as [Htr Hpost];
      [split; [by apply Ht|done]|done|]. split; [done|]. intros ->. destruct (Hpost tt eq_refl) as [_ Hs]. set_solver.
Qed.
End Commit.

(** ** The end of a statement *)

Section End_.
Context {Y : BytesApi} {B : BlobApi} {L : BlobLaws B} {A : ArrowApi} {R : RoaringApi} {Q : ParquetApi} {P : PgApi} {U : UuidApi}.
Context (iter_order : list PartitionTupleKey -> list PartitionTupleKey) (debug_strs : list str -> str).

Abbreviation cont w := (blobs (w_svc w)).

(** The blobs a statement's state can write. *)
Definition targets (st : FdwModifyState) : list str :=
  match st with
  | InsertVariant i => map snd (map_to_list (target_names i))
  | UpdateVariant p => map name (blob_table p)
  end.

Lemma flush_names (st st' : InsertState) k : flush_group st k = Ok st' -> target_names st' = target_names st.
Proof.
  unfold flush_group. destruct (default O _); [by intros [= <-]|]. intros H.
  apply bind_Ok_inv in H as (? & _ & H). apply bind_Ok_inv in H as (? & _ & H). apply bind_Ok_inv in H as (? & _ & H).
  apply bind_Ok_inv in H as (? & _ & H). apply bind_Ok_inv in H as (? & _ & H). cbn zeta in H. by destruct (_ <? _); [|injection H as <-].
Qed.

Lemma tail_names ks : forall (st st' : InsertState), foldM tail_flush st ks = Ok st' -> target_names st' = target_names st.
Proof.
  intros st st' H. apply (foldM_inv (fun s => target_names s = target_names st)) in H; [done|done|]. intros s k s' E Hf. rewrite <- E.
  unfold tail_flush in Hf. destruct (_ <? _)%nat; [by eapply flush_names|by injection Hf as <-].
Qed.

Lemma upload_groups_frame names es : forall s s' r k, sm_iter (upload_group debug_strs names) es s = (s', r) ->
  k ∉ map snd (map_to_list names) -> blobs s' !! k = blobs s !! k.
Proof.
  induction es as [|[key w] es IH]; intros s s' r k H Hk; cbn [sm_iter] in H; [by injection H as <- _|].
  assert (forall s1 r1, upload_group debug_strs names (key, w) s = (s1, r1) -> blobs s1 !! k = blobs s !! k) as Hone.
  { intros s1 r1 Hu. unfold upload_group in Hu. destruct (names !! key) as [nm|] eqn:E; cbn [ok_or] in Hu; [|by injection Hu as <- _].
    erewrite sm_bind_Ok in Hu; [|done]. destruct (writer_finish w) as [body|e]; [|by injection Hu as <- _]. erewrite sm_bind_Ok in Hu; [|done].
    eapply (writer_upload_frame nm body); [exact Hu|]. intros ->. apply Hk. change (map snd ?l) with (snd <$> l). apply list_elem_of_fmap.
    exists (key, nm). split; [done|]. by apply elem_of_map_to_list. }
  destruct (sm_bind_cases (upload_group debug_strs names (key, w)) (fun _ => sm_iter (upload_group debug_strs names) es) s) as [(s1 & e & H1 & H2)|(s1 & a & H1 & H2)];
    rewrite H2 in H.
  - injection H as <- _. by eapply Hone.
  - rewrite (IH _ _ _ _ H Hk). by eapply Hone.
Qed.

Lemma finalize_frame st s s' r k : finalize_and_upload iter_order debug_strs st s = (s', r) -> k ∉ targets (InsertVariant st) -> blobs s' !! k = blobs s !! k.
Proof.
  intros H Hk. unfold finalize_and_upload in H. destruct (foldM tail_flush st _) as [st1|e] eqn:E; [|by injection H as <- _].
  erewrite sm_bind_Ok in H; [|done]. eapply upload_groups_frame; [exact H|]. by rewrite (tail_names _ _ _ E).
Qed.

Lemma close_frame (w : World B) : cont (close_statement_success w) = cont w /\ w_active (close_statement_success w) = None.
Proof. unfold close_statement_success. destruct (w_active w) eqn:E; [|done]. by destruct (coordinator_is_empty _). Qed.

(** The end of a statement in a transaction that has not failed. *)
Lemma end_tracked st (w w' : World B) a r : w_active w = Some a -> in_flight (active_coord a) = ∅ ->
  match st with UpdateVariant p => staging_unused p (cont w) | InsertVariant _ => True end ->
  end_foreign_modify iter_order debug_strs false (Some st) w = (w', r) ->
  tracked (cont w) (targets st) w' /\ (r = Ok tt -> w_active w' = None).
Proof.
  intros Ha Hempty Hun H. cbn [end_foreign_modify] in H.
  match type of H with (?m ≫= ?f) w = _ => destruct (sm_bind_cases m f w) as [(w1 & e & H1 & H2)|(w1 & [] & H1 & H2)]; rewrite H2 in H end.
  - injection H as <- <-. split; [|done]. destruct st as [i|p]; [|by destruct (commit_tracked p w w1 a (Err e))].
    apply on_svc_frame in H1 as (H1 & Hact & _). assert (flight w1 = ∅) as Hf by (unfold flight; by rewrite Hact, Ha).
    split; rewrite Hf; [|set_solver]. intros k Hk _. by eapply finalize_frame.
  - injection H as <- <-. destruct (close_frame w1) as [Hc Hn]. split; [|done]. assert (flight (close_statement_success w1) = ∅) as Hf by (unfold flight; by rewrite Hn).
    split; rewrite Hf; [|set_solver]. intros k Hk _. rewrite Hc. destruct st as [i|p].
    + apply on_svc_frame in H1 as (H1 & _). by eapply finalize_frame.
    + destruct (commit_tracked p w w1 a (Ok tt)) as [[Ht _] Hfl]; [done..|]. apply Ht; [done|]. rewrite Hfl by done. set_solver.
Qed.
End End_.

(** ** The backend *)

Section Session.
Context {Y : BytesApi} {B : BlobApi} {A : ArrowApi} {R : RoaringApi} {Q : ParquetApi} {P : PgApi} {U : UuidApi}.
Context (iter_order : list PartitionTupleKey -> list PartitionTupleKey) (debug_strs : list str -> str).

(** [ses_state] holds the [ri_FdwState] pointers that are not null, by result
    relation; [ses_failed] is set from an error to the end of the
    transaction. *)
Record Session := mkSession {
  ses_world : World B;
  ses_handoff : Handoff;
  ses_state : gmap nat FdwModifyState;
  ses_failed : bool;
}.

(** The calls the executor and the transaction manager make.  The arguments of
    a call are those of the callback's model. *)
Inductive Event :=
| EvBegin (rel : nat) (explain_only : bool) (op : CmdType) (cmd_text : str)
    (build_insert : FdwResult InsertState) (build_update : bool -> SM Handoff ModifyPlan)
| EvInsert (rel : nat) (fresh : Fresh) (slot : list (Datum * bool))
| EvUpdate (rel : nat) (slot : list (Datum * bool)) (ps : PlanSlot)
| EvDelete (rel : nat) (ps : PlanSlot)
| EvEnd (rel : nat)
| EvXact (event : XactEvent).

(** [take_state] on the slot of a result relation. *)
Definition take_state (rel : nat) (states : gmap nat FdwModifyState) : gmap nat FdwModifyState * option FdwModifyState :=
  (delete rel states, states !! rel).

Definition after_row (s : Session) (rel : nat) (r : FdwResult FdwModifyState) : Session :=
  match r with
  | Ok st => mkSession (ses_world s) (ses_handoff s) (<[rel := st]> (ses_state s)) (ses_failed s)
  | Err _ => mkSession (ses_world s) (ses_handoff s) (ses_state s) true
  end.

Definition ends_transaction (event : XactEvent) : bool :=
  match event with
  | XACT_EVENT_COMMIT | XACT_EVENT_PARALLEL_COMMIT | XACT_EVENT_ABORT | XACT_EVENT_PARALLEL_ABORT => true
  | _ => false
  end.

Definition ses_step (e : Event) (s : Session) : Session :=
  match e with
  | EvBegin rel explain op txt bi bu =>
      match begin_foreign_modify explain op txt bi bu (ses_world s, ses_handoff s) with
      | ((w, h), Ok None) => mkSession w h (ses_state s) (ses_failed s)
      | ((w, h), Ok (Some st)) => mkSession w h (<[rel := st]> (ses_state s)) (ses_failed s)
      | ((w, h), Err _) => mkSession w h (ses_state s) true
      end
  | EvInsert rel fresh slot => after_row s rel (exec_foreign_insert iter_order (ses_state s !! rel) fresh slot)
  | EvUpdate rel slot ps => after_row s rel (update_callback (ses_state s !! rel) slot ps)
  | EvDelete rel ps => after_row s rel (delete_callback (ses_state s !! rel) ps)
  | EvEnd rel =>
      let '(states, st) := take_state rel (ses_state s) in
      let '(w, r) := end_foreign_modify iter_order debug_strs (ses_failed s) st (ses_world s) in
      mkSession w (ses_handoff s) states (ses_failed s || negb (is_ok r))
  | EvXact event =>
      mkSession (xact_cb event (ses_world s)) (ses_handoff s)
        (if ends_transaction event then ∅ else ses_state s) (if ends_transaction event then false else ses_failed s)
  end.

(** The order Postgres keeps for statements with one modify target: rows and
    the end follow a begin, nothing but the end follows an error, a commit
    comes between statements and an abort at any time.  The blobs a statement
    writes do not have names of staging blobs. *)
Inductive allowed (s : Session) : Event -> Prop :=
| allow_begin rel explain op txt bi bu : ses_failed s = false -> ses_state s = ∅ -> allowed s (EvBegin rel explain op txt bi bu)
| allow_insert rel fresh slot : ses_failed s = false -> is_Some (ses_state s !! rel) -> allowed s (EvInsert rel fresh slot)
| allow_update rel slot ps : ses_failed s = false -> is_Some (ses_state s !! rel) -> allowed s (EvUpdate rel slot ps)
| allow_delete rel ps : ses_failed s = false -> is_Some (ses_state s !! rel) -> allowed s (EvDelete rel ps)
| allow_end rel st : ses_state s !! rel = Some st -> Forall (fun n => is_staging_name n = false) (targets st) -> allowed s (EvEnd rel)
| allow_commit event : ses_failed s = false -> ses_state s = ∅ -> allowed s (EvXact event)
| allow_abort : allowed s (EvXact XACT_EVENT_ABORT).

Inductive reachable (s0 : Session) : Session -> Prop :=
| reach_start : reachable s0 s0
| reach_step s e : reachable s0 s -> allowed s e -> reachable s0 (ses_step e s).

(** A backend between transactions. *)
Definition starts_clean (s0 : Session) : Prop :=
  ses_failed s0 = false /\ ses_state s0 = ∅ /\ w_active (ses_world s0) = None.
End Session.

Section Invariant.
Context {Y : BytesApi} {B : BlobApi} {L : BlobLaws B} {A : ArrowApi} {R : RoaringApi} {Q : ParquetApi} {P : PgApi} {U : UuidApi}.
Context (iter_order : list PartitionTupleKey -> list PartitionTupleKey) (debug_strs : list str -> str).

Abbreviation ses_cont s := (blobs (w_svc (ses_world s))).
Abbreviation step := (ses_step iter_order debug_strs).

(** No staging name this backend's uuid source can draw is taken. *)
Definition undrawn (c0 : Container) : Prop := forall i n, c0 !! make_staging_name (uuid_simple i) n = None.

(** Nothing is in flight outside of a failed transaction, everything in flight
    is new, and all other staging names are as in [c0]; an open statement has
    the coordinator. *)
Record session_inv (c0 : Container) (s : Session) : Prop := {
  inv_kept : forall k, is_staging_name k = true -> k ∉ flight (ses_world s) -> ses_cont s !! k = c0 !! k;
  inv_new : forall k, k ∈ flight (ses_world s) -> c0 !! k = None /\ is_staging_name k = true;
  inv_flight : ses_failed s = false -> flight (ses_world s) = ∅;
  inv_open : ses_failed s = false -> ses_state s = ∅ \/ exists rel st, ses_state s = {[rel := st]} /\ is_Some (w_active (ses_world s));
}.

(** A step that keeps the world. *)
Lemma inv_same c0 s s' : ses_world s' = ses_world s -> (ses_failed s' = false -> ses_failed s = false) ->
  (ses_failed s' = false -> ses_state s' = ∅ \/ exists rel st, ses_state s' = {[rel := st]} /\ is_Some (w_active (ses_world s))) ->
  session_inv c0 s -> session_inv c0 s'.
Proof. intros Ew Ef Eo [Hk Hn Hf _]. split; rewrite Ew; auto. Qed.

Lemma begin_cases explain op txt bi bu (w : World B) h r : begin_foreign_modify explain op txt bi bu (w, h) = r ->
  (fst (fst r) = w /\ forall st, snd r <> Ok (Some st)) \/ exists st cl, fst (fst r) = open_statement cl w /\ snd r = Ok (Some st).
Proof.
  intros <-. unfold begin_foreign_modify. destruct explain; [by left|].
  match goal with |- context [let '(h, state) := ?x in _] => destruct x as [h' [st|e]] end; [right; by eexists _, _|by left].
Qed.

Lemma open_frame cl (w : World B) :
  blobs (w_svc (open_statement cl w)) = blobs (w_svc w) /\ flight (open_statement cl w) = ∅ /\ is_Some (w_active (open_statement cl w)).
Proof. unfold open_statement. destruct (w_active w); (split; [done|]; split; [done|]; by eexists). Qed.

Lemma inv_begin c0 s rel explain op txt bi bu : ses_failed s = false -> ses_state s = ∅ -> session_inv c0 s ->
  session_inv c0 (step (EvBegin rel explain op txt bi bu) s).
Proof.
  intros Hfail Hst Hi. pose proof (inv_flight _ _ Hi Hfail) as Hfl. cbn [ses_step].
  destruct (begin_foreign_modify explain op txt bi bu (ses_world s, ses_handoff s)) as [[w h] r] eqn:Eb.
  destruct (begin_cases _ _ _ _ _ _ _ _ Eb) as [[Hw Hr]|(st & cl & Hw & Hr)]; cbn [fst snd] in Hw, Hr; subst w.
  { destruct r as [[st|]|e]; [by destruct (Hr st)|by apply (inv_same c0 s); cbn; auto|by apply (inv_same c0 s); cbn; auto]. }
  subst r. rewrite Hst, insert_empty. destruct Hi as [Hk Hn _ _].
  destruct (open_frame cl (ses_world s)) as (Hc & Hf & Ha). split; cbn [ses_world ses_failed ses_state].
  - intros k Hs _. rewrite Hc. apply Hk; [done|]. rewrite Hfl. set_solver.
  - rewrite Hf. set_solver.
  - done.
  - intros _. right. by exists rel, st.
Qed.

Lemma inv_row c0 s rel r : ses_failed s = false -> is_Some (ses_state s !! rel) -> session_inv c0 s -> session_inv c0 (after_row s rel r).
Proof.
  intros Hfail [st Hs] Hi. destruct r as [st'|e]; cbn; apply (inv_same c0 s); cbn; auto; [|done]. intros _. right.
  destruct (inv_open _ _ Hi Hfail) as [E|(rel' & st0 & E & Ha)]; rewrite E in Hs; [done|]. apply lookup_singleton_Some in Hs as [-> ->].
  exists rel, st'. split; [by rewrite E, insert_singleton_eq|done].
Qed.

(** The end of an open statement: the names it may change and what it leaves
    in flight. *)
Lemma inv_end_tracked c0 s rel st w' r : undrawn c0 -> session_inv c0 s -> ses_failed s = false -> ses_state s !! rel = Some st ->
  end_foreign_modify iter_order debug_strs false (Some st) (ses_world s) = (w', r) ->
  tracked (ses_cont s) (targets st) w' /\ (r = Ok tt -> w_active w' = None) /\ ses_state s = {[rel := st]}.
Proof.
  intros Hun Hi Hfail Hs H. pose proof (inv_flight _ _ Hi Hfail) as Hfl.
  destruct (inv_open _ _ Hi Hfail) as [E|(rel' & st0 & E & [a Ha])]; rewrite E in Hs; [done|]. apply lookup_singleton_Some in Hs as [-> ->].
  assert (in_flight (active_coord a) = ∅) as Hempty by (unfold flight in Hfl; by rewrite Ha in Hfl).
  destruct (end_tracked iter_order debug_strs st (ses_world s) w' a r Ha Hempty) as [Ht Hok]; [|exact H|done].
  destruct st as [i|p]; [done|]. intros i e _. rewrite (inv_kept _ _ Hi); [apply Hun|apply make_staging_name_staging|rewrite Hfl; set_solver].
Qed.

Lemma inv_end c0 s rel st : undrawn c0 -> ses_state s !! rel = Some st -> Forall (fun n => is_staging_name n = false) (targets st) ->
  session_inv c0 s -> session_inv c0 (step (EvEnd rel) s).
Proof.
  intros Hun Hs Hvis Hi. cbn [ses_step]. unfold take_state. rewrite Hs. destruct (ses_failed s) eqn:Hfail.
  { cbn. by apply (inv_same c0 s). }
  destruct (end_foreign_modify _ _ _ _ _) as [w' r] eqn:Eend. destruct (inv_end_tracked c0 s rel st w' r Hun Hi Hfail Hs Eend) as ([Hc Hnew] & Hok & E).
  pose proof (inv_flight _ _ Hi Hfail) as Hfl. destruct Hi as [Hk Hn _ _].
  assert (forall k, is_staging_name k = true -> ses_cont s !! k = c0 !! k) as Hk0 by (intros k Hks; apply Hk; [done|rewrite Hfl; set_solver]).
  split; cbn [ses_world ses_failed ses_state].
  - intros k Hks Hkf. rewrite Hc; [by apply Hk0| |done]. intros Hin. rewrite Forall_forall in Hvis. specialize (Hvis k Hin). congruence.
  - intros k Hkf. destruct (Hnew k Hkf) as [Hkn Hks]. split; [by rewrite <- Hk0|done].
  - intros Hr. destruct r as [[]|e]; [|done]. unfold flight. by rewrite Hok.
  - intros _. left. by rewrite E, delete_singleton_eq.
Qed.

(** With nothing in flight the callback changes no blob. *)
Lemma xact_frame event (w : World B) : flight w = ∅ -> blobs (w_svc (xact_cb event w)) = blobs (w_svc w) /\ flight (xact_cb event w) = ∅.
Proof.
  intros Hfl. unfold xact_cb. unfold flight in Hfl |- *. destruct (w_active w) as [a|] eqn:Ha;
    destruct event; cbn; rewrite ?Ha; cbn; try done; unfold coordinator_is_empty; rewrite Hfl, bool_decide_eq_true_2 by done; done.
Qed.

Lemma inv_xact c0 s event : session_inv c0 s -> (ses_failed s = false /\ ses_state s = ∅ \/ event = XACT_EVENT_ABORT) -> session_inv c0 (step (EvXact event) s).
Proof.
  intros Hi Hor. assert (event = XACT_EVENT_ABORT -> session_inv c0 (step (EvXact event) s)) as Habort.
  { intros ->. destruct Hi as [Hk Hn _ _]. cbn [ses_step ends_transaction].
    assert (flight (xact_cb XACT_EVENT_ABORT (ses_world s)) = ∅) as Hf.
    { destruct (w_active (ses_world s)) as [a|] eqn:Ha; [|unfold xact_cb, flight; cbn; by rewrite Ha, Ha].
      unfold flight. by rewrite (proj1 (xact_abort_sweeps (ses_world s) a [] Ha)). }
    split; cbn [ses_world ses_failed ses_state]; [|rewrite Hf; set_solver|done|by left].
    intros k Hks _. destruct (w_active (ses_world s)) as [a|] eqn:Ha; [|unfold xact_cb; cbn; rewrite Ha; apply Hk; [done|unfold flight; rewrite Ha; set_solver]].
    rewrite (xact_abort_spec _ a k Ha). unfold flight in Hk, Hn. rewrite Ha in Hk, Hn. case_bool_decide as Hin; [by destruct (Hn k Hin)|by apply Hk]. }
  destruct Hor as [[Hfail Hst] | ->]; [|by apply Habort]. clear Habort.
  destruct (xact_frame event (ses_world s) (inv_flight _ _ Hi Hfail)) as [Hc Hf]. destruct Hi as [Hk Hn Hfl _]. cbn [ses_step]. split; cbn [ses_world ses_failed ses_state].
  - intros k Hks _. rewrite Hc. apply Hk; [done|]. rewrite Hfl by done. set_solver.
  - rewrite Hf. set_solver.
  - done.
  - intros _. left. by destruct (ends_transaction event).
Qed.

Lemma inv_reachable c0 s0 s : undrawn c0 -> ses_cont s0 = c0 -> starts_clean s0 -> reachable iter_order debug_strs s0 s -> session_inv c0 s.
Proof.
  intros Hun <- (Hf & Hst & Ha). induction 1 as [|s e _ IH Hal].
  - assert (flight (ses_world s0) = ∅) as E by (unfold flight; by rewrite Ha). split; rewrite ?E; [done|set_solver|done|by left].
  - inversion Hal; subst; [by apply inv_begin|by apply inv_row|by apply inv_row|by apply inv_row|by eapply inv_end|apply inv_xact; auto|apply inv_xact; auto].
Qed.
End Invariant.

(** ** What every run guarantees *)

Section Claims.
Context {Y : BytesApi} {B : BlobApi} {L : BlobLaws B} {A : ArrowApi} {R : RoaringApi} {Q : ParquetApi} {P : PgApi} {U : UuidApi}.
Context (iter_order : list PartitionTupleKey -> list PartitionTupleKey) (debug_strs : list str -> str).

Abbreviation ses_cont s := (blobs (w_svc (ses_world s))).
Abbreviation step := (ses_step iter_order debug_strs).

Lemma abort_frame (w : World B) k : is_staging_name k = false -> (forall n, n ∈ flight w -> is_staging_name n = true) ->
  w_active (xact_cb XACT_EVENT_ABORT w) = None /\ blobs (w_svc (xact_cb XACT_EVENT_ABORT w)) !! k = blobs (w_svc w) !! k.
Proof.
  intros Hk Hf. destruct (w_active w) as [a|] eqn:Ha; [|unfold xact_cb; cbn; by rewrite Ha].
  destruct (xact_abort_sweeps w a k Ha) as (Hn & _ & Hc). split; [exact Hn|]. rewrite Hc.
  case_bool_decide as Hin; [|done]. rewrite (Hf k) in Hk; [done|]. unfold flight. by rewrite Ha.
Qed.

(** C8: However the statements and transactions of a backend follow each other
    in which every query has one modify target at a time, no statement names a
    staging blob as its target and no savepoint is used ([allowed]; without
    either staging blobs are left behind, see [SessionDemo.two_targets_leak]
    and [savepoint_leak]), on a service that fails no request whose condition
    holds: while the transaction has not failed nothing is in flight and the
    container holds no staging blob it did not hold at the start; and whenever
    the transaction aborts, after whatever error, the slot and the open
    statements are gone, every staging blob the backend made is gone and every
    other blob is as it was before the abort. *)
Theorem session_clean (s0 s : Session) : undrawn (ses_cont s0) -> starts_clean s0 -> reachable iter_order debug_strs s0 s ->
  (ses_failed s = false -> flight (ses_world s) = ∅ /\ forall k, is_staging_name k = true -> ses_cont s !! k = ses_cont s0 !! k) /\
  let s' := step (EvXact XACT_EVENT_ABORT) s in
  ses_failed s' = false /\ ses_state s' = ∅ /\ w_active (ses_world s') = None /\
  forall k, ses_cont s' !! k = if is_staging_name k then ses_cont s0 !! k else ses_cont s !! k.
Proof.
  intros Hun Hst Hr. pose proof (inv_reachable _ _ _ s0 s Hun eq_refl Hst Hr) as Hi. split.
  - intros Hf. pose proof (inv_flight _ _ Hi Hf) as E. split; [exact E|]. intros k Hk. apply (inv_kept _ _ Hi); [exact Hk|]. rewrite E. set_solver.
  - assert (session_inv (ses_cont s0) (step (EvXact XACT_EVENT_ABORT) s)) as Hi' by (apply inv_xact; auto).
    pose proof (fun k Hk => abort_frame (ses_world s) k Hk (fun n Hn => proj2 (inv_new _ _ Hi n Hn))) as Hfr.
    split; [reflexivity|]. split; [reflexivity|]. split; [exact (proj1 (Hfr [] eq_refl))|]. intros k. destruct (is_staging_name k) eqn:Hk; [|exact (proj2 (Hfr k Hk))].
    apply (inv_kept _ _ Hi'); [exact Hk|]. rewrite (inv_flight _ _ Hi' eq_refl). set_solver.
Qed.

(** C9: A call of the executor or of the transaction manager that changes a
    blob, other than a staging blob, is the end of an open statement of a
    transaction that has not failed, and the blob is one the statement's
    state names: nothing is written while rows arrive, by EXPLAIN, after an
    error, or by a commit or an abort. *)
Theorem writes_only_at_end (s0 s : Session) e k : undrawn (ses_cont s0) -> starts_clean s0 -> reachable iter_order debug_strs s0 s -> allowed s e ->
  is_staging_name k = false -> ses_cont (step e s) !! k <> ses_cont s !! k ->
  exists rel st, e = EvEnd rel /\ ses_failed s = false /\ ses_state s !! rel = Some st /\ k ∈ targets st.
Proof.
  intros Hun Hst Hr Hal Hk Hne. pose proof (inv_reachable _ _ _ s0 s Hun eq_refl Hst Hr) as Hi.
  inversion Hal as [rel ex op txt bi bu Hf Hs|rel fr sl Hf Hs|rel sl ps Hf Hs|rel ps Hf Hs|rel st Hs Hv|ev Hf Hs|]; subst; [exfalso; apply Hne..| |exfalso; apply Hne|exfalso; apply Hne].
  - cbn [ses_step]. destruct (begin_foreign_modify ex op txt bi bu (ses_world s, ses_handoff s)) as [[w h] r] eqn:Eb.
    assert (blobs (w_svc w) = ses_cont s) as Hw.
    { destruct (begin_cases _ _ _ _ _ _ _ _ Eb) as [[Hw _]|(st & cl & Hw & _)]; cbn [fst] in Hw; subst w; [reflexivity|apply open_frame]. }
    by destruct r as [[st|]|er]; cbn; rewrite Hw.
  - cbn [ses_step]. by destruct (exec_foreign_insert _ _ _ _).
  - cbn [ses_step]. by destruct (update_callback _ _ _).
  - cbn [ses_step]. by destruct (delete_callback _ _).
  - exists rel, st. split; [reflexivity|]. cbn [ses_step] in Hne. unfold take_state in Hne. rewrite Hs in Hne. destruct (ses_failed s) eqn:Hfail; [by destruct Hne|].
    split; [reflexivity|]. split; [exact Hs|]. destruct (end_foreign_modify _ _ _ _ _) as [w' r] eqn:Eend.
    destruct (inv_end_tracked _ _ _ _ _ _ _ _ Hun Hi Hfail Hs Eend) as ([Hc Hnew] & _). destruct (decide (k ∈ targets st)) as [Hin|Hin]; [exact Hin|].
    destruct Hne. apply Hc; [exact Hin|]. intros Hfl. destruct (Hnew k Hfl). congruence.
  - cbn [ses_step]. by rewrite (proj1 (xact_frame ev (ses_world s) (inv_flight _ _ Hi Hf))).
  - apply (abort_frame (ses_world s) k Hk). intros n Hn. by apply (inv_new _ _ Hi).
Qed.
End Claims.
