(* ===== verification/SessionDemo.v ===== *)
(** * Backend sessions on a concrete container. *)

From S2P Require Import Prelude RustStr Redact Errors RowId Options Externals Kernel Convert BlobService Store Handoff Coordinator ParquetIO Modify PlanFacts CommitFacts CommitDemo ModifyStatement ModifyClaims ModifyDemo Partition ScanPlan Parallel Insert Session.
Local Open Scope Z_scope.

Abbreviation demo_session := (Session (Y := ref_bytes) (B := ref_blob (Y := ref_bytes)) (A := ref_arrow) (R := ref_roaring)).
Abbreviation demo_step := (ses_step (Y := ref_bytes) (B := ref_blob (Y := ref_bytes)) (fun l => l) (fun _ => [])).
Abbreviation demo_event := (Event (Y := ref_bytes) (A := ref_arrow) (R := ref_roaring)).

Definition run_events (es : list demo_event) (s : demo_session) : demo_session := foldl (fun s e => demo_step e s) s es.

Definition demo_start (c : gmap str (str * RefFile)) : demo_session :=
  mkSession (mkWorld (B := ref_blob (Y := ref_bytes)) c None 0 []) ∅ ∅ false.

(** DELETE on [demo_files], as the result relation [rel]. *)
Definition begin_delete (rel : nat) : demo_event :=
  EvBegin rel false CMD_DELETE [] (Err (SchemaMismatch [])) (fun is_delete h => (h, Ok (stmt_plan is_delete))).

Definition staging_names_of (s : demo_session) : list str := List.filter is_staging_name (map fst (map_to_list (blobs (w_svc (ses_world s))))).

(** Another client has replaced [b] since the scan. *)
Definition demo_stale : gmap str (str * RefFile) := <[lit "b.parquet" := (lit "e9", (SNAPPY, [stmt_batch_b]))]> demo_files.

(** A DELETE of row 0 of [a] and row 0 of [b]; the commit stages [a] and finds
    [b] replaced. *)
Definition failing_delete : list demo_event :=
  [begin_delete 0; EvDelete 0 (demo_slot 0 0); EvDelete 0 (demo_slot 1 0); EvEnd 0].

Lemma demo_undrawn (c : gmap str (str * RefFile)) : bool_decide (map_Forall (fun k _ => is_staging_name k = false) c) = true ->
  undrawn (Y := ref_bytes) (blobs (w_svc (ses_world (demo_start c)))).
Proof.
  intros H%bool_decide_eq_true i n. destruct (blobs _ !! _) as [v|] eqn:E; [|done]. apply H in E. by rewrite make_staging_name_staging in E.
Qed.

Lemma allowed_delete_row rel ps (s : demo_session) : (ses_failed s, bool_decide (is_Some (ses_state s !! rel))) = (false, true) -> allowed s (EvDelete rel ps).
Proof. intros [= Hf Hs%bool_decide_eq_true]. by constructor. Qed.

Lemma allowed_end rel (s : demo_session) :
  match ses_state s !! rel with Some st => forallb (fun n => negb (is_staging_name n)) (targets st) | None => false end = true -> allowed s (EvEnd rel).
Proof.
  destruct (ses_state s !! rel) as [st|] eqn:E; [|done]. intros H. apply (allow_end s rel st E), Forall_forall. intros n Hn.
  rewrite forallb_forall in H. apply negb_true_iff, H. by apply list_elem_of_In.
Qed.


Lemma failing_reachable k : (k <= 4)%nat -> reachable (fun l => l) (fun _ => []) (demo_start demo_stale) (run_events (take k failing_delete) (demo_start demo_stale)).
Proof.
  intros Hk. assert (forall e s, reachable (fun l => l) (fun _ => []) (demo_start demo_stale) s -> allowed s e ->
    reachable (fun l => l) (fun _ => []) (demo_start demo_stale) (demo_step e s)) as Hs by (intros; by apply reach_step).
  destruct k as [|[|[|[|[|k]]]]]; cbn [take failing_delete run_events foldl]; [..|lia].
  all: repeat (apply Hs; [|first [by apply allow_begin | apply allowed_delete_row; vm_compute; reflexivity | apply allowed_end; vm_compute; reflexivity]]); apply reach_start.
Qed.

(** The failed DELETE: its staging blob is there until the abort, then the
    container is as before. *)
Lemma session_clean_witness : let s := run_events failing_delete (demo_start demo_stale) in
  ses_failed s = true /\ length (staging_names_of s) = 1%nat /\
  forall k, blobs (w_svc (ses_world (demo_step (EvXact XACT_EVENT_ABORT) s))) !! k = if is_staging_name k then demo_stale !! k else blobs (w_svc (ses_world s)) !! k.
Proof.
  intros s. split; [vm_compute; reflexivity|]. split; [vm_compute; reflexivity|].
  refine (proj2 (proj2 (proj2 (proj2 (session_clean (fun l => l) (fun _ => []) (demo_start demo_stale) s (demo_undrawn demo_stale _) _ (failing_reachable 4 _)))))).
  - vm_compute. reflexivity.
  - by repeat split.
  - lia.
Defined.

(** The same DELETE without the other client: its end writes [a]. *)
Definition deleting : list demo_event := [begin_delete 0; EvDelete 0 (demo_slot 0 0)].

Lemma writes_only_at_end_witness : let s := run_events deleting (demo_start demo_files) in
  blobs (w_svc (ses_world (demo_step (EvEnd 0) s))) !! lit "a.parquet" <> blobs (w_svc (ses_world s)) !! lit "a.parquet" /\
  exists rel st, @eq demo_event (EvEnd 0) (EvEnd rel) /\ ses_failed s = false /\ ses_state s !! rel = Some st /\ lit "a.parquet" ∈ targets st.
Proof.
  intros s. assert (blobs (w_svc (ses_world (demo_step (EvEnd 0) s))) !! lit "a.parquet" <> blobs (w_svc (ses_world s)) !! lit "a.parquet") as Hne by (vm_compute; discriminate).
  split; [exact Hne|]. refine (writes_only_at_end (fun l => l) (fun _ => []) (demo_start demo_files) s (EvEnd 0) (lit "a.parquet") (demo_undrawn demo_files _) _ _ _ eq_refl Hne).
  - vm_compute. reflexivity.
  - by repeat split.
  - apply reach_step; [apply reach_step; [apply reach_start|]|]; [by apply allow_begin|apply allowed_delete_row; vm_compute; reflexivity].
  - apply allowed_end. vm_compute. reflexivity.
Defined.

(** ** What the order of [allowed] does not cover *)

(** One query with two modify targets: both statements begin before either
    ends.  The end of the first closes the coordinator of the second; the
    second fails after it staged [a], and the abort finds no coordinator. *)
Definition two_targets : list demo_event :=
  [begin_delete 0; begin_delete 1; EvDelete 0 (demo_slot 2 0); EvDelete 1 (demo_slot 0 0); EvDelete 1 (demo_slot 1 0); EvEnd 0; EvEnd 1].

Lemma two_targets_leak : let s := run_events two_targets (demo_start demo_stale) in
  ses_failed s = true /\ w_active (ses_world s) = None /\
  let s' := demo_step (EvXact XACT_EVENT_ABORT) s in
  ses_failed s' = false /\ length (staging_names_of (demo_start demo_stale)) = 0%nat /\ length (staging_names_of s') = 1%nat.
Proof. vm_compute. repeat split. Qed.

(** [BEGIN; DELETE ..; ROLLBACK]: the statement ends, and writes, before the
    ROLLBACK arrives; the abort takes nothing back. *)
Lemma rollback_keeps_update : let s := run_events (deleting ++ [EvEnd 0]) (demo_start demo_files) in
  ses_failed s = false /\ blobs (w_svc (ses_world s)) !! lit "a.parquet" <> demo_files !! lit "a.parquet" /\
  blobs (w_svc (ses_world (demo_step (EvXact XACT_EVENT_ABORT) s))) = blobs (w_svc (ses_world s)).
Proof.
  split; [vm_compute; reflexivity|]. split; [vm_compute; discriminate|]. vm_compute. reflexivity.
Qed.

(** An error caught by a savepoint or an exception block: its subtransaction is
    rolled back and the transaction goes on.  The callback is registered for
    transactions only, so nothing of this library is called. *)
Definition roll_back_to_savepoint (s : demo_session) : demo_session := mkSession (ses_world s) (ses_handoff s) ∅ false.

(** The commit of the transaction then drops what is registered without
    removing it. *)
Lemma savepoint_leak : let s := roll_back_to_savepoint (run_events failing_delete (demo_start demo_stale)) in
  flight (ses_world s) <> ∅ /\
  let s' := demo_step (EvXact XACT_EVENT_COMMIT) s in
  ses_failed s' = false /\ w_active (ses_world s') = None /\ length (staging_names_of s') = 1%nat.
Proof. split; [vm_compute; discriminate|]. vm_compute. repeat split. Qed.
