(* ===== verification/InsertPaths.v ===== *)
(** * Where INSERT puts its blobs.

    The name given to a group's blob carries the partition values, so reading
    it back with [partition_values_from_path] must return them; and it must
    be matched by the [filename] pattern of the table, or the rows could not
    be seen again.  Both hold for the patterns [dir/*/.../*suffix]; for a
    pattern such as [dir/pre*] the second one fails, and a value with [.tmp.] in it
    makes the name one of a staging blob. *)

From S2P Require Import Prelude RustStr Redact Errors Options Externals Kernel Convert BlobService Store Handoff Coordinator ParquetIO Modify Pushdown PushdownFacts Partition Glob MultiFile Scan ScanPlan Parallel Insert.
Local Open Scope Z_scope.

Lemma ends_with_slash a b : "/"%char ∉ b -> b <> [] -> ends_with "/" (a ++ b) = false.
Proof.
  intros Hb Hne. destruct (ends_with "/" (a ++ b)) eqn:E; [|done]. apply ends_with_true in E as [r E].
  destruct (rev b) as [|x t] eqn:Er; [apply (f_equal (@rev _)) in Er; rewrite rev_involutive in Er; done|].
  apply (f_equal (@rev _)) in Er. rewrite rev_involutive in Er. subst b. cbn [rev] in *.
  rewrite (assoc_L (++)) in E. apply app_inj_2 in E as [_ E]; [|done]. injection E as ->. exfalso. apply Hb.
  apply elem_of_app. right. by left.
Qed.

Lemma trim_end_none p : ends_with "/" p = false -> trim_end_matches "/" p = p.
Proof.
  induction p as [|a p IH]; intros H; [done|]. cbn. destruct p as [|b p].
  - cbn. destruct (ascii_eqb "/" a) eqn:E; [|done]. apply ascii_eqb_eq in E as <-. vm_compute in H. discriminate H.
  - rewrite IH; [done|]. destruct (ends_with "/" (b :: p)) eqn:E; [|done]. apply ends_with_true in E as [r E].
    rewrite <- H. symmetry. apply ends_with_true. exists (a :: r). by rewrite E.
Qed.

(** A directory followed by its '/'. *)
Lemma trim_slash p : ends_with "/" p = false -> trim_end_matches "/" (p ++ lit "/") = p.
Proof.
  induction p as [|a p IH]; intros He; [done|]. cbn [app trim_end_matches]. destruct p as [|b p].
  - cbn. destruct (ascii_eqb "/" a) eqn:E; [|done]. apply ascii_eqb_eq in E as <-. vm_compute in He. discriminate He.
  - rewrite IH; [done|]. destruct (ends_with "/" (b :: p)) eqn:E; [|done]. apply ends_with_true in E as [r E].
    rewrite <- He. symmetry. apply ends_with_true. exists (a :: r). by rewrite E.
Qed.

Lemma find_star p rest : Forall (fun c => is_wild c = false) p -> find_char (ascii_eqb "*") (p ++ "*"%char :: rest) = Some (length p).
Proof.
  induction 1 as [|c p Hc _ IH]; [done|]. cbn [app find_char length]. rewrite IH. unfold is_wild in Hc. apply orb_false_iff in Hc as [Hc _].
  destruct (ascii_eqb "*" c) eqn:E; [apply ascii_eqb_eq in E as <-; by rewrite ascii_eqb_refl in Hc|done].
Qed.

Lemma eq_ignore_refl s : eq_ignore_ascii_case s s = true.
Proof. by apply str_eqb_eq. Qed.

Section Paths.
Context {Y : BytesApi} {B : BlobApi} {A : ArrowApi} {R : RoaringApi} {Q : ParquetApi} {P : PgApi} {U : UuidApi}.
Context (decl : Declared).

(** The component of the path for the column [d]. *)
Definition seg (d : str * PgPartitionType) (v : str) : str := d.1 ++ "=" ++ v.

(** A value as [datum_to_partition_string] can render it: one component. *)
Definition plain (v : str) : Prop := v <> [] /\ ("/"%char ∉ v).

(** A column name that can be found again. *)
Definition findable (d : str * PgPartitionType) : Prop :=
  ("/"%char ∉ d.1) /\ ("="%char ∉ d.1) /\ declared_name decl d.1 = Some d.1.

Lemma seg_no_slash d v : "/"%char ∉ d.1 -> "/"%char ∉ v -> "/"%char ∉ seg d v.
Proof.
  intros Hd Hv. unfold seg. intros [Hi|[Hi|Hi]%elem_of_app]%elem_of_app; [done| |done].
  apply list_elem_of_singleton in Hi. discriminate Hi.
Qed.

Lemma binding_of_seg d v : findable d -> segment_binding decl (seg d v) = Some (d.1, v).
Proof.
  intros (_ & Heq & Hd). unfold segment_binding.
  assert (split_once "=" (seg d v) = Some (d.1, v)) as ->; [|cbn; by rewrite Hd].
  by apply split_once_Some.
Qed.

Lemma push_segment_eq path i d v : decl !! i = Some d ->
  push_segment decl path (i, v)
  = if str_eqb path [] then seg d v else if ends_with "/" path then path ++ seg d v else path ++ "/" ++ seg d v.
Proof.
  intros Hd. unfold push_segment. rewrite Hd. cbn [fmap option_fmap option_map default].
  destruct (str_eqb path []) eqn:E; cbn [negb andb]; [apply str_eqb_eq in E as ->; done|].
  destruct (ends_with "/" path); cbn [negb]; [done|]. by rewrite <- (assoc_L (++)).
Qed.

Lemma push_segment_bindings path i d v : decl !! i = Some d -> findable d -> "/"%char ∉ v ->
  path_bindings decl (push_segment decl path (i, v)) = path_bindings decl path ++ [(d.1, v)].
Proof.
  intros Hi Hd Hv. rewrite (push_segment_eq _ _ _ _ Hi). unfold path_bindings.
  assert (omap (segment_binding decl) (split_on "/" (seg d v)) = [(d.1, v)]) as Hs.
  { rewrite split_on_no_elem; [|by apply seg_no_slash; [apply Hd|]]. cbn [omap list_omap]. by rewrite binding_of_seg. }
  destruct (str_eqb path []) eqn:E; [apply str_eqb_eq in E as ->; by rewrite Hs|].
  destruct (ends_with "/" path) eqn:Ee.
  - apply ends_with_true in Ee as [r ->]. rewrite <- (assoc_L (++)).
    change (r ++ lit "/" ++ seg d v) with (r ++ "/"%char :: seg d v). change (r ++ lit "/") with (r ++ "/"%char :: []).
    rewrite !split_on_app, !omap_app, Hs. cbn. by rewrite (right_id_L [] (++)).
  - change (path ++ lit "/" ++ seg d v) with (path ++ "/"%char :: seg d v). by rewrite split_on_app, omap_app, Hs.
Qed.

Lemma push_segments ds vals : forall k path,
  (forall i, ds !! i = decl !! (k + i)%nat) -> Forall findable ds -> Forall plain vals -> length ds = length vals ->
  path_bindings decl (foldl (push_segment decl) path (combine (seq k (length vals)) vals)) = path_bindings decl path ++ zip ds.*1 vals.
Proof.
  revert vals. induction ds as [|d ds IH]; intros [|v vals] k path Hk Hd Hv Hl; try done; cbn [length seq combine foldl fmap list_fmap].
  - cbn. by rewrite (right_id_L [] (++)).
  - apply Forall_cons in Hd as [Hd0 Hd]. apply Forall_cons in Hv as [Hv0 Hv].
    specialize (Hk 0%nat) as Hk0. rewrite Nat.add_0_r in Hk0. cbn in Hk0.
    rewrite IH; [| |done|done|by injection Hl].
    + rewrite (push_segment_bindings _ _ d) by (try done; apply Hv0). by rewrite <- (assoc_L (++)).
    + intros i. rewrite Nat.add_succ_comm. exact (Hk (S i)).
Qed.

(** The directory of a group does not end in '/'. *)
Lemma push_segments_end vals : forall k path, vals <> [] -> Forall plain vals ->
  ends_with "/" (foldl (push_segment decl) path (combine (seq k (length vals)) vals)) = false.
Proof.
  induction vals as [|v vals IH]; intros k path Hne Hv; [done|]. apply Forall_cons in Hv as [[Hv0 Hs] Hv]. cbn [length seq combine foldl].
  destruct vals as [|v' vals]; [|by apply IH]. cbn [combine foldl seq length]. unfold push_segment. rewrite !(assoc_L (++)). by apply ends_with_slash.
Qed.

Lemma blob_name_below path ts id : path <> [] -> ends_with "/" path = false ->
  generate_blob_name ts id path = path ++ "/"%char :: ts ++ "-" ++ id ++ ".parquet".
Proof.
  intros Hne He. unfold generate_blob_name. rewrite trim_end_none by done.
  destruct (str_eqb path []) eqn:E; [by apply str_eqb_eq in E|done].
Qed.

(** The fresh part of a name, which is one path component. *)
Definition fresh_file (f : Fresh) : str := fresh_ts f ++ "-" ++ fresh_id f ++ ".parquet".

Definition fresh_ok (f : Fresh) : Prop :=
  ("/"%char ∉ fresh_ts f) /\ ("/"%char ∉ fresh_id f) /\ ("="%char ∉ fresh_ts f) /\ ("="%char ∉ fresh_id f).

Lemma fresh_file_without c f : c = "/"%char \/ c = "="%char -> fresh_ok f -> c ∉ fresh_file f.
Proof.
  intros Hc (H1 & H2 & H3 & H4). unfold fresh_file. rewrite !elem_of_app.
  assert ((c ∉ lit "-") /\ (c ∉ lit ".parquet")) as [Ha Hb].
  { split; apply contains_char_not_elem; destruct Hc as [-> | ->]; vm_compute; reflexivity. }
  destruct Hc as [-> | ->]; tauto.
Qed.

Lemma target_below st fresh key : ins_decl st = decl -> values key <> [] -> Forall plain (values key) ->
  exists dir, dir = foldl (push_segment decl) (base_prefix st) (combine (seq 0 (length (values key))) (values key)) /\
    compute_target_name st fresh key = dir ++ "/"%char :: fresh_file fresh.
Proof.
  intros Hd Hne Hp. eexists. split; [done|]. unfold compute_target_name. rewrite Hd.
  destruct (values key) as [|v vs] eqn:E; [done|]. rewrite <- E in *.
  rewrite blob_name_below; [done| |by apply push_segments_end].
  assert (forall l path, path <> [] \/ l <> [] -> foldl (push_segment decl) path l <> []) as Hfold.
  { clear. induction l as [|[i v] l IH]; intros path H; [by destruct H|]. cbn [foldl]. apply IH. left. unfold push_segment.
    intros Hn. apply app_nil in Hn as [_ Hn]. apply app_nil in Hn as [_ Hn]. discriminate Hn. }
  apply Hfold. right. rewrite E. done.
Qed.
End Paths.

(** ** Reading the partition values back *)

Section Readback.
Context {Y : BytesApi} {B : BlobApi} {A : ArrowApi} {R : RoaringApi} {Q : ParquetApi} {P : PgApi} {PL : PgLaws P} {U : UuidApi}.

Lemma show_Z_plain z : 0 <= z -> plain (show_Z z).
Proof.
  intros Hz. unfold show_Z. destruct (Z.ltb_spec z 0); [lia|]. split; [apply show_nonneg_nonempty|].
  intros Hin. pose proof (show_nonneg_digits z Hz) as HF. rewrite Forall_forall in HF. by apply HF in Hin.
Qed.

(** What [datum_to_partition_string] renders is one path component. *)
Lemma partition_string_plain d oid s : datum_to_partition_string d oid = Ok s -> plain s.
Proof.
  unfold datum_to_partition_string. destruct (oid =? INT2OID); [|destruct (oid =? INT4OID); [|destruct (oid =? INT8OID); [|destruct (oid =? DATEOID)]]].
  1-3: match goal with |- context [?v <? 0] => destruct (Z.ltb_spec v 0); [done|] end; intros H'; inv_ok; by apply show_Z_plain.
  - intros H. destruct (chrono_format_days _) as [t|] eqn:E; [|done]. injection H as <-. destruct (format_chars _ _ E) as [Hne HF].
    split; [done|]. intros Hin. rewrite Forall_forall in HF. destruct (HF _ Hin) as [H|[H|H]]; discriminate H.
  - destruct (_ || _); [|done]. destruct (str_eqb _ _) eqn:E1; [done|]. destruct (_ || _) eqn:E2; [done|].
    destruct (contains _ _); [done|]. intros H. injection H as <-. apply orb_false_iff in E2 as [E2 _].
    split; [|by apply contains_char_not_elem]. intros E. rewrite E in E1. discriminate E1.
Qed.
(** The row [slot] has, for the declared column of each entry of [ads] (its
    number and datum), a value of the declared type. *)
Definition partition_slot (st : InsertState) (slot : list (Datum * bool)) : Declared -> list (nat * Datum) -> Prop :=
  Forall2 (fun d ad => slot !! ad.1 = Some (ad.2, false) /\ ins_oids st !! ad.1 = Some (partition_type_oid d.2) /\ partition_canonical d.2 ad.2).

Lemma key_parses st slot ds ads vals : partition_slot st slot ds ads ->
  mapM_res (partition_string st slot) ads.*1 = Ok vals ->
  Forall plain vals /\ length ds = length vals /\
  Forall2 (fun dv ad => parse_text_to_datum dv.1.2 dv.2 = Ok ad.2) (zip ds vals) ads.
Proof.
  intros Hs. revert vals. induction Hs as [|d [a x] ds ads (Hsl & Hoid & Hc) _ IH]; intros vals Hm; cbn [fmap list_fmap mapM_res] in Hm.
  - injection Hm as <-. by repeat constructor.
  - apply bind_Ok_inv in Hm as (v & Hv & Hm). apply bind_Ok_inv in Hm as (vs & Hvs & Hm). injection Hm as <-.
    unfold partition_string, slot_at in Hv. cbn [fst snd] in *. rewrite Hsl in Hv. cbn [ok_or mbind result_bind] in Hv. rewrite Hoid in Hv.
    cbn [ok_or mbind result_bind] in Hv. destruct (IH vs Hvs) as (Hp & Hl & HF). split; [constructor; [by eapply partition_string_plain|done]|].
    split; [by cbn; rewrite Hl|]. cbn [zip_with zip]. constructor; [|done]. cbn. by apply partition_value_roundtrip.
Qed.

Lemma cast_ok blob parsed ds vals ads :
  Forall2 (fun dv (ad : nat * Datum) => parse_text_to_datum dv.1.2 dv.2 = Ok ad.2) (zip ds vals) ads ->
  length ds = length vals -> Forall (fun nv => parsed !! nv.1 = Some nv.2) (zip ds.*1 vals) ->
  cast_partitions blob parsed ds = Ok (inl ads.*2).
Proof.
  revert vals ads. induction ds as [|[n ty] ds IH]; intros [|v vals] ads HF Hl Hm; try done; cbn [zip zip_with fmap list_fmap] in *.
  - by inversion HF.
  - inversion HF as [|? [a x] ? ads' Hx HF']; subst. cbn [fst snd] in *. apply Forall_cons in Hm as [Hm0 Hm]. cbn [fst snd] in Hm0.
    cbn [cast_partitions]. rewrite Hm0. cbn [ok_or mbind result_bind]. rewrite Hx. rewrite (IH vals ads'); [done|done|by injection Hl|done].
Qed.

(** Declared names that Hive paths can carry and tell apart. *)
Definition names_ok (decl : Declared) : Prop :=
  Forall (fun d => ("/"%char ∉ d.1) /\ ("="%char ∉ d.1)) decl /\
  forall i j d d', decl !! i = Some d -> decl !! j = Some d' -> eq_ignore_ascii_case d.1 d'.1 = true -> i = j.

Lemma names_findable decl : names_ok decl -> Forall (findable decl) decl /\ NoDup decl.*1.
Proof.
  intros [HF Hinj]. split.
  - rewrite Forall_forall in *. intros d Hd. destruct (HF d Hd) as [H1 H2]. split; [done|]. split; [done|].
    unfold declared_name. destruct (find _ decl) as [[n ty]|] eqn:E.
    + apply find_some in E as [Hin He]. apply list_elem_of_In, list_elem_of_lookup in Hin as [i Hi]. apply list_elem_of_lookup in Hd as [j Hj].
      rewrite (Hinj i j _ _ Hi Hj He) in Hi. rewrite Hi in Hj. by injection Hj as <-.
    + apply list_elem_of_In in Hd. pose proof (find_none _ _ E _ Hd) as He. destruct d as [n ty]. cbn in He. by rewrite eq_ignore_refl in He.
  - apply NoDup_alt. intros i j n Hi Hj. rewrite list_lookup_fmap in Hi, Hj.
    destruct (decl !! i) as [d|] eqn:Ei, (decl !! j) as [d'|] eqn:Ej; try done. injection Hi as <-. injection Hj as Hj.
    eapply Hinj; [done..|]. rewrite <- Hj. apply eq_ignore_refl.
Qed.

Lemma target_bindings st fresh key : names_ok (ins_decl st) -> ins_decl st <> [] -> path_bindings (ins_decl st) (base_prefix st) = [] ->
  fresh_ok fresh -> Forall plain (values key) -> length (ins_decl st) = length (values key) ->
  path_bindings (ins_decl st) (compute_target_name st fresh key) = zip (ins_decl st).*1 (values key).
Proof.
  intros Hn Hne Hbase Hfr Hp Hl. destruct (target_below (ins_decl st) st fresh key eq_refl) as (dir & Hdir & ->); [|done|].
  { intros E. rewrite E in Hl. by apply Hne, nil_length_inv. }
  unfold path_bindings. rewrite split_on_app, omap_app, Hdir.
  pose proof (push_segments (ins_decl st) (ins_decl st) (values key) 0 (base_prefix st) (fun i => eq_refl) (proj1 (names_findable _ Hn)) Hp Hl) as E.
  unfold path_bindings in E, Hbase. rewrite E, Hbase. cbn [app].
  rewrite split_on_no_elem by (apply fresh_file_without; auto). cbn [omap list_omap]. unfold segment_binding.
  rewrite (proj2 (split_once_None _ _)) by (apply fresh_file_without; auto). cbn. by rewrite (right_id_L [] (++)).
Qed.
(** C15: the blob an INSERT of a partitioned table writes a row to is read back
    by a scan of the table with exactly the row's partition datums, provided
    no text value holds a percent sign; otherwise the scan skips the blob. *)
Theorem insert_then_scan_partitions (c : ScanStateCore) st fresh slot key ads :
  sc_partition_keys_decl c = ins_decl st -> names_ok (ins_decl st) -> ins_decl st <> [] ->
  path_bindings (ins_decl st) (base_prefix st) = [] -> fresh_ok fresh ->
  partition_slot st slot (ins_decl st) ads -> ads.*1 = ins_partition_attnums st -> tuple_key st slot = Ok key ->
  let name := compute_target_name st fresh key in
  if forallb (fun v => negb (contains_char "%" v)) (values key) then blob_partition_datums c name = Ok (inl ads.*2)
  else exists msg, blob_partition_datums c name = Ok (inr msg).
Proof.
  intros Hc Hn Hne Hbase Hfr Hs Ha Hk. unfold tuple_key in Hk. apply bind_Ok_inv in Hk as (vals & Hm & Hk). injection Hk as <-.
  rewrite <- Ha in Hm. destruct (key_parses _ _ _ _ _ Hs Hm) as (Hp & Hl & HF). cbn [values].
  set (name := compute_target_name st fresh (mkKey vals)). cbn zeta. unfold blob_partition_datums. rewrite Hc.
  assert (path_bindings (ins_decl st) name = zip (ins_decl st).*1 vals) as Hb by (by apply target_bindings).
  pose proof (fun m => path_loop_Ok (ins_decl st) name (split_on "/" name) ∅ m) as Hloop. cbn zeta in Hloop.
  fold (path_bindings (ins_decl st) name) in Hloop. rewrite Hb in Hloop.
  assert ((zip (ins_decl st).*1 vals).*1 = (ins_decl st).*1) as Efst by (apply fst_zip; rewrite length_fmap; lia).
  assert ((zip (ins_decl st).*1 vals).*2 = vals) as Esnd by (apply snd_zip; rewrite length_fmap; lia).
  destruct (forallb _ vals) eqn:Epc.
  - assert (partition_values_from_path name (ins_decl st) = Ok (list_to_map (zip (ins_decl st).*1 vals))) as ->.
    { unfold partition_values_from_path. rewrite (proj2 (Hloop (list_to_map (zip (ins_decl st).*1 vals)))).
      - cbn [mbind result_bind]. rewrite (proj2 (require_loop_Ok _ _ _ _)); [done|]. apply Forall_forall. intros n Hin. rewrite <- Efst in Hin.
        destruct (list_to_map (M := gmap str str) _ !! n) eqn:E; [eauto|]. by apply not_elem_of_list_to_map_2 in E.
      - rewrite Efst. split; [by apply names_findable|]. split; [|split; [|by rewrite (right_id_L ∅ (∪))]].
        + rewrite Forall_forall. intros [n v] Hin. apply (list_elem_of_fmap_2 snd) in Hin. rewrite Esnd in Hin. cbn [snd] in Hin.
          rewrite Forall_forall in Hp. split; [by apply Hp|]. cbn [snd]. rewrite forallb_forall in Epc. apply list_elem_of_In in Hin.
          specialize (Epc v Hin). apply negb_true_iff in Epc. by apply contains_char_not_elem.
        + apply Forall_forall. intros. apply lookup_empty. }
    apply (cast_ok _ _ _ vals); [done|done|]. apply Forall_forall. intros [n v] Hin. cbn [fst snd].
    apply elem_of_list_to_map_1; [|done]. rewrite Efst. by apply names_findable.
  - destruct (partition_values_from_path name (ins_decl st)) as [m|e] eqn:E; [|by eexists]. exfalso.
    unfold partition_values_from_path in E. apply bind_Ok_inv in E as (m' & E & _). apply Hloop in E as (_ & Hok & _).
    rewrite <- not_true_iff_false in Epc. apply Epc, forallb_forall. intros v Hin. apply list_elem_of_In in Hin. rewrite <- Esnd in Hin.
    apply list_elem_of_fmap in Hin as ([n v'] & -> & Hin). rewrite Forall_forall in Hok. destruct (Hok _ Hin) as [_ Hv].
    apply negb_true_iff. by apply contains_char_not_elem.
Qed.
End Readback.

(** ** The table's own pattern *)

Section Pattern.
Context {Y : BytesApi} {B : BlobApi} {A : ArrowApi} {R : RoaringApi} {Q : ParquetApi} {P : PgApi} {U : UuidApi}.

Fixpoint stars (n : nat) : str := match n with O => [] | S n' => lit "*/" ++ stars n' end.

Lemma glob_star t q r : "/"%char ∉ t -> boundary r = true -> glob_match q r -> glob_match ("*"%char :: q) (t ++ r).
Proof. by constructor. Qed.

Lemma star_layout opts p rest st : (base_prefix st, legacy_single_target st) = pick_target_layout opts ->
  filename opts = p ++ "*"%char :: rest -> Forall (fun c => is_wild c = false) p ->
  base_prefix st = trim_end_matches "/" p /\ legacy_single_target st = None.
Proof. unfold pick_target_layout. intros Hl Hf Hw. rewrite Hf, find_star, take_app_length in Hl by done. by injection Hl as -> ->. Qed.

(** A path of components below [dir] matches as many stars. *)
Lemma push_segments_match decl vals : forall k path pat last file,
  path <> [] -> ends_with "/" path = false -> Forall plain vals -> Forall (fun d => "/"%char ∉ d.1) decl ->
  length decl = (k + length vals)%nat ->
  (forall tail rest, glob_match tail rest -> glob_match (pat ++ "/"%char :: tail) (path ++ "/"%char :: rest)) ->
  glob_match last file ->
  glob_match (pat ++ "/"%char :: stars (length vals) ++ last)
    (foldl (push_segment decl) path (combine (seq k (length vals)) vals) ++ "/"%char :: file).
Proof.
  induction vals as [|v vals IH]; intros k path pat last file Hne He Hp Hd Hl Hpat Hlast; cbn [length stars seq combine foldl].
  - by apply Hpat.
  - apply Forall_cons in Hp as [[Hv0 Hv] Hp]. cbn [length] in Hl.
    destruct (lookup_lt_is_Some_2 decl k) as [d Hk]; [lia|]. rewrite Forall_lookup in Hd. pose proof (Hd k d Hk) as Hdk.
    rewrite (push_segment_eq _ _ _ d v Hk), He. destruct (str_eqb path []) eqn:E; [by apply str_eqb_eq in E|].
    change (path ++ lit "/" ++ seg d v) with (path ++ "/"%char :: seg d v).
    assert (pat ++ "/"%char :: (lit "*/" ++ stars (length vals)) ++ last = (pat ++ lit "/*") ++ "/"%char :: stars (length vals) ++ last) as ->.
    { by rewrite <- (assoc_L (++) pat), <- (assoc_L (++) (lit "*/")). }
    apply IH; try done; [intros E'; by apply app_nil in E' as [? _]| | |lia|].
    + change (path ++ "/"%char :: seg d v) with (path ++ lit "/" ++ seg d v). unfold seg. rewrite !(assoc_L (++)). by apply ends_with_slash.
    + by rewrite Forall_lookup.
    + intros tail rest Ht. rewrite <- !(assoc_L (++)). apply Hpat. cbn [app].
      change (lit "*" ++ "/"%char :: tail) with ("*"%char :: "/"%char :: tail). apply glob_star; [by apply seg_no_slash|done|]. by constructor.
Qed.

(** The general form: any file pattern that begins with a star and accepts
    the fresh name. *)
Lemma target_matches_pattern `{!RegexApi} `{!RegexLaws _} st opts g dir tail fresh key :
  filename opts = dir ++ "/"%char :: stars (length (ins_decl st)) ++ "*"%char :: tail ->
  dir <> [] -> ends_with "/" dir = false -> Forall (fun c => is_wild c = false) dir ->
  parse_glob (filename opts) = Ok g -> (base_prefix st, legacy_single_target st) = pick_target_layout opts ->
  Forall (fun d => "/"%char ∉ d.1) (ins_decl st) -> length (values key) = length (ins_decl st) -> Forall plain (values key) ->
  glob_match ("*"%char :: tail) (fresh_file fresh) -> utf8_valid (compute_target_name st fresh key) = true ->
  is_match (regex g) (compute_target_name st fresh key) = true.
Proof.
  intros Hfn Hne He Hw Hg Hlay Hd Hl Hp Hfile Hutf. apply (parse_glob_matches _ _ _ Hg Hutf). rewrite Hfn.
  assert (exists rest, dir ++ "/"%char :: stars (length (ins_decl st)) ++ "*"%char :: tail = (dir ++ lit "/") ++ "*"%char :: rest) as [rest Hrest].
  { destruct (length (ins_decl st)) as [|n]; cbn [stars];
      [exists tail|exists ("/"%char :: stars n ++ "*"%char :: tail)]; by rewrite <- !(assoc_L (++)). }
  destruct (star_layout opts (dir ++ lit "/") rest st Hlay) as [Hbase Hleg]; [by rewrite Hfn|apply Forall_app; by repeat constructor|].
  rewrite trim_slash in Hbase by done.
  rewrite <- Hl. destruct (decide (values key = [])) as [Hv|Hv].
  - unfold compute_target_name. rewrite Hv, Hleg, Hbase, blob_name_below by done. cbn [length stars].
    apply glob_literal; [done|]. by constructor.
  - destruct (target_below (ins_decl st) st fresh key eq_refl Hv Hp) as (d' & -> & ->). rewrite Hbase.
    apply push_segments_match; try done. intros t r Ht. apply glob_literal; [done|]. by constructor.
Qed.

(** A star and an end of ".parquet" accept every fresh name. *)
Lemma fresh_matches_suffix p tail fresh : lit ".parquet" = p ++ tail -> fresh_ok fresh -> glob_match ("*"%char :: tail) (fresh_file fresh).
Proof.
  intros Ht Hf. unfold fresh_file. rewrite Ht. rewrite !(assoc_L (++)).
  assert (Forall (fun c => is_wild c = false /\ is_cont c = false) (lit ".parquet")) as Hl by repeat constructor.
  rewrite Ht in Hl. apply Forall_app in Hl as [_ Hl].
  apply glob_star.
  - pose proof (fresh_file_without "/"%char fresh (or_introl eq_refl) Hf) as Hn. unfold fresh_file in Hn.
    rewrite Ht, !(assoc_L (++)) in Hn. intros Hin. apply Hn. apply elem_of_app. by left.
  - destruct tail as [|c tail]; [done|]. apply Forall_cons in Hl as [[_ Hc] _]. cbn. by rewrite Hc.
  - clear Ht. induction Hl as [|c l [Hw _] _ IH]; constructor; done.
Qed.

(** C16: with a pattern of a non-empty directory without wildcards, one star per
    partition column and the file pattern "*" followed by an end of ".parquet"
    ("*", "*.parquet", "*quet"), every blob an INSERT of the table writes is
    matched by the pattern, whatever the time stamp and the fresh id, for
    column names without a slash and partition values that are one component
    of a path ([plain]).  A file pattern with a prefix before the star is another
    matter, see [insert_prefix_pattern_unreadable]. *)
Theorem insert_target_matches_pattern `{!RegexApi} `{!RegexLaws _} st opts g dir p tail fresh key :
  filename opts = dir ++ "/"%char :: stars (length (ins_decl st)) ++ "*"%char :: tail -> lit ".parquet" = p ++ tail ->
  dir <> [] -> ends_with "/" dir = false -> Forall (fun c => is_wild c = false) dir ->
  parse_glob (filename opts) = Ok g -> (base_prefix st, legacy_single_target st) = pick_target_layout opts ->
  Forall (fun d => "/"%char ∉ d.1) (ins_decl st) -> length (values key) = length (ins_decl st) -> Forall plain (values key) ->
  fresh_ok fresh -> utf8_valid (compute_target_name st fresh key) = true ->
  is_match (regex g) (compute_target_name st fresh key) = true.
Proof. intros. eapply target_matches_pattern; try done. by eapply fresh_matches_suffix. Qed.

(** With a pattern [dir/pre*] that has a file-name prefix, an INSERT into
    an unpartitioned table writes below the directory [dir/pre], where the
    pattern does not match. *)
Theorem insert_prefix_pattern_unreadable `{!RegexApi} `{!RegexLaws _} st opts g dir pre fresh :
  filename opts = dir ++ "/"%char :: pre ++ lit "*" -> plain pre -> Forall (fun c => is_wild c = false) (dir ++ pre) ->
  parse_glob (filename opts) = Ok g -> (base_prefix st, legacy_single_target st) = pick_target_layout opts ->
  fresh_ok fresh -> utf8_valid (compute_target_name st fresh (mkKey [])) = true ->
  is_match (regex g) (compute_target_name st fresh (mkKey [])) = false.
Proof.
  intros Hfn [Hpre Hps] Hw Hg Hlay Hfr Hutf. apply not_true_iff_false. rewrite (parse_glob_matches _ _ _ Hg Hutf). intros Hm.
  apply Forall_app in Hw as [Hwd Hwp]. apply glob_match_slashes in Hm. revert Hm.
  destruct (star_layout opts (dir ++ lit "/" ++ pre) [] st Hlay) as [Hbase Hleg];
    [by rewrite Hfn, <- !(assoc_L (++))|apply Forall_app; split; [done|apply Forall_app; split; [by repeat constructor|done]]|].
  assert (ends_with "/" (dir ++ lit "/" ++ pre) = false) as He by (rewrite (assoc_L (++)); by apply ends_with_slash).
  rewrite trim_end_none in Hbase by done. unfold compute_target_name. cbn [values]. rewrite Hleg, Hbase, blob_name_below, Hfn; [|by destruct dir|done].
  change (dir ++ "/"%char :: pre ++ lit "*") with (dir ++ lit "/" ++ pre ++ lit "*").
  change ("/"%char :: fresh_ts fresh ++ _) with (lit "/" ++ fresh_file fresh). rewrite !slashes_app.
  rewrite (no_slashes (fresh_file fresh)) by (apply fresh_file_without; auto).
  change (slashes (lit "/")) with 1%nat. change (slashes (lit "*")) with 0%nat. lia.
Qed.
End Pattern.

(** ** A concrete table *)

Definition demo_paths_state : InsertState (A := ref_arrow) (Y := ref_bytes) :=
  mkInsert [mkField "id" Int64 true] [INT8OID; INT4OID; TEXTOID] (mkClient "https://acct1.blob.core.windows.net/data" "acct1" "data") Snappy
    [1; 2]%nat [(lit "year", PInt4); (lit "region", PText)] "sales" None ∅ ∅ ∅ ∅.

Definition demo_paths_options (pattern : str) : TableOptions :=
  mkTableOptions "data" pattern Snappy None [lit "year"; lit "region"] [(lit "year", PInt4); (lit "region", PText)] [] false.

Definition demo_paths_scan : ScanStateCore :=
  mkCore (mkClient "https://acct1.blob.core.windows.net/data" "acct1" "data") [] [INT8OID; INT4OID; TEXTOID] None [] None
    (demo_paths_options "sales/*/*/*") [1; 2]%nat [(lit "year", PInt4); (lit "region", PText)] [Some O; None; None].

Definition demo_paths_slot (region : str) : list (Datum * bool) := [(DWord 1, false); (DWord 2024, false); (DText region, false)].
Definition demo_fresh : Fresh := mkFresh "20240101T000000.000Z" "0f3c".
Definition demo_paths_name (region : str) : str :=
  compute_target_name (A := ref_arrow) (Y := ref_bytes) demo_paths_state demo_fresh (mkKey [lit "2024"; region]).

Lemma demo_names_ok : names_ok [(lit "year", PInt4); (lit "region", PText)].
Proof.
  split.
  - repeat (constructor; [split; apply contains_char_not_elem; vm_compute; reflexivity|]). constructor.
  - intros [|[|i]] [|[|j]] d d' Hi Hj E; cbn in Hi, Hj; simplify_eq; try done; vm_compute in E; discriminate E.
Qed.

Lemma demo_fresh_ok : fresh_ok demo_fresh.
Proof. repeat split; apply contains_char_not_elem; vm_compute; reflexivity. Qed.

Lemma demo_paths_partition_slot region :
  partition_slot demo_paths_state (demo_paths_slot region) (ins_decl demo_paths_state) [(1%nat, DWord 2024); (2%nat, DText region)].
Proof.
  repeat constructor; cbn.
  - exists 2024. split; [unfold in_i32; lia|reflexivity].
  - by exists region.
Qed.

Lemma insert_then_scan_partitions_witness :
  lit "sales/year=2024/region=eu/20240101T000000.000Z-0f3c.parquet" = demo_paths_name "eu" /\
  blob_partition_datums demo_paths_scan (demo_paths_name "eu") = Ok (inl [DWord 2024; DText "eu"]) /\
  exists msg, blob_partition_datums demo_paths_scan (demo_paths_name "50%") = Ok (inr msg).
Proof.
  split; [vm_compute; reflexivity|].
  pose proof (fun region => insert_then_scan_partitions demo_paths_scan demo_paths_state demo_fresh (demo_paths_slot region) (mkKey [lit "2024"; region])
    [(1%nat, DWord 2024); (2%nat, DText region)] eq_refl demo_names_ok ltac:(discriminate) ltac:(vm_compute; reflexivity) demo_fresh_ok
    (demo_paths_partition_slot region) eq_refl) as H.
  split.
  - exact (H (lit "eu") ltac:(vm_compute; reflexivity)).
  - exact (H (lit "50%") ltac:(vm_compute; reflexivity)).
Defined.

Definition demo_paths_glob (pattern : str) : GlobPattern (R := ref_regex) := mkGlob (R := ref_regex) (glob_prefix pattern) (map glob_atom pattern).

Lemma insert_target_matches_pattern_witness :
  is_match (regex (demo_paths_glob "sales/*/*/*.parquet")) (demo_paths_name "eu") = true.
Proof.
  refine (insert_target_matches_pattern demo_paths_state (demo_paths_options "sales/*/*/*.parquet") (demo_paths_glob "sales/*/*/*.parquet")
    (lit "sales") [] (lit ".parquet") demo_fresh (mkKey [lit "2024"; lit "eu"]) _ _ _ _ _ _ _ _ _ _ _ _).
  - reflexivity.
  - reflexivity.
  - discriminate.
  - vm_compute. reflexivity.
  - repeat constructor.
  - vm_compute. reflexivity.
  - vm_compute. reflexivity.
  - repeat constructor; apply contains_char_not_elem; vm_compute; reflexivity.
  - reflexivity.
  - repeat (constructor; [split; [discriminate|apply contains_char_not_elem; vm_compute; reflexivity]|]). constructor.
  - exact demo_fresh_ok.
  - vm_compute. reflexivity.
Defined.

Definition demo_prefix_state : InsertState (A := ref_arrow) (Y := ref_bytes) :=
  mkInsert [mkField "id" Int64 true] [INT8OID] (mkClient "https://acct1.blob.core.windows.net/data" "acct1" "data") Snappy
    [] [] "data/pre" None ∅ ∅ ∅ ∅.

Lemma insert_prefix_pattern_unreadable_witness :
  let name := compute_target_name demo_prefix_state demo_fresh (mkKey []) in
  name = lit "data/pre/20240101T000000.000Z-0f3c.parquet" /\ is_match (regex (demo_paths_glob "data/pre*")) name = false.
Proof.
  cbn zeta. split; [vm_compute; reflexivity|].
  refine (insert_prefix_pattern_unreadable demo_prefix_state (demo_paths_options "data/pre*") (demo_paths_glob "data/pre*")
    (lit "data") (lit "pre") demo_fresh _ _ _ _ _ _ _).
  - reflexivity.
  - split; [discriminate|apply contains_char_not_elem; vm_compute; reflexivity].
  - repeat constructor.
  - vm_compute. reflexivity.
  - vm_compute. reflexivity.
  - exact demo_fresh_ok.
  - vm_compute. reflexivity.
Defined.

(** ** A value that hides the blob *)

Section Hidden.
Context {Y : BytesApi} {B : BlobApi} {A : ArrowApi} {R : RoaringApi} {Q : ParquetApi} {P : PgApi} {U : UuidApi}.

Lemma contains_around p a s b : contains p s = true -> contains p (a ++ s ++ b) = true.
Proof. rewrite !contains_true. intros (x & y & ->). exists (a ++ x), (y ++ b). by rewrite <- !(assoc_L (++)). Qed.

Lemma push_segment_contains decl p path i v : contains p path = true \/ contains p v = true -> contains p (push_segment decl path (i, v)) = true.
Proof.
  intros H. unfold push_segment. set (path' := if _ && _ then _ else path).
  assert (contains p path = true -> contains p path' = true) as Hp.
  { intros Hc. unfold path'. destruct (_ && _); [by apply (contains_around p [])|done]. }
  destruct H as [H|H]; [by apply (contains_around p []), Hp|].
  assert (forall q k : str, contains p (q ++ k ++ "=" ++ v) = true) as Ht; [|apply Ht].
  intros q k. rewrite !(assoc_L (++)), <- (app_nil_r v), (assoc_L (++)). rewrite <- (assoc_L (++) _ v). by apply contains_around.
Qed.

Lemma push_segments_contain decl p vals : forall k path, contains p path = true \/ (exists v, v ∈ vals /\ contains p v = true) ->
  contains p (foldl (push_segment decl) path (combine (seq k (length vals)) vals)) = true.
Proof.
  induction vals as [|v vals IH]; intros k path H; cbn [length seq combine foldl]; [by destruct H as [H|(v & Hv%not_elem_of_nil & _)]|].
  apply IH. destruct H as [H|(x & [->|Hx]%elem_of_cons & H)]; [left; apply push_segment_contains; by left|left; apply push_segment_contains; by right|right; by exists x].
Qed.

(** A text value with [.tmp.] in it is accepted; the blob of its rows has the
    name of a staging blob, which no listing returns. *)
Lemma insert_tmp_value_hidden (st : InsertState) fresh vals v : Forall plain vals -> v ∈ vals -> contains ".tmp." v = true ->
  is_staging_name (compute_target_name st fresh (mkKey vals)) = true.
Proof.
  intros Hp Hv Ht. unfold compute_target_name. destruct vals as [|v0 vals0] eqn:E; [by apply not_elem_of_nil in Hv|]. rewrite <- E in *. cbn [values].
  assert (vals <> []) as Hne by (by rewrite E). assert (contains ".tmp." (foldl (push_segment (ins_decl st)) (base_prefix st) (combine (seq 0 (length vals)) vals)) = true) as Hc
    by (apply push_segments_contain; right; by exists v).
  replace (match vals with [] => _ | _ => _ end) with (generate_blob_name (fresh_ts fresh) (fresh_id fresh)
    (foldl (push_segment (ins_decl st)) (base_prefix st) (combine (seq 0 (length vals)) vals))) by (by rewrite E).
  rewrite blob_name_below; [|intros E0; by rewrite E0 in Hc|by apply push_segments_end]. by apply (contains_around ".tmp." []).
Qed.
End Hidden.

Lemma tmp_value_accepted : datum_to_partition_string (DText "a.tmp.b") TEXTOID = Ok (lit "a.tmp.b").
Proof. vm_compute. reflexivity. Qed.
