(* ===== verification/ImportSchema.v ===== *)
(** * [src/fdw/import_schema.rs] and the SQL helpers of [src/lib.rs].

    IMPORT FOREIGN SCHEMA lists the parquet blobs under a prefix, groups them
    by directory, infers the columns of each group from its first blob and
    returns one CREATE FOREIGN TABLE text per group.  The [BTreeMap]s are
    finite maps, visited in byte order of their keys ([btree_entries]). *)

From S2P Require Import Prelude RustStr Redact Errors Options Catalog Externals Kernel Convert BlobService Store Handoff Coordinator ParquetIO Modify Pushdown Partition MultiFile Scan.
Local Open Scope Z_scope.

(** ** [BTreeMap] *)

Definition key_before {V} (a b : str * V) : Prop := str_leb a.1 b.1 = true.
#[export] Instance key_before_dec {V} : RelDecision (key_before (V := V)).
Proof. intros a b. unfold key_before. apply _. Defined.

Definition btree_entries {V} (m : gmap str V) : list (str * V) := merge_sort key_before (map_to_list m).

(** ** Grouping by directory *)

Definition dir_of (blob : str) : str :=
  match rfind_char "/" blob with Some idx => take idx blob | None => [] end.

Definition add_to_dir (by_dir : gmap str (list str)) (blob : str) : gmap str (list str) :=
  <[dir_of blob := default [] (by_dir !! dir_of blob) ++ [blob]]> by_dir.

Definition table_of (container dir : str) : str :=
  if str_eqb dir [] then container
  else match rfind_char "/" dir with Some idx => drop (S idx) dir | None => dir end.

Record Grouping := mkGrouping { g_out : gmap str (list str); claimed_by : gmap str str; g_notices : list str }.

Definition claim_dir (container : str) (g : Grouping) (entry : str * list str) : Grouping :=
  let '(dir, blobs_in_dir) := entry in
  let table := table_of container dir in
  match claimed_by g !! table with
  | Some prev_dir =>
      mkGrouping (g_out g) (claimed_by g)
        (g_notices g ++ ["skipped directory '" ++ dir ++ "' — its table name '" ++ table ++ "' is already claimed by directory '"
           ++ prev_dir ++ "'; narrow the IMPORT FOREIGN SCHEMA remote_schema prefix to disambiguate"])
  | None => mkGrouping (<[table := blobs_in_dir]> (g_out g)) (<[table := dir]> (claimed_by g)) (g_notices g)
  end.

Definition group_blobs_by_directory (blobs : list str) (container : str) : gmap str (list str) * list str :=
  let by_dir := foldl add_to_dir ∅ blobs in
  let g := foldl (claim_dir container) (mkGrouping ∅ ∅ []) (btree_entries by_dir) in
  (g_out g, g_notices g).

(** ** The DDL text *)

Definition dquote : ascii := "034".
Definition squote : ascii := "'".

(** Wrap in [q], doubling every [q] inside. *)
Definition double (q c : ascii) : str := if ascii_eqb c q then [q; q] else [c].
Definition quote_ident (s : str) : str := dquote :: concat (map (double dquote) s) ++ [dquote].
Definition quote_str (s : str) : str := squote :: concat (map (double squote) s) ++ [squote].

Definition newline : ascii := "010".

(** The columns, with the separator before each but the first. *)
Fixpoint render_columns (i : nat) (columns : list (str * str)) : str :=
  match columns with
  | [] => []
  | (col, ty) :: columns' =>
      (if (0 <? i)%nat then [","%char; newline] else []) ++ "    " ++ quote_ident col ++ " " ++ ty ++ render_columns (S i) columns'
  end.

Definition build_create_table_ddl (local_schema table_name server_name container filename_glob : str) (columns : list (str * str)) : str :=
  "CREATE FOREIGN TABLE " ++ quote_ident local_schema ++ "." ++ quote_ident table_name ++ " (" ++ [newline]
  ++ render_columns 0 columns ++ [newline] ++ ") SERVER " ++ quote_ident server_name ++ " OPTIONS (" ++ "container " ++ quote_str container
  ++ ", filename " ++ quote_str filename_glob ++ ");".

Definition build_filename_glob (sample : str) : str :=
  match rfind_char "/" sample with Some idx => take idx sample ++ "/*.parquet" | None => lit "*.parquet" end.

(** ** The statement *)

Inductive ImportList := FDW_IMPORT_SCHEMA_ALL | FDW_IMPORT_SCHEMA_LIMIT_TO | FDW_IMPORT_SCHEMA_EXCEPT.

(** [table_list] is [None] for a NULL list. *)
Record ImportStmt := mkImport {
  remote_schema : str; local_schema : str; list_type : ImportList; table_list : option (list str); stmt_options : list (str * str) }.

(** The server's catalog entries; [cat_um] is [None] without a user mapping. *)
Record ServerCatalog := mkServerCat { servername : str; cat_server : list (str * str); cat_um : option (list (str * str)) }.

(** What the catalog holds of a server, for the current user. *)
Definition server_catalog (db : PgCatalog) (server_oid : Z) : option ServerCatalog :=
  server ← GetForeignServer db server_oid;
  Some (mkServerCat (fs_servername server) (pg_list_to_kv (fs_options server))
         ((fun um => pg_list_to_kv (um_options um)) <$> GetUserMapping db (GetUserId db) server_oid)).

Definition apply_limit_or_except (groups : gmap str (list str)) (stmt : ImportStmt) : gmap str (list str) :=
  let names := default [] (table_list stmt) in
  match list_type stmt with
  | FDW_IMPORT_SCHEMA_ALL => groups
  | FDW_IMPORT_SCHEMA_LIMIT_TO => filter (fun kv => kv.1 ∈ names) groups
  | FDW_IMPORT_SCHEMA_EXCEPT => filter (fun kv => kv.1 ∉ names) groups
  end.

Section Statement.
Context {Y : BytesApi} {B : BlobApi} {A : ArrowApi} {P : PgApi} {K : ComputeApi} {SA : ParquetScanApi}.
Context (url_parse : str -> Result str Url) (env : ClientEnv).

Definition no_server : FdwError := InvalidOption "foreign server not found".

Definition read_server_and_um (cat : option ServerCatalog) : FdwResult (ServerOptions * UserMappingOptions) :=
  s ← ok_or cat no_server;
  server_opts ← parse_server_options_from_slice (cat_server s);
  um_opts ← parse_user_mapping_options_from_slice url_parse (default [] (cat_um s));
  Ok (server_opts, um_opts).

(** The import reads the same server and user mapping options as a later
    statement on the table it creates. *)
Lemma import_reads_as_statements (db : PgCatalog) relid table server s u t :
  GetForeignTable db relid = Some table -> GetForeignServer db (ft_serverid table) = Some server ->
  fs_serverid server = ft_serverid table ->
  read_all_options url_parse db relid = Ok (s, u, t) ->
  read_server_and_um (server_catalog db (ft_serverid table)) = Ok (s, u).
Proof.
  intros Ht Hs Hid H. unfold read_all_options in H. rewrite Ht in H. cbn [ok_or mbind result_bind] in H. rewrite Hs in H. cbn [ok_or mbind result_bind] in H. rewrite Hid in H.
  unfold read_server_and_um, server_catalog. rewrite Hs. cbn [ok_or mbind result_bind option_bind cat_server cat_um] in *.
  apply bind_Ok_inv in H as (s' & -> & H). apply bind_Ok_inv in H as (u' & Hu & H). apply bind_Ok_inv in H as (t' & _ & [= <- <- _]).
  destruct (GetUserMapping _ _ _) as [um|]; cbn [fmap option_fmap option_map default mbind result_bind id] in *; by rewrite Hu.
Qed.

Definition client_for_server (cat : option ServerCatalog) (cont : str) : FdwResult AzureBlobClient :=
  _ ← validate_container_name cont;
  '(server_opts, um_opts) ← read_server_and_um cat;
  _ ← validate_combo server_opts um_opts;
  cred ← build_credential (env_var env) (managed_identity env) (client_secret env)
           (auth_method server_opts) (account_name server_opts) (sas_url um_opts);
  client_new (env_url_parse env) (env_sdk_new env) (endpoint server_opts) (account_name server_opts) cred cont.

Definition infer_column (f : Field) : FdwResult (str * str) := ty ← arrow_type_to_pg_typename (field_type f); Ok (field_name f, ty).

Definition infer_columns (nm : str) : FdwResult (list (str * str)) :=
  builder ← map_err Parquet (builder_new nm);
  cols ← mapM_res infer_column (builder_schema builder);
  match cols with
  | [] => Err (SchemaMismatch ("Parquet file '" ++ nm ++ "' has no columns, cannot import"))
  | _ => Ok cols
  end.

Definition is_parquet (nm : str) : bool := ends_with ".parquet" (to_ascii_lowercase nm).

(** One group: its DDL, or a notice. *)
Definition import_group (stmt : ImportStmt) (server_name cont : str) (acc : list str * list str) (g : str * list str)
    : list str * list str :=
  let '(ddls, notices) := acc in
  let '(table_name, blobs_in_group) := g in
  match blobs_in_group with
  | [] => acc
  | sample :: _ =>
      match infer_columns sample with
      | Err e => (ddls, notices ++ ["skipped table " ++ dquote :: table_name ++ dquote :: " (schema inference failed: " ++ display e ++ ")"])
      | Ok columns =>
          (ddls ++ [build_create_table_ddl (local_schema stmt) table_name server_name cont (build_filename_glob sample) columns], notices)
      end
  end.

Definition to_cstring (ddl : str) : FdwResult str :=
  if contains_char "000" ddl then Err (SchemaMismatch "generated DDL contains NUL byte") else Ok ddl.

(** The result is the list of texts and the notices. *)
Definition do_import (stmt : ImportStmt) (cat : option ServerCatalog) : SM Svc (list str * list str) :=
  s ← lift (ok_or cat no_server);
  cont ← lift (ok_or (snd <$> find (fun kv => str_eqb kv.1 "container") (stmt_options stmt))
                 (MissingOption "IMPORT FOREIGN SCHEMA requires OPTIONS (container 'xxx')"));
  _ ← lift (validate_container_name cont);
  _ ← lift (client_for_server cat cont);
  _ ← lift (validate_blob_pattern (remote_schema stmt) "remote_schema");
  listed ← list_with_prefix_etags (remote_schema stmt);
  let '(groups, n1) := group_blobs_by_directory (List.filter is_parquet (map fst listed)) cont in
  let '(ddls, n2) := foldl (import_group stmt (servername s) cont) ([], []) (btree_entries (apply_limit_or_except groups stmt)) in
  texts ← lift (mapM_res to_cstring ddls);
  mret (texts, n1 ++ n2).

(** ** The SQL functions of [lib.rs] *)

Inductive PgErrorCode := ERRCODE_FEATURE_NOT_SUPPORTED | ERRCODE_FDW_ERROR.
Record ErrorReport := mkReport { er_code : PgErrorCode; er_message : str }.

Definition make_err (msg : str) : ErrorReport := mkReport ERRCODE_FDW_ERROR msg.
Definition map_spi_err (e : str) : ErrorReport := make_err ("SPI: " ++ e).
Definition fdw_report (e : FdwError) : ErrorReport := make_err (display e).

(** pgrx's quoting functions and SPI. *)
Context (quote_identifier quote_literal : str -> str) (spi_run : str -> Result str unit) (spi_get_server : str -> Result str (option (option ServerCatalog))).

Definition import_parquet_azure (server_name cont remote_prefix target_schema : str) : Result ErrorReport unit :=
  if str_eqb remote_prefix [] then Err (make_err "remote_prefix must be non-empty (PG IMPORT FOREIGN SCHEMA requires a name)")
  else map_err map_spi_err (spi_run ("IMPORT FOREIGN SCHEMA " ++ quote_identifier remote_prefix ++ " FROM SERVER " ++ quote_identifier server_name
         ++ " INTO " ++ quote_identifier target_schema ++ " OPTIONS (container " ++ quote_literal cont ++ ")")).

Definition split_source (source : str) : Result ErrorReport (str * str) :=
  match split_once "/" source with
  | Some (c, b) => if negb (str_eqb c []) && negb (str_eqb b []) then Ok (c, b) else Err (make_err "source must be '<container>/<blob>'")
  | None => Err (make_err "source must be '<container>/<blob>'")
  end.

Definition import_parquet_azure_explicit (server_name target_schema table_name : str) (sources : list str) : Result ErrorReport unit :=
  match sources with
  | [source] =>
      found ← map_err map_spi_err (spi_get_server server_name);
      cat ← ok_or found (make_err ("server '" ++ server_name ++ "' not found"));
      '(cont, blob_name) ← split_source source;
      _ ← map_err fdw_report (validate_container_name cont);
      _ ← map_err fdw_report (validate_blob_pattern blob_name "source blob name");
      _ ← map_err fdw_report (client_for_server cat cont);
      cols ← map_err fdw_report (infer_columns blob_name);
      map_err map_spi_err (spi_run (build_create_table_ddl target_schema table_name server_name cont blob_name cols))
  | _ => Err (mkReport ERRCODE_FEATURE_NOT_SUPPORTED "import_parquet_azure_explicit currently supports exactly one source per call")
  end.
End Statement.
