(* ===== verification/ImportFacts.v ===== *)
(** * What IMPORT FOREIGN SCHEMA creates.

    Which directory gets which table, that the generated text is read back as
    the table it describes whatever characters the names contain, that the
    column types it declares are types the scan can convert to, and which
    blobs the table's pattern covers. *)

From S2P Require Import Prelude RustStr Redact Errors Options Externals Kernel Convert BlobService Store Handoff Coordinator ParquetIO Modify Pushdown Partition Glob MultiFile Scan ImportSchema.
Local Open Scope Z_scope.

(** ** Sorted entries of a map *)

#[export] Instance key_before_total {V} : Total (key_before (V := V)).
Proof. intros a b. apply str_leb_total. Qed.

#[export] Instance key_before_trans {V} : Transitive (key_before (V := V)).
Proof. intros a b c. apply str_leb_trans. Qed.

Lemma btree_elem {V} (m : gmap str V) k v : (k, v) ∈ btree_entries m <-> m !! k = Some v.
Proof. unfold btree_entries. by rewrite merge_sort_Permutation, elem_of_map_to_list. Qed.

Lemma btree_sorted {V} (m : gmap str V) : StronglySorted key_before (btree_entries m).
Proof. apply StronglySorted_merge_sort; apply _. Qed.

(** The first entry of a sorted list with a property is the least one. *)
Lemma find_least {V} (f : str * V -> bool) es e :
  StronglySorted key_before es -> find f es = Some e ->
  e ∈ es /\ f e = true /\ forall e', e' ∈ es -> f e' = true -> str_leb e.1 e'.1 = true.
Proof.
  induction 1 as [|x es Hs IH HF]; [done|]. cbn [find]. destruct (f x) eqn:Ex.
  - intros [= <-]. split; [left|]. split; [done|]. intros e' [->|He]%elem_of_cons _.
    + unfold str_leb. by rewrite (proj2 (str_compare_eq _ _) eq_refl).
    + rewrite Forall_forall in HF. by apply HF.
  - intros H. destruct (IH H) as (Hin & Hf & Hl). split; [by right|]. split; [done|].
    intros e' [->|He]%elem_of_cons Hf'; [congruence|auto].
Qed.

(** ** Groups *)

Section Groups.
Context (container : str).

Definition in_dir (d b : str) : bool := str_eqb (dir_of b) d.
Definition blobs_of (d : str) (blobs : list str) : list str := List.filter (in_dir d) blobs.

Lemma by_dir_lookup blobs : forall m d,
  foldl add_to_dir m blobs !! d
  = match blobs_of d blobs with [] => m !! d | l => Some (default [] (m !! d) ++ l) end.
Proof.
  induction blobs as [|b bs IH]; intros m d; [done|]. cbn [foldl]. rewrite IH.
  assert (blobs_of d (b :: bs) = if str_eqb (dir_of b) d then b :: blobs_of d bs else blobs_of d bs) as -> by done.
  unfold add_to_dir. destruct (str_eqb (dir_of b) d) eqn:E.
  - apply str_eqb_eq in E as <-. rewrite lookup_insert_eq.
    destruct (blobs_of (dir_of b) bs); cbn; [done|]. by rewrite <- (assoc_L (++)).
  - rewrite lookup_insert_ne; [done|]. intros He. by rewrite He, (proj2 (str_eqb_eq d d) eq_refl) in E.
Qed.

Definition names_table (t : str) (e : str * list str) : bool := str_eqb (table_of container e.1) t.

Lemma claims_lookup es : forall g t, (forall t, g_out g !! t = None <-> claimed_by g !! t = None) ->
  g_out (foldl (claim_dir container) g es) !! t
  = match g_out g !! t with Some l => Some l | None => snd <$> find (names_table t) es end.
Proof.
  induction es as [|[d l] es IH]; intros g t Hg; [cbn; by destruct (g_out g !! t)|]. cbn [foldl find claim_dir].
  unfold names_table at 1. cbn [fst]. destruct (claimed_by g !! table_of container d) as [prev|] eqn:Ec.
  - rewrite IH by done. cbn [g_out]. destruct (g_out g !! t) as [l'|] eqn:Et; [done|].
    destruct (str_eqb (table_of container d) t) eqn:E; [|done]. apply str_eqb_eq in E as E'. subst t. apply Hg in Et. congruence.
  - rewrite IH.
    + cbn [g_out]. destruct (str_eqb (table_of container d) t) eqn:E.
      * apply str_eqb_eq in E as <-. rewrite lookup_insert_eq. by rewrite (proj2 (Hg _) Ec).
      * rewrite lookup_insert_ne; [done|]. intros He. by rewrite He, (proj2 (str_eqb_eq t t) eq_refl) in E.
    + intros t'. cbn [g_out claimed_by]. destruct (decide (table_of container d = t')) as [->|Hne]; [by rewrite !lookup_insert_eq|].
      by rewrite !lookup_insert_ne.
Qed.

Lemma entries_of blobs d l : (d, l) ∈ btree_entries (foldl add_to_dir ∅ blobs) <-> l = blobs_of d blobs /\ l <> [].
Proof.
  rewrite btree_elem, by_dir_lookup, lookup_empty. cbn [default app]. destruct (blobs_of d blobs) as [|b bs]; [by split; [|intros [-> ?]]|].
  split; [intros [= <-]; done|by intros [-> _]].
Qed.

Lemma blobs_of_elem d blobs b : b ∈ blobs_of d blobs <-> b ∈ blobs /\ dir_of b = d.
Proof. unfold blobs_of. rewrite list_elem_of_In, filter_In, <- list_elem_of_In. unfold in_dir. by rewrite str_eqb_eq. Qed.

(** The groups of an import are the directories of the listed blobs: a
    table holds all blobs of one directory, in listing order, and among the
    directories with the same last component the first one in byte order. *)
Theorem group_blobs_spec blobs t l :
  fst (group_blobs_by_directory blobs container) !! t = Some l <->
  exists d, l = blobs_of d blobs /\ l <> [] /\ table_of container d = t /\
    forall b, b ∈ blobs -> table_of container (dir_of b) = t -> str_leb d (dir_of b) = true.
Proof.
  unfold group_blobs_by_directory. cbn [fst]. rewrite claims_lookup by done. cbn [g_out]. rewrite lookup_empty.
  set (es := btree_entries (foldl add_to_dir ∅ blobs)).
  assert (forall b, b ∈ blobs -> (dir_of b, blobs_of (dir_of b) blobs) ∈ es) as Hall.
  { intros b Hb. apply entries_of. split; [done|]. intros E. assert (b ∈ blobs_of (dir_of b) blobs) as Hin by (by apply blobs_of_elem).
    rewrite E in Hin. by apply not_elem_of_nil in Hin. }
  split.
  - destruct (find (names_table t) es) as [[d l']|] eqn:Ef; [|done]. intros [= <-].
    destruct (find_least _ _ _ (btree_sorted _) Ef) as (Hin & Ht & Hleast). apply entries_of in Hin as [-> Hne].
    exists d. split; [done|]. split; [done|]. split; [by apply str_eqb_eq in Ht|]. intros b Hb Htb.
    apply (Hleast _ (Hall b Hb)). by apply str_eqb_eq.
  - intros (d & -> & Hne & Ht & Hleast). assert ((d, blobs_of d blobs) ∈ es) as Hin by (by apply entries_of).
    destruct (find (names_table t) es) as [[d' l']|] eqn:Ef.
    + destruct (find_least _ _ _ (btree_sorted _) Ef) as (Hin' & Ht' & Hleast'). apply entries_of in Hin' as [-> Hne'].
      cbn [fst] in *. assert (str_leb d' d = true) as H1 by (apply (Hleast' _ Hin); by apply str_eqb_eq).
      destruct (blobs_of d' blobs) as [|b bs] eqn:Eb; [done|]. assert (b ∈ blobs_of d' blobs) as Hb by (rewrite Eb; by left).
      apply blobs_of_elem in Hb as [Hb Hd]. assert (str_leb d d' = true) as H2.
      { rewrite <- Hd. apply Hleast; [done|]. rewrite Hd. by apply str_eqb_eq in Ht'. }
      assert (d = d') as <-; [|cbn; by rewrite Eb]. apply str_compare_eq. unfold str_leb in H1, H2. rewrite (str_compare_antisym d d') in H1.
      by destruct (str_compare d d').
    + apply list_elem_of_In in Hin. pose proof (find_none _ _ Ef _ Hin) as H. unfold names_table in H. cbn [fst] in H.
      rewrite <- not_true_iff_false, str_eqb_eq in H. done.
Qed.
End Groups.

(** ** Reading the DDL back *)

(** The body of a quoted name after its opening quote: the name and the rest. *)
Fixpoint unquote (q : ascii) (s : str) : option (str * str) :=
  match s with
  | [] => None
  | c :: s' =>
      if ascii_eqb c q then
        match s' with
        | d :: s'' => if ascii_eqb d q then '(n, r) ← unquote q s''; Some (q :: n, r) else Some ([], s')
        | [] => Some ([], [])
        end
      else '(n, r) ← unquote q s'; Some (c :: n, r)
  end.

Definition read_quoted (q : ascii) (s : str) : option (str * str) := s ← strip_prefix [q] s; unquote q s.

(** Column definitions, one per line; the last line has no comma. *)
Fixpoint read_columns (fuel : nat) (s : str) : option (list (str * str) * str) :=
  match fuel with
  | O => None
  | S fuel' =>
      s ← strip_prefix "    " s; '(col, s) ← read_quoted dquote s; s ← strip_prefix " " s; '(line, s) ← split_once newline s;
      match strip_suffix "," line with
      | Some ty => '(cols, r) ← read_columns fuel' s; Some ((col, ty) :: cols, r)
      | None => Some ([(col, line)], s)
      end
  end.

Record Ddl := mkDdl { ddl_schema : str; ddl_table : str; ddl_server : str; ddl_container : str; ddl_filename : str; ddl_columns : list (str * str) }.

Definition read_ddl (s : str) : option Ddl :=
  s ← strip_prefix "CREATE FOREIGN TABLE " s; '(schema, s) ← read_quoted dquote s;
  s ← strip_prefix "." s; '(table, s) ← read_quoted dquote s;
  s ← strip_prefix " (" s; s ← strip_prefix [newline] s; '(cols, s) ← read_columns (length s) s;
  s ← strip_prefix ") SERVER " s; '(server, s) ← read_quoted dquote s;
  s ← strip_prefix " OPTIONS (container " s; '(cont, s) ← read_quoted squote s;
  s ← strip_prefix ", filename " s; '(glob, s) ← read_quoted squote s;
  if str_eqb s ");" then Some (mkDdl schema table server cont glob cols) else None.

Definition starts_other (q : ascii) (rest : str) : bool := match rest with [] => true | c :: _ => negb (ascii_eqb c q) end.

Lemma unquote_quoted q s rest : starts_other q rest = true ->
  unquote q (concat (map (double q) s) ++ q :: rest) = Some (s, rest).
Proof.
  intros Hr. induction s as [|c s IH]; cbn [map concat app].
  - cbn [unquote]. rewrite ascii_eqb_refl. destruct rest as [|d rest]; [done|]. cbn in Hr. apply negb_true_iff in Hr. by rewrite Hr.
  - rewrite <- (assoc_L (++)). unfold double at 1. destruct (ascii_eqb c q) eqn:E.
    + apply ascii_eqb_eq in E as ->. cbn [app unquote]. rewrite !ascii_eqb_refl, IH. done.
    + cbn [app unquote]. by rewrite E, IH.
Qed.

Lemma strip_lit p s : strip_prefix p (p ++ s) = Some s.
Proof. by apply strip_prefix_Some. Qed.

Lemma read_ident s rest : starts_other dquote rest = true -> read_quoted dquote (quote_ident s ++ rest) = Some (s, rest).
Proof.
  intros Hr. unfold read_quoted, quote_ident. change ((dquote :: concat (map (double dquote) s) ++ [dquote]) ++ rest) with ([dquote] ++ ((concat (map (double dquote) s) ++ [dquote]) ++ rest)).
  rewrite strip_lit. cbn [mbind option_bind]. rewrite <- (assoc_L (++)). by apply unquote_quoted.
Qed.

Lemma read_str s rest : starts_other squote rest = true -> read_quoted squote (quote_str s ++ rest) = Some (s, rest).
Proof.
  intros Hr. unfold read_quoted, quote_str. change ((squote :: concat (map (double squote) s) ++ [squote]) ++ rest) with ([squote] ++ ((concat (map (double squote) s) ++ [squote]) ++ rest)).
  rewrite strip_lit. cbn [mbind option_bind]. rewrite <- (assoc_L (++)). by apply unquote_quoted.
Qed.

(** A type text: one line that does not end in a comma. *)
Definition type_text (ty : str) : Prop := (newline ∉ ty) /\ strip_suffix "," ty = None.

Lemma split_line a rest : newline ∉ a -> split_once newline (a ++ newline :: rest) = Some (a, rest).
Proof. intros Ha. by apply split_once_Some. Qed.

Lemma read_column_line col ty sep rest fuel : (newline ∉ ty ++ sep) ->
  read_columns (S fuel) ("    " ++ quote_ident col ++ " " ++ (ty ++ sep) ++ newline :: rest)
  = match strip_suffix "," (ty ++ sep) with
    | Some ty => '(cols, r) ← read_columns fuel rest; Some ((col, ty) :: cols, r)
    | None => Some ([(col, ty ++ sep)], rest)
    end.
Proof.
  intros Hn. cbn [read_columns]. rewrite strip_lit. cbn [mbind option_bind]. rewrite read_ident by done. cbn [mbind option_bind].
  rewrite strip_lit. cbn [mbind option_bind]. rewrite split_line by done. done.
Qed.

(** The definitions after the first one. *)
Lemma render_tail i col ty cols : render_columns (S i) ((col, ty) :: cols)
  = ","%char :: newline :: "    " ++ quote_ident col ++ " " ++ ty ++ render_columns (S (S i)) cols.
Proof. done. Qed.

Lemma read_rendered cols : forall i col ty fuel rest, Forall (fun c => type_text c.2) ((col, ty) :: cols) -> (length cols < fuel)%nat ->
  read_columns fuel ("    " ++ quote_ident col ++ " " ++ ty ++ render_columns (S i) cols ++ newline :: rest) = Some ((col, ty) :: cols, rest).
Proof.
  induction cols as [|[col' ty'] cols IH]; intros i col ty fuel rest HF Hfuel.
  - destruct fuel as [|fuel]; [cbn in Hfuel; lia|]. apply Forall_cons in HF as [[Hn Hs] _]. cbn [snd render_columns app] in *.
    pose proof (read_column_line col ty [] rest fuel) as H. rewrite (right_id_L [] (++)) in H. rewrite H by done. by rewrite Hs.
  - destruct fuel as [|fuel]; [cbn in Hfuel; lia|]. apply Forall_cons in HF as [[Hn Hs] HF]. cbn [snd] in *. rewrite render_tail.
    pose proof (read_column_line col ty (lit ",") ("    " ++ quote_ident col' ++ " " ++ ty' ++ render_columns (S (S i)) cols ++ newline :: rest) fuel) as H.
    assert (newline ∉ ty ++ lit ",") as Hn'.
    { rewrite elem_of_app. intros [?|E]; [done|]. apply list_elem_of_singleton in E. discriminate E. }
    rewrite <- !(assoc_L (++)) in H. cbn [app] in H.
    assert (ty ++ (","%char :: newline :: lit "    " ++ quote_ident col' ++ lit " " ++ ty' ++ render_columns (S (S i)) cols) ++ newline :: rest
      = ty ++ lit "," ++ newline :: lit "    " ++ quote_ident col' ++ lit " " ++ ty' ++ render_columns (S (S i)) cols ++ newline :: rest) as ->.
    { cbn [app]. by rewrite <- !(assoc_L (++)). }
    rewrite H by done. rewrite (proj2 (strip_suffix_Some (lit ",") (ty ++ lit ",") ty) eq_refl). cbn [length] in Hfuel.
    rewrite (IH (S i) col' ty') by (done || lia). done.
Qed.

Lemma read_ddl_built schema table server cont glob col ty cols :
  Forall (fun c => type_text c.2) ((col, ty) :: cols) ->
  read_ddl (build_create_table_ddl schema table server cont glob ((col, ty) :: cols))
  = Some (mkDdl schema table server cont glob ((col, ty) :: cols)).
Proof.
  intros HF. unfold read_ddl, build_create_table_ddl. rewrite strip_lit. cbn [mbind option_bind]. rewrite read_ident by done.
  cbn [mbind option_bind]. rewrite strip_lit. cbn [mbind option_bind]. rewrite read_ident by done. cbn [mbind option_bind].
  rewrite strip_lit. cbn [mbind option_bind]. rewrite strip_lit. cbn [mbind option_bind].
  assert (forall rest, render_columns 0 ((col, ty) :: cols) ++ [newline] ++ rest
    = "    " ++ quote_ident col ++ " " ++ ty ++ render_columns 1 cols ++ newline :: rest) as Hr.
  { intros rest. cbn [render_columns Nat.ltb Nat.leb app]. by rewrite <- !(assoc_L (++)). }
  rewrite Hr. rewrite read_rendered; [|done|].
  - cbn [mbind option_bind]. rewrite strip_lit. cbn [mbind option_bind]. rewrite read_ident by done. cbn [mbind option_bind].
    change (lit " OPTIONS (" ++ lit "container " ++ quote_str cont ++ lit ", filename " ++ quote_str glob ++ lit ");")
      with (lit " OPTIONS (container " ++ (quote_str cont ++ lit ", filename " ++ quote_str glob ++ lit ");")).
    rewrite strip_lit. cbn [mbind option_bind]. rewrite read_str by done. cbn [mbind option_bind]. rewrite strip_lit. cbn [mbind option_bind].
    rewrite read_str by done. cbn [mbind option_bind]. done.
  - rewrite !length_app. assert (forall i, (length cols <= length (render_columns i cols))%nat) as Hlen.
    { clear. induction cols as [|[c t] cols IH]; intros i; [cbn; lia|]. cbn [render_columns]. rewrite !length_app.
      change (length (lit "    ")) with 4%nat. specialize (IH (S i)). cbn [length]. lia. }
    specialize (Hlen 1%nat). change (length (lit "    ")) with 4%nat. lia.
Qed.

(** ** The columns that are declared *)

Section Types.
Context {A : ArrowApi} {P : PgApi} {SA : ParquetScanApi}.

Lemma show_Z_no_newline z : newline ∉ show_Z z.
Proof.
  assert (forall z, 0 <= z -> newline ∉ show_nonneg z) as Hn.
  { intros x Hx Hin. pose proof (show_nonneg_digits x Hx) as HF. rewrite Forall_forall in HF. by apply HF in Hin. }
  unfold show_Z. destruct (Z.ltb_spec z 0); [|by apply Hn]. apply not_elem_of_cons. split; [done|]. apply Hn. lia.
Qed.

Lemma typename_text t ty : arrow_type_to_pg_typename t = Ok ty -> type_text ty.
Proof.
  assert (forall s, contains_char newline s = false -> strip_suffix "," s = None -> type_text s) as Hlit.
  { intros s H1 H2. split; [by apply contains_char_not_elem|done]. }
  destruct t as [| | | | | | | | | | |u tz|p s|d]; cbn [arrow_type_to_pg_typename]; try done.
  all: try (intros [= <-]; apply Hlit; vm_compute; reflexivity).
  - destruct u; [done|done| |done]. destruct tz; intros [= <-]; apply Hlit; vm_compute; reflexivity.
  - intros H. assert (ty = "NUMERIC(" ++ show_Z p ++ "," ++ show_Z s ++ ")") as -> by congruence. split.
    + rewrite !elem_of_app. assert ((newline ∉ lit "NUMERIC(") /\ (newline ∉ lit ",") /\ (newline ∉ lit ")")) as (H1 & H2 & H3)
        by (repeat split; apply contains_char_not_elem; vm_compute; reflexivity).
      pose proof (show_Z_no_newline p). pose proof (show_Z_no_newline s). tauto.
    + destruct (strip_suffix "," _) as [r|] eqn:E; [|done]. apply strip_suffix_Some in E. rewrite !(assoc_L (++)) in E.
      apply app_inj_2 in E as [_ E]; [|done]. discriminate E.
Qed.

Lemma inferred_columns nm cols : infer_columns nm = Ok cols ->
  exists b, builder_new nm = Ok b /\ cols <> [] /\
    Forall2 (fun f c => c.1 = field_name f /\ arrow_type_to_pg_typename (field_type f) = Ok c.2) (builder_schema b) cols.
Proof.
  unfold infer_columns. intros H. apply bind_Ok_inv in H as (b & Hb & H). apply bind_Ok_inv in H as (cols' & Hm & H).
  destruct cols' as [|c cs]; [done|]. injection H as <-. exists b.
  split; [by destruct (builder_new nm); [injection Hb as <-|]|]. split; [done|].
  apply mapM_res_Ok in Hm. eapply Forall2_impl; [exact Hm|]. intros f c' Hf. unfold infer_column in Hf.
  apply bind_Ok_inv in Hf as (ty & Hty & Hf). by injection Hf as <-.
Qed.

(** The DDL text of a group is read back as exactly the table it
    describes, with every name as it was, whatever quotes, commas or newlines
    the names of the schema, the table, the columns, the server, the container
    or the directory contain. *)
Lemma import_ddl_roundtrip schema table server cont glob nm cols :
  infer_columns nm = Ok cols ->
  read_ddl (build_create_table_ddl schema table server cont glob cols) = Some (mkDdl schema table server cont glob cols).
Proof.
  intros H. destruct (inferred_columns _ _ H) as (b & _ & Hne & HF). destruct cols as [|[col ty] cols]; [done|].
  apply read_ddl_built. apply Forall_forall. intros c Hc. apply list_elem_of_lookup in Hc as [i Hi].
  destruct (Forall2_lookup_r _ _ _ _ _ HF Hi) as (f & _ & _ & Hty). by eapply typename_text.
Qed.

(** ** The whole statement *)

(** The table described for one group: the columns are inferred from its first
    blob, and a group whose inference fails is left out. *)
Definition described (stmt : ImportStmt) (server cont : str) (e : str * list str) : option Ddl :=
  match e.2 with
  | [] => None
  | sample :: _ =>
      match infer_columns sample with
      | Ok cols => Some (mkDdl (local_schema stmt) e.1 server cont (build_filename_glob sample) cols)
      | Err _ => None
      end
  end.

Definition ddl_text (d : Ddl) : str :=
  build_create_table_ddl (ddl_schema d) (ddl_table d) (ddl_server d) (ddl_container d) (ddl_filename d) (ddl_columns d).

Lemma described_reads stmt server cont e d : described stmt server cont e = Some d -> read_ddl (ddl_text d) = Some d.
Proof.
  unfold described. destruct e as [t [|sample l]]; cbn [snd]; [done|]. destruct (infer_columns sample) as [cols|] eqn:E; [|done].
  intros [= <-]. unfold ddl_text. cbn [ddl_schema ddl_table ddl_server ddl_container ddl_filename ddl_columns fst]. by eapply import_ddl_roundtrip.
Qed.

Lemma import_groups stmt server cont es : forall ddls ns,
  exists ns', foldl (import_group stmt server cont) (ddls, ns) es = (ddls ++ map ddl_text (omap (described stmt server cont) es), ns').
Proof.
  induction es as [|[t l] es IH]; intros ddls ns; [exists ns; cbn; by rewrite (right_id_L [] (++))|]. cbn [foldl omap list_omap].
  unfold import_group at 2, described at 1. cbn [snd]. destruct l as [|sample l]; [apply IH|].
  destruct (infer_columns sample) as [cols|e]; [|apply IH]. destruct (IH (ddls ++ [build_create_table_ddl (local_schema stmt) t server cont (build_filename_glob sample) cols]) ns) as [ns' ->].
  exists ns'. by rewrite <- (assoc_L (++)).
Qed.

Lemma to_cstrings l : Forall (fun d => contains_char "000" d = false) l -> mapM_res to_cstring l = Ok l.
Proof. induction 1 as [|d l Hd _ IH]; [done|]. cbn [mapM_res]. rewrite IH. unfold to_cstring. by rewrite Hd. Qed.

(** C19: an accepted IMPORT FOREIGN SCHEMA returns, in the order of the table
    names, one text for every group of parquet blobs under the prefix that the
    LIMIT TO or EXCEPT list admits and whose first blob has readable columns.
    Each text reads back as exactly that table, whatever characters the names
    contain, and the container is not changed. *)
Theorem import_statement {Y : BytesApi} {B : BlobApi} {L : BlobLaws B} url_parse env stmt s cont client svc :
  snd <$> find (fun kv => str_eqb kv.1 "container") (stmt_options stmt) = Some cont ->
  client_for_server url_parse env (Some s) cont = Ok client ->
  validate_blob_pattern (remote_schema stmt) "remote_schema" = Ok tt ->
  Z.of_nat (size (blobs svc)) <= MAX_LIST_RESULTS ->
  let groups := fst (group_blobs_by_directory (List.filter is_parquet (map fst (visible (remote_schema stmt) (blobs svc)))) cont) in
  let tables := omap (described stmt (servername s) cont) (btree_entries (apply_limit_or_except groups stmt)) in
  Forall (fun d => contains_char "000" (ddl_text d) = false) tables ->
  exists svc' texts notices,
    do_import url_parse env stmt (Some s) svc = (svc', Ok (texts, notices)) /\ blobs svc' = blobs svc /\ map read_ddl texts = map Some tables.
Proof.
  cbn zeta. intros Hc Hcl Hp Hsz Hnul. destruct (list_visible (remote_schema stmt) svc Hsz) as (svc' & Hl & Hb).
  unfold do_import. rewrite Hc. cbn [ok_or]. erewrite sm_bind_Ok; [|done]. erewrite sm_bind_Ok; [|done].
  assert (validate_container_name cont = Ok tt) as Hv.
  { unfold client_for_server in Hcl. destruct (validate_container_name cont) as [[]|]; [done|]. discriminate Hcl. }
  rewrite Hv. erewrite sm_bind_Ok; [|done]. rewrite Hcl. erewrite sm_bind_Ok; [|done]. rewrite Hp. erewrite sm_bind_Ok; [|done].
  erewrite sm_bind_Ok; [|exact Hl]. destruct (group_blobs_by_directory _ cont) as [groups n1]. cbn [fst] in *.
  destruct (import_groups stmt (servername s) cont (btree_entries (apply_limit_or_except groups stmt)) [] []) as [n2 ->]. cbn [app].
  rewrite to_cstrings by (by apply Forall_fmap). erewrite sm_bind_Ok; [|done]. eexists svc', _, _. split; [reflexivity|]. split; [done|].
  rewrite map_map. apply map_ext_in. intros d Hd. apply list_elem_of_In, list_elem_of_omap in Hd as (e & _ & He). by eapply described_reads.
Qed.

(** The Postgres type a type text names. *)
Definition typename_oid (ty : str) : option Z :=
  if str_eqb ty "BOOLEAN" then Some BOOLOID else if str_eqb ty "SMALLINT" then Some INT2OID else if str_eqb ty "INTEGER" then Some INT4OID
  else if str_eqb ty "BIGINT" then Some INT8OID else if str_eqb ty "REAL" then Some FLOAT4OID else if str_eqb ty "DOUBLE PRECISION" then Some FLOAT8OID
  else if str_eqb ty "TEXT" then Some TEXTOID else if str_eqb ty "BYTEA" then Some BYTEAOID else if str_eqb ty "DATE" then Some DATEOID
  else if str_eqb ty "TIMESTAMP" then Some TIMESTAMPOID else if str_eqb ty "TIMESTAMPTZ" then Some TIMESTAMPTZOID
  else if starts_with "NUMERIC(" ty then Some NUMERICOID else None.

(** A value of an Arrow type. *)
Definition value_of (t : DataType) (v : Value) : Prop :=
  match t, v with
  | Boolean, VBool _ | Int16, VI16 _ | Int32, VI32 _ | Int64, VI64 _ | Float32, VF32 _ | Float64, VF64 _
  | Utf8, VUtf8 _ | LargeUtf8, VUtf8 _ | Binary, VBinary _ | LargeBinary, VBinary _ | Date32, VDate32 _
  | Timestamp _ _, VTimestamp _ | Decimal128 _ _, VDecimal128 _ => True
  | _, _ => False
  end.

(** The value does not fit the Postgres type. *)
Definition out_of_pg_range (t : DataType) (v : Value) : Prop :=
  match v with
  | VDate32 z => checked_sub_i32 z UNIX_TO_PG_EPOCH_DAYS = None \/ exists d, checked_sub_i32 z UNIX_TO_PG_EPOCH_DAYS = Some d /\ is_ok (pg_date_try_from d) = false
  | VTimestamp us => is_ok (pg_timestamp "timestamp" us) = false \/ is_ok (pg_timestamp "timestamptz" us) = false
  | VDecimal128 z => match t with Decimal128 _ s => is_ok (any_numeric_try_from (format_decimal128 z s)) = false | _ => False end
  | _ => False
  end.

(** C35: a column created by IMPORT has a type the scan can convert the file's
    values to: reading a value of the Arrow type fails only when the value is
    outside the range of the Postgres type, never for the types. *)
Theorem imported_column_scans t ty :
  arrow_type_to_pg_typename t = Ok ty ->
  exists oid, typename_oid ty = Some oid /\ arrow_value_to_datum t None oid = Ok None /\
    forall v, value_of t v -> (exists d, arrow_value_to_datum t (Some v) oid = Ok (Some d)) \/ out_of_pg_range t v.
Proof.
  destruct t as [| | | | | | | | | | |u tz|p s|d]; cbn [arrow_type_to_pg_typename]; try done.
  all: try (intros [= <-]; eexists; split; [vm_compute; reflexivity|split; [reflexivity|]];
    intros v Hv; destruct v; try done; left; eexists; reflexivity).
  - intros [= <-]. exists DATEOID. split; [vm_compute; reflexivity|]. split; [reflexivity|]. intros [] Hv; try done. cbn [arrow_value_to_datum out_of_pg_range].
    change (DATEOID =? DATEOID) with true. cbn match. destruct (checked_sub_i32 _ _) as [x|]; [|by right; left]. cbn [ok_or mbind result_bind].
    destruct (pg_date_try_from x) as [y|e] eqn:E; [left; eexists; reflexivity|]. right. right. exists x. by rewrite E.
  - destruct u; [done|done| |done]. destruct tz as [tz|]; intros [= <-].
    + exists TIMESTAMPTZOID. split; [vm_compute; reflexivity|]. split; [reflexivity|]. intros [] Hv; try done. cbn [arrow_value_to_datum out_of_pg_range].
      change (TIMESTAMPTZOID =? TIMESTAMPTZOID) with true. cbn match. destruct (pg_timestamp "timestamptz" us) as [y|e]; [left; eexists; reflexivity|]. right. by right.
    + exists TIMESTAMPOID. split; [vm_compute; reflexivity|]. split; [reflexivity|]. intros [] Hv; try done. cbn [arrow_value_to_datum out_of_pg_range].
      change (TIMESTAMPOID =? TIMESTAMPOID) with true. cbn match. destruct (pg_timestamp "timestamp" us) as [y|e]; [left; eexists; reflexivity|]. right. by left.
  - intros H. assert (ty = "NUMERIC(" ++ show_Z p ++ "," ++ show_Z s ++ ")") as -> by congruence. exists NUMERICOID. split; [|split; [reflexivity|]].
    + unfold typename_oid. assert (forall l rest, str_eqb (lit "NUMERIC(" ++ rest) (lit l) = true -> starts_with "NUMERIC(" (lit l) = true) as Hno.
      { intros l rest Hl. apply str_eqb_eq in Hl. rewrite <- Hl. apply starts_with_true. eauto. }
      repeat match goal with |- (if str_eqb ?x ?y then _ else _) = _ => destruct (str_eqb x y) eqn:?E; [exfalso; apply Hno in E; vm_compute in E; discriminate E|]; clear E end.
      rewrite (proj2 (starts_with_true _ _)) by eauto. done.
    + intros [] Hv; try done. cbn [arrow_value_to_datum out_of_pg_range]. change (NUMERICOID =? NUMERICOID) with true. cbn match zeta.
      destruct (any_numeric_try_from _) as [y|e]; [left; eexists; reflexivity|by right].
Qed.
End Types.

(** ** The blobs the table covers *)

(** A blob is its directory and a file name. *)
Lemma blob_parts b : starts_with "/" b = false ->
  exists file, ("/"%char ∉ file) /\ b = (if str_eqb (dir_of b) [] then [] else dir_of b ++ lit "/") ++ file.
Proof.
  intros Hs. unfold dir_of. destruct (rfind_char "/" b) as [i|] eqn:E; [|exists b; split; [by apply rfind_char_None|by rewrite (proj2 (str_eqb_eq [] []) eq_refl)]].
  apply rfind_char_Some in E as [Hb Hf]. exists (drop (S i) b). split; [done|]. destruct (str_eqb (take i b) []) eqn:Et.
  - apply str_eqb_eq in Et. rewrite Et in Hb. exfalso. rewrite <- not_true_iff_false in Hs. apply Hs, starts_with_true. exists (drop (S i) b). exact Hb.
  - by rewrite <- (assoc_L (++)).
Qed.

Lemma glob_suffix suf file : Forall (fun c => is_wild c = false) suf -> boundary suf = true -> "/"%char ∉ file ->
  glob_match ("*"%char :: suf) file <-> ends_with suf file = true.
Proof.
  intros Hw Hb Hf. rewrite ends_with_true. split.
  - intros H. inversion H as [|? ? ? Hc| |t p s Ht Hbs Hm]; subst; [discriminate|]. exists t. f_equal.
    rewrite <- (right_id_L [] (++) suf) in Hm. destruct (glob_literal_inv _ _ _ Hw Hm) as (r & -> & Hr). inversion Hr. by rewrite (right_id_L [] (++)).
  - intros [r ->]. constructor; [|done|].
    + intros Hin. apply Hf, elem_of_app. by left.
    + rewrite <- (right_id_L [] (++) suf). apply glob_literal; [done|constructor].
Qed.

Lemma ends_with_file a file suf : "/"%char ∉ suf -> ends_with suf ((a ++ lit "/") ++ file) = ends_with suf file.
Proof.
  intros Hs. apply eq_true_iff_eq. rewrite !ends_with_true. split; intros [r E].
  - apply app_eq_inv in E as [(k & E1 & ->)|(k & -> & ->)]; [|by exists k].
    destruct k as [|x k _] using rev_ind; [by exists []|]. exfalso. rewrite (assoc_L (++)) in E1. apply app_inj_2 in E1 as [_ E1]; [|done].
    injection E1 as <-. apply Hs, elem_of_app. left. apply elem_of_app. right. by left.
  - exists ((a ++ lit "/") ++ r). rewrite E. by rewrite !(assoc_L (++)).
Qed.

Section Globs.
Context {R : RegexApi} {RL : RegexLaws R}.

(** The pattern of an imported table matches exactly those blobs of its
    directory whose names end in a lower-case [.parquet], although names in
    any case are imported. *)
Theorem import_glob_covers sample b g :
  parse_glob (build_filename_glob sample) = Ok g -> Forall (fun c => is_wild c = false) (dir_of sample) ->
  dir_of b = dir_of sample -> starts_with "/" sample = false -> starts_with "/" b = false -> utf8_valid b = true ->
  is_match (regex g) b = ends_with ".parquet" b.
Proof.
  intros Hg Hw Hd Hs Hb Hu. apply eq_true_iff_eq. rewrite (parse_glob_matches _ _ _ Hg Hu).
  destruct (blob_parts b Hb) as (file & Hf & Eb). rewrite Hd in Eb.
  assert (Forall (fun c => is_wild c = false) (lit ".parquet")) as Hsuf by (repeat constructor).
  assert ("/"%char ∉ lit ".parquet") as Hns by (apply contains_char_not_elem; vm_compute; reflexivity).
  assert (build_filename_glob sample = (if str_eqb (dir_of sample) [] then [] else dir_of sample ++ lit "/") ++ lit "*.parquet") as ->.
  { unfold build_filename_glob, dir_of. destruct (rfind_char "/" sample) as [i|] eqn:E; [|by rewrite (proj2 (str_eqb_eq [] []) eq_refl)]. destruct (str_eqb (take i sample) []) eqn:Et; [|by rewrite <- (assoc_L (++))].
    apply str_eqb_eq in Et. apply rfind_char_Some in E as [E _]. rewrite Et in E. exfalso. rewrite <- not_true_iff_false in Hs. apply Hs, starts_with_true. exists (drop (S i) sample). exact E. }
  destruct (str_eqb (dir_of sample) []); cbn [app] in Eb; rewrite Eb; [by apply glob_suffix|].
  rewrite ends_with_file by done. rewrite <- glob_suffix by done. split.
  - intros H. apply glob_literal_inv in H as (r & E & Hr); [|apply Forall_app; by repeat constructor]. by apply app_inj_1 in E as [_ ->].
  - intros H. apply glob_literal; [apply Forall_app; by repeat constructor|done].
Qed.
End Globs.

(** ** A concrete import: two directories, one of them unreadable *)

Definition demo_import_schema : Schema := [mkField "id" Int64 true; mkField [dquote; ","%char; newline] (Decimal128 10 2) true].

Definition demo_import_scan : ParquetScanApi (A := ref_arrow) :=
  @Build_ParquetScanApi ref_arrow Schema (fun nm => if starts_with "in/bad/" nm then Err (lit "no footer") else Ok demo_import_schema)
    (fun _ => []) (fun _ => None) (fun b => b) (fun _ _ _ _ => Ok []).

Definition demo_import_container : gmap str (str * str) :=
  {[ lit "in/bad/x.parquet" := (lit "e1", []); lit "in/it's/b.PARQUET" := (lit "e2", []); lit "in/it's/a.parquet" := (lit "e3", []);
     lit "in/it's/_SUCCESS" := (lit "e4", []) ]}.

Definition demo_import_stmt : ImportStmt :=
  mkImport "in/" "public" FDW_IMPORT_SCHEMA_ALL None [(lit "container", lit "data")].

Definition demo_catalog : ServerCatalog :=
  mkServerCat "srv" [(lit "account_name", lit "acct1"); (lit "auth_method", lit "managed_identity")] None.

Definition demo_import_env : ClientEnv := mkClientEnv (fun _ => None) (Ok tt) (fun _ _ _ => Ok tt) (fun _ => Ok tt) (fun _ _ => Ok tt).
Definition no_urls (u : str) : Result str Url := Err (lit "not a url").

Definition demo_columns_ddl : list (str * str) := [(lit "id", lit "BIGINT"); ([dquote; ","%char; newline], lit "NUMERIC(10,2)")].
Definition demo_table : Ddl := mkDdl "public" "it's" "srv" "data" "in/it's/*.parquet" demo_columns_ddl.

Lemma import_statement_witness :
  exists svc' texts notices,
    do_import (B := ref_blob (Y := str_bytes)) (SA := demo_import_scan) (P := ref_pg) no_urls demo_import_env demo_import_stmt (Some demo_catalog) demo_import_container
      = (svc', Ok (texts, notices)) /\ map read_ddl texts = [Some demo_table].
Proof.
  destruct (import_statement (B := ref_blob (Y := str_bytes)) (SA := demo_import_scan) (P := ref_pg) no_urls demo_import_env demo_import_stmt demo_catalog (lit "data")
    (mkClient "https://acct1.blob.core.windows.net/data" "acct1" "data") demo_import_container) as (svc' & texts & notices & Hrun & _ & Hread).
  - vm_compute. reflexivity.
  - vm_compute. reflexivity.
  - vm_compute. reflexivity.
  - vm_compute. discriminate.
  - vm_compute. repeat constructor.
  - exists svc', texts, notices. split; [exact Hrun|]. rewrite Hread. vm_compute. reflexivity.
Defined.

Lemma group_blobs_spec_witness :
  fst (group_blobs_by_directory [lit "b/raw/y.parquet"; lit "a/raw/x.parquet"; lit "a/raw/z.parquet"] "c") !! lit "raw"
  = Some [lit "a/raw/x.parquet"; lit "a/raw/z.parquet"].
Proof.
  apply (group_blobs_spec "c"). exists (lit "a/raw"). split; [vm_compute; reflexivity|]. split; [discriminate|]. split; [vm_compute; reflexivity|].
  intros b Hb _. rewrite !elem_of_cons in Hb. destruct Hb as [->|[->|[->|Hb]]]; [vm_compute; reflexivity..|by apply not_elem_of_nil in Hb].
Defined.

Lemma imported_column_scans_witness :
  exists oid, typename_oid "NUMERIC(10,2)" = Some oid /\ arrow_value_to_datum (P := ref_pg) (Decimal128 10 2) None oid = Ok None.
Proof.
  destruct (imported_column_scans (P := ref_pg) (Decimal128 10 2) "NUMERIC(10,2)") as (oid & Ho & Hn & _); [vm_compute; reflexivity|].
  exists oid. split; [exact Ho|exact Hn].
Defined.

Definition demo_import_glob : GlobPattern (R := ref_regex) := mkGlob (R := ref_regex) "it's/" (map glob_atom "it's/*.parquet").

Lemma import_glob_covers_witness :
  is_match (regex demo_import_glob) "it's/a.parquet" = true /\ is_match (regex demo_import_glob) "it's/b.PARQUET" = false.
Proof.
  split.
  - rewrite (import_glob_covers (R := ref_regex) "it's/a.parquet" "it's/a.parquet" demo_import_glob);
      [vm_compute; reflexivity|vm_compute; reflexivity|vm_compute; repeat constructor|vm_compute; reflexivity..].
  - rewrite (import_glob_covers (R := ref_regex) "it's/a.parquet" "it's/b.PARQUET" demo_import_glob);
      [vm_compute; reflexivity|vm_compute; reflexivity|vm_compute; repeat constructor|vm_compute; reflexivity..].
Defined.
