(* ===== verification/TestsText.v ===== *)
(** * The repository's unit tests of the text handling, run on the model.

    One boolean per [#[test]] function of [src/redact.rs], [src/error.rs],
    [src/fdw/glob.rs], [src/fdw/partition.rs], [src/fdw/import_schema.rs] and
    of the name-making functions of [src/fdw/modify], under the function's
    name: the conjunction of its assertions on the model's definitions, with
    the reference instances of the parameters.  An [unwrap] of an error makes
    the test false.  The lemma of each module evaluates its tests. *)

From S2P Require Import Prelude RustStr Redact Errors Options Externals Convert BlobService Store Handoff Coordinator ParquetIO Modify Pushdown PushdownFacts RowFilter PushdownWalk Partition Glob Scan Insert InsertFacts ImportSchema.
Local Open Scope Z_scope.

#[export] Instance Result_eq_dec {E T} `{EqDecision E, EqDecision T} : EqDecision (Result E T).
Proof. solve_decision. Defined.

(** [assert_eq!], [expect_err], [unwrap] and the assertions on its result. *)
Definition assert_eq {T} `{EqDecision T} (a b : T) : bool := bool_decide (a = b).
Definition is_err {E T} (r : Result E T) : bool := match r with Err _ => true | Ok _ => false end.
Definition unwrap_and {E T} (r : Result E T) (f : T -> bool) : bool := match r with Ok v => f v | Err _ => false end.
Definition err_and {T} (r : FdwResult T) (f : FdwError -> bool) : bool := match r with Ok _ => false | Err e => f e end.
(** [assert!(s.contains(p))] and its negation. *)
Definition has (p : string) (s : str) : bool := contains (lit p) s.
Definition lacks (p : string) (s : str) : bool := negb (has p s).

(** ** [src/redact.rs] *)

Module RedactTests.
Definition passes_through_clean_text : bool := assert_eq (redact "plain error message") (lit "plain error message").

Definition redacts_sas_signature : bool :=
  let r := redact "https://acct.blob.core.windows.net/c/b?sv=2024-11-04&se=2025-01-01T00%3A00%3A00Z&sig=AbCdEf%2B123%2F%3D" in
  lacks "AbCdEf" r && has "sig=REDACTED" r && has "sv=2024-11-04" r.

Definition redacts_signature_uppercase_param : bool :=
  let r := redact "error url ?Signature=ZZZZZ&se=now" in lacks "ZZZZZ" r && has "signature=REDACTED" r.

Definition redacts_bearer_token : bool :=
  let r := redact "auth: Bearer eyJhbGciOi.foo.bar more text" in
  lacks "eyJhbGciOi" r && has "Bearer REDACTED" r && has "more text" r.

Definition redacts_user_delegation_key_params : bool :=
  let r := redact "?skoid=11111111-aaaa&sktid=22222222-bbbb&sig=zzzz" in
  lacks "11111111" r && lacks "22222222" r && lacks "zzzz" r.

Definition does_not_redact_word_with_sig_substring : bool := assert_eq (redact "config=verbose") (lit "config=verbose").

Definition idempotent : bool := let once := redact "?sig=secret" in let twice := redact once in assert_eq once twice.

Definition redacts_bearer_with_tab_separator : bool :=
  let r := redact ("Authorization:" ++ TAB :: "Bearer" ++ TAB :: "eyJhbGciOi.foo.bar tail") in
  lacks "eyJhbGciOi" r && has "Bearer REDACTED" r && has "tail" r.

Definition crlf : str := ["013"%char; "010"%char].

Definition redacts_bearer_with_crlf_separator : bool :=
  let r := redact ("hdr:" ++ crlf ++ "Bearer" ++ crlf ++ "eyJ.AAA.BBB" ++ crlf ++ "next") in
  lacks "eyJ.AAA" r && has "Bearer REDACTED" r.

Definition redacts_bearer_with_multiple_spaces : bool :=
  let r := redact "Bearer   eyJ.multi.space" in lacks "eyJ.multi" r && has "Bearer REDACTED" r.

Definition redacts_oauth_access_refresh_id_tokens : bool :=
  let r := redact "?access_token=ya29.AAAA&refresh_token=BBBB&id_token=eyJ.id&expires_in=3600" in
  lacks "ya29.AAAA" r && lacks "BBBB" r && lacks "eyJ.id" r
  && has "access_token=REDACTED" r && has "refresh_token=REDACTED" r && has "id_token=REDACTED" r
  && has "expires_in=3600" r.

Definition redacts_client_assertion : bool :=
  let r := redact "?client_assertion=eyJ.cert.value&client_assertion_type=jwt-bearer" in
  lacks "eyJ.cert.value" r && has "client_assertion=REDACTED" r.

Definition bearer_word_without_token_is_not_truncated : bool := assert_eq (redact "bearership") (lit "bearership").

Lemma redact_pass : forallb id
  [passes_through_clean_text; redacts_sas_signature; redacts_signature_uppercase_param; redacts_bearer_token;
   redacts_user_delegation_key_params; does_not_redact_word_with_sig_substring; idempotent;
   redacts_bearer_with_tab_separator; redacts_bearer_with_crlf_separator; redacts_bearer_with_multiple_spaces;
   redacts_oauth_access_refresh_id_tokens; redacts_client_assertion; bearer_word_without_token_is_not_truncated] = true.
Proof. vm_compute. reflexivity. Qed.
End RedactTests.

(** ** [src/error.rs] *)

Definition concurrent_update_display : bool :=
  assert_eq (display (ConcurrentUpdate "dir/a.parquet" "etag mismatch")) (lit "concurrent update on blob dir/a.parquet: etag mismatch").

Lemma error_pass : concurrent_update_display = true.
Proof. vm_compute. reflexivity. Qed.

(** ** [src/fdw/glob.rs] *)

Module GlobTests.
Definition matches (g : GlobPattern (R := ref_regex)) (s : string) : bool := is_match (RegexApi := ref_regex) (regex g) (lit s).
Definition glob (p : string) : FdwResult (GlobPattern (R := ref_regex)) := parse_glob (R := ref_regex) (lit p).

Definition trailing_star_matches_extension : bool :=
  unwrap_and (glob "data/*.parquet") (fun g =>
    assert_eq (Glob.prefix g) (lit "data/") && matches g "data/2026.parquet" && matches g "data/users.parquet"
    && negb (matches g "data/sub/2026.parquet") && negb (matches g "other/2026.parquet")).

Definition mid_segment_star_works : bool :=
  unwrap_and (glob "logs/*/access.log") (fun g =>
    assert_eq (Glob.prefix g) (lit "logs/") && matches g "logs/2026/access.log"
    && negb (matches g "logs/2026/sub/access.log") && negb (matches g "logs/access.log")).

Definition unicode_chars_compile_and_match : bool :=
  unwrap_and (glob "数据/*.parquet") (fun g => matches g "数据/2026.parquet" && negb (matches g "other/2026.parquet"))
  && unwrap_and (glob "a.b/*.parquet") (fun g2 => matches g2 "a.b/x.parquet" && negb (matches g2 "axb/x.parquet")).

Definition question_mark_matches_single_char : bool :=
  unwrap_and (glob "v?/data.parquet") (fun g =>
    assert_eq (Glob.prefix g) (lit "v") && matches g "v1/data.parquet" && matches g "vA/data.parquet"
    && negb (matches g "v10/data.parquet") && negb (matches g "v/data.parquet")).

Definition literal_no_wildcards_returns_anchored_match : bool :=
  unwrap_and (glob "data.parquet") (fun g =>
    assert_eq (Glob.prefix g) (lit "data.parquet") && matches g "data.parquet"
    && negb (matches g "data.parquet.bak") && negb (matches g "xdata.parquet")).

Definition rejects_recursive_glob : bool := is_err (glob "**/file.parquet").
Definition rejects_traversal : bool := is_err (glob "../etc/passwd") && is_err (glob "data/../secrets").
Definition rejects_absolute_path : bool := is_err (glob "/etc/passwd").
Definition rejects_empty : bool := is_err (parse_glob (R := ref_regex) []).

Definition literal_dot_does_not_act_as_regex_metacharacter : bool :=
  unwrap_and (glob "data.parquet") (fun g => negb (matches g "dataXparquet")).

Lemma glob_pass : forallb id
  [trailing_star_matches_extension; mid_segment_star_works; unicode_chars_compile_and_match; question_mark_matches_single_char;
   literal_no_wildcards_returns_anchored_match; rejects_recursive_glob; rejects_traversal; rejects_absolute_path; rejects_empty;
   literal_dot_does_not_act_as_regex_metacharacter] = true.
Proof. vm_compute. reflexivity. Qed.
End GlobTests.

(** ** [src/fdw/partition.rs] *)

Module SplitTests.
Definition leaf (c : nat) (o : PushedOp) (v : ScalarValueRepr) : PushedExpr := PLeaf (mkQual c o v).

Definition split_pure_partition : bool :=
  let exprs := [leaf 0 OpEq (SI32 2026)] in
  let '(p, s) := split_quals_by_target exprs [0%nat] in
  (length p =? 1)%nat && match s with [] => true | _ => false end.

Definition split_pure_storage : bool :=
  let exprs := [leaf 3 OpGt (SI32 100)] in
  let '(p, s) := split_quals_by_target exprs [0%nat; 1%nat] in
  match p with [] => true | _ => false end && (length s =? 1)%nat.

Definition split_mixed_within_one_expr_drops : bool :=
  let mixed := POr [leaf 0 OpEq (SI32 2026); leaf 3 OpGt (SI32 100)] in
  match split_quals_by_target [mixed] [0%nat] with ([], []) => true | _ => false end.

Definition evaluate_partition_keeps_matching_blob : bool :=
  let exprs := [leaf 0 OpEq (SI32 2026)] in
  let declared := [(lit "year", PInt4); (lit "region", PText)] in
  let parsed : gmap str str := {[ lit "year" := lit "2026"; lit "region" := lit "us" ]} in
  assert_eq (evaluate_partition_quals_against_blob (P := ref_pg) exprs [0%nat] parsed declared) (Some true).

Definition evaluate_partition_drops_non_matching_blob : bool :=
  let exprs := [leaf 0 OpEq (SI32 2026)] in
  let declared := [(lit "year", PInt4)] in
  let parsed : gmap str str := {[ lit "year" := lit "2027" ]} in
  assert_eq (evaluate_partition_quals_against_blob (P := ref_pg) exprs [0%nat] parsed declared) (Some false).

Lemma split_pass : forallb id
  [split_pure_partition; split_pure_storage; split_mixed_within_one_expr_drops; evaluate_partition_keeps_matching_blob;
   evaluate_partition_drops_non_matching_blob] = true.
Proof. vm_compute. reflexivity. Qed.
End SplitTests.

Module PartitionTests.
Definition declared_year_region : Declared := [(lit "year", PInt4); (lit "region", PText)].

(** [m.get(k) == Some(v)]. *)
Definition get_is (m : gmap str str) (k v : string) : bool := assert_eq (m !! lit k) (Some (lit v)).
(** [format!(..).to_lowercase().contains(p)] of an ASCII message. *)
Definition says (p : string) (e : FdwError) : bool := has p (to_ascii_lowercase (display e)).

Definition parses_both_keys_in_order : bool :=
  unwrap_and (partition_values_from_path "events/year=2026/region=us/a.parquet" declared_year_region)
    (fun m => get_is m "year" "2026" && get_is m "region" "us").

Definition parses_keys_in_any_path_order : bool :=
  unwrap_and (partition_values_from_path "events/region=us/year=2026/a.parquet" declared_year_region)
    (fun m => get_is m "year" "2026" && get_is m "region" "us").

Definition missing_key_errors : bool :=
  err_and (partition_values_from_path "events/year=2026/a.parquet" declared_year_region) (says "region").

Definition duplicate_key_errors : bool :=
  err_and (partition_values_from_path "events/year=2026/year=2027/region=us/a.parquet" declared_year_region) (says "year").

Definition extra_segments_ignored : bool :=
  unwrap_and (partition_values_from_path "extras/yr/year=2026/region=us/a.parquet" declared_year_region)
    (fun m => (size m =? 2)%nat).

Definition empty_value_errors : bool :=
  err_and (partition_values_from_path "events/year=/region=us/a.parquet" declared_year_region) (says "empty").

Definition percent_encoded_value_errors : bool :=
  err_and (partition_values_from_path "events/year=2026/region=us%2Dwest/a.parquet" declared_year_region) (says "percent").

Lemma partition_pass : forallb id
  [parses_both_keys_in_order; parses_keys_in_any_path_order; missing_key_errors; duplicate_key_errors; extra_segments_ignored;
   empty_value_errors; percent_encoded_value_errors] = true.
Proof. vm_compute. reflexivity. Qed.
End PartitionTests.

(** ** [src/fdw/import_schema.rs] *)

Module ImportTests.
Definition groups_of (blobs : list string) (container : string) : gmap str (list str) :=
  (group_blobs_by_directory (map lit blobs) (lit container)).1.
Definition group_is (groups : gmap str (list str)) (name : string) (blobs : list string) : bool :=
  assert_eq (groups !! lit name) (Some (map lit blobs)).
(** A double quote, to write [r#"..."#] literals. *)
Definition q (s : string) : str := dquote :: lit s ++ [dquote].

Definition group_by_directory_two_tables : bool :=
  let groups := groups_of ["users/2026.parquet"; "users/2027.parquet"; "orders/2026.parquet"]%string "data" in
  (size groups =? 2)%nat && group_is groups "users" ["users/2026.parquet"; "users/2027.parquet"]%string
  && group_is groups "orders" ["orders/2026.parquet"]%string.

Definition group_by_directory_root_uses_container_name : bool :=
  let groups := groups_of ["root.parquet"; "other.parquet"]%string "mydata" in
  (size groups =? 1)%nat && match groups !! lit "mydata" with Some g => (length g =? 2)%nat | None => false end.

Definition group_by_directory_nested_uses_last_component : bool :=
  let groups := groups_of ["events/raw/a.parquet"; "events/raw/b.parquet"; "events/processed/c.parquet"]%string "evt" in
  (size groups =? 2)%nat && match groups !! lit "raw", groups !! lit "processed" with Some _, Some _ => true | _, _ => false end.

Definition group_by_directory_basename_collision_skips_later : bool :=
  let groups := groups_of ["a/raw/x.parquet"; "b/raw/y.parquet"]%string "c" in
  (size groups =? 1)%nat && group_is groups "raw" ["a/raw/x.parquet"]%string.

Definition build_create_table_ddl_renders_columns : bool :=
  let cols := [(lit "id", lit "INTEGER"); (lit "name", lit "TEXT")] in
  let ddl := build_create_table_ddl "public" "users" "azure_srv" "data" "users/*.parquet" cols in
  contains ("CREATE FOREIGN TABLE " ++ q "public" ++ "." ++ q "users") ddl
  && contains (q "id" ++ " INTEGER") ddl && contains (q "name" ++ " TEXT") ddl && contains ("SERVER " ++ q "azure_srv") ddl
  && has "OPTIONS (container 'data', filename 'users/*.parquet')" ddl.

Definition build_create_table_ddl_quotes_identifiers : bool :=
  let cols := [("co" ++ dquote :: lit "l", lit "TEXT")] in
  let ddl := build_create_table_ddl "sch" ("tab" ++ dquote :: lit "le") "srv" "c" "x" cols in
  contains (dquote :: "tab" ++ dquote :: dquote :: "le" ++ [dquote]) ddl
  && contains (dquote :: "co" ++ dquote :: dquote :: "l" ++ dquote :: lit " TEXT") ddl.

Lemma import_pass : forallb id
  [group_by_directory_two_tables; group_by_directory_root_uses_container_name; group_by_directory_nested_uses_last_component;
   group_by_directory_basename_collision_skips_later; build_create_table_ddl_renders_columns;
   build_create_table_ddl_quotes_identifiers] = true.
Proof. vm_compute. reflexivity. Qed.
End ImportTests.
