(* ===== verification/TestsConvert.v ===== *)
(** * The repository's unit tests of [src/convert], run on the model.

    One boolean per test function of [arrow_to_pg.rs], under the function's
    name.  The crates behind the conversions are played by [test_pg]: the
    Gregorian calendar for chrono and for pgrx's [Date] and [Timestamp], and a
    bracket check for the JSON parser, of which the tests use one accepted and
    one refused text. *)

From S2P Require Import Prelude RustStr Redact Errors Options Externals Convert TestsText.
Local Open Scope Z_scope.

(** ** The calendar *)

(** Days since 1970-01-01 of a date, and back: years begin in March and are
    counted in eras of 400. *)
Definition days_from_civil (y m d : Z) : Z :=
  let y := if m <=? 2 then y - 1 else y in
  let yoe := y mod 400 in
  let doy := (153 * (if 2 <? m then m - 3 else m + 9) + 2) / 5 + d - 1 in
  y / 400 * 146097 + (yoe * 365 + yoe / 4 - yoe / 100 + doy) - 719468.

Definition civil_from_days (days : Z) : Z * Z * Z :=
  let z := days + 719468 in
  let doe := z mod 146097 in
  let yoe := (doe - doe / 1460 + doe / 36524 - doe / 146096) / 365 in
  let doy := doe - (365 * yoe + yoe / 4 - yoe / 100) in
  let mp := (5 * doy + 2) / 153 in
  let d := doy - (153 * mp + 2) / 5 + 1 in
  let m := if mp <? 10 then mp + 3 else mp - 9 in
  (yoe + z / 146097 * 400 + (if m <=? 2 then 1 else 0), m, d).

Definition pad2 (z : Z) : str := if z <? 10 then "0" ++ show_Z z else show_Z z.

(** A date is one the calendar gives back. *)
Definition parse_ymd (s : str) : Result str Z :=
  match map parse_i32 (split_on "-" s) with
  | [Some y; Some m; Some d] =>
      let days := days_from_civil y m d in
      if bool_decide (civil_from_days days = (y, m, d)) then Ok (days - UNIX_TO_PG_EPOCH_DAYS) else Err (lit "input is out of range")
  | _ => Err (lit "input contains invalid characters")
  end.

Definition format_ymd (pg_days : Z) : str :=
  let '(y, m, d) := civil_from_days (pg_days + UNIX_TO_PG_EPOCH_DAYS) in show_Z y ++ "-" ++ pad2 m ++ "-" ++ pad2 d.

Definition test_pg : PgApi := {|
  chrono_parse_ymd := parse_ymd;
  chrono_format_days d := Some (format_ymd d);
  pg_date_try_from d := Ok d;
  pg_timestamp_try_from d := Ok d;
  any_numeric_try_from s := Ok s;
  json_from_str s := if starts_with "{" s && ends_with "}" s then Ok s else Err (lit "expected value");
  debug_type _ := lit "type" |}.

(** The calendar agrees with itself over the years a test could use. *)
Example calendar_roundtrip :
  forallb (fun d => assert_eq (chrono_parse_ymd (PgApi := test_pg) (format_ymd d)) (Ok d)) (map (fun k => 37 * k - 5000) (seqZ 0 500)) = true.
Proof. vm_compute. reflexivity. Qed.

(** ** [src/convert/arrow_to_pg.rs] *)

Module ConvertTests.
Local Existing Instance test_pg.

(** An array as its type and cells; the row of a test is in range. *)
Abbreviation Arr := (DataType * list (option Value))%type.
Definition at_row (arr : Arr) (row : nat) (oid : Z) : FdwResult (option Datum) :=
  arrow_value_to_datum arr.1 (mjoin (arr.2 !! row)) oid.

Definition must_get (arr : Arr) (row : nat) (oid : Z) (f : Datum -> bool) : bool :=
  unwrap_and (at_row arr row oid) (fun d => match d with Some d => f d | None => false end).

Definition assert_null (arr : Arr) (row : nat) (oid : Z) : bool :=
  unwrap_and (at_row arr row oid) (fun d => match d with Some _ => false | None => true end).

(** [.unwrap().is_some()]. *)
Definition some_datum (arr : Arr) (row : nat) (oid : Z) : bool := must_get arr row oid (fun _ => true).

Definition null_returns_none : bool :=
  let arr := (Int64, [None; Some (VI64 1)]) in assert_null arr 0 INT8OID && some_datum arr 1 INT8OID.

Definition bool_roundtrip : bool :=
  let arr := (Boolean, [Some (VBool true); Some (VBool false); None]) in
  must_get arr 0 BOOLOID (fun d0 => word d0 mod 256 mod 2 =? 1)
  && must_get arr 1 BOOLOID (fun d1 => word d1 mod 256 mod 2 =? 0) && assert_null arr 2 BOOLOID.

Definition int16_roundtrip : bool :=
  let arr := (Int16, [Some (VI16 32767); Some (VI16 (-7)); None]) in
  must_get arr 0 INT2OID (fun d => as_i16 (word d) =? 32767) && must_get arr 1 INT2OID (fun d => as_i16 (word d) =? -7)
  && assert_null arr 2 INT2OID.

Definition int32_roundtrip : bool :=
  let arr := (Int32, [Some (VI32 2147483647); Some (VI32 (-1)); None]) in
  must_get arr 0 INT4OID (fun d => as_i32 (word d) =? 2147483647) && must_get arr 1 INT4OID (fun d => as_i32 (word d) =? -1)
  && assert_null arr 2 INT4OID.

Definition int64_roundtrip : bool :=
  let min := -9223372036854775808 in
  let arr := (Int64, [Some (VI64 42); Some (VI64 min); None]) in
  must_get arr 0 INT8OID (fun d => as_i64 (word d) =? 42) && must_get arr 1 INT8OID (fun d => as_i64 (word d) =? min)
  && assert_null arr 2 INT8OID.

(** 1.5 and -2.25 by their IEEE bits. *)
Definition float32_roundtrip : bool :=
  let arr := (Float32, [Some (VF32 0x3FC00000); None]) in
  must_get arr 0 FLOAT4OID (fun d => as_u32 (word d) =? 0x3FC00000) && assert_null arr 1 FLOAT4OID.

Definition float64_roundtrip : bool :=
  let arr := (Float64, [Some (VF64 0xC002000000000000); None]) in
  must_get arr 0 FLOAT8OID (fun d => as_u64 (word d) =? 0xC002000000000000) && assert_null arr 1 FLOAT8OID.

Definition text_returns_datum : bool :=
  let arr := (Utf8, [Some (VUtf8 "hi"); Some (VUtf8 []); None]) in
  some_datum arr 0 TEXTOID && some_datum arr 1 TEXTOID && assert_null arr 2 TEXTOID.

Definition varchar_returns_datum : bool := some_datum (Utf8, [Some (VUtf8 "vc")]) 0 VARCHAROID.

Definition largeutf8_text_returns_datum : bool := some_datum (LargeUtf8, [Some (VUtf8 "big")]) 0 TEXTOID.

Definition bytea_returns_datum : bool :=
  let arr := (Binary, [Some (VBinary (map byte_of [0; 1; 2])); Some (VBinary [])]) in
  some_datum arr 0 BYTEAOID && some_datum arr 1 BYTEAOID.

Definition date_roundtrip_2025_01_01 : bool :=
  let arr := (Date32, [Some (VDate32 20089); None]) in
  must_get arr 0 DATEOID (fun d => assert_eq (civil_from_days (as_i32 (word d) + UNIX_TO_PG_EPOCH_DAYS)) (2025, 1, 1))
  && assert_null arr 1 DATEOID.

Definition timestamp_roundtrip_2025_01_01 : bool :=
  let arr := (Timestamp Microsecond None, [Some (VTimestamp 1735689600000000); None]) in
  must_get arr 0 TIMESTAMPOID (fun d =>
    let minutes := (as_i64 (word d) + UNIX_TO_PG_EPOCH_MICROS) / 60000000 in
    assert_eq (civil_from_days (minutes / 1440)) (2025, 1, 1) && (minutes / 60 mod 24 =? 0) && (minutes mod 60 =? 0))
  && assert_null arr 1 TIMESTAMPOID.

Definition timestamptz_roundtrip_2025_01_01 : bool :=
  let unix_us := 1735689600000000 in
  let arr := (Timestamp Microsecond (Some (lit "UTC")), [Some (VTimestamp unix_us); None]) in
  must_get arr 0 TIMESTAMPTZOID (fun d => as_i64 (word d) =? unix_us - UNIX_TO_PG_EPOCH_MICROS) && assert_null arr 1 TIMESTAMPTZOID.

Definition decimal128_returns_datum : bool :=
  let arr := (Decimal128 10 2, [Some (VDecimal128 12345); Some (VDecimal128 (-50)); None]) in
  some_datum arr 0 NUMERICOID && some_datum arr 1 NUMERICOID && assert_null arr 2 NUMERICOID.

Definition jsonb_returns_datum : bool :=
  let arr := (Utf8, [Some (VUtf8 ("{" ++ DQUOTE :: "k" ++ DQUOTE :: lit ":1}")); None]) in
  some_datum arr 0 JSONBOID && assert_null arr 1 JSONBOID.

Definition jsonb_invalid_text_errors : bool :=
  err_and (at_row (Utf8, [Some (VUtf8 "not-json{")]) 0 JSONBOID) (fun e => match e with SchemaMismatch _ => true | _ => false end).

Definition unsupported_combo_errors : bool :=
  err_and (at_row (Int64, [Some (VI64 1)]) 0 BOOLOID) (fun e => match e with UnsupportedType _ _ => true | _ => false end).

Definition format_decimal_cases : bool :=
  assert_eq (format_decimal128 0 0) (lit "0") && assert_eq (format_decimal128 0 2) (lit "0.00")
  && assert_eq (format_decimal128 12345 2) (lit "123.45") && assert_eq (format_decimal128 (-12345) 2) (lit "-123.45")
  && assert_eq (format_decimal128 5 3) (lit "0.005") && assert_eq (format_decimal128 (-5) 3) (lit "-0.005")
  && assert_eq (format_decimal128 7 0) (lit "7") && assert_eq (format_decimal128 7 (-2)) (lit "700").

Definition parse_int4_returns_datum : bool := unwrap_and (parse_text_to_datum PInt4 "2026") (fun d => as_i32 (word d) =? 2026).
Definition parse_int4_negative_errors : bool := is_err (parse_text_to_datum PInt4 "-1").
Definition parse_int4_non_numeric_errors : bool := is_err (parse_text_to_datum PInt4 "abc").
(** A text datum is a pointer, never null. *)
Definition parse_text_returns_datum : bool :=
  unwrap_and (parse_text_to_datum PText "us-west") (fun d => match d with DText _ => true | _ => negb (word d =? 0) end).
Definition parse_date_iso_returns_datum : bool := unwrap_and (parse_text_to_datum PDate "2026-06-22") (fun _ => true).
Definition parse_date_malformed_errors : bool := is_err (parse_text_to_datum PDate "06/22/2026").

Definition typename_is (t : DataType) (name : string) : bool := unwrap_and (arrow_type_to_pg_typename t) (fun n => assert_eq n (lit name)).
Definition typename_int32_returns_integer : bool := typename_is Int32 "INTEGER".
Definition typename_int64_returns_bigint : bool := typename_is Int64 "BIGINT".
Definition typename_utf8_returns_text : bool := typename_is Utf8 "TEXT".
Definition typename_timestamp_no_tz : bool := typename_is (Timestamp Microsecond None) "TIMESTAMP".
Definition typename_timestamp_with_tz : bool := typename_is (Timestamp Microsecond (Some (lit "UTC"))) "TIMESTAMPTZ".
Definition typename_decimal128_returns_numeric : bool := typename_is (Decimal128 18 2) "NUMERIC(18,2)".
Definition typename_unsupported_errors : bool := is_err (arrow_type_to_pg_typename (OtherType "List(i: Int32)")).

Lemma convert_pass : forallb id
  [null_returns_none; bool_roundtrip; int16_roundtrip; int32_roundtrip; int64_roundtrip; float32_roundtrip; float64_roundtrip;
   text_returns_datum; varchar_returns_datum; largeutf8_text_returns_datum; bytea_returns_datum; date_roundtrip_2025_01_01;
   timestamp_roundtrip_2025_01_01; timestamptz_roundtrip_2025_01_01; decimal128_returns_datum; jsonb_returns_datum;
   jsonb_invalid_text_errors; unsupported_combo_errors; format_decimal_cases; parse_int4_returns_datum;
   parse_int4_negative_errors; parse_int4_non_numeric_errors; parse_text_returns_datum; parse_date_iso_returns_datum;
   parse_date_malformed_errors; typename_int32_returns_integer; typename_int64_returns_bigint; typename_utf8_returns_text;
   typename_timestamp_no_tz; typename_timestamp_with_tz; typename_decimal128_returns_numeric; typename_unsupported_errors] = true.
Proof. vm_compute. reflexivity. Qed.

(** [src/convert/partition_datum.rs]: a text that would leave its segment. *)
Definition text_value_rejects_dotdot : bool :=
  err_and (datum_to_partition_string (DText "../etc/passwd") TEXTOID) (fun e => has ".." (display e)).

Lemma partition_datum_pass : text_value_rejects_dotdot = true.
Proof. vm_compute. reflexivity. Qed.
End ConvertTests.
