(* ===== verification/TestsModify.v ===== *)
(** * The repository's unit tests of [src/fdw/modify] and of the chunk table
    of [src/fdw/scan.rs], run on the model.

    One boolean per test function, under the function's name.  A test of the
    handoff starts from an empty map: the thread-local starts empty and the
    tests use oids of their own. *)

From S2P Require Import Prelude RustStr Redact Errors RowId Options Externals Kernel Convert BlobService Store Handoff Coordinator ParquetIO Modify Pushdown PushdownWalk Partition Glob Scan Insert TestsText.
Local Open Scope Z_scope.

(** ** [src/fdw/modify/scan_handoff.rs] *)

Module HandoffTests.
Definition bl (l : list (string * string)) : BlobList := map (fun ne => (lit ne.1, lit ne.2)) l.

(** [take(oid).unwrap()[0]] is the given pair. *)
Definition first_is (v : option BlobList) (n e : string) : bool :=
  match v with Some v => assert_eq (v !! 0%nat) (Some (lit n, lit e)) | None => false end.

Definition publish_then_take_returns_same : bool :=
  let v := bl [("a.parquet", "e1")]%string in
  let h := publish 101 v ∅ in
  let '(h, r1) := take_entry 101 h in
  let '(h, r2) := take_entry 101 h in
  assert_eq r1 (Some v) && assert_eq r2 None.

Definition take_is_lifo : bool :=
  let h := publish 102 (bl [("first", "e1")]%string) ∅ in
  let h := publish 102 (bl [("second", "e2")]%string) h in
  let '(h, r1) := take_entry 102 h in
  let '(h, r2) := take_entry 102 h in
  first_is r1 "second" "e2" && first_is r2 "first" "e1".

Definition discard_drops_top : bool :=
  let h := publish 103 (bl [("x", "e")]%string) ∅ in
  let h := discard 103 h in
  let '(h, r) := take_entry 103 h in assert_eq r None.

Definition different_oids_isolated : bool :=
  let h := publish 201 (bl [("a", "e1")]%string) ∅ in
  let h := publish 202 (bl [("b", "e2")]%string) h in
  let '(h, r1) := take_entry 202 h in
  let '(h, r2) := take_entry 201 h in
  first_is r1 "b" "e2" && first_is r2 "a" "e1".

Definition take_unique_empty_returns_none : bool := assert_eq (take_unique 300 ∅).2 (Ok None).

Definition take_unique_single_entry_returns_it : bool :=
  let v := bl [("only.parquet", "e1")]%string in
  let h := publish 301 v ∅ in
  let '(h, r1) := take_unique 301 h in
  let '(h, r2) := take_unique 301 h in
  assert_eq r1 (Ok (Some v)) && assert_eq r2 (Ok None).

Definition take_unique_multiple_entries_errors_and_drains : bool :=
  let h := publish 302 (bl [("driver", "e_driver")]%string) ∅ in
  let h := publish 302 (bl [("inner", "e_inner")]%string) h in
  let '(h, r) := take_unique 302 h in
  err_and r (fun e => match e with SchemaMismatch msg => has "ambiguous scan_handoff" msg && has "self-referential" msg | _ => false end)
  && (stacked_count 302 h =? 0)%nat.

Definition stacked_count_reflects_pushes_and_pops : bool :=
  let h0 := ∅ in
  let h2 := publish 400 [] (publish 400 [] h0) in
  let '(h1, _) := take_entry 400 h2 in
  let '(h0', _) := take_entry 400 h1 in
  (stacked_count 400 h0 =? 0)%nat && (stacked_count 400 h2 =? 2)%nat && (stacked_count 400 h1 =? 1)%nat
  && (stacked_count 400 h0' =? 0)%nat.

Lemma handoff_pass : forallb id
  [publish_then_take_returns_same; take_is_lifo; discard_drops_top; different_oids_isolated; take_unique_empty_returns_none;
   take_unique_single_entry_returns_it; take_unique_multiple_entries_errors_and_drains; stacked_count_reflects_pushes_and_pops] = true.
Proof. vm_compute. reflexivity. Qed.
End HandoffTests.

(** ** [src/fdw/modify/coordinator.rs] *)

Module CoordinatorTests.
Definition register_and_mark_committed_round_trip : bool :=
  let c := register_staging "a.tmp.1.parquet" coordinator_new in
  let c := register_staging "b.tmp.2.parquet" c in
  let two := (length (pending_staging c) =? 2)%nat in
  let c := mark_committed "a.tmp.1.parquet" c in
  let one := assert_eq (pending_staging c) [lit "b.tmp.2.parquet"] in
  let c := mark_committed "b.tmp.2.parquet" c in
  two && one && coordinator_is_empty c.

(** [make_staging_name] draws a uuid: the first of the reference source. *)
Definition staged (original : string) : str := make_staging_name (ref_uuid 0%nat) (lit original).

Definition staging_name_contains_tmp_infix_and_preserves_ext : bool :=
  let s := staged "data/year=2025/file.parquet" in starts_with "data/year=2025/file.tmp." s && ends_with ".parquet" s.

Definition staging_name_without_parquet_ext_still_produces_tmp : bool :=
  let s := staged "rawfile" in starts_with "rawfile.tmp." s && ends_with ".parquet" s.

Lemma coordinator_pass : forallb id
  [register_and_mark_committed_round_trip; staging_name_contains_tmp_infix_and_preserves_ext;
   staging_name_without_parquet_ext_still_produces_tmp] = true.
Proof. vm_compute. reflexivity. Qed.
End CoordinatorTests.

(** ** [src/fdw/modify/kernel.rs] *)

Module KernelTests.
Local Existing Instance ref_arrow.
Local Existing Instance ref_roaring.

Definition schema_two : Schema := [mkField "id" Int64 true; mkField "name" Utf8 true].
Definition ids_col (ids : list Z) : RefArray := (Int64, map (fun z => Some (VI64 z)) ids).
Definition names_col (names : list string) : RefArray := (Utf8, map (fun s => Some (VUtf8 (lit s))) names).

(** [RecordBatch::try_new(..).unwrap()], continued. *)
Definition batch (ids : list Z) (names : list string) (f : list RefArray -> bool) : bool :=
  unwrap_and (try_new (ArrowApi := ref_arrow) schema_two [ids_col ids; names_col names]) f.

Definition ids_of (b : list RefArray) : list cell := col_cells (A := ref_arrow) 0 b.
Definition names_of (b : list RefArray) : list cell := col_cells (A := ref_arrow) 1 b.
Definition ids_are (b : list RefArray) (ids : list Z) : bool := assert_eq (ids_of b) (ids_col ids).2.
Definition names_are (b : list RefArray) (names : list string) : bool := assert_eq (names_of b) (names_col names).2.

Definition apply (b : list RefArray) (base_offset : Z) (edits : BlobEdits (R := ref_roaring)) (f : list RefArray -> bool) : bool :=
  unwrap_and (apply_edits_batch (A := ref_arrow) b base_offset schema_two edits) f.

Definition batch_no_edits_is_identity : bool :=
  batch [1; 2; 3] ["a"; "b"; "c"]%string (fun b =>
  apply b 0 BlobEdits_default (fun out => ids_are out [1; 2; 3] && names_are out ["a"; "b"; "c"]%string)).

Definition batch_delete_uses_absolute_offset : bool :=
  batch [10; 11; 12] ["x"; "y"; "z"]%string (fun b =>
  apply b 3 (mkBlobEdits {[4]} ∅) (fun out => ids_are out [10; 12] && names_are out ["x"; "z"]%string)).

Definition batch_update_uses_absolute_offset : bool :=
  batch [10; 11; 12] ["x"; "y"; "z"]%string (fun b =>
  apply b 3 (mkBlobEdits ∅ {[5 := mkRowOverride [None; Some (names_col ["Z"]%string)]]}) (fun out =>
  ids_are out [10; 11; 12] && names_are out ["x"; "y"; "Z"]%string)).

Definition batch_ignores_edits_outside_its_range : bool :=
  batch [1; 2; 3] ["a"; "b"; "c"]%string (fun b =>
  apply b 0 (mkBlobEdits {[7]} {[9 := mkRowOverride [Some (ids_col [99]); None]]}) (fun out =>
  ids_are out [1; 2; 3] && names_are out ["a"; "b"; "c"]%string)).

(** The schema of a batch is its columns' types here. *)
Definition batch_all_rows_deleted_yields_zero_rows : bool :=
  batch [1; 2] ["a"; "b"]%string (fun b =>
  apply b 0 (mkBlobEdits {[0; 1]} ∅) (fun out =>
  (num_rows (ArrowApi := ref_arrow) out =? 0)%nat && assert_eq (map fst out) (map field_type schema_two))).

Definition wrapper_streams_multiple_batches_with_running_offset : bool :=
  batch [1; 2] ["a"; "b"]%string (fun b0 => batch [3; 4] ["c"; "d"]%string (fun b1 =>
  let edits := mkBlobEdits {[1]} {[3 := mkRowOverride [None; Some (names_col ["D"]%string)]]} in
  unwrap_and (apply_edits (A := ref_arrow) (R := ref_roaring) [b0; b1] schema_two edits) (fun out =>
  match out with
  | [o0; o1] => ids_are o0 [1] && names_are o0 ["a"]%string && ids_are o1 [3; 4] && names_are o1 ["c"; "D"]%string
  | _ => false
  end))).

Lemma kernel_pass : forallb id
  [batch_no_edits_is_identity; batch_delete_uses_absolute_offset; batch_update_uses_absolute_offset;
   batch_ignores_edits_outside_its_range; batch_all_rows_deleted_yields_zero_rows;
   wrapper_streams_multiple_batches_with_running_offset] = true.
Proof. vm_compute. reflexivity. Qed.
End KernelTests.

(** ** [src/fdw/modify/update.rs] *)

(** The container URL is only parsed; [AzureBlobClient::new] keeps it. *)
Definition make_test_client : FdwResult AzureBlobClient :=
  client_new (fun _ => Ok tt) (fun _ _ => Ok tt) "fake.invalid" "fakeaccount"
    (SasCredential "http://127.0.0.1:1/c?sv=2024-11-04&sig=stub") "c".

Module UpdateTests.
Local Existing Instance ref_arrow.
Local Existing Instance ref_roaring.

Abbreviation Plan := (ModifyPlan (A := ref_arrow) (R := ref_roaring)).

Definition make_plan_with_one_blob (edit_count : Z) (f : Plan -> bool) : bool :=
  unwrap_and make_test_client (fun client =>
  f (mkPlan [mkEntry "x.parquet" 0 "e"] ∅ [mkField "i" Int32 true; mkField "s" Utf8 true] [] [] client Snappy true 0 edit_count)).

Definition deletes_of (plan : Plan) : option (gset Z) :=
  match edits plan !! 0 with Some e => Some (deletes e) | None => None end.

(** An error leaves the plan as it was: [record_delete] returns none. *)
Definition record_delete_rejects_beyond_cap : bool :=
  make_plan_with_one_blob MAX_EDITS_PER_STATEMENT (fun plan =>
  let rid := from_absolute 0 0 in
  err_and (record_delete plan rid) (fun e => match e with SchemaMismatch msg => has "MAX_EDITS_PER_STATEMENT" msg | _ => false end)
  && (edit_count plan =? MAX_EDITS_PER_STATEMENT) && bool_decide (default ∅ (deletes_of plan) = ∅)).

Definition record_update_rejects_beyond_cap : bool :=
  make_plan_with_one_blob MAX_EDITS_PER_STATEMENT (fun plan =>
  let rid := from_absolute 0 0 in
  err_and (record_update plan rid (mkRowOverride [None; None])) (fun e => match e with SchemaMismatch _ => true | _ => false end)
  && (edit_count plan =? MAX_EDITS_PER_STATEMENT)).

Definition record_delete_increments_count : bool :=
  make_plan_with_one_blob 0 (fun plan =>
  (edit_count plan =? 0) &&
  unwrap_and (foldM (fun plan i => record_delete plan (from_absolute 0 i)) plan (seqZ 0 5)) (fun plan =>
  (edit_count plan =? 5) && match deletes_of plan with Some d => (size d =? 5)%nat | None => false end)).

Definition reject_partition_update_errors_when_set_touches_partition_col : bool :=
  let names := map lit ["year"; "region"; "v"]%string in
  err_and (reject_partition_update [1%nat] [0%nat; 1%nat] names) (fun e =>
    match e with SchemaMismatch msg => has "cannot UPDATE partition column 'region'" msg && has "DELETE + INSERT" msg | _ => false end).

Definition reject_partition_update_passes_when_storage_only : bool :=
  let names := map lit ["year"; "region"; "v"]%string in
  unwrap_and (reject_partition_update [2%nat] [0%nat; 1%nat] names) (fun _ => true).

Lemma update_pass : forallb id
  [record_delete_rejects_beyond_cap; record_update_rejects_beyond_cap; record_delete_increments_count;
   reject_partition_update_errors_when_set_touches_partition_col; reject_partition_update_passes_when_storage_only] = true.
Proof. vm_compute. reflexivity. Qed.
End UpdateTests.

(** ** [src/fdw/modify/insert.rs] *)

Module InsertTests.
Local Existing Instance ref_arrow.
Local Existing Instance ref_parquet.

Definition options_of (filename : string) (cols : list str) (keys : Declared) : TableOptions :=
  mkTableOptions "c" (lit filename) Snappy None cols keys [] false.

Definition pick_target_layout_glob_strips_star_and_trailing_slash : bool :=
  let opts := options_of "events/year=2026/*" [lit "year"] [(lit "year", PInt4)] in
  let '(prefix, literal) := pick_target_layout opts in
  assert_eq prefix (lit "events/year=2026") && assert_eq literal None.

Definition pick_target_layout_literal_preserves_full_name : bool :=
  let opts := options_of "dir/one.parquet" [] [] in
  let '(prefix, literal) := pick_target_layout opts in
  assert_eq prefix (lit "dir") && assert_eq literal (Some (lit "dir/one.parquet")).

Abbreviation State := (InsertState (Y := ref_bytes) (A := ref_arrow) (Q := ref_parquet)).

Definition make_stub_state (base_prefix : string) (legacy : option string) (decls : Declared) (f : State -> bool) : bool :=
  unwrap_and make_test_client (fun client =>
  f (mkInsert [mkField "v" Int32 true] [] client Snappy [] decls (lit base_prefix) (lit <$> legacy) ∅ ∅ ∅ ∅)).

(** The clock and the uuid source of [generate_blob_name]. *)
Definition fresh : Fresh := mkFresh "20260101T000000Z" (ref_uuid 0%nat).

Definition compute_target_name_partitioned_emits_key_eq_val_segments : bool :=
  make_stub_state "events" None [(lit "year", PInt4); (lit "region", PText)] (fun state =>
  let name := compute_target_name state fresh (mkKey [lit "2026"; lit "us"]) in
  starts_with "events/year=2026/region=us/" name && ends_with ".parquet" name).

Definition compute_target_name_empty_key_reuses_literal_when_present : bool :=
  make_stub_state "dir" (Some "dir/one.parquet"%string) [] (fun state =>
  assert_eq (compute_target_name state fresh (mkKey [])) (lit "dir/one.parquet")).

Definition compute_target_name_empty_key_glob_synthesizes_under_prefix : bool :=
  make_stub_state "dir" None [] (fun state =>
  let name := compute_target_name state fresh (mkKey []) in
  starts_with "dir/" name && ends_with ".parquet" name).

Lemma insert_pass : forallb id
  [pick_target_layout_glob_strips_star_and_trailing_slash; pick_target_layout_literal_preserves_full_name;
   compute_target_name_partitioned_emits_key_eq_val_segments; compute_target_name_empty_key_reuses_literal_when_present;
   compute_target_name_empty_key_glob_synthesizes_under_prefix] = true.
Proof. vm_compute. reflexivity. Qed.
End InsertTests.

(** ** [src/fdw/scan.rs] *)

Module ChunkTests.
Definition entry (name : string) (chunk_base_row : Z) (etag : string) : BlobIdEntry := mkEntry (lit name) chunk_base_row (lit etag).

(** [register_chunk_if_boundary] on each row in turn, with a check of the
    table after each. *)
Fixpoint rows_from (fuel : nat) (row : Z) (check : list BlobIdEntry -> bool) (table : list BlobIdEntry) : option (list BlobIdEntry) :=
  match fuel with
  | O => Some table
  | S fuel' =>
      match register_chunk_if_boundary table 0 row with
      | Ok table' => if check table' then rows_from fuel' (row + 1) check table' else None
      | Err _ => None
      end
  end.

Definition all_rows (table : list BlobIdEntry) (check : list BlobIdEntry -> bool) : option (list BlobIdEntry) :=
  rows_from (Z.to_nat CHUNK_ROWS) 0 check table.

Definition some_and {T} (o : option T) (f : T -> bool) : bool := match o with Some x => f x | None => false end.

Definition no_push_within_first_chunk : bool :=
  some_and (all_rows [entry "a.parquet" 0 "e"] (fun t => (length t =? 1)%nat)) (fun _ => true).

Definition push_on_first_emit_into_second_chunk : bool :=
  unwrap_and (register_chunk_if_boundary [entry "a.parquet" 0 "e"] 0 CHUNK_ROWS) (fun table =>
  (length table =? 2)%nat && assert_eq (table !! 1%nat) (Some (entry "a.parquet" CHUNK_ROWS "e"))).

Definition blob_ending_at_chunk_boundary_does_not_overpush : bool :=
  some_and (all_rows [entry "a.parquet" 0 "ea"] (fun _ => true)) (fun t => (length t =? 1)%nat).

Definition two_blobs_first_exactly_chunk_sized_stays_in_sync : bool :=
  some_and (all_rows [entry "a.parquet" 0 "ea"] (fun _ => true)) (fun t =>
  (length t =? 1)%nat &&
  unwrap_and (register_chunk_if_boundary (t ++ [entry "b.parquet" 0 "eb"]) 1 0) (fun t =>
  (length t =? 2)%nat && assert_eq (name <$> t !! 1%nat) (Some (lit "b.parquet")))).

Definition idempotent_on_same_row : bool :=
  unwrap_and (foldM (fun t (_ : unit) => register_chunk_if_boundary t 0 CHUNK_ROWS) [entry "a.parquet" 0 "ea"] [tt; tt; tt])
    (fun t => (length t =? 2)%nat).

Lemma chunk_pass : forallb id
  [no_push_within_first_chunk; push_on_first_emit_into_second_chunk; blob_ending_at_chunk_boundary_does_not_overpush;
   two_blobs_first_exactly_chunk_sized_stays_in_sync; idempotent_on_same_row] = true.
Proof. vm_compute. reflexivity. Qed.
End ChunkTests.
