(* ===== verification/TestsScan.v ===== *)
(** * The repository's unit tests of the scan side, run on the model:
    [src/fdw/pushdown.rs], [src/fdw/pushdown_walk.rs],
    [src/fdw/pg_op_oids.rs], [src/parquet_io/multifile.rs] and
    [src/fdw/parallel.rs].

    One boolean per test function, under the function's name.  Files are
    built and read back by the reference instances: a file of one batch is the
    stream of that batch, an empty one the empty stream. *)

From S2P Require Import Prelude RustStr Utf8 Redact Errors RowId Options Externals Kernel Convert BlobService Store Handoff Coordinator ParquetIO Modify Pushdown PushdownFacts RowFilter PushdownWalk Partition Glob MultiFile MergeFacts Scan ScanPlan Parallel TestsText.
Local Open Scope Z_scope.

#[export] Instance ScalarValueRepr_eq_dec : EqDecision ScalarValueRepr.
Proof. solve_decision. Defined.
#[export] Instance PushedQual_eq_dec : EqDecision PushedQual.
Proof. solve_decision. Defined.

Definition leaf (c : nat) (o : PushedOp) (v : ScalarValueRepr) : PushedExpr := PLeaf (mkQual c o v).
Definition is_leaf (e : PushedExpr) (q : PushedQual) : bool := match e with PLeaf q' => assert_eq q' q | _ => false end.

(** ** [src/fdw/pushdown.rs] *)

Module PushdownTests.
Local Existing Instance ref_arrow.
Local Existing Instance ref_compute.

Definition pushed_op_inverse_round_trips : bool :=
  forallb (fun op => match inverse op with Some inv => assert_eq (inverse inv) (Some op) | None => false end)
    [OpEq; OpNe; OpLt; OpLe; OpGt; OpGe; OpIsNull; OpIsNotNull].

(** The constructors apply: there is nothing to assert. *)
Definition pushed_expr_constructs : bool :=
  let l := leaf 0 OpEq (SI32 5) in
  match PAnd [l], POr [l], PNot l with PAnd _, POr _, PNot _ => true | _, _, _ => false end.

Definition build_row_filter_simple_eq_returns_some : bool :=
  let exprs := [leaf 0 OpEq (SI32 5)] in
  match build_row_filter (A := ref_arrow) exprs, build_row_filter (A := ref_arrow) [] with Some _, None => true | _, _ => false end.

Definition translate_storage_qual_maps_attno_to_parquet_idx : bool :=
  let map := [None; None; Some 0%nat; Some 1%nat] in
  let e := leaf 2 OpEq (SI32 5) in
  match translate_qual_to_parquet_idx e map with Some (PLeaf q) => (col q =? 0)%nat | _ => false end.

Definition translate_partition_qual_returns_none : bool :=
  let map := [None; Some 0%nat] in
  let e := leaf 0 OpEq (SI32 5) in
  match translate_qual_to_parquet_idx e map with Some _ => false | None => true end.

Definition eval_leaf_largeutf8_column_matches_utf8_literal : bool :=
  is_pushable "=" LargeUtf8 &&
  let col := (LargeUtf8, [Some (VUtf8 "a"); Some (VUtf8 "b"); Some (VUtf8 "a")]) : RefArray in
  let schema := [mkField "s" LargeUtf8 false] in
  unwrap_and (try_new (ArrowApi := ref_arrow) schema [col]) (fun batch =>
  let e := leaf 0 OpEq (SUtf8 "a") in
  unwrap_and (eval (A := ref_arrow) e batch Some) (fun out => assert_eq out [Some true; Some false; Some true])).

Lemma pushdown_pass : forallb id
  [pushed_op_inverse_round_trips; pushed_expr_constructs; build_row_filter_simple_eq_returns_some;
   translate_storage_qual_maps_attno_to_parquet_idx; translate_partition_qual_returns_none;
   eval_leaf_largeutf8_column_matches_utf8_literal] = true.
Proof. vm_compute. reflexivity. Qed.
End PushdownTests.

(** ** [src/fdw/pushdown_walk.rs] *)

Module WalkTests.
Definition walk_quals_null_is_empty : bool := match walk_quals None with [] => true | _ => false end.

Definition pg_to_unix_days_shifts_epoch : bool :=
  assert_eq (pg_to_unix_days 0) (Some 10957) && assert_eq (pg_to_unix_days 2147483647) None.

(** [assert_eq!] on the expected shape. *)
Definition invert_pushed_and_to_or_swaps_ops : bool :=
  let inner := PAnd [leaf 0 OpEq (SI32 1); leaf 1 OpLt (SI32 2)] in
  match invert_pushed inner with
  | Some (POr [x; y]) => is_leaf x (mkQual 0 OpNe (SI32 1)) && is_leaf y (mkQual 1 OpGe (SI32 2))
  | _ => false
  end.

Definition invert_pushed_strips_not : bool :=
  let q := mkQual 0 OpEq (SI32 1) in
  match invert_pushed (PNot (PLeaf q)) with Some e => is_leaf e q | None => false end.

Definition peel_relabel_null_is_null : bool := match peel_relabel NullPtr with NullPtr => true | _ => false end.

Definition like_prefix_literal_accepts_simple_prefix : bool := assert_eq (like_prefix_literal "al%") (Some (lit "al")).
Definition is_none {T} (o : option T) : bool := match o with None => true | Some _ => false end.
Definition like_prefix_literal_rejects_middle_wildcard : bool := is_none (like_prefix_literal "a%b").
Definition like_prefix_literal_rejects_suffix_wildcard : bool := is_none (like_prefix_literal "%al").
Definition like_prefix_literal_rejects_underscore : bool := is_none (like_prefix_literal "a_b%").
Definition like_prefix_literal_rejects_backslash_escape : bool := is_none (like_prefix_literal "a\%%").
Definition like_prefix_literal_rejects_empty_prefix : bool := is_none (like_prefix_literal "%").

Lemma walk_pass : forallb id
  [walk_quals_null_is_empty; pg_to_unix_days_shifts_epoch; invert_pushed_and_to_or_swaps_ops; invert_pushed_strips_not;
   peel_relabel_null_is_null; like_prefix_literal_accepts_simple_prefix; like_prefix_literal_rejects_middle_wildcard;
   like_prefix_literal_rejects_suffix_wildcard; like_prefix_literal_rejects_underscore;
   like_prefix_literal_rejects_backslash_escape; like_prefix_literal_rejects_empty_prefix] = true.
Proof. vm_compute. reflexivity. Qed.
End WalkTests.

(** ** [src/parquet_io/multifile.rs] *)

Module MergeTests.
Local Existing Instance ref_arrow.
Local Existing Instance ref_pg.
Local Existing Instance ref_heap.

Abbreviation Stream := (list (Result str (list RefArray))).
Abbreviation Merger := (MultiFileSortedStream (A := ref_arrow)).

(** A file of one [id] column, and its stream. *)
Definition build_int_blob (ids : list Z) : list (list RefArray) :=
  match ids with [] => [] | _ => [[(Int64, map (fun z => Some (VI64 z)) ids)]] end.
Definition open_int_stream (bytes : list (list RefArray)) : Stream := map Ok bytes.
Definition new (streams : list Stream) (names : list str) : FdwResult Merger := merge_new (A := ref_arrow) streams names [0%nat].

(** The message of an order error shows the keys; no test reads them. *)
Definition next (m : Merger) : FdwResult (option (list RefArray * nat) * Merger) := mf_next_row (A := ref_arrow) (fun _ => []) m.

Definition value_at (b : list RefArray) (row : nat) : option Z :=
  match b with (_, cells) :: _ => match mjoin (cells !! row) with Some (VI64 z) => Some z | _ => None end | _ => None end.

(** [while let Some((batch, row)) = merger.next_row()]. *)
Fixpoint collect (fuel : nat) (m : Merger) : option (list (option Z)) :=
  match fuel with
  | O => None
  | S fuel' =>
      match next m with
      | Ok (Some (b, row), m') => cons (value_at b row) <$> collect fuel' m'
      | Ok (None, _) => Some []
      | Err _ => None
      end
  end.

Definition key_lt (a b : SortKeyValue) : bool := assert_eq (sort_key_cmp a b) Lt.
Definition key_eq (a b : SortKeyValue) : bool := assert_eq (sort_key_cmp a b) Eq.

Definition sort_key_nulls_last : bool :=
  key_lt (SKI64 9223372036854775807) SKNull && key_lt (SKI64 0) SKNull && key_eq SKNull SKNull.

Definition sort_key_ordering_within_type : bool := key_lt (SKI64 1) (SKI64 2) && key_lt (SKUtf8 "a") (SKUtf8 "b").

(** [f64::NAN] by its bits. *)
Definition sort_key_ord_eq_consistent_for_nan : bool := let nan := SKF64 0x7FF8000000000000 in key_eq nan nan.

Definition happy_path_three_blobs_merged : bool :=
  unwrap_and (new [open_int_stream (build_int_blob [1; 4; 7]); open_int_stream (build_int_blob [2; 5; 8]); open_int_stream (build_int_blob [3; 6; 9])]
                (map lit ["a.parquet"; "b.parquet"; "c.parquet"]%string)) (fun merger =>
  assert_eq (collect 10 merger) (Some (map Some (seqZ 1 9)))).

Definition invariant_violation_raises : bool :=
  unwrap_and (new [open_int_stream (build_int_blob [5; 3]); open_int_stream (build_int_blob [10])]
                (map lit ["bad.parquet"; "good.parquet"]%string)) (fun merger =>
  unwrap_and (next merger) (fun r =>
  err_and (next r.2) (fun e => has "bad.parquet" (display e)))).

Definition empty_blob_in_mix_is_ok : bool :=
  unwrap_and (new [open_int_stream (build_int_blob []); open_int_stream (build_int_blob [42])]
                (map lit ["empty.parquet"; "one.parquet"]%string)) (fun merger =>
  unwrap_and (next merger) (fun r =>
  match r.1 with Some (b, row) => assert_eq (value_at b row) (Some 42) | None => false end
  && unwrap_and (next r.2) (fun r => match r.1 with None => true | Some _ => false end))).

Definition k_cap_exceeded_errors_at_construction : bool :=
  let bytes := build_int_blob [1] in
  let names := map (fun i => "b" ++ show_Z i ++ lit ".parquet") (seqZ 0 257) in
  err_and (new (map (fun _ => open_int_stream bytes) names) names) (fun e => has "256" (display e)).

Lemma merge_pass : forallb id
  [sort_key_nulls_last; sort_key_ordering_within_type; sort_key_ord_eq_consistent_for_nan; happy_path_three_blobs_merged;
   invariant_violation_raises; empty_blob_in_mix_is_ok; k_cap_exceeded_errors_at_construction] = true.
Proof. vm_compute. reflexivity. Qed.
End MergeTests.

(** ** [src/fdw/parallel.rs] *)

Module ParallelTests.
Definition pair_of (ne : string * string) : str * str := (lit ne.1, lit ne.2).
Definition sample_blobs : BlobList :=
  map pair_of [("data/a.parquet", "etag-a"); ("data/b.parquet", "etag-b"); ("data/c.parquet", "etag-c");
               ("data/d.parquet", "etag-d"); ("data/e.parquet", "etag-e")]%string.

(** A zeroed buffer of the size asked for, filled; [None] is a write outside
    it. *)
Definition serialized (blobs : BlobList) : option Dsm :=
  let size := dsm_size_for blobs in
  dsm_serialize_blobs (mkDsm (mkHeader 0 0 0) (replicate (Z.to_nat (size - header_size)) (byte_of 0))) size blobs.

Definition attached (d : Dsm) (f : BlobList -> bool) : bool :=
  match dsm_deserialize_blobs d with Some r => unwrap_and r f | None => false end.

Definition with_dsm (blobs : BlobList) (f : Dsm -> bool) : bool :=
  match serialized blobs with Some d => f d | None => false end.

Definition dsm_size_matches_payload : bool :=
  let blobs := sample_blobs in
  let payload := foldr Z.add 0 (map (fun b => 8 + Z.of_nat (length b.1) + Z.of_nat (length b.2)) blobs) in
  dsm_size_for blobs =? header_size + payload.

Definition round_trip_preserves_blobs : bool :=
  with_dsm sample_blobs (fun d => attached d (fun got => assert_eq got sample_blobs)).

(** Workers taking turns on the shared cursor: each asks for a blob, and the
    round is repeated until one finds nothing for all of them. *)
Fixpoint one_round (workers : list Ranges) (shared : Z) : Z * list str :=
  match workers with
  | [] => (shared, [])
  | w :: ws =>
      let '(_, shared1, b) := next_blob w shared in
      let '(shared2, got) := one_round ws shared1 in
      (shared2, match b with Some ne => ne.1 :: got | None => got end)
  end.

Fixpoint rounds (fuel : nat) (workers : list Ranges) (shared : Z) : list str :=
  match fuel with
  | O => []
  | S fuel' => let '(shared', got) := one_round workers shared in
               match got with [] => [] | _ => got ++ rounds fuel' workers shared' end
  end.

Definition name_before (a b : str) : Prop := str_leb a b = true.
#[export] Instance name_before_dec : RelDecision name_before.
Proof. intros a b. unfold name_before. apply _. Defined.
Definition sorted_names (l : list str) : list str := merge_sort name_before l.

Definition parallel_ranges_yields_each_blob_once : bool :=
  with_dsm sample_blobs (fun d => attached d (fun a => attached d (fun b =>
  assert_eq (sorted_names (rounds 6 [ParallelRanges a; ParallelRanges b] (dsm_cursor (header d))))
            (sorted_names (map fst sample_blobs))))).

(** Four workers over a hundred blobs, in one of the schedules the threads
    may take; every schedule is the subject of [ParallelScan]. *)
Definition parallel_ranges_concurrent_workers_are_exclusive : bool :=
  let blobs := map (fun i => ("b/" ++ show_Z i ++ lit ".parquet", "e" ++ show_Z i)) (seqZ 0 100) in
  with_dsm blobs (fun d => attached d (fun local =>
  let got := rounds 101 (replicate 4 (ParallelRanges local)) (dsm_cursor (header d)) in
  (length got =? 100)%nat && assert_eq (sorted_names got) (sorted_names (map fst blobs)))).

(** Five workers in turn, ten calls each. *)
Definition parallel_ranges_single_blob_five_workers : bool :=
  let blobs := [pair_of ("only.parquet", "e")%string] in
  with_dsm blobs (fun d => attached d (fun b =>
  let '(_, hits) := one_round (replicate (5 * 10) (ParallelRanges b)) (dsm_cursor (header d)) in
  (length hits =? 1)%nat)).

Definition empty_blob_list_round_trip : bool :=
  with_dsm [] (fun d => attached d (fun got => match got with [] => true | _ => false end) && (n_blobs (header d) =? 0)).

Lemma parallel_pass : forallb id
  [dsm_size_matches_payload; round_trip_preserves_blobs; parallel_ranges_yields_each_blob_once;
   parallel_ranges_concurrent_workers_are_exclusive; parallel_ranges_single_blob_five_workers; empty_blob_list_round_trip] = true.
Proof. vm_compute. reflexivity. Qed.
End ParallelTests.
