(* ===== verification/Sql.v ===== *)
(** * Whole statements on the model: [src/lib.rs]'s in-process harness.

    The [pg_test]s of [src/lib.rs] run SQL against the extension with a
    container served in the process.  This file is what stands between their
    SQL text and the callbacks of the model, all of it executable: the
    catalog the CREATE statements leave behind (each option list passed to
    the validator first), and the executor's part of SELECT, INSERT, UPDATE
    and DELETE, which calls the planner and executor callbacks in the order
    Postgres does and evaluates the WHERE clause on the slots they fill.  The
    crates are the reference instances; the reader computes the statistics of
    a footer from the batches of the file. *)

From S2P Require Import Prelude RustStr Utf8 Redact Errors RowId Options Catalog Externals Kernel Convert BlobService Store Handoff Coordinator ParquetIO Modify Pushdown PushdownFacts RowFilter PushdownWalk Partition Glob MultiFile MergeFacts Scan ScanFacts ScanClaims ScanPlan SelectDemo Planner Parallel Insert.
Local Open Scope Z_scope.

#[local] Existing Instance ref_bytes.
#[local] Existing Instance ref_arrow.
#[local] Existing Instance ref_parquet.
#[local] Existing Instance ref_pg.
#[local] Existing Instance ref_compute.
#[local] Existing Instance ref_heap.
#[local] Existing Instance ref_uuid.
#[local] Existing Instance ref_roaring.
#[local] Existing Instance ref_regex.
#[local] Existing Instance ref_blob.

(** ** The container and its reader *)

Abbreviation Files := (gmap str (str * RefFile)).
Abbreviation Backend := (World (Y := ref_bytes) ref_blob).

Definition files (w : Backend) : Files := w_svc w.

(** Least and greatest value, when there is one. *)
Definition z_values (cells : list cell) : list Z := omap (fun c => match c with Some (VI64 z) | Some (VI32 z) | Some (VI16 z) => Some z | _ => None end) cells.
Definition s_values (cells : list cell) : list str := omap (fun c => match c with Some (VUtf8 s) => Some s | _ => None end) cells.
Definition least {T} (le : T -> T -> bool) (l : list T) : option T :=
  match l with [] => None | x :: l => Some (foldr (fun y acc => if le y acc then y else acc) x l) end.

Definition column_stats (a : RefArray) : ColumnChunk :=
  let zs := z_values a.2 in
  let ss := s_values a.2 in
  mkChunk
    (match a.1 with
     | Int64 => Some (PqInt64 (least Z.leb zs) (least Z.geb zs))
     | Int32 | Int16 => Some (PqInt32 (least Z.leb zs) (least Z.geb zs))
     | Utf8 => Some (PqByteArray (least str_leb ss) (least (fun a b => str_leb b a) ss))
     | _ => None
     end)
    (Some (Z.of_nat (length (List.filter is_null_cell a.2)))) (Z.of_nat (length a.2)).

(** One row group per batch; the schema is the columns' types. *)
Definition file_api (c : Files) : ParquetScanApi :=
  let store nm := '(_, (_, bs)) ← c !! nm; Some (map (map column_stats) bs, bs) in
  {| ScanBuilder := ScanBuilder (ParquetScanApi := ref_files store);
     builder_new := builder_new (ParquetScanApi := ref_files store);
     builder_metadata := builder_metadata (ParquetScanApi := ref_files store);
     builder_footer_schema := builder_footer_schema (ParquetScanApi := ref_files store);
     builder_schema b := match b.2 with [] => [] | g :: _ => map (fun a : RefArray => mkField [] a.1 true) g end;
     builder_build := builder_build (ParquetScanApi := ref_files store) |}.

Definition footer_rows (c : Files) (nm : str) : FdwResult Z :=
  '(_, (_, bs)) ← ok_or (c !! nm) (Parquet "not found"); Ok (Z.of_nat (total_rows bs)).

(** ** CREATE SERVER, CREATE USER MAPPING, CREATE FOREIGN TABLE *)

(** Scheme and host of [scheme://host[:port][/...]]. *)
Definition url_host (s : str) : str := hd s (split_on ":" (hd s (split_on "/" (hd s (split_on "?" s))))).
Definition parse_url (s : str) : Result str Url :=
  match split_once ":" s with
  | Some (scheme, rest) =>
      match strip_prefix "//" rest with
      | Some auth => Ok (mkUrl scheme (Some (url_host auth)))
      | None => Err (lit "relative URL without a base")
      end
  | None => Err (lit "relative URL without a base")
  end.

Abbreviation OptionList := (list (str * str)).

Definition option_defs (l : OptionList) : DefList := Some (map (fun kv => Some (mkDefElem kv.1 (Some kv.2))) l).

(** The validator's verdict on a CREATE statement. *)
Definition create (c : Catalog) (l : OptionList) : FdwResult unit :=
  validate parse_url (as_text_array (option_defs l)) c.

Record Table := mkTable { t_attrs : list PgAttribute; t_options : OptionList }.

(** The catalog after a server, a mapping for the current user and the tables
    were created, in this order; tables are numbered from [16400]. *)
Definition create_all (server um : OptionList) (tables : list Table) : FdwResult PgCatalog :=
  _ ← create ForeignServerRelationId server;
  _ ← create UserMappingRelationId um;
  _ ← foldM (fun (_ : unit) t => create ForeignTableRelationId (t_options t)) tt tables;
  Ok (mkPgCatalog
    (fun relid => t ← (if relid <? 16400 then None else tables !! Z.to_nat (relid - 16400)); Some (mkForeignTable 7 (option_defs (t_options t))))
    (fun oid => if oid =? 7 then Some (mkForeignServer 7 "az" (option_defs server)) else None)
    10
    (fun user oid => if (user =? 10) && (oid =? 7) then Some (mkUserMappingRow (option_defs um)) else None)).

(** ** The executor *)

(** The SDK accepts every client. *)
Definition any_client : ClientEnv := mkClientEnv (fun _ => None) (Ok tt) (fun _ _ _ => Ok tt) (fun _ => Ok tt) (fun _ _ => Ok tt).

(** A slot's columns as the values the clause is evaluated on. *)
Definition cell_of_datum (oid : Z) (d : option Datum) : cell :=
  match d with
  | Some (DText s) => Some (VUtf8 s)
  | Some (DWord w) => if oid =? INT8OID then Some (VI64 (as_i64 w)) else if oid =? INT4OID then Some (VI32 (as_i32 w)) else None
  | _ => None
  end.

Definition slot_row (attrs : list PgAttribute) (vals : list (option Datum)) : Row :=
  fun i => att ← attrs !! i; cell_of_datum (atttypid att) (mjoin (vals !! i)).

(** The clauses as Postgres evaluates them: under the C collation, and with
    the operators between [bigint] and [integer] that the walker has no rows
    for ([int84eq] 416, [int84lt] 418, [int84gt] 419). *)
Definition int84 (opno : Z) (args : option (list Node)) (row : nat -> cell) : option bool :=
  match args with
  | Some [Var attno _ _; Const ty false (CDatum (DWord w))] =>
      match row (Z.to_nat (attno - 1)) with
      | Some (VI64 x) =>
          if negb (ty =? INT4OID) then None
          else if opno =? 416 then Some (x =? as_i32 w)
          else if opno =? 418 then Some (x <? as_i32 w)
          else if opno =? 419 then Some (as_i32 w <? x)
          else None
      | _ => None
      end
  | _ => None
  end.

Definition sql_sem : PgSem := {|
  collate := collate (PgSem := ref_sem);
  deterministic := deterministic (PgSem := ref_sem);
  like_match := like_match (PgSem := ref_sem);
  opaque_truth n row := match n with OpExpr opno _ args => int84 opno args row | _ => None end |}.

Definition qualifies (attrs : list PgAttribute) (quals : list Node) (sl : Scan.Slot) : bool :=
  forallb (fun n => bool_decide (pg_eval (S := sql_sem) (slot_row attrs (tts_values sl)) n = Some true)) quals.

Section Statement.
Context (db : PgCatalog) (relid : Z) (attrs : list PgAttribute) (multifile : bool).

(** Plan and run the scan: the columns the query reads, its clauses; the
    slots the clauses accept. *)
Definition run_scan (is_select : bool) (reads : list Z) (quals : list Node) (wh : Backend * Handoff)
    : FdwResult ((Backend * Handoff) * list Scan.Slot) :=
  let '(w, h) := wh in
  let rel := @mkRel ref_planner relid (Some (list_to_set reads : gset Z)) [] in
  private ← ok_or (get_foreign_plan 100 (Some (if is_select then CMD_SELECT else CMD_UPDATE)) (Some rel)) (RustPanic "fuel");
  let node := mkNode (read_all_options parse_url db relid) attrs private (Some quals) multifile is_select in
  match begin_foreign_scan (SA := file_api (files w)) any_client node relid false (-1) (files w, h) with
  | ((s', h'), Ok (Some st)) =>
      out ← ok_or (scan_all (SA := file_api (files w)) no_debug 1000 st 0 (map (fun _ => None) attrs)) (RustPanic "fuel");
      '(_, _, slots) ← out;
      Ok ((mkWorld (B := ref_blob) s' (w_active w) (w_uuids w) (w_notices w), h'), List.filter (qualifies attrs quals) slots)
  | (_, Ok None) => Err (RustPanic "no scan state")
  | (_, Err e) => Err e
  end.

(** SELECT: the rows of the result, each column a datum or NULL. *)
Definition select (reads : list Z) (quals : list Node) (wh : Backend * Handoff) : FdwResult ((Backend * Handoff) * list (list (option Datum))) :=
  '((w, h), slots) ← run_scan true reads quals wh;
  h' ← (end_foreign_scan relid h).2 ≫= (fun _ : unit => Ok (end_foreign_scan relid h).1);
  Ok ((w, h'), map tts_values slots).

Definition commit (w : Backend) : Backend := xact_cb XACT_EVENT_COMMIT w.

(** INSERT of rows, each under the clock and uuid its callback draws. *)
Definition insert (rows : list (Fresh * list (Datum * bool))) (wh : Backend * Handoff) : FdwResult (Backend * Handoff) :=
  match begin_foreign_modify false CMD_INSERT "INSERT"
          (insert_build_state any_client (read_all_options parse_url db relid) attrs) (fun _ => mret (mkPlan [] ∅ [] [] [] (mkClient [] [] []) Snappy false 0 0)) wh with
  | ((w, h), Ok (Some st)) =>
      st ← foldM (fun s r => exec_foreign_insert id (Some s) r.1 r.2) st rows;
      match end_foreign_modify id (fun _ => []) false (Some st) w with
      | (w', Ok _) => Ok (commit w', h)
      | (_, Err e) => Err e
      end
  | (_, Ok None) => Err (RustPanic "no modify state")
  | (_, Err e) => Err e
  end.

(** The ctid travels as junk column 3 of the plan slot. *)
Definition plan_slot (sl : Scan.Slot) : PlanSlot := mkPlanSlot [] (fun _ => (false, tts_tid sl)).

(** UPDATE and DELETE: the scan is set up first, its rows are recorded one by
    one, and the commit follows the last.  [set_cols] are the SET columns,
    [new_tuple] the tuple the executor forms for a row. *)
Definition modify (cmd : CmdType) (set_cols : list nat) (new_tuple : list (option Datum) -> list (Datum * bool)) (quals : list Node) (wh : Backend * Handoff)
    : FdwResult (Backend * Handoff) :=
  '((w, h), slots) ← run_scan false [1] quals wh;
  match begin_foreign_modify false cmd "MODIFY" (Err (RustPanic "INSERT"))
          (build_plan any_client relid (read_all_options parse_url db relid) (footer_rows (files w)) attrs set_cols (Targetlist 3)) (w, h) with
  | ((w, h), Ok (Some st)) =>
      st ← foldM (fun s sl => match cmd with
                              | CMD_DELETE => delete_callback (Some s) (plan_slot sl)
                              | _ => update_callback (Some s) (new_tuple (tts_values sl)) (plan_slot sl)
                              end) st slots;
      match end_foreign_modify id (fun _ => []) false (Some st) w with
      | (w', Ok _) => Ok (commit w', (end_foreign_scan relid h).1)
      | (_, Err e) => Err e
      end
  | (_, Ok None) => Err (RustPanic "no modify state")
  | (_, Err e) => Err e
  end.
End Statement.
