(* ===== verification/TestsSql.v ===== *)
(** * The [pg_test]s of [src/lib.rs], run on the model.

    One boolean per test, under the function's name, over [Sql]'s statements:
    the validator, the catalog, the planner and executor callbacks, the
    service and the files all take part.  Left out are the tests whose subject
    is Postgres (EXPLAIN output, RETURNING, BEGIN and ROLLBACK inside an SPI
    call, the two ignored or environment-dependent ones).

    What an aggregate computes from the rows of a result is written out here:
    a count is their number, a sum and a maximum are taken over the column. *)

From S2P Require Import Prelude RustStr Utf8 Redact Errors RowId Options Catalog Externals Kernel Convert BlobService Store Handoff Coordinator ParquetIO Modify Pushdown PushdownFacts RowFilter PushdownWalk Partition Glob MultiFile MergeFacts Scan ScanFacts ScanClaims ScanPlan SelectDemo Planner Parallel Insert ImportSchema Sql TestsText.
Local Open Scope Z_scope.

#[local] Existing Instance ref_bytes.
#[local] Existing Instance ref_arrow.
#[local] Existing Instance ref_parquet.
#[local] Existing Instance ref_blob.

(** ** Fixtures: [src/test_harness/mod.rs] *)

Definition id_name_schema : Schema := [mkField "id" Int64 false; mkField "name" Utf8 false].
Definition id_name_columns (ids : list Z) (names : list str) : list RefArray :=
  [(Int64, map (fun z => Some (VI64 z)) ids); (Utf8, map (fun s => Some (VUtf8 s)) names)].

(** [ParquetBatchWriter] over the reference files. *)
Definition new_writer (schema : Schema) : FdwResult RefWriter := writer_new schema Snappy.
Definition write (w : RefWriter) (b : list RefArray) : FdwResult RefWriter := writer_write w b.
Definition finish (w : RefWriter) : FdwResult RefFile := writer_finish w.
Definition new_batch (schema : Schema) (cols : list RefArray) : FdwResult (list RefArray) := map_err Arrow (try_new (ArrowApi := ref_arrow) schema cols).

Definition build_simple_parquet (ids : list Z) (names : list str) : FdwResult RefFile :=
  batch ← new_batch id_name_schema (id_name_columns ids names);
  w ← new_writer id_name_schema;
  w ← write w batch;
  finish w.

(** Three batches, each flushed to a row group of its own. *)
Definition build_multi_rowgroup_parquet : FdwResult RefFile :=
  w ← new_writer id_name_schema;
  w ← foldM (fun w base =>
        let ids := seqZ base 4 in
        let names := map (fun i => "n" ++ show_Z i) ids in
        batch ← new_batch id_name_schema (id_name_columns ids names);
        write w batch) w [0; 100; 200];
  finish w.

(** [fake.put_blob]. *)
Definition put_blob (name : str) (bytes : FdwResult RefFile) (c : Files) : FdwResult Files :=
  b ← bytes; Ok (<[name := (next_etag (Y := ref_bytes) (c !! name), b)]> c).

Definition start (c : Files) : Backend * Handoff := (mkWorld (B := ref_blob) c None 0 [], ∅).

(** ** CREATE statements *)

Definition opts (l : list (string * string)) : OptionList := map (fun kv => (lit kv.1, lit kv.2)) l.

Definition fake_server : OptionList :=
  opts [("account_name", "fakeaccount"); ("endpoint", "blob.core.windows.net"); ("auth_method", "sas_url")]%string.

(** [fake.sas_url(container)] of a server on a local port. *)
Definition fake_mapping (container : string) : OptionList := [(lit "sas_url", "http://127.0.0.1:39873/" ++ lit container ++ lit "?sv=fake")].

Definition bigint (name : string) (n : Z) : PgAttribute := mkAttr (Some (lit name)) INT8OID false false n.
Definition text (name : string) (n : Z) : PgAttribute := mkAttr (Some (lit name)) TEXTOID false false n.
Definition id_name : list PgAttribute := [bigint "id" 1; text "name" 2].

Definition table_in (attrs : list PgAttribute) (container filename : string) (more : list (string * string)) : Table :=
  mkTable attrs (opts ([("container"%string, container); ("filename"%string, filename)] ++ more)).

Definition install_objects (container filename : string) : FdwResult PgCatalog :=
  create_all fake_server (fake_mapping container) [table_in id_name container filename []].

Definition install_insert_objects (container write_filename read_filename : string) : FdwResult PgCatalog :=
  create_all fake_server (fake_mapping container) [table_in id_name container write_filename []; table_in id_name container read_filename []].

Definition install_sorted_objects (container filename : string) : FdwResult PgCatalog :=
  create_all fake_server (fake_mapping container)
    [table_in id_name container filename [("sorted", "id"); ("files_in_order", "true")]%string].

(** ** Reading results *)

Abbreviation Rows := (list (list (option Datum))).

Definition int_at (i : nat) (r : list (option Datum)) : option Z := match mjoin (r !! i) with Some (DWord w) => Some (as_i64 w) | _ => None end.
Definition text_at (i : nat) (r : list (option Datum)) : option str := match mjoin (r !! i) with Some (DText s) => Some s | _ => None end.

Definition count (rows : Rows) : Z := Z.of_nat (length rows).
Definition sum (i : nat) (rows : Rows) : Z := foldr Z.add 0 (omap (int_at i) rows).
Definition max (i : nat) (rows : Rows) : option Z := least Z.geb (omap (int_at i) rows).
(** [ORDER BY] of a text column. *)
Definition text_before (a b : str) : Prop := str_leb a b = true.
#[export] Instance text_before_dec : RelDecision text_before.
Proof. intros a b. unfold text_before. apply _. Defined.
Definition texts (i : nat) (rows : Rows) : list str := merge_sort text_before (omap (text_at i) rows).
Definition ints (i : nat) (rows : Rows) : list Z := omap (int_at i) rows.

(** A SELECT on the first table, continued with its rows. *)
Definition query_in (multifile : bool) (db : PgCatalog) (relid : Z) (attrs : list PgAttribute) (reads : list Z) (quals : list Node)
    (wh : Backend * Handoff) (f : Rows -> bool) : bool :=
  unwrap_and (select db relid attrs multifile reads quals wh) (fun r => f r.2).

Definition query (db : PgCatalog) (reads : list Z) (quals : list Node) (wh : Backend * Handoff) (f : Rows -> bool) : bool :=
  query_in true db 16400 id_name reads quals wh f.

(** [id = z] and [id > z] with an integer literal: the operators between
    [bigint] and [integer], which the walker does not push.  [id_eq8] is
    [id = z::bigint], which it does. *)
Definition id_cmp (opno ty z : Z) : Node := OpExpr opno 0 (Some [Var 1 INT8OID 0; Const ty false (CDatum (DWord (as_u64 z)))]).
Definition id_eq (z : Z) : Node := id_cmp 416 INT4OID z.
Definition id_gt (z : Z) : Node := id_cmp 419 INT4OID z.
Definition id_eq8 (z : Z) : Node := id_cmp 410 INT8OID z.

(** A container with the given files, and a table on it. *)
Definition seeded (blobs : list (string * FdwResult RefFile)) (objects : FdwResult PgCatalog) (f : PgCatalog -> Backend * Handoff -> bool) : bool :=
  unwrap_and (foldM (fun c b => put_blob (lit b.1) b.2 c) ∅ blobs) (fun c =>
  unwrap_and objects (fun db => f db (start c))).

Definition strs (l : list string) : list str := map lit l.

(** ** Loading and errors *)

Module CreateTests.
Definition extension_loads : bool := negb (is_err (create ForeignServerRelationId (opts [("account_name", "acct"); ("auth_method", "managed_identity")]%string))).

(** [#[pg_test(error = ..)]]: the message of the error, exactly. *)
Definition refused_with (r : FdwResult unit) (msg : string) : bool := err_and r (fun e => assert_eq (display e) (lit msg)).

Definition invalid_auth_method_rejected : bool :=
  refused_with (create ForeignServerRelationId (opts [("account_name", "acct"); ("auth_method", "bogus")]%string))
    "invalid option: auth_method='bogus'".

Definition account_key_auth_remediated : bool :=
  refused_with (create ForeignServerRelationId (opts [("account_name", "acct"); ("auth_method", "account_key")]%string))
    "invalid option: auth_method='account_key' is not supported by azure_storage_blob 1.0; generate a container SAS client-side and use auth_method='sas_url'".

Definition missing_required_option : bool :=
  refused_with (create ForeignServerRelationId (opts [("account_name", "acct")]%string)) "missing required option: auth_method".

Definition glob_with_dotdot_rejected : bool :=
  refused_with (_ ← create ForeignServerRelationId (opts [("account_name", "acct"); ("auth_method", "sas_url")]%string);
                _ ← create UserMappingRelationId (opts [("sas_url", "https://acct.blob.core.windows.net/cont?sv=x")]%string);
                create ForeignTableRelationId (opts [("container", "cont"); ("filename", "../etc/passwd")]%string))
    "invalid option: filename must not contain '..' path segments".

(** The other arguments are not looked at before the number of sources. *)
Definition import_parquet_azure_explicit_rejects_multi_source : bool :=
  match import_parquet_azure_explicit (SA := file_api ∅) (P := ref_pg) parse_url any_client (fun _ => Ok tt) (fun _ => Ok None) "srv" "public" "tab"
          (strs ["c/a.parquet"; "c/b.parquet"]%string) with
  | Err report => assert_eq (er_message report) (lit "import_parquet_azure_explicit currently supports exactly one source per call")
  | Ok _ => false
  end.

Lemma create_pass : forallb id
  [import_parquet_azure_explicit_rejects_multi_source; extension_loads; invalid_auth_method_rejected; account_key_auth_remediated; missing_required_option; glob_with_dotdot_rejected] = true.
Proof. vm_compute. reflexivity. Qed.
End CreateTests.

(** ** SELECT *)

Module SelectTests.
Definition select_single_blob : bool :=
  seeded [("events.parquet"%string, build_simple_parquet [1; 2; 3; 4] (strs ["a"; "b"; "c"; "d"]%string))]
    (install_objects "test-select-single" "events.parquet") (fun db wh =>
  query db [] [] wh (fun rows => count rows =? 4) && query db [1] [] wh (fun rows => assert_eq (max 0 rows) (Some 4))).

Definition projection_only_selects_one_column : bool :=
  seeded [("events.parquet"%string, build_simple_parquet [10; 20; 30; 40] (strs ["w"; "x"; "y"; "z"]%string))]
    (install_objects "test-select-proj" "events.parquet") (fun db wh =>
  query db [1] [] wh (fun rows => count rows =? 4) && query db [1] [] wh (fun rows => sum 0 rows =? 100)).

Definition select_only_name_column_returns_correct_values : bool :=
  seeded [("events.parquet"%string, build_simple_parquet [10; 20; 30] (strs ["alpha"; "beta"; "gamma"]%string))]
    (install_objects "test-proj-name" "events.parquet") (fun db wh =>
  query db [2] [] wh (fun rows => assert_eq (texts 1 rows) (strs ["alpha"; "beta"; "gamma"]%string))).

Definition select_count_star_works_with_zero_column_projection : bool :=
  seeded [("events.parquet"%string, build_simple_parquet [1; 2; 3; 4; 5] (strs ["a"; "b"; "c"; "d"; "e"]%string))]
    (install_objects "test-proj-count" "events.parquet") (fun db wh =>
  query db [] [] wh (fun rows => count rows =? 5)).

Definition select_star_returns_all_columns : bool :=
  seeded [("events.parquet"%string, build_simple_parquet [7; 8; 9] (strs ["x"; "y"; "z"]%string))]
    (install_objects "test-proj-star" "events.parquet") (fun db wh =>
  query db [1] [] wh (fun rows => sum 0 rows =? 7 + 8 + 9)
  && query db [1; 2] [] wh (fun rows => assert_eq (ints 0 rows) [7; 8; 9] && assert_eq (omap (text_at 1) rows) (strs ["x"; "y"; "z"]%string))).

Definition glob_matches_multiple_blobs : bool :=
  let part (base : Z) := build_simple_parquet (seqZ base 4) (map (fun i => "r" ++ show_Z i) (seqZ base 4)) in
  seeded [("events/part-a.parquet"%string, part 0); ("events/part-b.parquet"%string, part 4); ("events/part-c.parquet"%string, part 8)]
    (install_objects "test-select-glob" "events/*.parquet") (fun db wh =>
  query db [] [] wh (fun rows => count rows =? 12) && query db [1] [] wh (fun rows => assert_eq (max 0 rows) (Some 11))).

Definition pushdown_eq_returns_correct_rows : bool :=
  seeded [("big.parquet"%string, build_multi_rowgroup_parquet)] (install_objects "test-pushdown-eq" "big.parquet") (fun db wh =>
  query db [1] [id_eq 100] wh (fun rows => count rows =? 1)
  && query db [1; 2] [id_eq 100] wh (fun rows => assert_eq (texts 1 rows) [lit "n100"])
  && query db [1] [id_gt 150] wh (fun rows => count rows =? 4)).

Definition row_group_pruning_skips_groups : bool :=
  seeded [("big.parquet"%string, build_multi_rowgroup_parquet)] (install_objects "test-select-rowgroups" "big.parquet") (fun db wh =>
  query db [] [] wh (fun rows => count rows =? 12) && query db [1] [id_gt 100] wh (fun rows => count rows =? 7)).

Definition abc (a b c : string) (ids : list Z) : FdwResult RefFile := build_simple_parquet ids (strs [a; b; c]).

(** [string_agg] without an ORDER BY shows the order of the scan. *)
Definition sorted_select_merges_blobs_globally : bool :=
  seeded [("s/a.parquet"%string, abc "a" "d" "g" [1; 4; 7]); ("s/b.parquet"%string, abc "b" "e" "h" [2; 5; 8]); ("s/c.parquet"%string, abc "c" "f" "i" [3; 6; 9])]
    (install_sorted_objects "test-sorted-merge" "s/*.parquet") (fun db wh =>
  query db [1] [] wh (fun rows => assert_eq (ints 0 rows) (seqZ 1 9))).

Definition enable_multifile_off_still_returns_rows : bool :=
  seeded [("e/a.parquet"%string, abc "a" "b" "c" [1; 2; 3])] (install_sorted_objects "test-enable-multifile-off" "e/*.parquet") (fun db wh =>
  query_in false db 16400 id_name [] [] wh (fun rows => count rows =? 3)).

(** The fixture of the test: columns [a], [b] and [c = 100 a]. *)
Definition three_col (a : list Z) (b : list string) (c : list Z) : FdwResult RefFile :=
  let schema := [mkField "a" Int64 false; mkField "b" Utf8 false; mkField "c" Int64 false] in
  let int64 (l : list Z) : RefArray := (Int64, map (fun z => Some (VI64 z)) l) in
  batch ← new_batch schema [int64 a; (Utf8, map (fun s => Some (VUtf8 (lit s))) b); int64 c];
  w ← new_writer schema;
  w ← write w batch;
  finish w.

Definition sorted_projected_select_returns_correct_columns : bool :=
  let attrs := [bigint "a" 1; text "b" 2; bigint "c" 3] in
  seeded [("p/a.parquet"%string, three_col [1; 3] ["x"; "z"]%string [100; 300]); ("p/b.parquet"%string, three_col [2; 4] ["y"; "w"]%string [200; 400])]
    (create_all fake_server (fake_mapping "test-sorted-proj") [table_in attrs "test-sorted-proj" "p/*.parquet" [("sorted", "a"); ("files_in_order", "true")]%string]) (fun db wh =>
  query_in true db 16400 attrs [1; 3] [] wh (fun rows => assert_eq (combine (ints 0 rows) (ints 2 rows)) [(1, 100); (2, 200); (3, 300); (4, 400)])).

Lemma select_pass : forallb id
  [select_single_blob; projection_only_selects_one_column; select_only_name_column_returns_correct_values;
   select_count_star_works_with_zero_column_projection; select_star_returns_all_columns; glob_matches_multiple_blobs;
   pushdown_eq_returns_correct_rows; row_group_pruning_skips_groups; sorted_select_merges_blobs_globally;
   enable_multifile_off_still_returns_rows; sorted_projected_select_returns_correct_columns] = true.
Proof. vm_compute. reflexivity. Qed.
End SelectTests.

(** ** INSERT *)

Module InsertSqlTests.
(** The rows of a VALUES list, each drawing a clock text and a uuid. *)
Definition rows_of (ids : list Z) (names : list str) : list (Fresh * list (Datum * bool)) :=
  map (fun kzn => (mkFresh ("2026010100000" ++ show_Z (Z.of_nat kzn.1)) (ref_uuid kzn.1),
                   [(DWord (as_u64 kzn.2.1), false); (DText kzn.2.2, false)]))
    (combine (seq 0 (length ids)) (combine ids names)).

(** Insert through the first table, read through the second. *)
Definition round_trip (container write_filename read_filename : string) (ids : list Z) (names : list str) (f : Rows -> bool) : bool :=
  unwrap_and (install_insert_objects container write_filename read_filename) (fun db =>
  unwrap_and (insert db 16400 id_name (rows_of ids names) (start ∅)) (fun wh =>
  query_in true db 16401 id_name [1] [] wh f)).

Definition insert_then_select_round_trip : bool :=
  round_trip "test-insert-roundtrip" "inserts/*" "inserts/*.parquet" [1; 2; 3] (strs ["alice"; "bob"; "carol"]%string)
    (fun rows => (count rows =? 3) && assert_eq (max 0 rows) (Some 3)).

Definition copy_from_stdin_round_trip : bool :=
  round_trip "test-copy-roundtrip" "copies/*" "copies/*.parquet" (seqZ 1 25) (map (fun g => "row-" ++ show_Z g) (seqZ 1 25))
    (fun rows => (count rows =? 25) && (sum 0 rows =? foldr Z.add 0 (seqZ 1 25))).

Lemma insert_sql_pass : forallb id [insert_then_select_round_trip; copy_from_stdin_round_trip] = true.
Proof. vm_compute. reflexivity. Qed.
End InsertSqlTests.

(** ** UPDATE and DELETE *)

Module ModifySqlTests.
Definition setup_two_row_modify (container : string) (f : PgCatalog -> Backend * Handoff -> bool) : bool :=
  seeded [("data.parquet"%string, build_simple_parquet [1; 2] (strs ["a"; "b"]%string))] (install_objects container "data.parquet") f.

(** [SET name = v]: the second column; the others keep their value. *)
Definition set_name (v : string) (vals : list (option Datum)) : list (Datum * bool) :=
  match vals with
  | Some id :: _ => [(id, false); (DText (lit v), false)]
  | _ => [(DWord 0, true); (DText (lit v), false)]
  end.

Definition update_name (db : PgCatalog) (v : string) (quals : list Node) (wh : Backend * Handoff) (f : Backend * Handoff -> bool) : bool :=
  unwrap_and (modify db 16400 id_name true CMD_UPDATE [1%nat] (set_name v) quals wh) f.
Definition delete_rows (db : PgCatalog) (quals : list Node) (wh : Backend * Handoff) (f : Backend * Handoff -> bool) : bool :=
  unwrap_and (modify db 16400 id_name true CMD_DELETE [] (fun _ => []) quals wh) f.

(** [SELECT name FROM t WHERE id = z] is [v]. *)
Definition name_is (db : PgCatalog) (z : Z) (v : string) (wh : Backend * Handoff) : bool :=
  query db [1; 2] [id_eq z] wh (fun rows => assert_eq (omap (text_at 1) rows) [lit v]).

Definition read_etag (wh : Backend * Handoff) (nm : string) : option str :=
  match files wh.1 !! lit nm with Some (e, _) => Some e | None => None end.

Definition pg_update_basic : bool :=
  setup_two_row_modify "pg-upd-basic" (fun db wh =>
  update_name db "new" [id_eq 1] wh (fun wh => name_is db 1 "new" wh && name_is db 2 "b" wh)).

Definition pg_delete_basic : bool :=
  setup_two_row_modify "pg-del-basic" (fun db wh =>
  delete_rows db [id_eq 1] wh (fun wh =>
  query db [] [] wh (fun rows => count rows =? 1) && query db [1] [] wh (fun rows => assert_eq (ints 0 rows) [2]))).

Definition pg_delete_where_false_is_noop : bool :=
  setup_two_row_modify "pg-del-false" (fun db wh =>
  let pre_etag := read_etag wh "data.parquet" in
  delete_rows db [id_eq 99] wh (fun wh =>
  assert_eq pre_etag (read_etag wh "data.parquet") && query db [] [] wh (fun rows => count rows =? 2))).

Definition pg_update_then_select : bool :=
  setup_two_row_modify "pg-upd-then-sel" (fun db wh =>
  update_name db "fresh" [id_eq 1] wh (fun wh => name_is db 1 "fresh" wh &&
  update_name db "also" [id_eq 2] wh (fun wh => name_is db 2 "also" wh && name_is db 1 "fresh" wh))).

Lemma modify_sql_pass : forallb id [pg_update_basic; pg_delete_basic; pg_delete_where_false_is_noop; pg_update_then_select] = true.
Proof. vm_compute. reflexivity. Qed.

(** ** What the literals hide

    The tests compare a [bigint] column with an integer literal, so nothing is
    pushed.  With [::bigint] the walker pushes the comparison: a SELECT still
    answers the same, and prunes the row groups; an UPDATE numbers the rows the
    filter lets through and changes another row than the one it found. *)
Definition pushed_select_finds_the_row : bool :=
  seeded [("big.parquet"%string, build_multi_rowgroup_parquet)] (install_objects "test-pushdown-eq" "big.parquet") (fun db wh =>
  query db [1; 2] [id_eq8 100] wh (fun rows => assert_eq (texts 1 rows) [lit "n100"])).

Definition pushed_update_changes_another_row : bool :=
  setup_two_row_modify "pg-upd-pushed" (fun db wh =>
  update_name db "also" [id_eq8 2] wh (fun wh => name_is db 1 "also" wh && name_is db 2 "b" wh)).

Lemma pushed_pass : forallb id [pushed_select_finds_the_row; pushed_update_changes_another_row] = true.
Proof. vm_compute. reflexivity. Qed.
End ModifySqlTests.
